(* ===== verification/_CoqProject ===== *)
-Q . S2P
Prelude.v
JsRuntime.v
TableSort.v
SharedWidgets.v
Graph.v
NetworkMessages.v
MessagesPage.v
NetworkBlocks.v
DashboardSplits.v
SplitsGraph.v
SplitsService.v
SplitsPage.v
NodeDht.v
DhtLine.v
DhtGraph.v
DhtEqual.v
WorkPool.v
ScanState.v
ScanStateChart.v
StateActions.v
Polling.v
BenchmarksWallets.v
WalletsToolbar.v
MemoryResources.v
MemoryTreemap.v
DateHelper.v
ScanStatePage.v
WonSlots.v
Loading.v
AppConfig.v
AppStore.v
WonSlotsPage.v
NodeSwitcher.v
NodesOverview.v
NodesLive.v
NodesBootstrap.v
BpOverview.v
BpOverviewPage.v
Mempool.v
Dashboard.v
DashboardProgress.v
Fuzzing.v
NetworkConnections.v
NetworkBootstrapStats.v
RouteTables.v
LedgerDevice.v
WebNode.v
