(* ===== verification/Prelude.v ===== *)
(** * The frontend of the Mina Rust node, verified

    The repository's frontend (frontend/src/app) is an Angular application on
    an NgRx store.  Each page is a feature with the same four parts: a reducer
    (a pure function from state and action to state), actions, a service that
    maps the node's JSON answers to the page's types, and effects that turn
    actions into requests and answers into actions.  Pages share the helpers of
    frontend/vendor/mina-rust-shared (table sorting, toggling of filters, dates).

    ** Correspondence

    A JavaScript object with known fields is a Record, updated with
    [r <| f := v |>] where the source spreads it; an action class is a
    constructor carrying its payload; [undefined] is [None]; an enum is an
    Inductive type; a reducer is a function [state -> action -> state], in the
    monad [exec] when it can throw.  Integers are Z, fractional numbers exact
    rationals Q.  A table column is read through the class [Row].

    - Prelude.v: exceptions ([exec]), record update, array operations, stores
      ([run], [reachable_by], [reachable_exec]) and the automation.
    - JsRuntime.v: decimal and BigInt text, padding, JSON values, dates
      (Angular's formatDate is the parameter [DateFormat]).
    - TableSort.v: helpers/array.helper.ts (sort, toggleItem, lastItem,
      removeLast).  Array.prototype.sort is specified as the stable sort, which
      is unique for the comparators used; localeCompare is the interface
      [LocaleCompare] with the laws [LocaleCompareLaws].
    - NetworkMessages.v, module Messages: features/network/messages; reducer
      with virtual-scroll pages and filters, request urls, answer mapping, and
      the polling effects as a step function over user actions, timer ticks,
      answers and errors ([World], [step]).
    - NetworkBlocks.v, module Blocks: features/network/blocks; reducer and
      answer mapping with latencies relative to the first sighting.
    - Graph.v: connected components of a link list, shared by the next two.
    - DashboardSplits.v, module Splits: features/network/splits; the reducer
      that groups peers by a breadth-first traversal over peer references.
    - SplitsService.v, module SplitsService: dashboard-splits.service.ts; random
      network generation, depth-first component search, split and merge.
    - NodeDht.v, module NodeDht: features/network/node-dht; the routing table.
    - WorkPool.v, module WorkPools: features/snarks/work-pool.
    - ScanState.v, module ScanState: features/snarks/scan-state.
    - StateActions.v, module StateActions: features/state/actions; grouping of
      action names and statistics.
    - BenchmarksWallets.v, module Wallets: features/benchmarks/wallets, the
      stress tool: payment and zkApp batches with nonces, random receivers and
      memos, counters of sent and failed transactions, the answers of the send
      and history requests.
    - MemoryResources.v, module Memory: features/resources/memory; the tree of
      allocations with ids and order, breadcrumbs, choices in local storage.
    - DateHelper.v: shared/helpers/date.helper.ts, the text of time distances.
    - WonSlots.v, module WonSlots: features/block-production/won-slots; mapping
      of production attempts, filters and sort, selection of a slot.
    - DhtGraph.v and DhtEqual.v: features/network/dht-graph; the binary tree of
      the peers by minimum-distance-algorithm.ts and by the algorithm the page
      uses, equal-distance-algorithm.ts, which adds labels and equal depths.
    - Loading.v, module Loading: layout/toolbar/loading.reducer.ts, with the
      pending requests of the pages as its specification.
    - AppConfig.v, module AppConfig: shared/constants/config.ts, the menus and
      the form for a new node.
    - AppStore.v, module AppStore: app.reducer.ts, app.service.ts,
      app.effects.ts and the errors; the effects are a step function over the
      dispatched actions, answers and failures ([World], [step]).
    - NodesOverview.v, NodesLive.v, NodesBootstrap.v: features/nodes; the sync
      answers with their ledger steps, the live page with its polling effect,
      the statistics of the bootstrap page.
    - BpOverview.v, module BpOverview: features/block-production/overview; epochs
      and slots, their effects as a step function, colours and positions.
    - Mempool.v, module Mempool: features/mempool and transaction.helper.ts; memos,
      filters and search, the effects as a step function.
    - Dashboard.v, DashboardProgress.v: features/dashboard; the store and the page,
      and the components of the ledgers (estimates, countdown) and of the blocks.
      They use the nodes and ledger steps of NodesOverview.v.
    - Fuzzing.v, module Fuzzing: features/fuzzing; coloured source lines as a list
      of pieces that is rendered, the files and their effects.
    - NetworkConnections.v, NetworkBootstrapStats.v: the two pages of
      features/network with their polling effects.
    - LedgerDevice.v, module LedgerDevice: shared/helpers/ledger.helper.ts; the
      message for the hardware wallet as text and bytes, read back by [readApdu].
    - WebNode.v, module WebNode: core/services/rust.service.ts,
      web-node.service.ts and features/web-node; the start of the web node is a
      step function over reports of the service and ticks of its timers.
    - MessagesPage.v, module MessagesPage: the components of the messages page; the
      catalogue of filters, the address bar written and read back, the footer with
      its pages.  It uses the reducer of NetworkMessages.v.
    - SplitsGraph.v, module SplitsGraph: dashboard-splits-graph.component.ts; the
      Laplacian, the lines, the shapes and the forces of the graph.
    - ScanStateChart.v, module ScanStateChart: scan-state-tree-chart.component.ts;
      the binary heap of jobs built through shared references ([buildLoop] runs
      with one round of fuel per node, which [scan_tree_heap_order] shows to be
      enough), its cells, colours and highlight.
    - SplitsPage.v, module SplitsPage: dashboard-splits.effects.ts; the splits page
      as a step function over the reducer of DashboardSplits.v and the service of
      SplitsService.v.
    - Polling.v, module Polling: the ten effects that poll one request at a time;
      one flow with a policy per effect, the class [Guarded] of policies its lemmas
      are proved for, and the scan state, whose flag is the block requested.
    - DhtLine.v, module DhtLine: network-node-dht-line.component.ts; the peers on a
      line by distance, and what a report of the store redraws.
    - MemoryTreemap.v, module MemoryTreemap: memory-resources-treemap.component.ts
      and the back button; the layout, search and zoom of the treemap.  d3 is the
      class [D3] with the documented [D3Laws], of which [demoD3] is an instance;
      the search runs with the height of the tree as fuel, which
      [findNodeByName_trail] shows to be enough.
    - NodeSwitcher.v, module NodeSwitcher: layout/server-status, layout/node-picker
      and layout/new-node; the toolbar as a step function over the store of
      AppStore.v, whose sessions [toolbar_refines_sessions] shows it to keep to.
    - RouteTables.v, module RouteTables: the table components of nine pages; one flow
      (address, rows, selection, clicks) with a policy per page over the interface
      [TableStore] with its laws [TableLaws], which the reducers of the pages
      implement.
    - WonSlotsPage.v, module WonSlotsPage: the page, filters, cards, heading and side
      panel of features/block-production/won-slots, over WonSlots.v.
    - WalletsToolbar.v, module WalletsToolbar: the two toolbars of
      features/benchmarks/wallets; [setBatch] and [setFee] run with fuel for the
      rounds through their own handlers, of which four and three are enough
      ([toolbar_batch_settles], [toolbar_fee_nonnegative]).
    - ScanStatePage.v, module ScanStatePage: the components of features/snarks/scan-state
      (page, toolbar, list of trees, side panel) around the reducer of ScanState.v and
      the effect of Polling.v, as a step function over clicks, ticks of the timer,
      answers and addresses ([World], [step], [mount], [reopen]).
    - BpOverviewPage.v, module BpOverviewPage: the components of
      features/block-production/overview (page, slots, side panel, toolbar) around the
      store of BpOverview.v; the drawn slots are rectangles with colour and highlight.
    - SharedWidgets.v, module SharedWidgets: the bar graph, the pipes and the JSON
      viewer of the shared library; the loop of the bars runs with one round per
      tick, which [bar_graph_counts] shows to be enough.
    ** What the theorems show

    Invariants over all reachable states (pages of message ids ordered, polling
    flags consistent, displayed blocks match the filters, sets of peers are the
    connected components, slot and mempool filters applied, the requests following
    the active node, the progress of a start); the functional behaviour of the
    mappings and algorithms (sorting, component search, splitting and merging a
    network, grouping of names, counters, distances, latencies, nonces of payment
    batches, texts of time distances, coloured source lines); round trips (memos,
    the message of the hardware wallet, a session reloaded); refinement (the
    loading bar against the set of pending requests); bounds of progress bars and
    statistics, with what the reports of the node must satisfy for them and what is
    shown when they do not; which polls recover from a failure and which stall; when an
    operation throws and when it does not; and the behaviours found to differ
    from what the code intends, each as a theorem about the code as it is.

    ** Fuel

    The traversals are given fuel and the theorems state their results without
    a fuel hypothesis: [bfsFuel] (one plus peers times links: a peer is expanded
    once and pushes at most one entry per link), [searchFuel] (addresses plus
    link ends: the depth of a search that never revisits), and the binary
    logarithm for the digit loop of [getSquareCount] and of [hexOfN].  The generation of a
    network counts down the attempts the source bounds itself.  The recursion of
    [getRandomReceiver], unbounded in the source, has the depth of the engine's
    call stack as a parameter and throws when it is used up.

    ** Not modelled

    Angular templates, the drawing of components, routing (view code), HttpClient,
    the WebAssembly node and the transport of the hardware wallet (input and
    output, parameters here), and the Rust crates.  JavaScript
    numbers are not rounded: sums and quotients are exact.

    ** Left out

    Parts of modelled pages that are not modelled: the epoch graphs of the block
    production overview, the side panel of the network messages, the drop-downs and
    the scrolling of the pages; and of the shared library
    (frontend/vendor/mina-rust-shared) the axes of graphs, the themes, tooltips and
    the selection of intervals.  Widths, tooltips and transitions are computed from
    the rendered document and are left to the browser.
*)

From stdpp Require Export base tactics option list sets strings.
From Stdlib Require Export ZArith QArith Qabs Qround Lia Lqa Permutation Sorted.

#[global] Set Default Goal Selector "!".
Open Scope Z_scope.
Open Scope nat_scope.

(** * JavaScript evaluation: a value or a thrown exception *)

Inductive JsError :=
| TypeError (msg : string)
| RangeError (msg : string)
| SyntaxError (msg : string)
| ErrorMsg (msg : string).

#[export] Instance JsError_eq_dec : EqDecision JsError.
Proof. solve_decision. Defined.

Inductive exec (A : Type) :=
| Ret (a : A)
| Throw (e : JsError).
Arguments Ret {A} a.
Arguments Throw {A} e.

#[export] Instance exec_ret : MRet exec := fun A a => Ret a.
#[export] Instance exec_bind : MBind exec := fun A B f m =>
  match m with Ret a => f a | Throw e => Throw e end.
#[export] Instance exec_fmap : FMap exec := fun A B f m =>
  match m with Ret a => Ret (f a) | Throw e => Throw e end.

Definition exec_ok {A} (m : exec A) : bool :=
  match m with Ret _ => true | Throw _ => false end.

(** Mapping a callback that can throw over an array, left to right. *)
Fixpoint exec_map {A B} (f : A -> exec B) (l : list A) : exec (list B) :=
  match l with
  | [] => Ret []
  | x :: l => y ← f x; ys ← exec_map f l; Ret (y :: ys)
  end.

Lemma exec_bind_Ret {A B} (m : exec A) (f : A -> exec B) b :
  (m ≫= f) = Ret b -> exists a, m = Ret a /\ f a = Ret b.
Proof. destruct m; [eauto | done]. Qed.

Lemma exec_fmap_Ret {A B} (m : exec A) (f : A -> B) b :
  (f <$> m) = Ret b -> exists a, m = Ret a /\ b = f a.
Proof. destruct m as [a|]; [|done]. cbn. intros [= <-]. eauto. Qed.

Lemma exec_map_length {A B} (f : A -> exec B) l ys :
  exec_map f l = Ret ys -> length ys = length l.
Proof.
  revert ys; induction l as [|x l IH]; cbn; intros ys Hys; simplify_eq; [done|].
  apply exec_bind_Ret in Hys as (y & _ & Hys).
  apply exec_bind_Ret in Hys as (ys' & Hl & Hys). simplify_eq. cbn. f_equal. auto.
Qed.

Lemma exec_map_Ret {A B} (f : A -> exec B) (g : A -> B) l :
  (forall x, x ∈ l -> f x = Ret (g x)) -> exec_map f l = Ret (g <$> l).
Proof.
  induction l as [|x l IH]; intros Hf; [done|]. cbn.
  rewrite Hf by set_solver. cbn. rewrite IH; [done|]. set_solver.
Qed.

(** * Functional record update: [{ ...s, f: v }] is [s <| f := v |>]

    A record type registers, once, a copy function written with its own
    constructor and projections; the update of one field abstracts that
    field's projection out of the copy. *)

Class RecordCopy (R : Type) := {
  record_copy : R -> R;
  record_copy_id : forall r, record_copy r = r
}.

Class FieldUpdate {R T : Type} (proj : R -> T) := field_update : (T -> T) -> R -> R.
Arguments field_update {R T} proj {_} _ _.

Ltac solve_field_update R proj :=
  let copy := eval unfold record_copy in (@record_copy R _) in
  let copy := eval hnf in copy in
  let abs := eval pattern proj in copy in
  lazymatch abs with
  | ?g _ => exact (fun f => g (fun r => f (proj r)))
  end.

#[export] Hint Extern 1 (@FieldUpdate ?R _ ?proj) => solve_field_update R proj : typeclass_instances.

Declare Scope js_scope.
Delimit Scope js_scope with js.
Open Scope js_scope.
Notation "r <| f := v |>" := (field_update f (fun _ => v) r)
  (at level 1, left associativity, f constr at level 10, v at level 200) : js_scope.

(** The update of a field is the constructor applied to the other fields, so
    reading any field of an updated record computes. *)
Ltac record_simpl := cbn [field_update record_copy] in *.

(** * Arrays *)

(** [Array.prototype.includes] on a type with decidable equality. *)
Definition includes `{EqDecision A} (l : list A) (x : A) : bool := bool_decide (x ∈ l).

(** [Array.prototype.findIndex]: [None] stands for -1. *)
Fixpoint findIndex {A} (p : A -> bool) (l : list A) : option nat :=
  match l with
  | [] => None
  | x :: l => if p x then Some 0 else S <$> findIndex p l
  end.

(** [arr[0]] and [arr[arr.length - 1]]: [None] stands for [undefined]. *)
Definition firstItem {A} (l : list A) : option A := head l.
Definition lastElem {A} (l : list A) : option A := last l.

(** [Array.prototype.map] with the index argument. *)
Definition mapi {A B} (f : nat -> A -> B) (l : list A) : list B := imap f l.

(** [Array.prototype.slice(0, n)] and [slice(n)] for a natural [n]. *)
Definition sliceTo {A} (n : nat) (l : list A) : list A := take n l.
Definition sliceFrom {A} (n : nat) (l : list A) : list A := drop n l.

(** [Array.from(new Set(arr))]: first occurrences, in order. *)
Fixpoint uniqueFrom `{EqDecision A} (seen l : list A) : list A :=
  match l with
  | [] => []
  | x :: l => if includes seen x then uniqueFrom seen l else x :: uniqueFrom (x :: seen) l
  end.
Definition arrayFromSet `{EqDecision A} (l : list A) : list A := uniqueFrom [] l.

(** [arr.reduce(f)] with no initial value. *)
Definition reduce1 {A} (f : A -> A -> A) (l : list A) : exec A :=
  match l with
  | [] => Throw (TypeError "Reduce of empty array with no initial value")
  | x :: l => Ret (fold_left f l x)
  end.

Definition countIf {A} (p : A -> bool) (l : list A) : nat := length (List.filter p l).

Section ArrayLemmas.
Context {A : Type}.
Implicit Types (p : A -> bool) (l : list A).

Lemma elem_of_list_filter p l x : x ∈ List.filter p l <-> x ∈ l /\ p x = true.
Proof. rewrite !list_elem_of_In. apply List.filter_In. Qed.

Lemma find_Some_iff p l x : List.find p l = Some x -> x ∈ l /\ p x = true.
Proof. rewrite list_elem_of_In. apply List.find_some. Qed.

Lemma find_None_iff p l : List.find p l = None <-> forall x, x ∈ l -> p x = false.
Proof.
  setoid_rewrite list_elem_of_In. split; [apply List.find_none|].
  induction l as [|y l IH]; intros H; [done|]. cbn.
  rewrite (H y) by (left; done). apply IH. intros x Hx. apply H. by right.
Qed.

Lemma findIndex_Some p l i :
  findIndex p l = Some i <->
  (exists x, l !! i = Some x /\ p x = true) /\ forall j x, j < i -> l !! j = Some x -> p x = false.
Proof.
  revert i; induction l as [|y l IH]; intros i; cbn.
  - split; [done|]. intros [(x & Hx & _) _]. done.
  - destruct (p y) eqn:Hy.
    + split.
      * intros [= <-]. split; [eauto|]. lia.
      * intros [(x & Hx & Hp) Hmin]. destruct i as [|i]; [done|].
        specialize (Hmin 0 y ltac:(lia) eq_refl). congruence.
    + rewrite fmap_Some. split.
      * intros (k & Hk & ->). apply IH in Hk as [Hx Hmin]. split; [done|].
        intros [|j] x Hj Hjx; cbn in *; simplify_eq; [done|]. apply (Hmin j); [lia|done].
      * intros [(x & Hx & Hp) Hmin]. destruct i as [|i]; cbn in *; [congruence|].
        exists i. split; [|done]. apply IH. split; [eauto|].
        intros j z Hj Hz. apply (Hmin (S j)); [lia|done].
Qed.

Lemma findIndex_None p l : findIndex p l = None <-> forall x, x ∈ l -> p x = false.
Proof.
  induction l as [|y l IH]; cbn; [set_solver|].
  destruct (p y) eqn:Hy; [split; [done|]|].
  - intros H. specialize (H y ltac:(set_solver)). congruence.
  - rewrite fmap_None, IH. split; [|set_solver].
    intros H x [->|Hx]%elem_of_cons; auto.
Qed.

Lemma filter_true_id p l : (forall x, x ∈ l -> p x = true) -> List.filter p l = l.
Proof.
  induction l as [|y l IH]; intros H; [done|]. cbn. rewrite H by set_solver.
  f_equal. apply IH. set_solver.
Qed.

Lemma filter_false_nil p l : (forall x, x ∈ l -> p x = false) -> List.filter p l = [].
Proof.
  induction l as [|y l IH]; intros H; [done|]. cbn. rewrite H by set_solver.
  apply IH. set_solver.
Qed.

Lemma list_filter_perm p l1 l2 :
  Permutation l1 l2 -> Permutation (List.filter p l1) (List.filter p l2).
Proof.
  induction 1; cbn; repeat case_match; eauto using perm_skip, perm_swap, Permutation_trans.
Qed.

Lemma filter_partition p l :
  Permutation l (List.filter p l ++ List.filter (fun x => negb (p x)) l).
Proof.
  induction l as [|y l IH]; [done|]. cbn. destruct (p y); cbn; [by constructor|].
  rewrite IH at 1. apply Permutation_middle.
Qed.

Lemma countIf_Permutation p l1 l2 : Permutation l1 l2 -> countIf p l1 = countIf p l2.
Proof. intros H. unfold countIf. by rewrite (list_filter_perm p _ _ H). Qed.

Lemma countIf_le p l : countIf p l <= length l.
Proof. apply List.filter_length_le. Qed.

Lemma countIf_cons p x l : countIf p (x :: l) = (if p x then 1 else 0) + countIf p l.
Proof. unfold countIf. cbn. by destruct (p x). Qed.

Lemma countIf_mono p q l : (forall x, p x = true -> q x = true) -> countIf p l <= countIf q l.
Proof.
  intros H. induction l as [|x l IH]; [done|]. rewrite !countIf_cons. specialize (H x).
  destruct (p x), (q x); lia.
Qed.

End ArrayLemmas.

Lemma includes_true `{EqDecision A} (l : list A) x : includes l x = true <-> x ∈ l.
Proof. unfold includes. apply bool_decide_eq_true. Qed.

Lemma includes_false `{EqDecision A} (l : list A) x : includes l x = false <-> x ∉ l.
Proof. unfold includes. apply bool_decide_eq_false. Qed.

Lemma uniqueFrom_elem `{EqDecision A} (seen l : list A) x :
  x ∈ uniqueFrom seen l <-> x ∈ l /\ x ∉ seen.
Proof.
  revert seen; induction l as [|y l IH]; intros seen; cbn; [set_solver|].
  destruct (includes seen y) eqn:E.
  - apply includes_true in E. rewrite IH, elem_of_cons. naive_solver.
  - apply includes_false in E. rewrite !elem_of_cons, IH, elem_of_cons.
    destruct (decide (x = y)); naive_solver.
Qed.

Lemma uniqueFrom_NoDup `{EqDecision A} (seen l : list A) : NoDup (uniqueFrom seen l).
Proof.
  revert seen; induction l as [|y l IH]; intros seen; cbn; [constructor|].
  destruct (includes seen y) eqn:E; [done|]. constructor; [|done].
  rewrite uniqueFrom_elem, elem_of_cons. naive_solver.
Qed.

Lemma arrayFromSet_elem `{EqDecision A} (l : list A) x : x ∈ arrayFromSet l <-> x ∈ l.
Proof. unfold arrayFromSet. rewrite uniqueFrom_elem, elem_of_nil. naive_solver. Qed.

(** * Stores: a reducer folded over the actions dispatched to it

    [run] replays a list of actions; [reachable_by ok] are the states a store
    passes through when every dispatched action satisfies [ok] in the state it
    is dispatched in.  A reducer that can throw is run through [exec]. *)
Section Store.
Context {S A : Type}.

Section Pure.
Context (reduce : S -> A -> S) (init : S) (ok : S -> A -> Prop).

Definition run (s : S) (acts : list A) : S := fold_left reduce acts s.

Inductive reachable_by : S -> Prop :=
| reachable_init : reachable_by init
| reachable_step s a : reachable_by s -> ok s a -> reachable_by (reduce s a).

Lemma reachable_by_inv (I : S -> Prop) :
  I init -> (forall s a, I s -> ok s a -> I (reduce s a)) ->
  forall s, reachable_by s -> I s.
Proof. intros H0 Hstep s Hs. induction Hs; auto. Qed.

Lemma run_app s l1 l2 : run s (l1 ++ l2) = run (run s l1) l2.
Proof. apply fold_left_app. Qed.

End Pure.

Section Throwing.
Context (reduce : S -> A -> exec S) (init : S) (ok : S -> A -> Prop).

Inductive reachable_exec : S -> Prop :=
| reachable_exec_init : reachable_exec init
| reachable_exec_step s a s' :
    reachable_exec s -> ok s a -> reduce s a = Ret s' -> reachable_exec s'.

Lemma reachable_exec_inv (I : S -> Prop) :
  I init -> (forall s a s', I s -> ok s a -> reduce s a = Ret s' -> I s') ->
  forall s, reachable_exec s -> I s.
Proof. intros H0 Hstep s Hs. induction Hs; eauto. Qed.

Fixpoint runM (s : S) (acts : list A) : exec S :=
  match acts with
  | [] => Ret s
  | a :: acts => s' ← reduce s a; runM s' acts
  end.

Lemma runM_reachable s s' acts :
  (forall s a, ok s a) -> reachable_exec s -> runM s acts = Ret s' -> reachable_exec s'.
Proof.
  intros Hok. revert s. induction acts as [|a acts IH]; cbn; intros s Hs E; [by injection E as <-|].
  apply exec_bind_Ret in E as (t & Ht & E). eapply IH; [|exact E]. by eapply reachable_exec_step.
Qed.

End Throwing.
End Store.

(** * Automation *)

Create HintDb js.
#[export] Hint Resolve <- includes_true includes_false : js.
#[export] Hint Rewrite @elem_of_list_filter @includes_true @includes_false
  andb_true_iff orb_true_iff negb_true_iff andb_false_iff orb_false_iff negb_false_iff
  bool_decide_eq_true bool_decide_eq_false : js.

Ltac js_simpl := autorewrite with js in *.
Ltac js_solver := repeat (case_match; simplify_eq/=); js_simpl; naive_solver.
