(* ===== verification/JsRuntime.v ===== *)
(** The parts of the JavaScript runtime the components use: [undefined] and
    [null], truthiness, strings, numbers in text, JSON values, and the date
    formatter of the host framework as a parameter. *)

From stdpp Require Export pretty.
From S2P Require Import Prelude.

(** * [undefined], [null] and truthiness *)

(** A property that may be absent, [null] or present. *)
Inductive nullable (A : Type) := Undef | Null | Val (a : A).
Arguments Undef {A}.
Arguments Null {A}.
Arguments Val {A} a.

#[export] Instance nullable_eq_dec `{EqDecision A} : EqDecision (nullable A).
Proof. solve_decision. Defined.

(** [!!n] for a number that may be missing. *)
Definition truthyNum (o : option Z) : bool :=
  match o with Some z => negb (z =? 0)%Z | None => false end.
Definition truthyNullable (n : nullable Z) : bool :=
  match n with Val z => negb (z =? 0)%Z | _ => false end.
(** [!!s] for a string that may be missing. *)
Definition truthyStr (o : option string) : bool :=
  match o with Some s => negb (String.eqb s EmptyString) | None => false end.

(** [a > b] with [undefined] converted to NaN: false unless both are numbers. *)
Definition gtUndef (a b : option Z) : bool :=
  match a, b with Some x, Some y => (y <? x)%Z | _, _ => false end.

(** * Strings *)

Definition isPrefixOf (p s : string) : bool := String.prefix p s.

(** [s.includes(p)] *)
Fixpoint strIncludes (s p : string) : bool :=
  isPrefixOf p s || match s with EmptyString => false | String _ s' => strIncludes s' p end.

(** [s.toLowerCase()] on ASCII text. *)
Definition lowerAscii (c : Ascii.ascii) : Ascii.ascii :=
  let n := Ascii.nat_of_ascii c in
  if (65 <=? n)%nat && (n <=? 90)%nat then Ascii.ascii_of_nat (n + 32) else c.
Fixpoint toLowerCase (s : string) : string :=
  match s with EmptyString => EmptyString | String c s => String (lowerAscii c) (toLowerCase s) end.

(** [arr.join(sep)] *)
Fixpoint join (sep : string) (l : list string) : string :=
  match l with
  | [] => EmptyString
  | [x] => x
  | x :: l => x +:+ sep +:+ join sep l
  end.

(** The text before the first [c], and what follows it: [split(c)[0]] and
    [split(c).slice(1).join(c)]. *)
Fixpoint splitFirst (c : Ascii.ascii) (s : string) : string * option string :=
  match s with
  | EmptyString => (EmptyString, None)
  | String d s' =>
      if Ascii.eqb d c then (EmptyString, Some s') else let '(a, b) := splitFirst c s' in (String d a, b)
  end.

(** [String(n)] for an integer within the range where JavaScript prints all
    digits (below 1e21). *)
Definition showZ (z : Z) : string := pretty z.
Definition showNat (n : nat) : string := pretty n.

(** Decimal digits read as a number; [None] when another character occurs. *)
Fixpoint digitsValue (acc : Z) (s : string) : option Z :=
  match s with
  | EmptyString => Some acc
  | String c s =>
      let n := Z.of_nat (Ascii.nat_of_ascii c) in
      if (48 <=? n)%Z && (n <=? 57)%Z then digitsValue (10 * acc + (n - 48)) s else None
  end.

(** [BigInt(s)] on decimal text. *)
Definition BigInt (s : string) : exec Z :=
  match digitsValue 0 s with
  | Some z => Ret z
  | None => Throw (SyntaxError "Cannot convert to a BigInt")
  end.

(** [while (s.length < n) s = '0' + s], that is [s.padStart(n, '0')]. *)
Fixpoint zeros (n : nat) : string :=
  match n with O => EmptyString | S n => String (Ascii.ascii_of_nat 48) (zeros n) end.
Definition padStart (n : nat) (s : string) : string := zeros (n - String.length s) +:+ s.

Lemma digitsValue_app acc s t :
  digitsValue acc (s +:+ t) = digitsValue acc s ≫= fun v => digitsValue v t.
Proof.
  revert acc; induction s as [|c s IH]; intros acc; [done|].
  change (String c s +:+ t) with (String c (s +:+ t)). cbn.
  destruct (_ && _); [apply IH|done].
Qed.

Lemma digitsValue_char acc (d : N) s :
  (d < 10)%N -> digitsValue acc (String (pretty_N_char d) s) = digitsValue (10 * acc + Z.of_N d) s.
Proof.
  intros Hd. assert (d = 0 \/ d = 1 \/ d = 2 \/ d = 3 \/ d = 4 \/ d = 5 \/ d = 6
    \/ d = 7 \/ d = 8 \/ d = 9)%N as Hc by lia.
  by destruct_or! Hc; subst.
Qed.

Lemma digitsValue_pretty_go (x : N) s :
  digitsValue 0 (pretty_N_go x s) = digitsValue (Z.of_N x) s.
Proof.
  revert s. induction (N.lt_wf_0 x) as [x _ IH]. intros s.
  destruct (decide (x = 0)%N) as [->|Hx]; [by rewrite pretty_N_go_0|].
  rewrite pretty_N_go_step by lia. rewrite IH by (apply N.div_lt; lia).
  rewrite digitsValue_char by (apply N.mod_lt; lia). f_equal.
  rewrite N2Z.inj_mod, N2Z.inj_div. pose proof (Z.div_mod (Z.of_N x) 10). lia.
Qed.

Lemma digitsValue_pretty (x : N) : digitsValue 0 (pretty x) = Some (Z.of_N x).
Proof.
  unfold pretty, pretty_N. case_decide; [by subst|]. by rewrite digitsValue_pretty_go.
Qed.

Lemma digitsValue_showZ z : (0 <= z)%Z -> digitsValue 0 (showZ z) = Some z.
Proof.
  intros Hz. destruct z as [|p|]; [done| |lia].
  change (showZ (Z.pos p)) with (pretty (N.pos p)). by rewrite digitsValue_pretty.
Qed.

Lemma digitsValue_zeros n s : digitsValue 0 (zeros n +:+ s) = digitsValue 0 s.
Proof.
  induction n as [|n IH]; [done|].
  change (zeros (S n) +:+ s) with (String (Ascii.ascii_of_nat 48) (zeros n +:+ s)). exact IH.
Qed.

Lemma digitsValue_shift acc s v :
  digitsValue 0 s = Some v ->
  digitsValue acc s = Some (acc * 10 ^ Z.of_nat (String.length s) + v)%Z.
Proof.
  assert (forall a b, digitsValue (a + b) s =
    (fun v => (a * 10 ^ Z.of_nat (String.length s) + v)%Z) <$> digitsValue b s) as H.
  { induction s as [|c s IH]; intros a b; cbn -[Z.of_nat Z.pow]; [cbn; f_equal; lia|].
    destruct (_ && _); [|done].
    replace (10 * (a + b) + (Z.of_nat (Ascii.nat_of_ascii c) - 48))%Z
      with (10 * a + (10 * b + (Z.of_nat (Ascii.nat_of_ascii c) - 48)))%Z by lia.
    rewrite IH. apply option_fmap_ext. intros w.
    rewrite Nat2Z.inj_succ, Z.pow_succ_r by lia. lia. }
  intros Hv. rewrite <- (Z.add_0_r acc) at 1. by rewrite H, Hv.
Qed.

Lemma pretty_go_length (x : N) k s :
  (x < 10 ^ N.of_nat k)%N -> String.length (pretty_N_go x s) <= k + String.length s.
Proof.
  revert x s. induction k as [|k IH]; intros x s Hx.
  - replace x with 0%N by (cbn in Hx; lia). by rewrite pretty_N_go_0.
  - destruct (decide (x = 0)%N) as [->|Hne]; [rewrite pretty_N_go_0; lia|].
    rewrite pretty_N_go_step by lia. etrans; [apply IH|cbn; lia].
    apply N.Div0.div_lt_upper_bound. rewrite Nat2N.inj_succ, N.pow_succ_r' in Hx. lia.
Qed.

Lemma showZ_length z k :
  (0 <= z < 10 ^ Z.of_nat k)%Z -> 0 < k -> String.length (showZ z) <= k.
Proof.
  intros Hz Hk. destruct z as [|p|]; [cbn; lia| |lia].
  change (showZ (Z.pos p)) with (pretty (N.pos p)).
  unfold pretty, pretty_N. case_decide; [done|].
  etrans; [apply (pretty_go_length _ k)|cbn; lia].
  apply N2Z.inj_lt. rewrite N2Z.inj_pow, nat_N_Z. cbn. lia.
Qed.

Lemma padStart_length n s : String.length s <= n -> String.length (padStart n s) = n.
Proof.
  intros H. unfold padStart.
  assert (forall m, String.length (zeros m +:+ s) = m + String.length s) as Hz.
  { induction m as [|m IH]; [done|].
    change (S (String.length (zeros m +:+ s)) = S m + String.length s). rewrite IH. done. }
  rewrite Hz. lia.
Qed.

(** * JSON values *)

Inductive Json :=
| JNull
| JBool (b : bool)
| JNum (q : Q)
| JStr (s : string)
| JArr (l : list Json)
| JObj (fields : list (string * Json)).

(** [!!v] for a JSON value that may be missing. *)
Definition truthyJson (o : option Json) : bool :=
  match o with
  | None | Some JNull | Some (JBool false) | Some (JStr EmptyString) => false
  | Some (JNum q) => negb (Qeq_bool q 0)
  | Some _ => true
  end.

(** * Rounding *)

(** [Number(x.toFixed(d))]: the closest multiple of 10^-d, ties upwards, for a
    non-negative [x]. *)
Definition toFixedNum (d : nat) (x : Q) : Q :=
  let p := inject_Z (10 ^ Z.of_nat d) in
  (inject_Z (Qfloor (x * p + (1 # 2))) / p)%Q.

(** [x.toFixed(d)] for a non-negative [x]. *)
Definition toFixed (d : nat) (x : Q) : string :=
  let p := (10 ^ Z.of_nat d)%Z in
  let n := Qfloor (x * inject_Z p + (1 # 2)) in
  if d =? 0 then showZ n else showZ (n / p) +:+ "." +:+ padStart d (showZ (n mod p)).

Definition ONE_THOUSAND : Z := 1000.
Definition ONE_MILLION : Z := 1000000.
Definition ONE_BILLION : Z := 1000000000.

(** * Dates: Angular's [formatDate] in the 'en-US' locale

    [formatDate millis format]; third-party, hence a parameter. *)
Class DateFormat := formatDate : Q -> string -> string.

Definition defaultDateFormat : string := "HH:mm:ss.SSS, dd MMM yy".
Definition noMillisFormat : string := "HH:mm:ss, dd MMM yy".

Section Dates.
Context {DF : DateFormat}.
Definition convertToReadableDate (value : Q) (format : string) : string := formatDate value format.
Definition toReadableDate (value : Q) (format : option string) : string :=
  convertToReadableDate value (default defaultDateFormat format).
End Dates.

(** * Errors dispatched to the error preview *)

Inductive MinaErrorType := RUST | GENERIC | DEBUGGER.

#[export] Instance MinaErrorType_eq_dec : EqDecision MinaErrorType.
Proof. solve_decision. Defined.
