(* ===== verification/TableSort.v ===== *)
(** Sorting of tables: the [sort] helper every list reducer calls
    (vendor/mina-rust-shared, helpers/array.helper.ts), on top of
    [Array.prototype.sort], and the list helpers of the same file.

    A row exposes its columns as JavaScript values through the class [Row]
    ([row[sortProperty]] in the source).  [String.prototype.localeCompare] is
    the host's collation: an interface ([LocaleCompare]) with the laws ECMA-402
    documents (a consistent comparison), instantiated by code-unit order for
    evaluation. *)

From S2P Require Import Prelude JsRuntime.

(** * Values a column can hold *)

Inductive JsVal :=
| VUndefined
| VNull
| VBool (b : bool)
| VNum (q : Q)
| VStr (s : string)
| VObject.

Definition ofOption {A} (inj : A -> JsVal) (o : option A) : JsVal :=
  match o with Some a => inj a | None => VUndefined end.
Definition vZ (z : Z) : JsVal := VNum (inject_Z z).

(** [v !== undefined && v !== null] *)
Definition hasValue (v : JsVal) : bool :=
  match v with VUndefined | VNull => false | _ => true end.

(** [Number.MAX_VALUE] = (2^53 - 1) * 2^971 *)
Definition MAX_VALUE : Q := inject_Z ((2 ^ 53 - 1) * 2 ^ 971).

(** The operand of the subtraction in [numberSort]: [v ?? Number.MAX_VALUE],
    then ToNumber.  [None] is NaN (a string that is not a plain decimal, or an
    object without [valueOf] of its own). *)
Definition numKey (v : JsVal) : option Q :=
  match v with
  | VUndefined | VNull => Some MAX_VALUE
  | VBool b => Some (if b then 1 else 0)%Q
  | VNum q => Some q
  | VStr s => inject_Z <$> digitsValue 0 s
  | VObject => None
  end.

(** [v || ''], for a column that holds strings or nothing. *)
Definition strKey (v : JsVal) : string :=
  match v with VStr s => s | _ => EmptyString end.

(** * The host's collation *)

Class LocaleCompare := localeCompare : string -> string -> comparison.

Class LocaleCompareLaws (LC : LocaleCompare) : Prop := {
  localeCompare_antisym : forall s t, localeCompare t s = CompOpp (localeCompare s t);
  localeCompare_trans : forall s t u,
    localeCompare s t <> Gt -> localeCompare t u <> Gt -> localeCompare s u <> Gt
}.

(** * [Array.prototype.sort] with a comparator

    The standard prescribes a stable sort and leaves the algorithm open; for a
    consistent comparator the result is unique ([stable_sort_unique]), so the
    insertion sort below stands for every conforming engine. *)
Section ArraySort.
Context {T : Type} (cmp : T -> T -> comparison).

Fixpoint insertSorted (x : T) (l : list T) : list T :=
  match l with
  | [] => [x]
  | y :: l' => match cmp x y with Gt => y :: insertSorted x l' | _ => x :: y :: l' end
  end.

Definition arraySort (l : list T) : list T := fold_right insertSorted [] l.

(** Not after: [cmp x y <= 0]. *)
Definition cle (x y : T) : Prop := cmp x y <> Gt.

Definition sameKey (x y : T) : bool := match cmp x y with Eq => true | _ => false end.

(** What a conforming sort returns. *)
Record StableSortOf (l l' : list T) : Prop := {
  sso_perm : Permutation l l';
  sso_sorted : StronglySorted cle l';
  sso_stable : forall x, x ∈ l -> List.filter (sameKey x) l' = List.filter (sameKey x) l
}.

(** A comparator consistent on the elements that satisfy [P]. *)
Class ConsistentOn (P : T -> Prop) : Prop := {
  consistent_antisym : forall x y, P x -> P y -> cmp y x = CompOpp (cmp x y);
  consistent_trans : forall x y z, P x -> P y -> P z -> cle x y -> cle y z -> cle x z
}.

Lemma insertSorted_perm x l : Permutation (x :: l) (insertSorted x l).
Proof.
  induction l as [|y l IH]; cbn; [done|].
  destruct (cmp x y); [done|done|]. rewrite perm_swap. by constructor.
Qed.

Lemma arraySort_perm l : Permutation l (arraySort l).
Proof.
  induction l as [|x l IH]; cbn; [done|].
  rewrite <- insertSorted_perm. by constructor.
Qed.

Lemma arraySort_elem l x : x ∈ arraySort l <-> x ∈ l.
Proof. by rewrite <- arraySort_perm. Qed.

Lemma arraySort_length l : length (arraySort l) = length l.
Proof. by rewrite <- (arraySort_perm l). Qed.

Context {P : T -> Prop} `{HC : !ConsistentOn P}.

Lemma cle_total x y : P x -> P y -> cmp x y = Gt -> cle y x.
Proof. intros Hx Hy H. unfold cle. by rewrite consistent_antisym, H. Qed.

Lemma sameKey_sym x y : P x -> P y -> sameKey x y = sameKey y x.
Proof.
  intros Hx Hy. unfold sameKey. rewrite (consistent_antisym x y Hx Hy).
  by destruct (cmp x y).
Qed.

Lemma sameKey_cle x y : sameKey x y = true -> cle x y.
Proof. unfold sameKey, cle. by destruct (cmp x y). Qed.

Lemma sameKey_refl x : P x -> sameKey x x = true.
Proof.
  intros Hx. unfold sameKey. pose proof (consistent_antisym x x Hx Hx) as H.
  by destruct (cmp x x).
Qed.

Lemma sameKey_both x y : P x -> P y -> cle x y -> cle y x -> sameKey x y = true.
Proof.
  intros Hx Hy Hxy Hyx. unfold sameKey, cle in *.
  rewrite (consistent_antisym x y Hx Hy) in Hyx. by destruct (cmp x y).
Qed.

Lemma sameKey_trans x y z :
  P x -> P y -> P z -> sameKey x y = true -> sameKey y z = true -> sameKey x z = true.
Proof.
  intros Hx Hy Hz Hxy Hyz. apply sameKey_both; try done.
  - apply (consistent_trans x y z); auto using sameKey_cle.
  - apply (consistent_trans z y x); auto; apply sameKey_cle; by rewrite sameKey_sym.
Qed.

Lemma sameKey_class x y z :
  P x -> P y -> P z -> sameKey x y = true -> sameKey x z = sameKey y z.
Proof.
  intros Hx Hy Hz Hxy. apply Bool.eq_iff_eq_true. split.
  - apply sameKey_trans; auto. by rewrite sameKey_sym.
  - by apply sameKey_trans.
Qed.

Lemma insertSorted_sorted x l :
  P x -> Forall P l -> StronglySorted cle l -> StronglySorted cle (insertSorted x l).
Proof.
  intros Hx Hl Hs. induction Hs as [|y l Hs IH Hy]; cbn; [by repeat constructor|].
  apply Forall_cons in Hl as [HPy Hl].
  destruct (cmp x y) eqn:E.
  3: { constructor; [auto|]. rewrite <- insertSorted_perm. constructor; [|done].
       by apply cle_total. }
  all: assert (cle x y) as Hxy by (unfold cle; congruence);
    repeat (constructor; auto);
    apply Forall_forall; intros z Hz;
    rewrite Forall_forall in Hy, Hl;
    apply (consistent_trans x y z); auto.
Qed.

Lemma arraySort_sorted l : Forall P l -> StronglySorted cle (arraySort l).
Proof.
  induction l as [|x l IH]; intros HP; cbn; [constructor|].
  apply Forall_cons in HP as [Hx Hl]. apply insertSorted_sorted; [done| |auto].
  by rewrite <- arraySort_perm.
Qed.

Lemma insertSorted_stable z x l :
  P z -> P x -> Forall P l ->
  List.filter (sameKey z) (insertSorted x l) = List.filter (sameKey z) (x :: l).
Proof.
  intros Hz Hx. induction l as [|y l IH]; intros HP; [done|].
  apply Forall_cons in HP as [Hy Hl]. cbn [insertSorted].
  destruct (cmp x y) eqn:E; [done|done|]. cbn. rewrite IH by done. cbn.
  destruct (sameKey z x) eqn:Ex, (sameKey z y) eqn:Ey; try done.
  exfalso. rewrite (sameKey_sym z x Hz Hx) in Ex.
  pose proof (consistent_trans x z y Hx Hz Hy (sameKey_cle _ _ Ex) (sameKey_cle _ _ Ey)).
  done.
Qed.

Lemma arraySort_stable z l :
  P z -> Forall P l -> List.filter (sameKey z) (arraySort l) = List.filter (sameKey z) l.
Proof.
  intros Hz. induction l as [|x l IH]; intros HP; [done|].
  apply Forall_cons in HP as [Hx Hl].
  change (arraySort (x :: l)) with (insertSorted x (arraySort l)).
  rewrite insertSorted_stable; [|done|done|by rewrite <- (arraySort_perm l)].
  cbn [List.filter]. by rewrite IH.
Qed.

Lemma arraySort_StableSortOf l : Forall P l -> StableSortOf l (arraySort l).
Proof.
  intros HP. split; [apply arraySort_perm|by apply arraySort_sorted|].
  intros x Hx. apply arraySort_stable; [|done]. by eapply Forall_forall in HP.
Qed.

(** Two sorted lists that agree, class by class, on the order of equal keys
    are the same list. *)
Lemma sorted_determined l1 l2 :
  Forall P l1 -> Forall P l2 -> StronglySorted cle l1 -> StronglySorted cle l2 ->
  Permutation l1 l2 ->
  (forall x, P x -> List.filter (sameKey x) l1 = List.filter (sameKey x) l2) -> l1 = l2.
Proof.
  intros HP1 HP2 Hs1 Hs2 Hp Hf. revert l2 HP2 Hs2 Hp Hf.
  induction Hs1 as [|x l1 Hs1 IH Hx]; intros l2 HP2 Hs2 Hp Hf.
  { by apply Permutation_nil_l in Hp. }
  apply Forall_cons in HP1 as [HPx HP1].
  destruct l2 as [|y l2]; [by symmetry in Hp; apply Permutation_nil_cons in Hp|].
  apply Forall_cons in HP2 as [HPy HP2]. inversion Hs2 as [|? ? Hs2' Hy]; subst.
  assert (sameKey x y = true) as Exy.
  { rewrite Forall_forall in Hx, Hy. apply sameKey_both; try done.
    - assert (y ∈ x :: l1) as [->|]%elem_of_cons by (rewrite Hp; left); [|auto].
      apply sameKey_cle, sameKey_refl; done.
    - assert (x ∈ y :: l2) as [->|]%elem_of_cons by (rewrite <- Hp; left); [|auto].
      apply sameKey_cle, sameKey_refl; done. }
  assert (x = y) as <-.
  { specialize (Hf x HPx). cbn in Hf. rewrite sameKey_refl, Exy in Hf by done.
    by simplify_eq. }
  f_equal. apply IH; auto.
  - by apply Permutation_cons_inv in Hp.
  - intros z Hz. specialize (Hf z Hz). cbn in Hf. destruct (sameKey z x); by simplify_eq.
Qed.

Lemma stable_sort_unique l l' : Forall P l -> StableSortOf l l' -> l' = arraySort l.
Proof.
  intros HP [Hp Hs Hst]. apply sorted_determined; auto.
  - by rewrite <- Hp.
  - by rewrite <- arraySort_perm.
  - by apply arraySort_sorted.
  - by rewrite <- Hp, <- arraySort_perm.
  - intros x Hx. rewrite (arraySort_stable x l Hx HP).
    destruct (decide (Exists (fun y => sameKey x y = true) l)) as [He|He].
    + apply Exists_exists in He as (y & Hy & Hxy).
      rewrite Forall_forall in HP.
      assert (Forall P l') as HP' by (apply Forall_forall; intros z Hz; apply HP; by rewrite Hp).
      rewrite Forall_forall in HP'.
      rewrite !(filter_ext_in (sameKey x) (sameKey y)); [by apply Hst| |];
        intros z Hz%list_elem_of_In; apply sameKey_class; auto.
    + rewrite <- Forall_Exists_neg in He. rewrite Forall_forall in He.
      rewrite !filter_false_nil; [done| |]; intros y Hy.
      * apply not_true_is_false. auto.
      * apply not_true_is_false. apply He. by rewrite Hp.
Qed.

End ArraySort.

(** * The [sort] helper *)

Inductive SortDirection := ASC | DSC.

#[export] Instance SortDirection_eq_dec : EqDecision SortDirection.
Proof. solve_decision. Defined.

(** [sortBy] is a [keyof T]: an enumeration [F] of the columns of [T]. *)
Record TableSort (F : Type) := mkTableSort { sortBy : F; sortDirection : SortDirection }.
Arguments mkTableSort {F} _ _.
Arguments sortBy {F} _.
Arguments sortDirection {F} _.

#[export] Instance TableSort_eq_dec `{EqDecision F} : EqDecision (TableSort F).
Proof. solve_decision. Defined.

(** [row[field]] *)
Class Row (T F : Type) := get : F -> T -> JsVal.

Section Sort.
Context {LC : LocaleCompare} {T F : Type} {Fdec : EqDecision F} {row : Row T F}.
Implicit Types (ts : TableSort F) (strings : list F) (l : list T).

Definition isStringSorting ts strings : bool := includes strings (sortBy ts).

Definition stringSort ts (o1 o2 : T) : comparison :=
  let s2 := strKey (get (sortBy ts) o2) in
  let s1 := strKey (get (sortBy ts) o1) in
  match sortDirection ts with
  | DSC => localeCompare s2 s1
  | ASC => localeCompare s1 s2
  end.

(** The sign of [o2Sort - o1Sort] or [o1Sort - o2Sort].  A difference of two
    finite doubles is zero only when they are equal and otherwise has the sign
    of the exact difference (gradual underflow), so comparing the exact values
    loses nothing; a NaN difference compares as equal. *)
Definition numberSort ts (o1 o2 : T) : comparison :=
  match numKey (get (sortBy ts) o2), numKey (get (sortBy ts) o1) with
  | Some o2Sort, Some o1Sort =>
      match sortDirection ts with
      | DSC => Qcompare o2Sort o1Sort
      | ASC => Qcompare o1Sort o2Sort
      end
  | _, _ => Eq
  end.

Definition comparator ts strings : T -> T -> comparison :=
  if isStringSorting ts strings then stringSort ts else numberSort ts.

Definition sort (inpArray : list T) ts strings (sortNulls : bool) : list T :=
  let present e := hasValue (get (sortBy ts) e) in
  let toBeSorted :=
    if sortNulls then inpArray
    else if isStringSorting ts strings then inpArray else List.filter present inpArray in
  let toNotBeSorted :=
    if sortNulls then []
    else if isStringSorting ts strings then []
    else List.filter (fun e => negb (present e)) inpArray in
  arraySort (comparator ts strings) toBeSorted ++ toNotBeSorted.

(** The rows whose column can be compared: any row when sorting strings, a row
    whose value is not NaN when sorting numbers. *)
Definition sortable ts strings (x : T) : Prop :=
  isStringSorting ts strings = true \/ numKey (get (sortBy ts) x) <> None.

(** The order the table header promises. *)
Definition columnLe ts strings (x y : T) : Prop :=
  let le :=
    if isStringSorting ts strings
    then fun a b => localeCompare (strKey a) (strKey b) <> Gt
    else fun a b => match numKey a, numKey b with
                    | Some p, Some q => (p <= q)%Q | _, _ => False end in
  match sortDirection ts with
  | ASC => le (get (sortBy ts) x) (get (sortBy ts) y)
  | DSC => le (get (sortBy ts) y) (get (sortBy ts) x)
  end.

Lemma sort_perm l ts strings nulls : Permutation l (sort l ts strings nulls).
Proof.
  unfold sort. destruct nulls, (isStringSorting ts strings); rewrite ?app_nil_r;
    rewrite <- arraySort_perm; try done.
  apply filter_partition.
Qed.

Lemma sort_elem l ts strings nulls x : x ∈ sort l ts strings nulls <-> x ∈ l.
Proof. by rewrite <- sort_perm. Qed.

Lemma sort_length l ts strings nulls : length (sort l ts strings nulls) = length l.
Proof. by rewrite <- (sort_perm l ts strings nulls). Qed.

Lemma sort_nil ts strings nulls : sort [] ts strings nulls = [].
Proof. apply Permutation_nil_r. by rewrite <- sort_perm. Qed.

Context {LL : LocaleCompareLaws LC}.

#[export] Instance comparator_consistent ts strings :
  ConsistentOn (comparator ts strings) (sortable ts strings).
Proof.
  unfold comparator, sortable. destruct (isStringSorting ts strings) eqn:E.
  - split; unfold stringSort, cle; destruct (sortDirection ts); intros; cbn;
      eauto using localeCompare_antisym, localeCompare_trans.
  - split; unfold numberSort, cle.
    + intros x y [|Hx] [|Hy]; try done.
      destruct (numKey (get _ x)), (numKey (get _ y)), (sortDirection ts); try done;
        by rewrite Qcompare_antisym.
    + intros x y z [|Hx] [|Hy] [|Hz]; try done.
      destruct (numKey (get _ x)), (numKey (get _ y)), (numKey (get _ z)), (sortDirection ts);
        try done; rewrite <- !Qle_alt; eauto using Qle_trans.
Qed.

Lemma cle_columnLe ts strings x y :
  sortable ts strings x -> sortable ts strings y ->
  cle (comparator ts strings) x y -> columnLe ts strings x y.
Proof.
  unfold cle, comparator, columnLe, sortable.
  destruct (isStringSorting ts strings) eqn:E; intros Hx Hy.
  - unfold stringSort. by destruct (sortDirection ts).
  - destruct Hx as [|Hx], Hy as [|Hy]; try done. unfold numberSort.
    destruct (numKey (get _ x)), (numKey (get _ y)), (sortDirection ts); try done;
      by rewrite <- Qle_alt.
Qed.

Lemma columnLe_sorted ts strings l :
  Forall (sortable ts strings) l ->
  StronglySorted (columnLe ts strings) (arraySort (comparator ts strings) l).
Proof.
  intros HP. pose proof (arraySort_sorted (comparator ts strings) l HP) as Hs.
  assert (Forall (sortable ts strings) (arraySort (comparator ts strings) l)) as HP'
    by (by rewrite <- arraySort_perm).
  induction Hs as [|x m Hs IH Hx]; constructor; apply Forall_cons in HP' as [? HP']; auto.
  rewrite Forall_forall in Hx, HP' |- *. intros y Hy. apply cle_columnLe; auto.
Qed.

(** NaN keys compare as equal, so rows that all have one keep their order. *)
Lemma nan_comparator ts strings x y : isStringSorting ts strings = false -> numKey (get (sortBy ts) x) = None ->
  comparator ts strings x y = Eq.
Proof. intros E H. unfold comparator, numberSort. rewrite E, H. by destruct (numKey (get (sortBy ts) y)). Qed.

Lemma nan_consistent ts strings : isStringSorting ts strings = false ->
  ConsistentOn (comparator ts strings) (fun x => numKey (get (sortBy ts) x) = None).
Proof.
  intros E. split; [|unfold cle].
  - intros x y Hx Hy. by rewrite !nan_comparator.
  - intros x y z Hx Hy Hz _ _. by rewrite nan_comparator.
Qed.

Lemma nan_sorted ts strings l l' : isStringSorting ts strings = false ->
  Forall (fun x => numKey (get (sortBy ts) x) = None) l -> StableSortOf (comparator ts strings) l l' -> l' = l.
Proof.
  intros E Hn [Hp _ Hst]. destruct l as [|x l]; [by apply Permutation_nil_l in Hp|].
  specialize (Hst x ltac:(by left)).
  assert (forall y, sameKey (comparator ts strings) x y = true) as Hk.
  { intros y. unfold sameKey. rewrite nan_comparator; [done|done|]. by apply Forall_cons in Hn as [? _]. }
  rewrite !filter_true_id in Hst by auto. done.
Qed.

Lemma nan_arraySort ts strings l : isStringSorting ts strings = false ->
  Forall (fun x => numKey (get (sortBy ts) x) = None) l -> arraySort (comparator ts strings) l = l.
Proof.
  intros E Hn. pose proof (nan_consistent ts strings E) as HC. apply (nan_sorted ts strings); [done|done|].
  by apply (arraySort_StableSortOf _ (HC := HC)).
Qed.

End Sort.

#[global] Arguments sort : simpl never.

(** Code-unit order: the collation the evaluations below use. *)
Definition codeUnitCompare : LocaleCompare := String.compare.

#[export] Instance codeUnitCompare_laws : LocaleCompareLaws codeUnitCompare.
Proof.
  split; unfold localeCompare, codeUnitCompare.
  - intros s t. apply String.compare_antisym.
  - intros s. induction s as [|a s IH]; intros [|b t] [|c u]; cbn; try done.
    unfold Ascii.compare.
    destruct (N.compare_spec (Ascii.N_of_ascii a) (Ascii.N_of_ascii b)) as [H1|H1|H1],
      (N.compare_spec (Ascii.N_of_ascii b) (Ascii.N_of_ascii c)) as [H2|H2|H2],
      (N.compare_spec (Ascii.N_of_ascii a) (Ascii.N_of_ascii c)) as [H3|H3|H3];
      try lia; try done. apply IH.
Qed.

(** * The other helpers of array.helper.ts *)
Section ArrayHelpers.
Context {A : Type}.

Definition lastItem (array : list A) : option A := array !! (length array - 1).

Definition toggleItem (array : list A) (item : A) (comparator : A -> bool) : list A :=
  match findIndex comparator array with
  | Some index => sliceTo index array ++ sliceFrom (index + 1) array
  | None => array ++ [item]
  end.

Definition removeLast (arr : list A) : list A := sliceTo (length arr - 1) arr.

Lemma toggleItem_absent l x p :
  (forall y, y ∈ l -> p y = false) -> toggleItem l x p = l ++ [x].
Proof. intros H. unfold toggleItem. by rewrite (proj2 (findIndex_None p l) H). Qed.

(** A list is cut at the first match. *)
Lemma toggleItem_cut p l1 x l2 y :
  (forall z, z ∈ l1 -> p z = false) -> p x = true -> toggleItem (l1 ++ x :: l2) y p = l1 ++ l2.
Proof.
  intros H1 Hx. unfold toggleItem.
  assert (findIndex p (l1 ++ x :: l2) = Some (length l1)) as ->.
  { apply findIndex_Some. split.
    - exists x. by rewrite list_lookup_middle.
    - intros j z Hj Hz. rewrite lookup_app_l in Hz by done.
      apply H1. by eapply list_elem_of_lookup_2. }
  unfold sliceTo, sliceFrom. rewrite take_app_length. f_equal.
  replace (length l1 + 1) with (length (l1 ++ [x])) by (rewrite length_app; cbn; lia).
  replace (l1 ++ x :: l2) with ((l1 ++ [x]) ++ l2) by (by rewrite <- app_assoc).
  by rewrite drop_app_length.
Qed.

Lemma lastItem_last l : lastItem l = last l.
Proof. unfold lastItem. by rewrite last_lookup, Nat.sub_1_r. Qed.

End ArrayHelpers.

(** The default comparator of [toggleItem]: [curr => curr === item]. *)
Definition toggle `{EqDecision A} (array : list A) (item : A) : list A :=
  toggleItem array item (fun curr => bool_decide (curr = item)).

Section Toggle.
Context `{EqDecision A}.
Implicit Types (l : list A) (x y : A).

Lemma toggle_absent l x : x ∉ l -> toggle l x = l ++ [x].
Proof.
  intros Hx. apply toggleItem_absent. intros y Hy. apply bool_decide_eq_false. by intros ->.
Qed.

Lemma toggle_present l1 l2 x : x ∉ l1 -> toggle (l1 ++ x :: l2) x = l1 ++ l2.
Proof.
  intros Hx. apply toggleItem_cut; [|by apply bool_decide_eq_true].
  intros y Hy. apply bool_decide_eq_false. by intros ->.
Qed.

Lemma toggle_other l x y : y <> x -> y ∈ toggle l x <-> y ∈ l.
Proof.
  intros Hne. destruct (decide (x ∈ l)) as [Hx|Hx].
  - apply list_elem_of_split_l in Hx as (l1 & l2 & -> & Hx1).
    rewrite toggle_present by done. set_solver.
  - rewrite toggle_absent by done. set_solver.
Qed.

Lemma toggle_NoDup l x : NoDup l -> NoDup (toggle l x).
Proof.
  intros Hl. destruct (decide (x ∈ l)) as [Hx|Hx].
  - apply list_elem_of_split_l in Hx as (l1 & l2 & -> & Hx1).
    rewrite toggle_present by done. apply NoDup_app in Hl as (? & H2 & Hl2).
    apply NoDup_cons in Hl2 as [? ?]. apply NoDup_app. set_solver.
  - rewrite toggle_absent by done. apply NoDup_app.
    split; [done|]. split; [set_solver|]. apply NoDup_singleton.
Qed.

Lemma toggle_member l x : NoDup l -> x ∈ toggle l x <-> x ∉ l.
Proof.
  intros Hl. destruct (decide (x ∈ l)) as [Hx|Hx].
  - apply list_elem_of_split_l in Hx as (l1 & l2 & -> & Hx1).
    rewrite toggle_present by done. apply NoDup_app in Hl as (? & H2 & Hl2).
    apply NoDup_cons in Hl2 as [? ?]. set_solver.
  - rewrite toggle_absent by done. set_solver.
Qed.

Lemma toggle_twice l x : x ∉ l -> toggle (toggle l x) x = l.
Proof.
  intros Hx. rewrite (toggle_absent l x) by done.
  rewrite toggle_present by done. apply app_nil_r.
Qed.

End Toggle.

(** C40: for a column none of whose keys is NaN (string columns have none), in
    either direction, the displayed rows are the
    given rows: those with a value in the column come first in the order the
    header promises, equal keys keep their relative order (so every conforming
    [Array.prototype.sort] yields this very list), and the rows without a value
    close the table in their original order; a string column, or a table that
    asks for it, sorts all rows.  For a column whose values are all NaN, as the
    objects of a status column, the header sorts nothing: the rows with a value keep
    the order in which they came, in both directions, and those without follow. *)
Theorem sort_stable_column_order {LC : LocaleCompare} {LL : LocaleCompareLaws LC}
    {T F : Type} {Fdec : EqDecision F} {row : Row T F}
    (l : list T) (ts : TableSort F) (strings : list F) (sortNulls : bool) :
  let present := fun e => sortNulls || isStringSorting ts strings || hasValue (get (sortBy ts) e) in
  let absent := List.filter (fun e => negb (present e)) l in
  (Forall (sortable ts strings) l ->
   exists front,
    sort l ts strings sortNulls = front ++ absent /\
    StronglySorted (columnLe ts strings) front /\
    StableSortOf (comparator ts strings) (List.filter present l) front /\
    forall other, StableSortOf (comparator ts strings) (List.filter present l) other -> other = front) /\
  (isStringSorting ts strings = false ->
   (forall e, e ∈ l -> present e = true -> numKey (get (sortBy ts) e) = None) ->
   sort l ts strings sortNulls = List.filter present l ++ absent /\
   forall other, StableSortOf (comparator ts strings) (List.filter present l) other -> other = List.filter present l).
Proof.
  intros present absent.
  assert (sort l ts strings sortNulls = arraySort (comparator ts strings) (List.filter present l) ++ absent) as Es.
  { unfold sort, absent, present. destruct sortNulls, (isStringSorting ts strings); cbn;
      rewrite ?(filter_true_id (fun _ => true)), ?(filter_false_nil (fun _ => false)); done. }
  split.
  - intros HP. exists (arraySort (comparator ts strings) (List.filter present l)).
    assert (Forall (sortable ts strings) (List.filter present l)) as HF.
    { apply Forall_forall. intros x [Hx _]%elem_of_list_filter.
      by eapply Forall_forall in HP. }
    split; [done|split; [by apply columnLe_sorted|
      split; [by apply (arraySort_StableSortOf _ (P := sortable ts strings))|]]].
    intros other Ho. by apply (stable_sort_unique _ (P := sortable ts strings)).
  - intros E Hn. assert (Forall (fun x => numKey (get (sortBy ts) x) = None) (List.filter present l)) as HF.
    { apply Forall_forall. intros x [Hx Hp]%elem_of_list_filter. by apply Hn. }
    split; [by rewrite Es, nan_arraySort|by intros other; apply nan_sorted].
Qed.

(** A two-column table for evaluations. *)
Inductive DemoField := DemoName | DemoSize.
#[export] Instance DemoField_eq_dec : EqDecision DemoField.
Proof. solve_decision. Defined.
#[export] Instance Demo_row : Row (string * option Z) DemoField := fun f r =>
  match f with DemoName => VStr (fst r) | DemoSize => ofOption vZ (snd r) end.

Definition demoRows : list (string * option Z) :=
  [("b", Some 2%Z); ("a", None); ("c", Some 7%Z); ("d", Some 2%Z)].

Lemma sort_stable_column_order_witness :
  Forall (sortable (mkTableSort DemoSize DSC) [DemoName]) demoRows /\
  exists front,
    sort (LC := codeUnitCompare) demoRows (mkTableSort DemoSize DSC) [DemoName] false
      = front ++ [("a", None)].
Proof.
  assert (Forall (sortable (mkTableSort DemoSize DSC) [DemoName]) demoRows) as H.
  { apply Forall_forall. intros x _. right. by destruct x as [? [?|]]. }
  split; [exact H|].
  destruct (sort_stable_column_order (LC := codeUnitCompare) demoRows
    (mkTableSort DemoSize DSC) [DemoName] false) as [Hs _].
  destruct (Hs H) as (front & Hf & _). exists front. exact Hf.
Defined.

Example sort_demo :
  sort (LC := codeUnitCompare) demoRows (mkTableSort DemoSize DSC) [DemoName] false
  = [("c", Some 7%Z); ("b", Some 2%Z); ("d", Some 2%Z); ("a", None)].
Proof. reflexivity. Qed.

(** Toggling a filter flips its membership, leaves every other filter
    alone, never duplicates one, and toggling an absent filter twice restores
    the list. *)
Theorem toggleItem_flips {A : Type} {Adec : EqDecision A} (l : list A) (x : A) :
  NoDup l ->
  NoDup (toggle l x) /\
  (x ∈ toggle l x <-> x ∉ l) /\
  (forall y, y <> x -> y ∈ toggle l x <-> y ∈ l) /\
  (x ∉ l -> toggle (toggle l x) x = l).
Proof. auto using toggle_NoDup, toggle_member, toggle_other, toggle_twice. Qed.

Lemma toggleItem_flips_witness :
  NoDup ["local"; "remote"] /\ "remote" ∉ toggle ["local"; "remote"] "remote".
Proof.
  assert (NoDup ["local"; "remote"]) as H
    by (apply NoDup_cons; split; [set_solver|apply NoDup_singleton]).
  split; [exact H|].
  destruct (toggleItem_flips ["local"; "remote"] "remote" H) as (_ & Hm & _).
  rewrite Hm. intros Hn. apply Hn. set_solver.
Defined.
