(* ===== verification/SharedWidgets.v ===== *)
(** Widgets of the shared library (frontend/vendor/mina-rust-shared/src/lib): the
    histogram of bar-graph, the texts of durations, sizes and shortened names
    (pipes), and the remembered expansion of mina-json-viewer. *)

From S2P Require Import Prelude JsRuntime.

Module SharedWidgets.

(** * The histogram: components/bar-graph *)

Record ChartColumn := mkColumn { name : string; value : nat; range : string; step : Q }.

#[export, refine] Instance ChartColumn_copy : RecordCopy ChartColumn := {
  record_copy c := mkColumn (name c) (value c) (range c) (step c) }.
Proof. by intros []. Defined.

(** The loop of [getBars], which ends when a step is positive; [None]: out of fuel. *)
Fixpoint barsFrom (fuel : nat) (i xStep limit : Q) : option (list Q) :=
  match fuel with
  | 0 => None
  | S fuel => if Qle_bool i limit then cons i <$> barsFrom fuel (i + xStep)%Q xStep limit else Some []
  end.

Definition getBars (xStep : Q) (xTicksLength : nat) : option (list Q) :=
  cons 0%Q <$> barsFrom (S xTicksLength) xStep xStep (inject_Z (Z.of_nat xTicksLength) * xStep)%Q.

(** The bars are distinct, so the entries of the map are the bars in order. *)
Definition initChartColumns (xStep : Q) (um : string) (decimals : nat) (bars : list Q) : list ChartColumn :=
  mapi (fun i curr =>
    mkColumn (toFixed decimals curr +:+ um) 0
      (if i =? length bars - 1 then "> " +:+ toFixed decimals curr +:+ um
       else toFixed decimals curr +:+ um +:+ " - " +:+ toFixed decimals (curr + xStep)%Q +:+ um)
      (toFixedNum decimals curr)) bars.

(** The column found, by its position; [None] is [null]. *)
Fixpoint closestFrom (i : nat) (closest : option nat) (cols : list ChartColumn) (v : Q) : option nat :=
  match cols with
  | [] => closest
  | c :: cols => if Qle_bool (step c) v then closestFrom (S i) (Some i) cols v else closest
  end.
Definition findClosestSmallerStep (cols : list ChartColumn) (v : Q) : option nat := closestFrom 0 None cols v.

Definition increment (c : ChartColumn) : ChartColumn := c <| value := S (value c) |>.

Definition count (cols : list ChartColumn) (v : Q) : exec (list ChartColumn) :=
  match findClosestSmallerStep cols v with
  | Some i => Ret (alter increment i cols)
  | None => Throw (TypeError "Cannot read properties of null (reading 'value')")
  end.

Fixpoint countAll (cols : list ChartColumn) (vs : list Q) : exec (list ChartColumn) :=
  match vs with
  | [] => Ret cols
  | v :: vs => cols ← count cols v; countAll cols vs
  end.

Definition update (cols : list ChartColumn) (vs : list Q) : exec (list ChartColumn) :=
  countAll ((fun c => c <| value := 0 |>) <$> cols) vs.


(** * Texts: pipes *)

Record SecDurationConfig := mkSecConfig {
  severe : option Q;
  warn : option Q;
  default_ : option Q;
  color : bool;
  onlySeconds : bool;
  undefinedAlternative : option string;
  includeMinutes : bool;
  includeHours : bool;
  colors : option (string * string * string);
  valueIsZeroFn : option string
}.

Definition SEC_CONFIG_DEFAULT_PALETTE : string * string * string := ("warn", "orange", "error").

Definition baseConfig : SecDurationConfig :=
  mkSecConfig (Some 1%Q) (Some (3 # 10)) (Some (1 # 10)) false false None false false
    (Some SEC_CONFIG_DEFAULT_PALETTE) None.

(** The number that is written, the most decimals it may have, and its unit. *)
Definition secUnit (c : SecDurationConfig) (v : Q) : Q * nat * string :=
  let ge x := Qle_bool x v in
  let lt x := negb (Qle_bool x v) in
  if (ge 1%Q && negb (includeMinutes c)) || (includeMinutes c && lt 60%Q && ge 1%Q) || onlySeconds c || lt 0%Q
  then (v, 2, "s")
  else if ge 60%Q && includeMinutes c
  then if includeHours c && ge 3600%Q then ((v / 3600)%Q, 0, "h") else ((v / 60)%Q, 0, "m")
  else if ge (1 # 1000)%Q then ((v * 1000)%Q, 2, "ms")
  else if ge (1 # 1000000)%Q then ((v * 1000000)%Q, 2, "μs")
  else ((v * 1000000000)%Q, 2, "ns").

(** The character around the values of attributes. *)
Definition quote : string := String (Ascii.ascii_of_nat 34) "".
Definition span (k response : string) : string :=
  "<span class=" +:+ quote +:+ k +:+ quote +:+ ">" +:+ response +:+ "</span>".

Section Text.
(** Angular's [formatNumber] in the 'en-US' locale, with at most so many decimals. *)
Context (formatNumber : Q -> nat -> string).

(** [value >= config.severe]: false for a bound that is not configured. *)
Definition reachesBound (v : Q) (bound : option Q) : bool :=
  match bound with Some b => Qle_bool b v | None => false end.

(** [None] is [undefined], for a value that is missing. *)
Definition secDuration (v : option Q) (c : SecDurationConfig) : option string :=
  match v with
  | None => undefinedAlternative c
  | Some v =>
      if Qeq_bool v 0 then Some (default "0s" (valueIsZeroFn c))
      else
        let '(n, d, unit) := secUnit c v in
        let response := formatNumber n d +:+ unit in
        let '(c0, c1, c2) := default SEC_CONFIG_DEFAULT_PALETTE (colors c) in
        Some (if negb (color c) then response
              else if reachesBound v (severe c) then span c2 response
              else if reachesBound v (warn c) then span c1 response
              else if reachesBound v (default_ c) then span c0 response
              else response)
  end.
End Text.

Definition KB_FACTOR : Z := 1024.
Definition MB_FACTOR : Z := 1048576.
Definition GB_FACTOR : Z := 1073741824.

(** The number of a size, its unit and its class. *)
Definition sizeUnit (v : Z) : Q * string * option string :=
  if (v <? 1000)%Z then (inject_Z v, "B", None)
  else if (v <? 1000000)%Z then ((inject_Z v / inject_Z KB_FACTOR)%Q, "KB", Some "warn")
  else if (v <? 1000000000)%Z then ((inject_Z v / inject_Z MB_FACTOR)%Q, "MB", Some "error")
  else ((inject_Z v / inject_Z GB_FACTOR)%Q, "GB", Some "error").

Definition addDecimals (n : Q) : string :=
  toFixed (if Qle_bool 10%Q n then if Qle_bool 100%Q n then 0 else 1 else 2) n.

Definition size (v : Z) (wrapInHTML : bool) : string :=
  match sizeUnit v with
  | (_, unit, None) => showZ v +:+ " " +:+ unit
  | (n, unit, Some k) =>
      let response := addDecimals n +:+ " " +:+ unit in
      if wrapInHTML then span k response else response
  end.

(** The result is a text, or the number itself. *)
Definition thousand (v : Z) : string + Z :=
  if (ONE_MILLION <=? v)%Z then inl (toFixed 0 (inject_Z v / inject_Z ONE_MILLION) +:+ "m")
  else if (ONE_THOUSAND <=? v)%Z then inl (toFixed 0 (inject_Z v / inject_Z ONE_THOUSAND) +:+ "k")
  else inr v.

Definition plural (v : Z) (suffix : string) : string := if (v =? 1)%Z then "" else suffix.

Definition truncateMid (v : option string) (firstSlice secondSlice : nat) : string :=
  match v with
  | None => ""
  | Some v =>
      if firstSlice + secondSlice <? String.length v
      then String.substring 0 firstSlice v +:+ "..." +:+
           String.substring (String.length v - secondSlice) (String.length v) v
      else v
  end.


(** * The remembered expansion: components/mina-json-viewer *)

(** [ExpandTracking]: the expanded keys with what is expanded below them. *)
Inductive ExpandTracking := Tracking (keys : list (string * ExpandTracking)).

Definition children (t : ExpandTracking) : list (string * ExpandTracking) := let '(Tracking l) := t in l.

Definition lookupKey {A} (k : string) (l : list (string * A)) : option A :=
  snd <$> List.find (fun p => bool_decide (p.1 = k)) l.

Definition deleteKey {A} (k : string) (l : list (string * A)) : list (string * A) :=
  List.filter (fun p => negb (bool_decide (p.1 = k))) l.

(** [Object.keys(value)] with their values; an array has its indices as keys. *)
Definition entries (v : Json) : list (string * Json) :=
  match v with
  | JObj fields => fields
  | JArr l => mapi (fun i x => (showNat i, x)) l
  | _ => []
  end.

Definition expandable (v : Json) : bool := match v with JObj _ | JArr _ => true | _ => false end.

(** [toggleAll(true)] with [appendExpandingRecursively]. *)
Fixpoint expandAll (v : Json) : ExpandTracking :=
  match v with
  | JObj fields =>
      Tracking ((fix go l := match l with
                             | [] => []
                             | (k, x) :: l => if expandable x then (k, expandAll x) :: go l else go l
                             end) fields)
  | JArr l =>
      Tracking ((fix go i l := match l with
                               | [] => []
                               | x :: l => if expandable x then (showNat i, expandAll x) :: go (S i) l else go (S i) l
                               end) 0 l)
  | _ => Tracking []
  end.

Definition toggleAll (expand : bool) (json : Json) : ExpandTracking := if expand then expandAll json else Tracking [].

(** [appendExpandingToExpandTrackingElement] for an expandable segment. *)
Definition onExpandToggle (k : string) (t : ExpandTracking) : ExpandTracking :=
  match lookupKey k (children t) with
  | Some _ => Tracking (deleteKey k (children t))
  | None => Tracking (children t ++ [(k, Tracking [])])
  end.

(** * The histogram counts every value once *)

(** The columns from the first one whose steps are at most [v]. *)
Fixpoint below (v : Q) (cols : list ChartColumn) : nat :=
  match cols with
  | [] => 0
  | c :: cols => if Qle_bool (step c) v then S (below v cols) else 0
  end.

Lemma closestFrom_below v cols : forall i acc,
  closestFrom i acc cols v = match below v cols with 0 => acc | S n => Some (i + n) end.
Proof.
  induction cols as [|c cols IH]; intros i acc; [done|]. cbn. destruct (Qle_bool (step c) v); [|done].
  rewrite IH. destruct (below v cols); f_equal; lia.
Qed.

Lemma closest_below v cols : findClosestSmallerStep cols v = match below v cols with 0 => None | S n => Some n end.
Proof. apply closestFrom_below. Qed.

Lemma below_steps v cols cols' : step <$> cols = step <$> cols' -> below v cols = below v cols'.
Proof.
  revert cols'. induction cols as [|c cols IH]; intros [|c' cols'] E; try done.
  rewrite !fmap_cons in E. injection E as E1 E2. cbn. by rewrite E1, (IH cols' E2).
Qed.

Lemma below_length v cols : below v cols <= length cols.
Proof. induction cols as [|c cols IH]; cbn; [lia|]. destruct (Qle_bool _ _); lia. Qed.

Definition ascending (cols : list ChartColumn) : Prop := forall i c c',
  cols !! i = Some c -> cols !! S i = Some c' -> (step c <= step c')%Q.

(** With ascending steps the columns below a value are those with a step below it. *)
Lemma below_lookup v cols i c : ascending cols -> cols !! i = Some c ->
  i < below v cols <-> (step c <= v)%Q.
Proof.
  revert i. induction cols as [|d cols IH]; intros i Ha Hc; [done|].
  assert (ascending cols) as Ha' by (intros j; apply (Ha (S j))).
  assert (forall j e, cols !! j = Some e -> (step d <= step e)%Q) as Hd.
  { clear IH Hc. induction j as [|j IHj]; intros e He; [by apply (Ha 0)|].
    destruct (cols !! j) as [e'|] eqn:E'; [|apply lookup_ge_None in E'; apply lookup_lt_Some in He; lia].
    eapply Qle_trans; [by apply IHj|]. by apply (Ha (S j)). }
  cbn. destruct (Qle_bool (step d) v) eqn:E.
  - apply Qle_bool_iff in E. destruct i as [|i]; [injection Hc as <-; split; [done|lia]|].
    rewrite <- (IH i Ha' Hc). lia.
  - assert (~ (step d <= v)%Q) as Hn by (rewrite <- Qle_bool_iff; by rewrite E).
    split; [lia|]. intros Hle. destruct Hn. destruct i as [|i]; [by injection Hc as <-|].
    eapply Qle_trans; [by apply (Hd i)|done].
Qed.

Definition choose (cols : list ChartColumn) (i : nat) (v : Q) : bool :=
  bool_decide (findClosestSmallerStep cols v = Some i).

Lemma alter_step (i : nat) (cols : list ChartColumn) : step <$> alter increment i cols = step <$> cols.
Proof.
  apply list_eq. intros k. rewrite !list_lookup_fmap. destruct (decide (i = k)) as [->|].
  - rewrite list_lookup_alter_eq. by destruct (cols !! k).
  - by rewrite list_lookup_alter_ne.
Qed.

Lemma closest_lt cols v n : findClosestSmallerStep cols v = Some n -> n < length cols.
Proof. rewrite closest_below. pose proof (below_length v cols). destruct (below v cols); [done|]. intros [= <-]. lia. Qed.

Lemma alter_sum (i : nat) (cols : list ChartColumn) : i < length cols ->
  sum_list (value <$> alter increment i cols) = S (sum_list (value <$> cols)).
Proof.
  revert i. induction cols as [|c cols IH]; intros i Hi; [cbn in Hi; lia|]. destruct i as [|i]; [done|].
  change (alter increment (S i) (c :: cols)) with (c :: alter increment i cols). rewrite !fmap_cons. cbn [sum_list foldr].
  change (foldr Nat.add 0) with sum_list. rewrite IH by (cbn in Hi; lia). lia.
Qed.

Lemma countAll_spec vs : forall cols, (forall v, v ∈ vs -> is_Some (findClosestSmallerStep cols v)) ->
  exists cols', countAll cols vs = Ret cols' /\ step <$> cols' = step <$> cols /\
    sum_list (value <$> cols') = sum_list (value <$> cols) + length vs /\
    forall i c, cols' !! i = Some c -> exists c0, cols !! i = Some c0 /\ value c = value c0 + countIf (choose cols i) vs.
Proof.
  induction vs as [|v vs IH]; intros cols Hv; cbn [countAll].
  { exists cols. split_and!; [done|done|cbn; lia|]. intros i c Hc. exists c. split; [done|]. cbn. lia. }
  destruct (Hv v ltac:(left)) as [n Hn]. unfold count. rewrite Hn. cbn [mbind exec_bind].
  destruct (IH (alter increment n cols)) as (cols' & -> & Hs & Hsum & Hval).
  { intros x Hx. rewrite closest_below, (below_steps x _ cols (alter_step n cols)), <- closest_below. apply Hv. by right. }
  exists cols'. split; [done|]. split; [by rewrite Hs, alter_step|].
  split; [rewrite Hsum, alter_sum by (exact (closest_lt _ _ _ Hn)); cbn; lia|]. intros i c Hc.
  destruct (Hval i c Hc) as (c1 & Hc1 & ->).
  assert (countIf (choose (alter increment n cols) i) vs = countIf (choose cols i) vs) as ->.
  { unfold countIf. f_equal. apply List.filter_ext. intros x. unfold choose.
    by rewrite !closest_below, (below_steps x _ cols (alter_step n cols)). }
  rewrite countIf_cons. unfold choose at 2. rewrite Hn. destruct (decide (n = i)) as [->|Hne].
  - rewrite list_lookup_alter_eq in Hc1. apply fmap_Some in Hc1 as (c0 & H0 & ->). exists c0. split; [done|].
    rewrite bool_decide_true by done. cbn. lia.
  - rewrite list_lookup_alter_ne in Hc1 by done. exists c1. split; [done|].
    rewrite bool_decide_false by congruence. lia.
Qed.

Lemma barsFrom_spec x n : (0 < x)%Q -> forall m k i, k + m = S n -> (i == inject_Z (Z.of_nat k) * x)%Q ->
  exists bs, barsFrom (S m) i x (inject_Z (Z.of_nat n) * x)%Q = Some bs /\ length bs = m /\
    forall j b, bs !! j = Some b -> (b == inject_Z (Z.of_nat (k + j)) * x)%Q.
Proof.
  intros Hx. induction m as [|m IH]; intros k i Hk Hi; cbn [barsFrom].
  - destruct (Qle_bool i _) eqn:E; [|by exists []]. apply Qle_bool_iff in E. rewrite Hi in E.
    exfalso. apply Qmult_le_r in E; [|done]. rewrite <- Zle_Qle in E. lia.
  - assert (Qle_bool i (inject_Z (Z.of_nat n) * x) = true) as ->.
    { apply Qle_bool_iff. rewrite Hi. apply Qmult_le_r; [done|]. rewrite <- Zle_Qle. lia. }
    destruct (IH (S k) (i + x)%Q) as (bs & Hb & Hl & Hbs); [lia| |].
    { rewrite Hi, Nat2Z.inj_succ. unfold Z.succ. rewrite inject_Z_plus. ring. }
    cbn [barsFrom] in Hb. rewrite Hb. exists (i :: bs). split; [done|]. split; [cbn; by rewrite Hl|].
    intros [|j] b Hj; [injection Hj as <-; by rewrite Nat.add_0_r|].
    rewrite <- Nat.add_succ_comm. by apply Hbs.
Qed.

Lemma getBars_spec x n : (0 < x)%Q -> exists bs, getBars x n = Some bs /\ length bs = S n /\ head bs = Some 0%Q /\
  forall j b, bs !! j = Some b -> (b == inject_Z (Z.of_nat j) * x)%Q.
Proof.
  intros Hx. destruct (barsFrom_spec x n Hx n 1 x) as (bs & Hb & Hl & Hbs); [lia|by rewrite Qmult_1_l|].
  unfold getBars. rewrite Hb. exists (0%Q :: bs). split; [done|]. split; [cbn; by rewrite Hl|]. split; [done|].
  intros [|j] b Hj; [injection Hj as <-; by rewrite Qmult_0_l|]. by apply Hbs.
Qed.

Lemma pow10_pos d : (0 < inject_Z (10 ^ Z.of_nat d))%Q.
Proof. change 0%Q with (inject_Z 0). rewrite <- Zlt_Qlt. lia. Qed.

Lemma toFixedNum_mono d a b : (a <= b)%Q -> (toFixedNum d a <= toFixedNum d b)%Q.
Proof.
  intros H. pose proof (pow10_pos d) as Hp. unfold toFixedNum. apply Qle_shift_div_l; [done|].
  rewrite Qmult_comm, Qmult_div_r by (intros E; by rewrite E in Hp).
  rewrite <- Zle_Qle. apply Qfloor_resp_le. apply Qplus_le_compat; [|apply Qle_refl]. by apply Qmult_le_compat_r; [|apply Qlt_le_weak].
Qed.

Lemma toFixedNum_0 d : (toFixedNum d 0 == 0)%Q.
Proof.
  unfold toFixedNum. set (p := inject_Z (10 ^ Z.of_nat d)). assert (Qfloor (0 * p + (1 # 2)) = 0%Z) as ->; [|unfold Qdiv; ring].
  rewrite (Qfloor_comp _ (1 # 2)) by ring. done.
Qed.

Lemma closest_steps v cols cols' : step <$> cols = step <$> cols' ->
  findClosestSmallerStep cols v = findClosestSmallerStep cols' v.
Proof. intros E. by rewrite !closest_below, (below_steps v _ _ E). Qed.

Lemma countAll_throws vs : forall cols, Exists (fun v => findClosestSmallerStep cols v = None) vs ->
  exists err, countAll cols vs = Throw err.
Proof.
  induction vs as [|v vs IH]; intros cols Hv; [by apply Exists_nil in Hv|]. cbn [countAll]. unfold count.
  destruct (findClosestSmallerStep cols v) as [i|] eqn:E; [|by eexists]. cbn [mbind exec_bind].
  apply IH. apply Exists_cons in Hv as [Hv|Hv]; [congruence|]. eapply Exists_impl; [exact Hv|].
  intros x Hx. cbn. by rewrite (closest_steps x _ cols (alter_step i cols)).
Qed.

(** The column of a value, with ascending steps. *)
Lemma choose_bucket cols i c v : ascending cols -> cols !! i = Some c ->
  choose cols i v = Qle_bool (step c) v && match cols !! S i with
                                           | Some c' => negb (Qle_bool (step c') v)
                                           | None => true
                                           end.
Proof.
  intros Ha Hc. unfold choose. rewrite closest_below. pose proof (below_lookup v cols i c Ha Hc) as H1.
  pose proof (below_length v cols) as Hl. apply Bool.eq_iff_eq_true.
  rewrite bool_decide_eq_true, andb_true_iff, Qle_bool_iff, <- H1.
  destruct (cols !! S i) as [c'|] eqn:E.
  - pose proof (below_lookup v cols (S i) c' Ha E) as H2. rewrite negb_true_iff, <- not_true_iff_false, Qle_bool_iff, <- H2.
    destruct (below v cols) as [|b]; [split; [done|lia]|]. split; [intros [= ->]; lia|]. intros [? ?]. f_equal. lia.
  - apply lookup_ge_None in E. destruct (below v cols) as [|b]; [split; [done|lia]|].
    split; [intros [= ->]; lia|]. intros [? ?]. f_equal. lia.
Qed.

Lemma columns_step xStep um d bars i :
  step <$> initChartColumns xStep um d bars !! i = toFixedNum d <$> bars !! i.
Proof. unfold initChartColumns, mapi. rewrite list_lookup_imap. by destruct (bars !! i). Qed.

(** The steps of the columns: they ascend, and start at 0. *)
Lemma columns_ascending xStep um d n bars cols : (0 < xStep)%Q -> getBars xStep n = Some bars ->
  step <$> cols = step <$> initChartColumns xStep um d bars ->
  ascending cols /\ (forall v, 0 <= v -> is_Some (findClosestSmallerStep cols v))%Q /\
  (forall v, v < 0 -> findClosestSmallerStep cols v = None)%Q.
Proof.
  intros Hx Hb Hs. destruct (getBars_spec xStep n Hx) as (bs & Hb' & Hl & Hh & Hbs). rewrite Hb in Hb'. injection Hb' as <-.
  assert (forall i c, cols !! i = Some c -> exists b, bars !! i = Some b /\ step c = toFixedNum d b) as Hc.
  { intros i c Hi. assert (step <$> cols !! i = toFixedNum d <$> bars !! i) as E.
    { by rewrite <- (columns_step xStep um d bars i), <- !list_lookup_fmap, Hs. }
    rewrite Hi in E. destruct (bars !! i) as [b|]; [|done]. injection E as E. eauto. }
  assert (exists c cs, cols = c :: cs /\ (step c == 0)%Q) as (c & cs & -> & H0).
  { destruct cols as [|c cs].
    - destruct bars as [|b bars]; [done|]. apply (f_equal length) in Hs. rewrite !length_fmap in Hs.
      unfold initChartColumns, mapi in Hs. by rewrite length_imap in Hs.
    - exists c, cs. split; [done|]. destruct (Hc 0 c eq_refl) as (b & Hb0 & ->).
      destruct bars as [|b' bars]; [done|]. injection Hb0 as ->. injection Hh as ->. apply toFixedNum_0. }
  split_and!.
  - intros i c1 c2 H1 H2. destruct (Hc i c1 H1) as (b1 & E1 & ->), (Hc (S i) c2 H2) as (b2 & E2 & ->).
    apply toFixedNum_mono. rewrite (Hbs _ _ E1), (Hbs _ _ E2). apply Qmult_le_r; [done|]. rewrite <- Zle_Qle. lia.
  - intros v Hv. rewrite closest_below. cbn. rewrite (proj2 (Qle_bool_iff (step c) v)) by (by rewrite H0). by eexists.
  - intros v Hv. rewrite closest_below. cbn. destruct (Qle_bool (step c) v) eqn:E; [|done].
    apply Qle_bool_iff in E. rewrite H0 in E. exfalso. lra.
Qed.

(** With a positive step the bars end at the configured number of ticks, and
    every value that is not negative is counted in exactly one column: the last
    one whose step it reaches.  A negative value throws. *)
Theorem bar_graph_counts xStep n um d vs : (0 < xStep)%Q ->
  exists bars, getBars xStep n = Some bars /\ length bars = S n /\
  let cols := initChartColumns xStep um d bars in
  (Forall (fun v => 0 <= v)%Q vs ->
   exists cols', update cols vs = Ret cols' /\ length cols' = S n /\ sum_list (value <$> cols') = length vs /\
     forall i c, cols' !! i = Some c ->
       value c = countIf (fun v => Qle_bool (step c) v && match cols' !! S i with
                                                          | Some c' => negb (Qle_bool (step c') v)
                                                          | None => true
                                                          end) vs) /\
  (Exists (fun v => v < 0)%Q vs -> exists err, update cols vs = Throw err).
Proof.
  intros Hx. destruct (getBars_spec xStep n Hx) as (bars & Hb & Hl & _). exists bars. split; [done|]. split; [done|].
  cbn zeta. set (cols := initChartColumns xStep um d bars). unfold update.
  set (cols0 := (fun c => c <| value := 0 |>) <$> cols).
  assert (step <$> cols0 = step <$> cols) as Hs by (unfold cols0; rewrite <- list_fmap_compose; by apply list_fmap_ext).
  destruct (columns_ascending xStep um d n bars cols0 Hx Hb Hs) as (_ & Hpos & Hneg). split.
  - intros Hv. destruct (countAll_spec vs cols0) as (cols' & Hu & Hst & Hsum & Hval).
    { intros v Hin. apply Hpos. rewrite Forall_forall in Hv. by apply Hv. }
    exists cols'. split; [done|]. split.
    { apply (f_equal length) in Hst. rewrite !length_fmap in Hst. rewrite Hst. unfold cols0, cols, initChartColumns, mapi.
      by rewrite length_fmap, length_imap. }
    split.
    { rewrite Hsum. unfold cols0. rewrite <- list_fmap_compose.
      assert (forall l : list ChartColumn, sum_list (value ∘ (fun c => c <| value := 0 |>) <$> l) = 0) as Hz.
      { induction l as [|c l IH]; [done|]. rewrite fmap_cons. exact IH. }
      by rewrite Hz. }
    intros i c Hc. destruct (Hval i c Hc) as (c0 & H0 & ->).
    assert (value c0 = 0) as -> by (unfold cols0 in H0; rewrite list_lookup_fmap in H0; apply fmap_Some in H0 as (? & _ & ->); done).
    destruct (columns_ascending xStep um d n bars cols' Hx Hb) as (Ha & _); [by rewrite Hst, Hs|].
    cbn. unfold countIf. f_equal. apply List.filter_ext. intros v. rewrite <- (choose_bucket cols' i c v Ha Hc).
    unfold choose. by rewrite (closest_steps v cols0 cols').
  - intros Hv. apply countAll_throws. eapply Exists_impl; [exact Hv|]. intros v. apply Hneg.
Qed.

(** * The numbers that are written *)

Definition secondsOf (unit : string) : Q :=
  if bool_decide (unit = "h") then 3600%Q else if bool_decide (unit = "m") then 60%Q
  else if bool_decide (unit = "s") then 1%Q else if bool_decide (unit = "ms") then (1 # 1000)%Q
  else if bool_decide (unit = "μs") then (1 # 1000000)%Q else (1 # 1000000000)%Q.

Ltac split_Qle :=
  repeat match goal with |- context [Qle_bool ?a ?b] =>
    let E := fresh "E" in destruct (Qle_bool a b) eqn:E;
    [apply Qle_bool_iff in E|apply not_true_iff_false in E; rewrite Qle_bool_iff in E; apply Qnot_le_lt in E] end.

Ltac compute_unit f :=
  match goal with |- context [f ?u] => let r := eval vm_compute in (f u) in change (f u) with r end.

(** A duration is written exactly, with a number of at least 1 except for
    nanoseconds, below 1000 for parts of a second, and below 60 for seconds when
    minutes and for minutes when hours are included. *)
Theorem sec_duration_unit c v : (0 < v)%Q -> onlySeconds c = false ->
  let '(n, _, unit) := secUnit c v in
  (n * secondsOf unit == v)%Q /\ (unit <> "ns" -> 1 <= n)%Q /\
  (unit ∈ ["ms"; "μs"; "ns"] -> n < 1000)%Q /\
  (unit = "s" -> includeMinutes c = true -> n < 60)%Q /\ (unit = "m" -> includeHours c = true -> n < 60)%Q.
Proof.
  intros Hv Ho. unfold secUnit. rewrite Ho. destruct (includeMinutes c), (includeHours c); split_Qle; cbn [andb orb negb];
    try (exfalso; lra); compute_unit secondsOf;
    (split; [field|split_and!; intros; try done; try (exfalso; set_solver); try lra]).
  all: try (apply Qlt_shift_div_r; lra); try (apply Qle_shift_div_l; lra).
Qed.

Definition factorOf (unit : string) : Z :=
  if bool_decide (unit = "B") then 1 else if bool_decide (unit = "KB") then KB_FACTOR
  else if bool_decide (unit = "MB") then MB_FACTOR else GB_FACTOR.

(** A size is written exactly, with a number below 1000 except for gigabytes; the
    units change at powers of 1000 and divide by powers of 1024, so that the number
    can be less than 1, but is more than 0.93. *)
Theorem size_unit v : (0 <= v)%Z ->
  let '(n, unit, _) := sizeUnit v in
  (n * inject_Z (factorOf unit) == inject_Z v)%Q /\ (unit <> "GB" -> n < 1000)%Q /\
  (unit <> "B" -> 93 # 100 < n)%Q.
Proof.
  intros Hv. unfold sizeUnit.
  destruct (Z.ltb_spec v 1000) as [H1|H1]; [|destruct (Z.ltb_spec v 1000000) as [H2|H2];
    [|destruct (Z.ltb_spec v 1000000000) as [H3|H3]]]; compute_unit factorOf;
    repeat match goal with
           | H : (v < _)%Z |- _ => rewrite Zlt_Qlt in H
           | H : (_ <= v)%Z |- _ => rewrite Zle_Qle in H
           end;
    generalize dependent (inject_Z v); intros q **; unfold KB_FACTOR, MB_FACTOR, GB_FACTOR, inject_Z in *;
    (split; [field|split; intros; try done]);
    try (apply Qlt_shift_div_r; lra); try (apply Qlt_shift_div_l; lra); try lra.
Qed.

(** * Shortened names *)

Lemma substring_length n m s : String.length (String.substring n m s) = min m (String.length s - n).
Proof.
  revert n m. induction s as [|c s IH]; intros n m; [destruct n, m; done|].
  destruct n as [|n], m as [|m]; cbn; rewrite ?IH; try lia; f_equal; lia.
Qed.

Lemma string_app_length s t : String.length (s +:+ t) = String.length s + String.length t.
Proof. induction s as [|c s IH]; [done|]. change (S (String.length (s +:+ t)) = S (String.length s + String.length t)). by rewrite IH. Qed.

(** A name that is not longer than the two slices is kept, any other has the length
    of the slices and three dots: names one or two characters longer than the
    slices get longer, or stay as long, by being shortened. *)
Theorem truncate_mid_length v a b : let t := truncateMid (Some v) a b in
  (String.length v <= a + b -> t = v) /\
  (a + b < String.length v -> String.length t = a + b + 3 /\
     (String.length v < String.length t <-> String.length v <= a + b + 2)).
Proof.
  cbn zeta. unfold truncateMid. destruct (Nat.ltb_spec (a + b) (String.length v)) as [H|H]; split; intros H'; try done; try lia.
  rewrite !string_app_length, !substring_length. cbn [String.length]. lia.
Qed.

(** * Expanding a document *)

Fixpoint valueAt (v : Json) (path : list string) : option Json :=
  match path with
  | [] => Some v
  | k :: path => lookupKey k (entries v) ≫= fun x => valueAt x path
  end.

Fixpoint trackedAt (t : ExpandTracking) (path : list string) : option ExpandTracking :=
  match path with
  | [] => Some t
  | k :: path => lookupKey k (children t) ≫= fun t => trackedAt t path
  end.

Definition expandedEntry (p : string * Json) : option (string * ExpandTracking) :=
  if expandable p.2 then Some (p.1, expandAll p.2) else None.

Lemma expandAll_children v : children (expandAll v) = omap expandedEntry (entries v).
Proof.
  destruct v as [|b|q|t|l|fields]; try done; cbn [expandAll children entries].
  - unfold mapi. change (imap (fun i x => (showNat i, x)) l) with (imap (fun i x => (showNat (0 + i), x)) l).
    generalize 0. induction l as [|x l IH]; intros i; [done|]. cbn. rewrite Nat.add_0_r. unfold expandedEntry at 1. cbn.
    assert (imap ((fun i0 y => (showNat (i + i0), y)) ∘ S) l = imap (fun i0 y => (showNat (S i + i0), y)) l) as ->.
    { apply imap_ext. intros j y _. unfold compose. by rewrite Nat.add_succ_comm. }
    rewrite (IH (S i)). by destruct (expandable x).
  - induction fields as [|[k x] fields IH]; [done|]. cbn. unfold expandedEntry at 1. cbn. rewrite IH. by destruct (expandable x).
Qed.

Lemma lookupKey_omap k (l : list (string * Json)) : NoDup (fst <$> l) ->
  lookupKey k (omap expandedEntry l) = lookupKey k l ≫= fun x => if expandable x then Some (expandAll x) else None.
Proof.
  unfold lookupKey. induction l as [|[k' x] l IH]; intros Hn; [done|]. rewrite fmap_cons in Hn.
  apply NoDup_cons in Hn as [Hk Hn]. cbn. unfold expandedEntry at 1. cbn. case_bool_decide as E; cbn.
  - subst k'. destruct (expandable x) eqn:Ex; cbn; [by rewrite bool_decide_true|].
    rewrite (IH Hn). destruct (List.find _ l) as [[k2 y]|] eqn:F; [|done].
    apply find_Some_iff in F as [Hin Hb]. apply bool_decide_eq_true in Hb. cbn in Hb. subst k2.
    destruct Hk. by apply (list_elem_of_fmap_2 fst l (k, y)).
  - destruct (expandable x); cbn; [|by apply IH]. rewrite bool_decide_false by done. by apply IH.
Qed.

(** Expanding a document remembers exactly its objects and arrays, at every depth,
    and collapsing it forgets them all. *)
Theorem expand_all_tracks json path : (forall p x, valueAt json p = Some x -> NoDup (fst <$> entries x)) -> path <> [] ->
  (is_Some (trackedAt (toggleAll true json) path) <-> exists x, valueAt json path = Some x /\ expandable x = true) /\
  trackedAt (toggleAll false json) path = None.
Proof.
  intros Hw Hp. cbn. split; [|by destruct path].
  revert json Hw. induction path as [|k path IH]; intros json Hw; [done|]. cbn [trackedAt valueAt].
  rewrite expandAll_children, lookupKey_omap by (by apply (Hw [])).
  destruct (lookupKey k (entries json)) as [x|] eqn:Ek; cbn; [|split; [by intros [? ?]|by intros (? & ? & _)]].
  destruct path as [|k' path].
  - cbn [trackedAt valueAt]. destruct (expandable x) eqn:Ex; cbn [mbind option_bind].
    + split; [intros _; by exists x|by eexists].
    + split; [by intros [? ?]|]. intros (y & [= <-] & Hy). congruence.
  - destruct (expandable x) eqn:Ex; cbn [mbind option_bind].
    + apply IH; [done|]. intros p y Hy. apply (Hw (k :: p)). cbn. by rewrite Ek.
    + split; [by intros [? ?]|]. intros (y & Hy & _). by destruct x.
Qed.

(** Expanding and collapsing a segment that was collapsed leaves the tracking as it
    was; of an expanded one, what was expanded below it is forgotten. *)
Theorem expand_toggle_twice k t :
  (lookupKey k (children t) = None -> onExpandToggle k (onExpandToggle k t) = t) /\
  (forall x, lookupKey k (children t) = Some x ->
     lookupKey k (children (onExpandToggle k (onExpandToggle k t))) = Some (Tracking [])).
Proof.
  destruct t as [l]. cbn [children]. unfold onExpandToggle. cbn [children].
  assert (forall (l : list (string * ExpandTracking)) y, lookupKey k l = None -> lookupKey k (l ++ [(k, y)]) = Some y) as Happ.
  { unfold lookupKey. clear l. intros l y. induction l as [|p l IH]; cbn; [by rewrite bool_decide_true|].
    case_bool_decide; cbn; [done|exact IH]. }
  split.
  - intros Hn. rewrite Hn. cbn [children]. rewrite (Happ _ _ Hn). f_equal. unfold deleteKey.
    rewrite List.filter_app. cbn. rewrite bool_decide_true by done. cbn. rewrite app_nil_r. apply filter_true_id.
    intros p Hin. apply negb_true_iff, bool_decide_eq_false. intros E. unfold lookupKey in Hn. apply fmap_None in Hn.
    rewrite find_None_iff in Hn. specialize (Hn p Hin). by apply bool_decide_eq_false in Hn.
  - intros x Hx. rewrite Hx. cbn [children].
    assert (lookupKey k (deleteKey k l) = None) as Hd.
    { unfold lookupKey. apply fmap_None, find_None_iff. intros p Hin. apply elem_of_list_filter in Hin as [_ Hp].
      by apply negb_true_iff in Hp. }
    rewrite Hd. cbn [children]. by apply Happ.
Qed.

(** * Concrete inputs *)

Lemma bar_graph_counts_witness : exists bars cols', getBars 1 2 = Some bars /\
  update (initChartColumns 1 "s" 1 bars) [(1 # 2)%Q; 5%Q; 1%Q; (3 # 2)%Q] = Ret cols' /\ value <$> cols' = [1; 2; 1] /\
  sum_list (value <$> cols') = 4.
Proof.
  destruct (bar_graph_counts 1 2 "s" 1 [(1 # 2)%Q; 5%Q; 1%Q; (3 # 2)%Q]) as (bars & Hb & _ & H & _); [reflexivity|].
  destruct H as (cols' & Hu & _ & Hs & _); [repeat constructor; discriminate|].
  exists bars, cols'. split; [exact Hb|]. split; [exact Hu|]. split; [|exact Hs].
  vm_compute in Hb. injection Hb as <-. vm_compute in Hu. injection Hu as <-. reflexivity.
Defined.

Lemma sec_duration_unit_witness : secUnit baseConfig (1 # 4) = (((1 # 4) * 1000)%Q, 2, "ms") /\ (((1 # 4) * 1000) < 1000)%Q.
Proof.
  split; [reflexivity|]. pose proof (sec_duration_unit baseConfig (1 # 4) eq_refl eq_refl) as (_ & _ & H & _).
  apply H. left.
Defined.

Lemma size_unit_witness : (93 # 100 < inject_Z 1000 / 1024)%Q.
Proof. pose proof (size_unit 1000 ltac:(discriminate)) as (_ & _ & H). apply H. discriminate. Defined.

Definition demoJson : Json := JObj [("a", JArr [JNull; JObj []]); ("b", JBool true)].

Lemma expand_all_tracks_witness : is_Some (trackedAt (toggleAll true demoJson) ["a"; "1"]).
Proof.
  apply (expand_all_tracks demoJson ["a"; "1"]).
  - intros p x Hx. destruct p as [|k p]; [injection Hx as <-; apply (bool_decide_unpack _); reflexivity|].
    cbn in Hx. unfold lookupKey in Hx. cbn in Hx. repeat case_bool_decide; cbn in Hx; try discriminate Hx.
    + destruct p as [|k2 p]; [injection Hx as <-; apply (bool_decide_unpack _); reflexivity|].
      cbn in Hx. unfold lookupKey in Hx. cbn in Hx. repeat case_bool_decide; cbn in Hx; try discriminate Hx;
        destruct p; try discriminate Hx; injection Hx as <-; apply (bool_decide_unpack _); reflexivity.
    + destruct p; [injection Hx as <-|discriminate Hx]. apply (bool_decide_unpack _). reflexivity.
  - discriminate.
  - eexists. split; reflexivity.
Defined.

End SharedWidgets.
