(* ===== verification/Graph.v ===== *)
(** Undirected graphs given by a list of links between addresses: what it
    means for a traversal to return the connected components.  Shared by the
    reducer and the service of the network splits page, whose traversals differ
    (a queue of peers there, a recursive search over an adjacency map here). *)

From S2P Require Import Prelude.
From stdpp Require Export relations.

(** frontend/src/app/shared/types/network/splits/dashboard-splits-link.type.ts *)
Record DashboardSplitsLink := mkLink { source : string; target : string }.

#[export] Instance DashboardSplitsLink_eq_dec : EqDecision DashboardSplitsLink.
Proof. solve_decision. Defined.

Section Graph.
Context (links : list DashboardSplitsLink).

Definition linked (a b : string) : Prop :=
  exists l, l ∈ links /\ ((source l = a /\ target l = b) \/ (source l = b /\ target l = a)).

Definition connected : relation string := rtc linked.

(** [V] holds whole components only. *)
Definition closed (V : list string) : Prop := forall a b, linked a b -> a ∈ V -> b ∈ V.

Lemma linked_sym a b : linked a b -> linked b a.
Proof. intros (l & Hl & H). exists l. naive_solver. Qed.

Lemma connected_sym a b : connected a b -> connected b a.
Proof.
  induction 1 as [|a c b Hac _ IH]; [reflexivity|].
  eapply rtc_r; [exact IH|]. by apply linked_sym.
Qed.

Lemma connected_trans a b c : connected a b -> connected b c -> connected a c.
Proof. unfold connected. intros ??. by etrans. Qed.

Lemma closed_connected V a b : closed V -> connected a b -> a ∈ V -> b ∈ V.
Proof. intros HV. induction 1; eauto. Qed.

Lemma closed_nil : closed [].
Proof. intros a b _ H. by apply elem_of_nil in H. Qed.

(** A traversal from [a] that stops only at addresses visited before returns
    exactly the component of [a]. *)
Lemma explored_component (V : list string) a (c : list string) :
  closed V -> a ∉ V -> a ∈ c ->
  (forall b, b ∈ c -> connected a b) ->
  (forall b d, b ∈ c -> linked b d -> d ∈ c \/ d ∈ V) ->
  forall b, b ∈ c <-> connected a b.
Proof.
  intros HV HaV Hac Hsound Hclosed b. split; [apply Hsound|].
  intros Hab. revert b Hab. refine (rtc_ind_r (fun b => b ∈ c) a Hac _). intros b d Hab Hbd IH.
  destruct (Hclosed _ _ IH Hbd) as [|HdV]; [done|]. destruct HaV.
  eapply closed_connected; [done| |exact HdV]. apply connected_sym.
  eapply rtc_r; eauto.
Qed.

(** [comps] lists, once each, the components that make up [V]. *)
Record ComponentsOf (V : list string) (comps : list (list string)) : Prop := {
  comps_NoDup : NoDup (concat comps);
  comps_cover : forall x, x ∈ V <-> x ∈ concat comps;
  comps_class : forall c, c ∈ comps -> exists a, a ∈ c /\ forall b, b ∈ c <-> connected a b
}.

Lemma ComponentsOf_nil : ComponentsOf [] [].
Proof. split; cbn; [constructor|set_solver|set_solver]. Qed.

Lemma elem_of_concat (ls : list (list string)) x : x ∈ concat ls <-> exists l, l ∈ ls /\ x ∈ l.
Proof. rewrite list_elem_of_In, in_concat. setoid_rewrite list_elem_of_In. done. Qed.

Lemma ComponentsOf_closed V comps : ComponentsOf V comps -> closed V.
Proof.
  intros [_ Hc Hcl] a b Hab Ha. apply Hc in Ha. apply Hc.
  apply elem_of_concat in Ha as (c & Hin & Ha). apply elem_of_concat. exists c.
  split; [done|]. destruct (Hcl c Hin) as (r & _ & Hr). rewrite Hr in *.
  eapply rtc_r; eauto.
Qed.

Lemma ComponentsOf_snoc (V V' : list string) comps a (c : list string) :
  ComponentsOf V comps -> a ∉ V -> NoDup c ->
  (forall b, b ∈ c <-> connected a b) ->
  (forall x, x ∈ V' <-> x ∈ V \/ x ∈ c) ->
  ComponentsOf V' (comps ++ [c]).
Proof.
  intros HC Ha Hnd Hc HV'. pose proof (ComponentsOf_closed _ _ HC) as Hcl.
  destruct HC as [Hnd0 Hcov Hclass]. split.
  - rewrite concat_app. cbn. rewrite app_nil_r. apply NoDup_app. split_and!; try done.
    intros x Hx Hxc. apply Hcov in Hx. apply Ha.
    eapply closed_connected; [done| |exact Hx]. by apply connected_sym, Hc.
  - intros x. rewrite HV', concat_app, elem_of_app, <- Hcov. cbn. rewrite app_nil_r. done.
  - intros c' [Hc'|Hc']%elem_of_app; [by apply Hclass|].
    apply list_elem_of_singleton in Hc' as ->. exists a. split; [apply Hc; reflexivity|done].
Qed.

(** The answer expected of a component search over the addresses [nodes]. *)
Record IsComponents (nodes : list string) (comps : list (list string)) : Prop := {
  is_partition : Permutation (concat comps) nodes;
  is_nonempty : forall c, c ∈ comps -> c <> [];
  is_connected : forall a b, a ∈ nodes ->
    (exists c, c ∈ comps /\ a ∈ c /\ b ∈ c) <-> connected a b
}.

Lemma ComponentsOf_is V nodes comps :
  ComponentsOf V comps -> NoDup nodes -> (forall x, x ∈ V <-> x ∈ nodes) ->
  IsComponents nodes comps.
Proof.
  intros [Hnd Hcov Hcl] Hn HV. split.
  - apply NoDup_Permutation; [done..|]. intros x. by rewrite <- Hcov.
  - intros c Hc ->. destruct (Hcl _ Hc) as (a & Ha & _). by apply elem_of_nil in Ha.
  - intros a b Ha. split.
    + intros (c & Hc & Hac & Hbc). destruct (Hcl c Hc) as (r & _ & Hr). rewrite Hr in *.
      eapply connected_trans; [apply connected_sym|]; done.
    + intros Hab. apply HV, Hcov, elem_of_concat in Ha as (c & Hc & Ha). exists c.
      destruct (Hcl c Hc) as (r & _ & Hr). rewrite !Hr in *. split_and!; try done.
      by eapply connected_trans.
Qed.

(** Rearranging the members of the components keeps the answer. *)
Lemma IsComponents_perm nodes comps comps' :
  IsComponents nodes comps -> Forall2 (@Permutation string) comps comps' ->
  IsComponents nodes comps'.
Proof.
  intros [Hp Hne Hc] HF.
  assert (forall c', c' ∈ comps' -> exists c, c ∈ comps /\ Permutation c c') as Hback.
  { intros c' Hc'. apply list_elem_of_lookup in Hc' as [i Hi].
    eapply Forall2_lookup_r in Hi as (c & Hci & ?); [|done].
    exists c. split; [by eapply list_elem_of_lookup_2|done]. }
  assert (forall c, c ∈ comps -> exists c', c' ∈ comps' /\ Permutation c c') as Hforth.
  { intros c Hcin. apply list_elem_of_lookup in Hcin as [i Hi].
    eapply Forall2_lookup_l in Hi as (c' & Hci & ?); [|done].
    exists c'. split; [by eapply list_elem_of_lookup_2|done]. }
  split.
  - rewrite <- Hp. clear -HF. induction HF as [|c c' cs cs' Hcc _ IH]; [done|].
    cbn. by rewrite Hcc, IH.
  - intros c' (c & Hcin & Hcc)%Hback ->. apply (Hne c Hcin). by apply Permutation_nil_r.
  - intros a b Ha. rewrite <- Hc by done. split.
    + intros (c' & Hc' & Hin). destruct (Hback _ Hc') as (c & ? & Hcc). exists c.
      split; [done|]. by rewrite Hcc.
    + intros (c & Hcin & Hin). destruct (Hforth _ Hcin) as (c' & ? & Hcc). exists c'.
      split; [done|]. by rewrite <- Hcc.
Qed.

End Graph.

(** Removing or adding links moves the connection relation monotonically. *)
Lemma connected_mono (l1 l2 : list DashboardSplitsLink) a b :
  (forall l, l ∈ l1 -> l ∈ l2) -> connected l1 a b -> connected l2 a b.
Proof.
  intros Hsub. apply rtc_subrel. intros x y (l & Hl & H). exists l. split; [by apply Hsub|done].
Qed.

(** * Equal partitions *)

(** The same sets, up to the order of the sets and of their members. *)
Definition sameSets (A B : list (list string)) : Prop :=
  exists B', Permutation A B' /\ Forall2 (@Permutation string) B' B.

Definition together (A : list (list string)) (a b : string) : Prop := exists c, c ∈ A /\ a ∈ c /\ b ∈ c.

Lemma concat_Permutation {T} (A B : list (list T)) : Permutation A B -> Permutation (concat A) (concat B).
Proof.
  induction 1 as [|c A B _ IH|c d A|A B D _ IH1 _ IH2]; cbn; [done| | |by rewrite IH1].
  - by rewrite IH.
  - by rewrite !app_assoc, (Permutation_app_comm d c).
Qed.

Lemma sameSets_concat A B : sameSets A B -> Permutation (concat A) (concat B).
Proof.
  intros (B' & HP & HF). rewrite (concat_Permutation _ _ HP). clear HP.
  induction HF as [|c d B' B Hcd _ IH]; [done|]. cbn. by rewrite Hcd, IH.
Qed.

Lemma sameSets_length A B : sameSets A B -> length A = length B.
Proof. intros (B' & HP & HF). rewrite HP. by eapply Forall2_length. Qed.

Lemma together_perm A B a b : Permutation A B -> together A a b <-> together B a b.
Proof. intros HP. unfold together. by setoid_rewrite HP. Qed.

Lemma together_tail c A a b :
  NoDup (concat (c :: A)) -> together A a b <-> together (c :: A) a b /\ a ∉ c.
Proof.
  cbn. intros (_ & Hd & _)%NoDup_app. split.
  - intros (d & Hdin & Ha & Hb). split; [exists d; set_solver|]. intros Hac. apply (Hd a Hac).
    apply elem_of_concat. eauto.
  - intros [(d & [->|Hdin]%elem_of_cons & Ha & Hb) Hac]; [done|]. by exists d.
Qed.

(** Partitions with the same classes are the same sets. *)
Lemma partitions_same A B :
  NoDup (concat A) -> NoDup (concat B) -> (forall c, c ∈ A -> c <> []) -> (forall c, c ∈ B -> c <> []) ->
  (forall a b, together A a b <-> together B a b) -> sameSets A B.
Proof.
  revert B. induction A as [|c A IH]; intros B HA HB HneA HneB Heq.
  - destruct B as [|d B]; [by exists []; split|]. exfalso. destruct d as [|x d]; [by destruct (HneB []); [left|]|].
    destruct (proj2 (Heq x x)) as (? & H & _); [exists (x :: d); set_solver|]. by apply elem_of_nil in H.
  - destruct c as [|x c]; [by destruct (HneA []); [left|]|].
    destruct (proj1 (Heq x x)) as (d & Hd & Hxd & _); [exists (x :: c); set_solver|].
    apply elem_of_Permutation in Hd as [B' HB'].
    assert (NoDup (concat (d :: B'))) as HB2 by (rewrite <- (concat_Permutation _ _ HB'); exact HB).
    assert (forall y, y ∈ x :: c <-> y ∈ d) as Hcd.
    { intros y. assert (forall E F, NoDup (concat (E :: F)) -> x ∈ E -> together (E :: F) x y <-> y ∈ E) as Hcls.
      { intros E F HE HxE. split; [|by exists E; set_solver]. intros Hxy.
        destruct (decide (y ∈ E)) as [|Hy]; [done|]. exfalso.
        assert (together F x y) as HF; [|by apply (together_tail _ _ _ _ HE) in HF as [_ []]].
        destruct Hxy as (e & [->|He]%elem_of_cons & ? & ?); [done|]. by exists e. }
      rewrite <- (Hcls (x :: c) A HA ltac:(left)), Heq, (together_perm _ _ _ _ HB'). by apply Hcls. }
    assert (NoDup (x :: c) /\ NoDup d) as [Hc Hdn].
    { cbn in HA, HB2. apply NoDup_app in HB2 as [? _]. change (NoDup ((x :: c) ++ concat A)) in HA.
      by apply NoDup_app in HA as [? _]. }
    destruct (IH B') as (D & HD & HF).
    + cbn in HA. change (NoDup ((x :: c) ++ concat A)) in HA. by apply NoDup_app in HA as (_ & _ & ?).
    + cbn in HB2. by apply NoDup_app in HB2 as (_ & _ & ?).
    + intros e He. apply HneA. by right.
    + intros e He. apply HneB. rewrite HB'. by right.
    + intros a b. rewrite (together_tail _ _ _ _ HA), (together_tail _ _ _ _ HB2), Heq, (together_perm _ _ _ _ HB').
      by rewrite Hcd.
    + destruct (Permutation_Forall2 (P := flip (@Permutation string)) (l2 := (x :: c) :: D) (Permutation_sym HB')) as (X & HX & HFX).
      { constructor; [by apply NoDup_Permutation|]. by apply Forall2_flip. }
      exists X. split; [by rewrite <- HX, HD|]. by apply Forall2_flip in HFX.
Qed.

Lemma sameSets_member A B c : sameSets A B -> c ∈ A -> exists d, d ∈ B /\ Permutation c d.
Proof.
  intros (B' & HP & HF) Hc. rewrite HP in Hc. apply list_elem_of_lookup in Hc as [i Hi].
  eapply Forall2_lookup_l in Hi as (d & Hd & ?); [|exact HF]. exists d. split; [by eapply list_elem_of_lookup_2|done].
Qed.

Lemma IsComponents_together links nodes comps a b :
  IsComponents links nodes comps -> together comps a b <-> a ∈ nodes /\ connected links a b.
Proof.
  intros [Hp _ Hc]. split.
  - intros (c & Hcin & Ha & Hb). assert (a ∈ nodes) as Han.
    { rewrite <- Hp. apply elem_of_concat. eauto. }
    split; [done|]. apply Hc; [done|]. by exists c.
  - intros [Ha Hab]. by apply Hc.
Qed.

(** Two answers of component searches that agree on the connections. *)
Lemma IsComponents_same links nodes A B :
  NoDup nodes -> IsComponents links nodes A -> Permutation (concat B) nodes -> (forall c, c ∈ B -> c <> []) ->
  (forall a b, together B a b <-> a ∈ nodes /\ connected links a b) -> sameSets A B.
Proof.
  intros Hnd HA HB Hne HBt. apply partitions_same; [by rewrite (is_partition _ _ _ HA)|by rewrite HB|apply HA|done|].
  intros a b. by rewrite (IsComponents_together _ _ _ _ _ HA), HBt.
Qed.

(** Cutting one set in two. *)
Lemma together_cut s1 s2 rest a b :
  NoDup (concat ((s1 ++ s2) :: rest)) ->
  together (s1 :: s2 :: rest) a b <->
    together ((s1 ++ s2) :: rest) a b /\ (a ∉ s1 ++ s2 \/ (a ∈ s1 /\ b ∈ s1) \/ (a ∈ s2 /\ b ∈ s2)).
Proof.
  intros Hnd. split.
  - intros (c & Hc & Ha & Hb). rewrite !elem_of_cons in Hc. destruct Hc as [->|[->|Hc]].
    + split; [exists (s1 ++ s2); set_solver|auto].
    + split; [exists (s1 ++ s2); set_solver|auto].
    + assert (together rest a b) as H by by exists c. apply (together_tail _ _ _ _ Hnd) in H as [? ?]. auto.
  - intros [H [Ha|[[Ha Hb]|[Ha Hb]]]].
    + assert (together rest a b) as (c & Hc & ?) by (apply (together_tail _ _ _ _ Hnd); done).
      exists c. split; [by do 2 right|done].
    + exists s1. split; [left|done].
    + exists s2. split; [right; left|done].
Qed.
