(* ===== verification/NetworkMessages.v ===== *)
(** Network messages page (frontend/src/app/features/network/messages): the
    reducer with its page cursor, the URL and response mapping of the service,
    and the effects that poll the debugger and fetch pages. *)

From S2P Require Import Prelude JsRuntime TableSort.

Module Messages.

(** * Data *)

Inductive Incoming := Incoming_ | Outgoing.
Inductive NetworkMessagesDirection := FORWARD | REVERSE.
Inductive NetworkMessagesFilterTypes := STREAM_KIND | MESSAGE_KIND | ADDRESS.

#[export] Instance Direction_eq_dec : EqDecision NetworkMessagesDirection.
Proof. solve_decision. Defined.
#[export] Instance FilterTypes_eq_dec : EqDecision NetworkMessagesFilterTypes.
Proof. solve_decision. Defined.

Record NetworkMessage := mkMessage {
  id : Z;
  connectionId : Z;
  address : string;
  size : Z;
  incoming : Incoming;
  timestampText : string;
  streamKind : string;
  messageKind : Json;
  failedToDecryptPercentage : option Q
}.

Record NetworkMessageConnection := mkConnection {
  conn_address : string;
  conn_pid : Z;
  conn_fd : Z;
  conn_incoming : bool;
  conn_timestamp : string
}.

(** [value: string | number], compared with [===]. *)
Inductive FilterValue := FvString (s : string) | FvNumber (z : Z).
#[export] Instance FilterValue_eq_dec : EqDecision FilterValue.
Proof. solve_decision. Defined.

Record NetworkMessagesFilter := mkFilter {
  f_type : NetworkMessagesFilterTypes;
  f_display : string;
  f_value : FilterValue;
  f_tooltip : option string
}.

Record TimestampInterval := mkInterval { ts_from : option Z; ts_to : option Z }.

(** [VirtualScrollActivePage<NetworkMessage>]; an absent property is [None] or [Undef]. *)
Record ActivePage := mkPage {
  ap_id : option Z;
  ap_numberOfRecords : option nat;
  ap_start : option NetworkMessage;
  ap_end : option NetworkMessage;
  firstPageIdWithFilters : nullable Z;
  lastPageIdWithFilters : nullable Z;
  firstPageIdWithTimestamp : nullable Z;
  lastPageIdWithTimestamp : nullable Z
}.
Definition emptyPage : ActivePage := mkPage None None None None Undef Undef Undef Undef.

Record NetworkMessagesState := mkState {
  messages : list NetworkMessage;
  activeRow : option NetworkMessage;
  activeRowFullMessage : option Json;
  activeRowHex : option string;
  connection : option (NetworkMessageConnection + string);
  activeFilters : list NetworkMessagesFilter;
  timestamp : TimestampInterval;
  activeTab : Z;
  stream : bool;
  limit : Z;
  direction : option NetworkMessagesDirection;
  activePage : ActivePage;
  (** page ids; [None] is the [undefined] an empty page contributes *)
  pages : list (option Z)
}.

#[export] Instance ActivePage_copy : RecordCopy ActivePage := {|
  record_copy p := mkPage (ap_id p) (ap_numberOfRecords p) (ap_start p) (ap_end p)
    (firstPageIdWithFilters p) (lastPageIdWithFilters p)
    (firstPageIdWithTimestamp p) (lastPageIdWithTimestamp p);
  record_copy_id := fun '(mkPage _ _ _ _ _ _ _ _) => eq_refl |}.

#[export] Instance State_copy : RecordCopy NetworkMessagesState := {|
  record_copy s := mkState (messages s) (activeRow s) (activeRowFullMessage s) (activeRowHex s)
    (connection s) (activeFilters s) (timestamp s) (activeTab s) (stream s) (limit s)
    (direction s) (activePage s) (pages s);
  record_copy_id := fun '(mkState _ _ _ _ _ _ _ _ _ _ _ _ _) => eq_refl |}.

(** * Actions *)

Inductive ToggleKind := add | remove.

Record TogglePayload := mkToggle {
  tp_filters : list NetworkMessagesFilter;
  tp_type : ToggleKind;
  tp_timestamp : option TimestampInterval;
  tp_direction : option NetworkMessagesDirection
}.

Record PaginatedPayload := mkPaginated {
  pp_id : option Z;
  pp_direction : option NetworkMessagesDirection;
  pp_timestamp : option TimestampInterval
}.

Inductive NetworkMessagesActions :=
| NetworkMessagesInit
| NetworkMessagesClose
| NetworkMessagesGetMessages
| NetworkMessagesGetMessagesSuccess (payload : list NetworkMessage)
| NetworkMessagesGetPaginatedMessages (payload : PaginatedPayload)
| NetworkMessagesToggleFilter (payload : TogglePayload)
| NetworkMessagesSetTimestampInterval (ts : TimestampInterval) (dir : option NetworkMessagesDirection)
| NetworkMessagesSetActiveRow (payload : option NetworkMessage)
| NetworkMessagesGoLive
| NetworkMessagesPause
| NetworkMessagesGetFullMessage (id : Z)
| NetworkMessagesGetFullMessageSuccess (payload : option Json)
| NetworkMessagesGetMessageHex (id : Z)
| NetworkMessagesGetMessageHexSuccess (payload : string)
| NetworkMessagesGetConnection (id : Z)
| NetworkMessagesGetConnectionSuccess (payload : NetworkMessageConnection + string)
| NetworkMessagesChangeTab (payload : Z)
| NetworkMessagesGetSpecificMessage (id : Z) (payload : TogglePayload).

Definition actionType (a : NetworkMessagesActions) : string :=
  match a with
  | NetworkMessagesInit => "NETWORK_INIT"
  | NetworkMessagesClose => "NETWORK_CLOSE"
  | NetworkMessagesGetMessages => "NETWORK_GET_MESSAGES"
  | NetworkMessagesGetMessagesSuccess _ => "NETWORK_GET_MESSAGES_SUCCESS"
  | NetworkMessagesGetPaginatedMessages _ => "NETWORK_GET_PAGINATED_MESSAGES"
  | NetworkMessagesToggleFilter _ => "NETWORK_TOGGLE_FILTER"
  | NetworkMessagesSetTimestampInterval _ _ => "NETWORK_SET_TIMESTAMP_INTERVAL"
  | NetworkMessagesSetActiveRow _ => "NETWORK_SET_ACTIVE_ROW"
  | NetworkMessagesGoLive => "NETWORK_GO_LIVE"
  | NetworkMessagesPause => "NETWORK_PAUSE"
  | NetworkMessagesGetFullMessage _ => "NETWORK_GET_FULL_MESSAGE"
  | NetworkMessagesGetFullMessageSuccess _ => "NETWORK_GET_FULL_MESSAGE_SUCCESS"
  | NetworkMessagesGetMessageHex _ => "NETWORK_GET_MESSAGE_HEX"
  | NetworkMessagesGetMessageHexSuccess _ => "NETWORK_GET_MESSAGE_HEX_SUCCESS"
  | NetworkMessagesGetConnection _ => "NETWORK_GET_CONNECTION"
  | NetworkMessagesGetConnectionSuccess _ => "NETWORK_GET_CONNECTION_SUCCESS"
  | NetworkMessagesChangeTab _ => "NETWORK_CHANGE_TAB"
  | NetworkMessagesGetSpecificMessage _ _ => "NETWORK_GET_SPECIFIC_MESSAGE"
  end.

(** * Reducer *)

Definition initialState : NetworkMessagesState := {|
  messages := [];
  activeRow := None;
  activeRowFullMessage := None;
  activeRowHex := None;
  activeFilters := [];
  timestamp := mkInterval None None;
  stream := false;
  connection := None;
  limit := ONE_THOUSAND;
  direction := Some REVERSE;
  activePage := emptyPage;
  pages := [];
  activeTab := 1
|}.

Definition setActivePage (msgs : list NetworkMessage) (state : NetworkMessagesState) : ActivePage :=
  match firstItem msgs, lastElem msgs with
  | Some first, Some final =>
      let page := activePage state in
      mkPage (Some (id final)) (Some (length msgs)) (Some first) (Some final)
        (match firstPageIdWithFilters page with
         | Val (-1)%Z => Val (id first) | other => other end)
        (match lastPageIdWithFilters page with
         | Null => Val (id final) | other => other end)
        (if truthyNum (ts_from (timestamp state)) && negb (truthyNullable (firstPageIdWithTimestamp page))
         then Val (id first) else firstPageIdWithTimestamp page)
        (if truthyNum (ts_from (timestamp state)) && negb (truthyNullable (lastPageIdWithTimestamp page))
         then Val (id final) else lastPageIdWithTimestamp page)
  | _, _ => emptyPage
  end.

(** [arr.sort((a, b) => a - b)]: [undefined] elements are moved to the end
    without a call of the comparator. *)
Definition sortNumbers (l : list (option Z)) : list (option Z) :=
  (Some <$> arraySort Z.compare (omap (fun o => o) l))
  ++ List.filter (fun o => match o with None => true | _ => false end) l.

Definition setPages (page : ActivePage) (state : NetworkMessagesState) : list (option Z) :=
  let currentPages := pages state in
  if includes currentPages (ap_id page) then currentPages
  else if gtUndef (ap_id page) (mjoin (lastElem currentPages)) then [ap_id page]
  else sortNumbers (currentPages ++ [ap_id page]).

Definition sameValue (f fi : NetworkMessagesFilter) : bool := bool_decide (f_value fi = f_value f).

Definition toggleFilters (active : list NetworkMessagesFilter) (p : TogglePayload) :=
  match tp_type p with
  | add => active ++ List.filter (fun f => negb (existsb (sameValue f) active)) (tp_filters p)
  | remove => List.filter (fun f => negb (existsb (sameValue f) (tp_filters p))) active
  end.

(** The case shared by NETWORK_TOGGLE_FILTER and NETWORK_GET_SPECIFIC_MESSAGE.
    [activePage: { ...state, ... }] spreads the whole slice, none of whose keys
    is a key of an active page, so the cursor's own fields become absent. *)
Definition reduceToggle (state : NetworkMessagesState) (p : TogglePayload) : NetworkMessagesState :=
  let filters := toggleFilters (activeFilters state) p in
  let reverse :=
    match tp_direction p with
    | Some _ => true
    | None => bool_decide (length filters = 0) && negb (truthyNum (ts_from (timestamp state)))
    end in
  state
    <| activeFilters := filters |>
    <| stream := false |>
    <| activePage := emptyPage
         <| firstPageIdWithFilters := Null |> <| lastPageIdWithFilters := Null |>
         <| firstPageIdWithTimestamp := Null |> <| lastPageIdWithTimestamp := Val (-1)%Z |> |>
    <| direction := if reverse then Some REVERSE else direction state |>
    <| timestamp := match tp_timestamp p with
                    | None => timestamp state
                    | Some t => mkInterval (ts_from t) (ts_to t) end |>
    <| pages := [] |>.

Definition networkMessagesReducer (state : NetworkMessagesState) (action : NetworkMessagesActions)
  : NetworkMessagesState :=
  match action with
  | NetworkMessagesGetMessages =>
      state <| activePage := (activePage state) <| firstPageIdWithFilters := Null |> |>
  | NetworkMessagesGetMessagesSuccess payload =>
      let page := setActivePage payload state in
      state <| messages := payload |> <| activePage := page |> <| pages := setPages page state |>
  | NetworkMessagesGetFullMessageSuccess payload => state <| activeRowFullMessage := payload |>
  | NetworkMessagesGetMessageHexSuccess payload => state <| activeRowHex := Some payload |>
  | NetworkMessagesGetConnectionSuccess payload => state <| connection := Some payload |>
  | NetworkMessagesToggleFilter p => reduceToggle state p
  | NetworkMessagesGetSpecificMessage _ p => reduceToggle state p
  | NetworkMessagesSetActiveRow payload =>
      state <| activeRow := payload |> <| activeRowFullMessage := None |>
            <| activeRowHex := None |> <| connection := None |>
  | NetworkMessagesInit | NetworkMessagesGoLive =>
      state <| stream := true |>
            <| activePage := (activePage state) <| firstPageIdWithFilters := Null |> |>
  | NetworkMessagesPause => state <| stream := false |>
  | NetworkMessagesGetPaginatedMessages p =>
      state <| stream := false |> <| direction := pp_direction p |>
            <| activePage := (activePage state)
                 <| firstPageIdWithFilters :=
                      if bool_decide (pp_id p = Some 0%Z) then Val (-1)%Z
                      else firstPageIdWithFilters (activePage state) |>
                 <| lastPageIdWithTimestamp :=
                      if truthyNum (pp_timestamp p ≫= ts_to) && truthyNum (pp_timestamp p ≫= ts_from)
                      then Null else Val (-1)%Z |> |>
  | NetworkMessagesSetTimestampInterval t dir =>
      state <| stream := false |> <| timestamp := mkInterval (ts_from t) (ts_to t) |>
            <| direction := dir |>
            <| activePage := emptyPage <| firstPageIdWithTimestamp := Null |>
                                       <| lastPageIdWithTimestamp := Val (-1)%Z |> |>
            <| pages := [] |>
  | NetworkMessagesChangeTab payload => state <| activeTab := payload |>
  | NetworkMessagesClose => initialState
  | NetworkMessagesGetFullMessage _ | NetworkMessagesGetMessageHex _
  | NetworkMessagesGetConnection _ => state
  end.

(** * Service *)

Definition directionText (d : option NetworkMessagesDirection) : string :=
  match d with Some FORWARD => "forward" | Some REVERSE => "reverse" | None => "undefined" end.

Definition filterTypeText (t : NetworkMessagesFilterTypes) : string :=
  match t with STREAM_KIND => "stream_kind" | MESSAGE_KIND => "message_kind" | ADDRESS => "addr" end.

Definition filterValueText (v : FilterValue) : string :=
  match v with FvString s => s | FvNumber z => showZ z end.

(** [Object.values(NetworkMessagesFilterTypes)] *)
Definition allFilterTypes : list NetworkMessagesFilterTypes := [STREAM_KIND; MESSAGE_KIND; ADDRESS].

Record Request := mkRequest {
  r_limit : Z;
  r_id : option Z;
  r_direction : option NetworkMessagesDirection;
  r_filters : list NetworkMessagesFilter;
  r_from : option Z;
  r_to : option Z
}.

Definition optionalParam (name : string) (o : option Z) : string :=
  if truthyNum o then "&" +:+ name +:+ "=" +:+ from_option showZ EmptyString o else EmptyString.

Definition filterParam (filters : list NetworkMessagesFilter) (t : NetworkMessagesFilterTypes) : string :=
  let ofType := List.filter (fun f => bool_decide (f_type f = t)) filters in
  if bool_decide (length ofType = 0) then EmptyString
  else "&" +:+ filterTypeText t +:+ "=" +:+ join "," (filterValueText ∘ f_value <$> ofType).

(** The URL [getNetworkMessages] requests. *)
Definition messagesUrl (debugger : string) (r : Request) : string :=
  debugger +:+ "/messages?limit=" +:+ showZ (r_limit r)
  +:+ "&direction=" +:+ directionText (r_direction r)
  +:+ optionalParam "id" (r_id r)
  +:+ optionalParam "timestamp" (r_from r)
  +:+ optionalParam "timestamp_limit" (r_to r)
  +:+ join EmptyString (filterParam (r_filters r) <$> allFilterTypes).

(** One entry [[id, details]] of the debugger's answer; [raw_totals] are the
    [total_failed] and [total_decrypted] counters of a decryption report. *)
Record RawMessage := mkRaw {
  raw_id : Z;
  raw_secs : Z;
  raw_nanos : Z;
  raw_incoming : bool;
  raw_connection_id : Z;
  raw_remote_addr : string;
  raw_size : Z;
  raw_stream_kind : string;
  raw_message : Json;
  raw_totals : option (Q * Q)
}.

Definition getFailedToDecryptPercentage (total_failed total_decrypted : Q) : Q :=
  toFixedNum 1 (100 * total_failed / (total_decrypted + total_failed)).

Section Service.
Context {DF : DateFormat}.

Definition mapMessage (m : RawMessage) : NetworkMessage := {|
  id := raw_id m;
  timestampText := toReadableDate
    (inject_Z (raw_secs m * ONE_THOUSAND) + inject_Z (raw_nanos m) / inject_Z ONE_MILLION) None;
  incoming := if raw_incoming m then Incoming_ else Outgoing;
  connectionId := raw_connection_id m;
  address := raw_remote_addr m;
  size := raw_size m;
  streamKind := raw_stream_kind m;
  failedToDecryptPercentage :=
    match raw_totals m with
    | Some (failed, decrypted) =>
        if Qeq_bool failed 0 then None else Some (getFailedToDecryptPercentage failed decrypted)
    | None => None
    end;
  messageKind := raw_message m
|}.

Definition mapNetworkMessageResponse (raw : list RawMessage) (dir : option NetworkMessagesDirection)
  : list NetworkMessage :=
  let raw := match dir with Some REVERSE => rev raw | _ => raw end in
  mapMessage <$> raw.

End Service.

(** * Effects

    The class's private fields, and the requests in flight: [switchMap] keeps at
    most one per effect. *)

Record World := mkWorld {
  store : NetworkMessagesState;
  streamActive : bool;
  waitingForServer : bool;
  timerOn : bool;
  pendingMessages : option Request;
  pendingSpecific : option (Z * Request * Request)
}.

#[export] Instance World_copy : RecordCopy World := {|
  record_copy w := mkWorld (store w) (streamActive w) (waitingForServer w) (timerOn w)
    (pendingMessages w) (pendingSpecific w);
  record_copy_id := fun '(mkWorld _ _ _ _ _ _) => eq_refl |}.

Definition initialWorld : World := mkWorld initialState false false false None None.

Definition payloadId (a : NetworkMessagesActions) : option Z :=
  match a with NetworkMessagesGetPaginatedMessages p => pp_id p | _ => None end.

Definition payloadTimestamp (a : NetworkMessagesActions) : option TimestampInterval :=
  match a with
  | NetworkMessagesGetPaginatedMessages p => pp_timestamp p
  | NetworkMessagesToggleFilter p => tp_timestamp p
  | NetworkMessagesSetTimestampInterval t _ => Some t
  | _ => None
  end.

Definition getMessagesRequest (s : NetworkMessagesState) (a : NetworkMessagesActions) : Request :=
  mkRequest (limit s) (payloadId a) (direction s) (activeFilters s)
    (payloadTimestamp a ≫= ts_from) (payloadTimestamp a ≫= ts_to).

Definition specificRequests (s : NetworkMessagesState) (target : Z) : Request * Request :=
  (mkRequest (limit s / 2) (Some target) (Some REVERSE) (activeFilters s) None (ts_to (timestamp s)),
   mkRequest (limit s / 2 + 1) (Some target) (Some FORWARD) (activeFilters s) None (ts_to (timestamp s))).

(** What the effects do with an action, in the state the reducer left. *)
Definition applyEffects (w : World) (a : NetworkMessagesActions) : World :=
  let s := store w in
  match a with
  | NetworkMessagesInit => w <| streamActive := stream s |> <| timerOn := true |>
  | NetworkMessagesGetMessages | NetworkMessagesGoLive | NetworkMessagesGetPaginatedMessages _
  | NetworkMessagesToggleFilter _ | NetworkMessagesSetTimestampInterval _ _ =>
      w <| streamActive := stream s |> <| waitingForServer := true |>
        <| pendingMessages := Some (getMessagesRequest s a) |>
  | NetworkMessagesGetSpecificMessage target _ =>
      w <| streamActive := stream s |>
        <| pendingSpecific := Some (target, fst (specificRequests s target), snd (specificRequests s target)) |>
  | NetworkMessagesPause => w <| streamActive := false |>
  | NetworkMessagesClose => w <| streamActive := false |> <| timerOn := false |>
  | _ => w
  end.

Definition dispatch (w : World) (a : NetworkMessagesActions) : World :=
  applyEffects (w <| store := networkMessagesReducer (store w) a |>) a.

Inductive Event :=
| UserAction (a : NetworkMessagesActions)
| TimerTick
| MessagesResponse (raw : list RawMessage)
| MessagesError
| SpecificResponse (before after : list RawMessage)
| SpecificError.

Section Effects.
Context {DF : DateFormat}.

Definition step (w : World) (e : Event) : World :=
  match e with
  | UserAction a => dispatch w a
  | TimerTick =>
      if timerOn w && (streamActive w && negb (waitingForServer w))
      then dispatch w NetworkMessagesGetMessages else w
  | MessagesResponse raw =>
      match pendingMessages w with
      | None => w
      | Some r =>
          dispatch (w <| waitingForServer := false |> <| pendingMessages := None |>)
            (NetworkMessagesGetMessagesSuccess (mapNetworkMessageResponse raw (r_direction r)))
      end
  | MessagesError =>
      match pendingMessages w with
      | None => w
      | Some _ => dispatch (w <| pendingMessages := None |>) (NetworkMessagesGetMessagesSuccess [])
      end
  | SpecificResponse before after =>
      match pendingSpecific w with
      | None => w
      | Some (target, r1, r2) =>
          let msgs := mapNetworkMessageResponse before (r_direction r1)
                      ++ sliceFrom 1 (mapNetworkMessageResponse after (r_direction r2)) in
          dispatch (dispatch (w <| pendingSpecific := None |>) (NetworkMessagesGetMessagesSuccess msgs))
            (NetworkMessagesSetActiveRow (List.find (fun m => (id m =? target)%Z) msgs))
      end
  | SpecificError =>
      match pendingSpecific w with
      | None => w
      | Some _ => dispatch (w <| pendingSpecific := None |>) (NetworkMessagesSetActiveRow None)
      end
  end.

End Effects.

(** The callback of [setActiveRow$] reads its argument as a messages slice. *)
Record SliceView := mkSlice {
  sl_activeTab : option Z;
  sl_activeRow : option NetworkMessage;
  sl_activeRowFullMessage : option Json;
  sl_activeRowHex : option string;
  sl_connection : option (NetworkMessageConnection + string)
}.

Definition viewOfSlice (s : NetworkMessagesState) : SliceView :=
  mkSlice (Some (activeTab s)) (activeRow s) (activeRowFullMessage s) (activeRowHex s) (connection s).

(** The argument it is given is the pair [{ action, state }] of
    [latestActionState]: none of those properties exists on it. *)
Definition viewOfPair (p : NetworkMessagesActions * NetworkMessagesState) : SliceView :=
  mkSlice None None None None None.

Definition isPresent {A} (o : option A) : bool := match o with Some _ => true | None => false end.

Definition derefRow (o : option NetworkMessage) : exec NetworkMessage :=
  match o with
  | Some m => Ret m
  | None => Throw (TypeError "Cannot read properties of undefined")
  end.

Definition setActiveRowBody (state : SliceView) : exec (list NetworkMessagesActions) :=
  match sl_activeTab state with
  | Some 1%Z =>
      if truthyJson (sl_activeRowFullMessage state) then Ret []
      else row ← derefRow (sl_activeRow state); Ret [NetworkMessagesGetFullMessage (id row)]
  | Some 2%Z =>
      if truthyStr (sl_activeRowHex state) then Ret []
      else row ← derefRow (sl_activeRow state); Ret [NetworkMessagesGetMessageHex (id row)]
  | _ =>
      if isPresent (sl_connection state) then Ret []
      else row ← derefRow (sl_activeRow state); Ret [NetworkMessagesGetConnection (connectionId row)]
  end.

(** The effect on NETWORK_SET_ACTIVE_ROW and NETWORK_CHANGE_TAB, with the
    filter on an active row. *)
Definition setActiveRowEffect (a : NetworkMessagesActions) (s : NetworkMessagesState)
  : exec (list NetworkMessagesActions) :=
  if isPresent (activeRow s) then setActiveRowBody (viewOfPair (a, s)) else Ret [].

(** * The page list *)

(** Strictly increasing ids, then at most one [undefined]. *)
Definition pagesOrdered (l : list (option Z)) : Prop :=
  exists zs b, l = (Some <$> zs) ++ (if b : bool then [None] else []) /\ StronglySorted Z.lt zs.

Lemma Zcompare_consistent : ConsistentOn Z.compare (fun _ => True).
Proof.
  split; unfold cle.
  - intros x y _ _. apply Z.compare_antisym.
  - intros x y z _ _ _ Hxy Hyz. rewrite Z.compare_le_iff in *. lia.
Qed.

Lemma sorted_distinct_lt l : NoDup l -> StronglySorted (cle Z.compare) l -> StronglySorted Z.lt l.
Proof.
  intros Hd Hs. induction Hs as [|x l Hs IH Hx]; [constructor|].
  apply NoDup_cons in Hd as [Hn Hd]. constructor; [auto|].
  rewrite Forall_forall in Hx |- *. intros y Hy. specialize (Hx y Hy).
  change (x <= y)%Z in Hx. destruct (decide (x = y)); [congruence|lia].
Qed.

Lemma sorted_lt_NoDup l : StronglySorted Z.lt l -> NoDup l.
Proof.
  induction 1 as [|x l Hs IH Hx]; constructor; [|done].
  rewrite Forall_forall in Hx. intros Hin. specialize (Hx x Hin). lia.
Qed.

Lemma omap_Some_list (zs : list Z) : omap (fun o => o) (Some <$> zs) = zs.
Proof. induction zs; cbn; congruence. Qed.

Lemma filter_None_Some (zs : list Z) :
  List.filter (fun o : option Z => match o with None => true | _ => false end) (Some <$> zs) = [].
Proof. by induction zs. Qed.

Lemma sortNumbers_insert zs b o :
  StronglySorted Z.lt zs -> o ∉ (Some <$> zs) ++ (if b : bool then [None] else []) ->
  pagesOrdered (sortNumbers ((Some <$> zs) ++ (if b then [None] else []) ++ [o])).
Proof.
  intros Hs Ho. unfold sortNumbers, pagesOrdered.
  rewrite omap_app, List.filter_app, omap_Some_list, filter_None_Some.
  assert (forall ys, NoDup ys -> StronglySorted Z.lt (arraySort Z.compare ys)) as Hsort.
  { intros ys Hy. apply sorted_distinct_lt; [by rewrite <- arraySort_perm|].
    apply (arraySort_sorted _ (HC := Zcompare_consistent)). by apply Forall_forall. }
  destruct o as [z|], b; cbn.
  - exists (arraySort Z.compare (zs ++ [z])), true. split; [done|]. apply Hsort.
    apply NoDup_app. split; [by apply sorted_lt_NoDup|]. split; [|apply NoDup_singleton].
    intros x Hx ->%list_elem_of_singleton. apply Ho. apply elem_of_app. left.
    by apply list_elem_of_fmap_2.
  - exists (arraySort Z.compare (zs ++ [z])), false. split; [done|]. apply Hsort.
    apply NoDup_app. split; [by apply sorted_lt_NoDup|]. split; [|apply NoDup_singleton].
    intros x Hx ->%list_elem_of_singleton. apply Ho. apply elem_of_app. left.
    by apply list_elem_of_fmap_2.
  - exfalso. apply Ho. apply elem_of_app. right. left.
  - exists (arraySort Z.compare (zs ++ [])), true. split; [done|]. apply Hsort.
    rewrite app_nil_r. by apply sorted_lt_NoDup.
Qed.

Lemma setPages_ordered page s : pagesOrdered (pages s) -> pagesOrdered (setPages page s).
Proof.
  intros (zs & b & Hp & Hs). unfold setPages.
  destruct (includes (pages s) (ap_id page)) eqn:E; [by exists zs, b|].
  destruct (gtUndef _ _) eqn:G.
  - unfold gtUndef in G. destruct (ap_id page) as [z|]; [|done].
    exists [z], false. split; [done|]. repeat constructor.
  - apply includes_false in E. rewrite Hp in E |- *. rewrite <- app_assoc.
    by apply sortNumbers_insert.
Qed.

Lemma reducer_pages_ordered s a :
  pagesOrdered (pages s) -> pagesOrdered (pages (networkMessagesReducer s a)).
Proof.
  intros H. assert (pagesOrdered []) as H0 by (exists [], false; split; [done|constructor]).
  destruct a; try exact H; try exact H0. by apply setPages_ordered.
Qed.

(** In every state the messages slice can reach, the remembered page ids
    are strictly increasing (hence without repetition), with at most one
    [undefined] (left by an empty page) after them. *)
Theorem messages_pages_strictly_increasing s :
  reachable_by networkMessagesReducer initialState (fun _ _ => True) s -> pagesOrdered (pages s).
Proof.
  revert s. apply reachable_by_inv.
  - exists [], false. split; [done|constructor].
  - intros s a H _. by apply reducer_pages_ordered.
Qed.

(** * Filters *)

Lemma existsb_sameValue f l :
  existsb (sameValue f) l = true <-> f_value f ∈ f_value <$> l.
Proof.
  rewrite List.existsb_exists, list_elem_of_fmap. unfold sameValue.
  split; intros (x & H1 & H2); exists x.
  - apply bool_decide_eq_true in H2. split; [done|by apply list_elem_of_In].
  - split; [by apply list_elem_of_In|by apply bool_decide_eq_true].
Qed.

Lemma filter_fresh_values active l v :
  v ∈ f_value <$> List.filter (fun f => negb (existsb (sameValue f) active)) l
  <-> v ∈ f_value <$> l /\ v ∉ f_value <$> active.
Proof.
  split.
  - intros (f & -> & Hf)%list_elem_of_fmap. apply elem_of_list_filter in Hf as [Hf Hn%negb_true_iff].
    split; [by apply list_elem_of_fmap_2|]. rewrite <- existsb_sameValue. congruence.
  - intros [(f & -> & Hf)%list_elem_of_fmap Hn]. apply list_elem_of_fmap_2, elem_of_list_filter.
    split; [done|]. apply negb_true_iff, not_true_iff_false. by rewrite existsb_sameValue.
Qed.

Lemma filter_values_NoDup (g : NetworkMessagesFilter -> bool) l :
  NoDup (f_value <$> l) -> NoDup (f_value <$> List.filter g l).
Proof.
  induction l as [|x l IH]; cbn; [done|]. intros [Hn Hd]%NoDup_cons.
  destruct (g x); cbn; [|auto]. constructor; [|auto].
  intros Hin. apply Hn. apply list_elem_of_fmap in Hin as (y & Hy & Hin).
  apply elem_of_list_filter in Hin as [Hin _]. rewrite Hy. by apply list_elem_of_fmap_2.
Qed.

(** Toggling message filters adds or removes exactly the values of the
    payload, keeps the active values distinct, and always drops the live
    stream, the page list and the page cursor, so the next page is fetched for
    the new filters.  A direction carried by the payload is not honoured: the
    slice switches to REVERSE even when FORWARD is asked for. *)
Theorem messages_toggle_filter_values (s : NetworkMessagesState) (p : TogglePayload) :
  let s' := networkMessagesReducer s (NetworkMessagesToggleFilter p) in
  let values l := f_value <$> l in
  NoDup (values (activeFilters s)) -> NoDup (values (tp_filters p)) ->
  NoDup (values (activeFilters s')) /\
  (forall v, v ∈ values (activeFilters s') <->
     match tp_type p with
     | add => v ∈ values (activeFilters s) \/ v ∈ values (tp_filters p)
     | remove => v ∈ values (activeFilters s) /\ v ∉ values (tp_filters p)
     end) /\
  stream s' = false /\ pages s' = [] /\ ap_id (activePage s') = None /\
  (tp_direction p <> None -> direction s' = Some REVERSE).
Proof.
  intros s' values Hs Hp. subst s' values. cbn [networkMessagesReducer reduceToggle].
  unfold reduceToggle. cbn -[toggleFilters]. split_and!; try done.
  - unfold toggleFilters. destruct (tp_type p); [|by apply filter_values_NoDup].
    rewrite fmap_app. apply NoDup_app. split; [done|]. split; [|by apply filter_values_NoDup].
    intros v Hv Hv'. by apply filter_fresh_values in Hv' as [_ ?].
  - intros v. unfold toggleFilters. destruct (tp_type p).
    + rewrite fmap_app, elem_of_app, filter_fresh_values.
      destruct (decide (v ∈ f_value <$> activeFilters s)); tauto.
    + apply filter_fresh_values.
  - by destruct (tp_direction p).
Qed.

Definition demoFilter (n : Z) : NetworkMessagesFilter :=
  mkFilter ADDRESS "peer" (FvNumber n) None.

Lemma messages_toggle_filter_values_witness :
  NoDup [FvNumber 1] /\
  pages (networkMessagesReducer
    (initialState <| activeFilters := [demoFilter 1] |> <| pages := [Some 7%Z] |>)
    (NetworkMessagesToggleFilter (mkToggle [demoFilter 2] add None None))) = [].
Proof.
  split; [apply NoDup_singleton|].
  apply (messages_toggle_filter_values
    (initialState <| activeFilters := [demoFilter 1] |> <| pages := [Some 7%Z] |>)
    (mkToggle [demoFilter 2] add None None)); apply NoDup_singleton.
Defined.

(** * Polling *)

Definition pollInv (w : World) : Prop :=
  streamActive w = stream (store w) /\
  (pendingMessages w <> None -> waitingForServer w = true).

Lemma dispatch_pollInv w a : pollInv w -> pollInv (dispatch w a).
Proof. intros [Hs Hp]. destruct a; split; cbn; auto. Qed.

Section PollingTheorems.
Context {DF : DateFormat}.

Lemma step_pollInv w e : pollInv w -> pollInv (step w e).
Proof.
  intros Hi. assert (Hi' := Hi). destruct Hi' as [Hs Hp]. destruct e; cbn [step].
  - by apply dispatch_pollInv.
  - destruct (timerOn w && _); [by apply dispatch_pollInv|done].
  - destruct (pendingMessages w); [|done]. apply dispatch_pollInv. by split.
  - destruct (pendingMessages w); [|done]. apply dispatch_pollInv. by split.
  - destruct (pendingSpecific w) as [[[target r1] r2]|]; [|done].
    apply dispatch_pollInv, dispatch_pollInv. by split.
  - destruct (pendingSpecific w) as [[[target r1] r2]|]; [|done].
    apply dispatch_pollInv. by split.
Qed.

(** In every interleaving of user actions, timer ticks, responses and
    errors, the effects' private [streamActive] flag agrees with the store's
    [stream], and a request in flight is always flagged as awaited; so a tick
    never sends a second request while one is pending, and none when paused. *)
Theorem messages_polling_consistent w :
  reachable_by step initialWorld (fun _ _ => True) w ->
  streamActive w = stream (store w) /\
  (pendingMessages w <> None -> waitingForServer w = true) /\
  (stream (store w) = false \/ pendingMessages w <> None -> step w TimerTick = w).
Proof.
  intros Hr.
  assert (pollInv w) as [Hs Hp].
  { revert w Hr. apply reachable_by_inv; [by split|]. intros w e Hi _. by apply step_pollInv. }
  split; [done|]. split; [done|]. cbn. intros [H|H].
  - rewrite Hs, H. by destruct (timerOn w).
  - rewrite (Hp H). by destruct (timerOn w), (streamActive w).
Qed.

(** A successful answer re-arms the poll (the next tick of a live page
    sends a request), a failed one does not: no number of further ticks sends
    anything, because [waitingForServer] is only cleared on success. *)
Theorem messages_poll_stalls_after_error w r :
  reachable_by step initialWorld (fun _ _ => True) w ->
  pendingMessages w = Some r -> timerOn w = true -> stream (store w) = true ->
  (forall raw, pendingMessages (step (step w (MessagesResponse raw)) TimerTick) <> None) /\
  (forall n, run step (step w MessagesError) (repeat TimerTick n) = step w MessagesError) /\
  pendingMessages (step w MessagesError) = None.
Proof.
  intros Hr Hpend Ht Hst.
  assert (pollInv w) as [Hs Hp].
  { revert w Hr Hpend Ht Hst. intros w Hr _ _ _. revert w Hr.
    apply reachable_by_inv; [by split|]. intros w e Hi _. by apply step_pollInv. }
  assert (waitingForServer w = true) as Hw by (apply Hp; congruence).
  split_and!.
  - intros raw. cbn. rewrite Hpend. cbn. by rewrite Ht, Hs, Hst.
  - assert (step (step w MessagesError) TimerTick = step w MessagesError) as Hfix.
    { cbn. rewrite Hpend. cbn. rewrite Hw. by destruct (timerOn w), (streamActive w). }
    induction n as [|n IH]; [done|]. cbn [repeat]. unfold run in *. cbn [fold_left].
    by rewrite Hfix.
  - cbn. rewrite Hpend. done.
Qed.

(** The effect that loads the details of the selected row reads the
    [{ action, state }] pair as if it were the slice: with a row selected it
    always throws, on every tab, although the same callback on the slice would
    request the tab's data. *)
Theorem messages_active_row_effect_throws a s row :
  activeRow s = Some row ->
  setActiveRowEffect a s = Throw (TypeError "Cannot read properties of undefined") /\
  (activeRowFullMessage s = None -> activeTab s = 1%Z ->
     setActiveRowBody (viewOfSlice s) = Ret [NetworkMessagesGetFullMessage (id row)]).
Proof.
  intros Hrow. unfold setActiveRowEffect, setActiveRowBody. rewrite Hrow. split; [done|].
  intros Hf Ht. cbn. by rewrite Ht, Hf, Hrow.
Qed.

End PollingTheorems.

Definition demoMessage : NetworkMessage :=
  mkMessage 12 3 "1.2.3.4" 100 Incoming_ "now" "kad" JNull None.

Lemma messages_active_row_effect_throws_witness :
  setActiveRowEffect NetworkMessagesInit (initialState <| activeRow := Some demoMessage |>)
  = Throw (TypeError "Cannot read properties of undefined").
Proof.
  apply (messages_active_row_effect_throws NetworkMessagesInit
    (initialState <| activeRow := Some demoMessage |>) demoMessage). reflexivity.
Defined.

(** Evaluation order of dates, for closed examples. *)
Definition plainDates : DateFormat := fun q _ => showZ (Qfloor q).

Definition liveWorld : World :=
  step (DF := plainDates) (step (DF := plainDates) initialWorld (UserAction NetworkMessagesInit)) TimerTick.

Lemma liveWorld_reachable :
  reachable_by (step (DF := plainDates)) initialWorld (fun _ _ => True) liveWorld.
Proof. repeat (apply reachable_step; [|done]). apply reachable_init. Qed.

Lemma messages_polling_consistent_witness :
  step (DF := plainDates) liveWorld TimerTick = liveWorld.
Proof.
  apply (messages_polling_consistent (DF := plainDates) liveWorld liveWorld_reachable).
  right. vm_compute. discriminate.
Defined.

Lemma messages_poll_stalls_after_error_witness :
  pendingMessages (step (DF := plainDates) liveWorld MessagesError) = None.
Proof.
  eapply (messages_poll_stalls_after_error (DF := plainDates) liveWorld);
    [exact liveWorld_reachable|reflexivity|reflexivity|reflexivity].
Defined.

Lemma messages_pages_strictly_increasing_witness :
  pagesOrdered (pages (networkMessagesReducer initialState (NetworkMessagesGetMessagesSuccess [demoMessage]))).
Proof.
  apply messages_pages_strictly_increasing. apply reachable_step; [apply reachable_init|done].
Defined.

Lemma arraySort_increasing zs : StronglySorted Z.lt zs -> arraySort Z.compare zs = zs.
Proof.
  intros Hs. symmetry. apply (stable_sort_unique _ (HC := Zcompare_consistent)).
  - by apply Forall_forall.
  - split; [done| |done]. induction Hs as [|x l Hs IH Hx]; constructor; [done|].
    eapply Forall_impl; [exact Hx|]. intros y Hy. change (x <= y)%Z. lia.
Qed.

Lemma sorted_snoc zs z :
  StronglySorted Z.lt zs -> (forall y, y ∈ zs -> (y < z)%Z) -> StronglySorted Z.lt (zs ++ [z]).
Proof.
  induction 1 as [|x l Hs IH Hx]; intros Hz; cbn; repeat constructor.
  - apply IH. set_solver.
  - apply Forall_app. split; [done|]. constructor; [|done]. apply Hz. set_solver.
Qed.

Lemma sortNumbers_Some_None zs : sortNumbers ((Some <$> zs) ++ [None]) = (Some <$> arraySort Z.compare zs) ++ [None].
Proof.
  unfold sortNumbers. rewrite omap_app, List.filter_app, omap_Some_list, filter_None_Some.
  cbn. by rewrite app_nil_r.
Qed.

(** A page newer than every known page resets the page list, as the code
    says; but after one empty page (an empty answer, or any failed request) it
    is appended instead: the [undefined] id left behind disables the rule. *)
Theorem messages_empty_page_disables_reset (s : NetworkMessagesState) zs m :
  pages s = Some <$> zs -> zs <> [] -> StronglySorted Z.lt zs ->
  (forall z, z ∈ zs -> (z < id m)%Z) ->
  pages (networkMessagesReducer s (NetworkMessagesGetMessagesSuccess [m])) = [Some (id m)] /\
  pages (run networkMessagesReducer s
    [NetworkMessagesGetMessagesSuccess []; NetworkMessagesGetMessagesSuccess [m]])
  = (Some <$> (zs ++ [id m])) ++ [None].
Proof.
  intros Hp Hne Hs Hm.
  assert (id m ∉ zs) as Hnew by (intros H; specialize (Hm _ H); lia).
  unfold run. cbn [fold_left networkMessagesReducer]. cbn -[setPages]. unfold setPages at 1 2 3.
  cbn -[gtUndef includes lastElem sortNumbers]. rewrite Hp. split.
  - rewrite (proj2 (includes_false _ _)) by (rewrite list_elem_of_fmap; naive_solver).
    unfold lastElem. rewrite fmap_last.
    destruct (last zs) as [z|] eqn:E; [|by apply last_None in E]. cbn.
    rewrite (proj2 (Z.ltb_lt z (id m))); [done|]. apply Hm.
    rewrite last_lookup in E. by eapply list_elem_of_lookup_2.
  - rewrite (proj2 (includes_false (Some <$> zs) None)) by (rewrite list_elem_of_fmap; naive_solver).
    cbn -[includes lastElem sortNumbers]. rewrite sortNumbers_Some_None, arraySort_increasing by done.
    rewrite (proj2 (includes_false _ _)).
    2: { rewrite elem_of_app, list_elem_of_fmap, list_elem_of_singleton. naive_solver. }
    unfold lastElem at 1. rewrite last_snoc. cbn -[sortNumbers].
    unfold sortNumbers. rewrite !omap_app, !List.filter_app, omap_Some_list, filter_None_Some.
    cbn. rewrite app_nil_r. f_equal. f_equal.
    rewrite arraySort_increasing by (by apply sorted_snoc). done.
Qed.

Lemma messages_empty_page_disables_reset_witness :
  pages (run networkMessagesReducer (initialState <| pages := [Some 4%Z; Some 9%Z] |>)
    [NetworkMessagesGetMessagesSuccess []; NetworkMessagesGetMessagesSuccess [demoMessage]])
  = [Some 4%Z; Some 9%Z; Some 12%Z; None].
Proof.
  apply (messages_empty_page_disables_reset
    (initialState <| pages := [Some 4%Z; Some 9%Z] |>) [4; 9]%Z demoMessage).
  - reflexivity.
  - discriminate.
  - repeat constructor; lia.
  - cbn. intros z Hz. assert (z = 4 \/ z = 9)%Z by set_solver. lia.
Defined.

End Messages.
