(* ===== verification/MessagesPage.v ===== *)
(** The components of the network messages page
    (frontend/src/app/features/network/messages): the catalogue of filters and
    the component that toggles them and writes them to the address bar, the table
    that reads them back when the page is opened, and the footer with its pages. *)

From S2P Require Import Prelude JsRuntime TableSort NetworkMessages.
Import NetworkMessages.Messages.

Module MessagesPage.

(** * The catalogue of filters *)

#[export] Instance NetworkMessagesFilter_eq_dec : EqDecision NetworkMessagesFilter.
Proof. solve_decision. Defined.

Record NetworkMessagesFilterCategory := mkCategory {
  cat_name : string;
  cat_tooltip : string;
  cat_filters : list NetworkMessagesFilter
}.

(** A double quote inside a text. *)
Definition dq : string := String (Ascii.ascii_of_nat 34) EmptyString.

Definition multistreamFilters : list NetworkMessagesFilterCategory := [
  mkCategory "/multistream/1.0.0" "" [
    mkFilter STREAM_KIND "Multistream" (FvString "/multistream/1.0.0")
      (Some "")
  ];
  mkCategory "/coda/mplex/1.0.0" "" [
    mkFilter STREAM_KIND "Coda mplex" (FvString "/coda/mplex/1.0.0")
      (Some "")
  ];
  mkCategory "/coda/yamux/1.0.0" "" [
    mkFilter STREAM_KIND "Coda yamux" (FvString "/coda/yamux/1.0.0")
      (Some "")
  ]
].

Definition noiseAndKadFilters : list NetworkMessagesFilterCategory := [
  mkCategory "/noise" "The Noise Protocol is a framework for building cryptographic protocols" [
    mkFilter MESSAGE_KIND "Handshake" (FvString "handshake_payload")
      (Some "Every Noise connection begins with a handshake between an initiating peer and a responding peer.");
    mkFilter MESSAGE_KIND "Failed to decrypt" (FvString "failed_to_decrypt")
      (Some "")
  ];
  mkCategory "/coda/kad/1.0.0" "Used for peer discovery. The Kademlia Distributed Hash Table (DHT) is a DHT implementation largely based on the Kademlia whitepaper, augmented with notions from S/Kademlia, Coral and the BitTorrent DHT." [
    mkFilter MESSAGE_KIND "Put Value" (FvString "put_value")
      (Some "Value storage, Putting the value to the closest nodes.");
    mkFilter MESSAGE_KIND "Get Value" (FvString "get_value")
      (Some "Value retrieval, Getting a value by its key from the nodes closest to that key.");
    mkFilter MESSAGE_KIND "Add Provider" (FvString "add_provider")
      (Some "Adding oneself to the list of providers for a given key at the nodes closest to that key by finding the closest nodes.");
    mkFilter MESSAGE_KIND "Get Providers" (FvString "get_providers")
      (Some "Getting providers for a given key from the nodes closest to that key.");
    mkFilter MESSAGE_KIND "Find Node" (FvString "find_node")
      (Some "Finding the closest nodes to a given key.");
    mkFilter MESSAGE_KIND "Ping" (FvString "ping")
      (Some "Deprecated. Message type replaced by the dedicated ping protocol.")
  ]
].

Definition minaProtocolFilters : list NetworkMessagesFilterCategory := [
  mkCategory "/mina/peer-exchange" "Keeps the mesh connected when closing connections." [
    mkFilter STREAM_KIND "Peer Exchange" (FvString "/mina/peer-exchange")
      (Some "Keeps the mesh connected when closing connections.")
  ];
  mkCategory "/mina/bitswap-exchange" "Bitswap is a module provided by libp2p that enables distributed data synchronization over a p2p network, somewhat comparable to how BitTorrent works." [
    mkFilter STREAM_KIND "Bitswap Exchange" (FvString "/mina/bitswap-exchange")
      (Some "Using BitSwap, Mina nodes can offset load from GossipSub by gossiping only the header of the block, Splitting the block body into parts and Downloading different parts of the block's body.")
  ];
  mkCategory "/mina/node-status" "NodeStatus is maintained by libp2p_helper process, which is updated by main Mina process using SetNodeStatus call." [
    mkFilter STREAM_KIND "Node Status" (FvString "/mina/node-status")
      (Some "As soon as you open substream on this protocol, you will receive a json encoded NodeStatus.")
  ]
].

Definition identifyFilters : list NetworkMessagesFilterCategory := [
  mkCategory "/ipfs/id/1.0.0" "The identify protocol has the protocol id /ipfs/id/1.0.0 and it is used to query remote peers for their information." [
    mkFilter STREAM_KIND "Identify" (FvString "/ipfs/id/1.0.0")
      (Some "The protocol works by opening a stream to the remote peer you want to query. The peer being identified responds by returning an Identify message and closing the stream.")
  ];
  mkCategory "/ipfs/id/push/1.0.0" "The identify/push protocol has the protocol id /ipfs/id/push/1.0.0 and it is used to inform known peers about changes that occur at runtime." [
    mkFilter STREAM_KIND "IPFS Push" (FvString "/ipfs/id/push/1.0.0")
      (Some "Responds to identify request by pushing the full identity info to the peer.")
  ];
  mkCategory "/p2p/id/delta/1.0.0" "" [
    mkFilter STREAM_KIND "IPFS Delta" (FvString "/p2p/id/delta/1.0.0")
      (Some "Used for providing changes (only diff) in the list of protocols that the peer supports.")
  ]
].

Definition meshsubFilters : list NetworkMessagesFilterCategory := [
  mkCategory "/meshsub/1.1.0" "Mina GossipSub is a PubSub (Publish/Subscribe) protocol. Using gossipsub, different messages are published/gossiped through the network. This is used to provide peers with updates regarding the latest state of the blockchain or its network. Each node can, after handshaking and agreeing on this protocol with a peer, publish and subscribe to different topics." [
    mkFilter MESSAGE_KIND "Subscribe" (FvString "subscribe")
      (Some "Peers keep track of which topics their directly connected peers are subscribed to. Using this information each peer is able to build up a picture of the topics around them and which peers are subscribed to each topic.");
    mkFilter MESSAGE_KIND "Unsubscribe" (FvString "unsubscribe")
      (Some "When a peer unsubscribes from a topic it will notify its full-message peers that their connection has been pruned at the same time as sending their unsubscribe messages.");
    mkFilter MESSAGE_KIND "iWant" (FvString "meshsub_iwant")
      (Some "");
    mkFilter MESSAGE_KIND "iHave" (FvString "meshsub_ihave")
      (Some "");
    mkFilter MESSAGE_KIND "Prune" (FvString "meshsub_prune")
      (Some "");
    mkFilter MESSAGE_KIND "Graft" (FvString "meshsub_graft")
      (Some "");
    mkFilter MESSAGE_KIND "Publish New State" (FvString "publish_new_state")
      (Some "Broadcasts newly produced blocks throughout the network.");
    mkFilter MESSAGE_KIND "Publish Snark Pool Diff" (FvString "publish_snark_pool_diff")
      (Some "Broadcasts snark work from mempools throughout the network. Snark coordinator's broadcast locally produced snarks on an interval for a period of time after creation, and all nodes rebroadcast externally produced snarks if they were relevant and could be added to the their mempool.");
    mkFilter MESSAGE_KIND "Publish Transaction Pool Diff" (FvString "publish_transaction_pool_diff")
      (Some "Broadcasts transactions from mempools throughout the network. Nodes broadcast locally submitted transactions on an interval for a period of time after creation, as well as rebroadcast externally submitted transactions if they were relevant and could be added to the their mempool.")
  ]
].

Definition rpcFilters : list NetworkMessagesFilterCategory := [
  mkCategory "coda/rpcs/0.0.1" "RPC - Remote Procedure Call. In some scenarios, a node needs to obtain information from other nodes it is connected to. It makes a particular request to a peer over the P2P network and then expects a response from it." [
    mkFilter MESSAGE_KIND "Get some initial peers" (FvString "get_some_initial_peers")
      (Some "Returns known peers to the requester. Currently used to help nodes quickly connect to the network.");
    mkFilter MESSAGE_KIND "Get staged ledger aux and pending coinbases at hash" (FvString "get_staged_ledger_aux_and_pending_coinbases_at_hash")
      (Some "Returns the staged ledger data associated with a particular block on the blockchain. This is requested by bootstrapping nodes and is used to construct the root staged ledger of the frontier. Subsequent staged ledgers are built from the root using the staged ledger diff information contained in blocks.");
    mkFilter MESSAGE_KIND "Answer sync ledger query" (FvString "answer_sync_ledger_query")
      (Some ("Serves merkle ledger information over a " +:+ dq +:+ "sync ledger" +:+ dq +:+ " protocol. The sync ledger protocol works by allowing nodes to request intermediate hashes and leaves of data in a target ledger they want to synchronize with. Using the protocol, requesters are able to determine which parts of their existing ledger need to be updated, and can avoid downloading data in the ledger which is already up to date. Requests are distributed to multiple peers to spread the load of serving sync ledgers throughout the network."));
    mkFilter MESSAGE_KIND "Get ancestry" (FvString "get_ancestry")
      (Some "Returns the target block corresponding to the provided state hash along with the root block of the frontier, and a merkle proof that attests to the connection of blocks linking the target block to the root block.");
    mkFilter MESSAGE_KIND "Get best tip" (FvString "get_best_tip")
      (Some "Returns the best tip block along with the root block of the frontier, and a merkle proof that attests to the connection of blocks linking the target block to the root block. If the root has been finalized, this proof will be of length k-1 to attest to the fact that the best tip block is k blocks on top of the root block.");
    mkFilter MESSAGE_KIND "Get node status" (FvString "get_node_status")
      (Some "This acts as a telemetry RPC which asks a peer to provide information about their node status. Daemons do not have to respond to this request, and node operators may pass a command line flag to opt-out of responding to these node status requests.");
    mkFilter MESSAGE_KIND "Get transition chain proof" (FvString "get_transition_chain_proof")
      (Some ("Returns a transition chain proof for a specified block on the blockchain. A transition chain proof proves that, given some block b1, there exists a block b0 which is k blocks preceding b1. To prove this, a node receives H(b1), and returns H(b0) along with a merkle proof of all the intermediate " +:+ dq +:+ "state body hashes" +:+ dq +:+ " along the path b0 -> b1. The requester checks this proof by re-computing H(b1) from the provided merkle proof."));
    mkFilter MESSAGE_KIND "Get transition chain" (FvString "get_transition_chain")
      (Some "Returns a bulk bulk set of blocks associated with a provided set of state hashes. This is used by the catchup routine when it is downloading old blocks to re synchronize with the network over short distances of missing information. At the current moment, the maximum number of blocks that can be requested in a single batch is 20 (requesting more than 20 will result in no response).");
    mkFilter MESSAGE_KIND "Get transition knowledge" (FvString "get_transition_knowledge")
      (Some "Returns the a list of k state hashes of blocks from the root of the frontier (point of finality) up to the current best tip (most recent block on the canonical chain).");
    mkFilter MESSAGE_KIND "Get epoch ledger" (FvString "get_epoch_ledger")
      (Some "Returns sparse ledger, or, in case of a failure, a string description.");
    mkFilter MESSAGE_KIND "Versioned rpc menu" (FvString "__Versioned_rpc.Menu")
      (Some "");
    mkFilter MESSAGE_KIND "Ban notify" (FvString "ban_notify")
      (Some "Notifies a peer that they have been banned. The request contains the time at which the requester banned the recipient.")
  ]
].

Definition unknownFilters : list NetworkMessagesFilterCategory := [
  mkCategory "unknown" "" [
    mkFilter STREAM_KIND "Unknown" (FvString "unknown")
      (Some "")
  ]
].

Definition networkAvailableFilters : list (list NetworkMessagesFilterCategory) :=
  [multistreamFilters; noiseAndKadFilters; minaProtocolFilters; identifyFilters; meshsubFilters; rpcFilters; unknownFilters].

(** * The filters component *)

(** [this.activeFilters.includes(f)] compares references; the filters are the
    objects of the catalogue, no two of which are equal. *)
Definition toggleFilter (active : list NetworkMessagesFilter) (f : NetworkMessagesFilter)
  : NetworkMessagesActions :=
  NetworkMessagesToggleFilter (mkToggle [f] (if includes active f then remove else add) None None).

Definition filterByCategory (active : list NetworkMessagesFilter) (c : NetworkMessagesFilterCategory)
  : NetworkMessagesActions :=
  NetworkMessagesToggleFilter
    (mkToggle (cat_filters c) (if forallb (includes active) (cat_filters c) then remove else add) None None).

(** The query parameters of an address, a key at most once. *)
Definition Query : Type := list (string * string).

Definition valuesOf (t : NetworkMessagesFilterTypes) (active : list NetworkMessagesFilter) : string :=
  join "," (filterValueText ∘ f_value <$> List.filter (fun f => bool_decide (f_type f = t)) active).

(** [...(text && { key: text })] *)
Definition textParam (key text : string) : Query :=
  if truthyStr (Some text) then [(key, text)] else [].

Definition firstAddress (active : list NetworkMessagesFilter) : option NetworkMessagesFilter :=
  List.find (fun f => bool_decide (f_type f = ADDRESS)) active.

Definition addressParam (active : list NetworkMessagesFilter) : Query :=
  match firstAddress active with
  | Some f => match f_value f with
              | FvString s => textParam "addr" s
              | FvNumber z => if (z =? 0)%Z then [] else [("addr", showZ z)]
              end
  | None => []
  end.

Definition intervalParams (ts : option TimestampInterval) : Query :=
  if truthyNum (ts ≫= ts_from) then
    ("from", from_option showZ "" (ts ≫= ts_from))
    :: match ts ≫= ts_to with Some z => [("to", showZ z)] | None => [] end
  else [].

(** The parameters the component navigates with; the router drops an [undefined]
    one.  A number is written with its digits. *)
Definition addFiltersToRoute (active : list NetworkMessagesFilter) (ts : option TimestampInterval)
  (activeNodeName : option string) : Query :=
  textParam "stream_kind" (valuesOf STREAM_KIND active)
  ++ textParam "message_kind" (valuesOf MESSAGE_KIND active)
  ++ addressParam active
  ++ intervalParams ts
  ++ textParam "node" (default "" activeNodeName).

(** * The table component *)

(** [s.split(',')] *)
Fixpoint splitOn (c : Ascii.ascii) (s : string) : list string :=
  match s with
  | EmptyString => [EmptyString]
  | String d s' =>
      if Ascii.eqb d c then EmptyString :: splitOn c s'
      else match splitOn c s' with
           | x :: xs => String d x :: xs
           | [] => [String d EmptyString]
           end
  end.

Definition comma : Ascii.ascii := Ascii.ascii_of_nat 44.

Definition getParam (query : Query) (key : string) : option string :=
  snd <$> List.find (fun p => bool_decide (fst p = key)) query.

(** [Number(text)] on the texts the page writes, of digits only.  A text typed into
    the address that is no number gives NaN, which is falsy like [undefined]; [None]
    stands for both, and the difference (a NaN is sent in the request, an [undefined]
    is not) is not modelled. *)
Definition numberOf (o : option string) : option Z :=
  match o with
  | None => None
  | Some EmptyString => Some 0%Z
  | Some s => digitsValue 0 s
  end.

(** All filters of the catalogue, in its order. *)
Definition availableFilters : list NetworkMessagesFilter :=
  fold_left (fun acc current => acc ++ fold_left (fun acc2 curr => acc2 ++ cat_filters curr) current [])
    networkAvailableFilters [].

Definition findFilter (value : string) : option NetworkMessagesFilter :=
  List.find (fun f => bool_decide (f_value f = FvString value)) availableFilters.

Definition addressFilter (a : string) : NetworkMessagesFilter := mkFilter ADDRESS a (FvString a) None.

Definition kindFilters (query : Query) (key : string) : list (option NetworkMessagesFilter) :=
  match getParam query key with
  | Some s => findFilter <$> splitOn comma s
  | None => []
  end.

(** [None] is the [undefined] of a kind that is not in the catalogue. *)
Definition getFiltersFromTheRoute (query : Query) : list (option NetworkMessagesFilter) :=
  (if truthyStr (getParam query "addr") then [Some (addressFilter (default "" (getParam query "addr")))] else [])
  ++ kindFilters query "stream_kind" ++ kindFilters query "message_kind".

(** The action of the first route.  [None] when the filters hold an [undefined],
    which an action of the model cannot carry. *)
Definition routeAction (attempt : bool) (messageId : option string) (query : Query)
  : option NetworkMessagesActions :=
  let idFromRoute := numberOf messageId in
  if attempt && (isPresent idFromRoute || existsb (fun p => negb (bool_decide (fst p = "node"))) query) then
    filters ← mapM (fun o => o) (getFiltersFromTheRoute query);
    let ts := mkInterval (numberOf (getParam query "from")) (numberOf (getParam query "to")) in
    let dir := if truthyStr (getParam query "from") then Some FORWARD else None in
    Some match idFromRoute with
         | Some i => NetworkMessagesGetSpecificMessage i (mkToggle filters add (Some ts) dir)
         | None =>
             match filters with
             | _ :: _ => NetworkMessagesToggleFilter (mkToggle filters add (Some ts) dir)
             | [] => NetworkMessagesSetTimestampInterval ts dir
             end
         end
  else Some NetworkMessagesGetMessages.

(** A click on the address of a message. *)
Definition filterByAddress (active : list NetworkMessagesFilter) (m : NetworkMessage) : NetworkMessagesActions :=
  NetworkMessagesToggleFilter
    (mkToggle [addressFilter (address m)]
       (if existsb (fun f => bool_decide (f_value f = FvString (address m))) active then remove else add) None None).

Definition clearFilters (active : list NetworkMessagesFilter) : NetworkMessagesActions :=
  NetworkMessagesToggleFilter (mkToggle active remove None None).

(** The action and the message id in the address, if the row is not the active one. *)
Definition onRowClick (active : option NetworkMessage) (row : NetworkMessage)
  : option (Z * NetworkMessagesActions) :=
  if bool_decide (Some (id row) = (id <$> active)) then None
  else Some (id row, NetworkMessagesSetActiveRow (Some row)).

(** The row the table scrolls to: the one of the route, else the last one. *)
Definition scrolledRow (idFromRoute : option Z) (rows : list NetworkMessage) : option nat :=
  if truthyNum idFromRoute then findIndex (fun r => bool_decide (Some (id r) = idFromRoute)) rows
  else findIndex (fun r => bool_decide (Some (id r) = (id <$> lastElem rows))) rows.

(** A wheel turned up pauses the stream; so does any touch. *)
Definition onWheel (streaming : bool) (deltaY : Z) : option NetworkMessagesActions :=
  if streaming && (deltaY <? 0)%Z then Some NetworkMessagesPause else None.

Definition onTouchmove (streaming : bool) : option NetworkMessagesActions :=
  if streaming then Some NetworkMessagesPause else None.

(** * The footer *)

(** [n === o] for a property that may be [null] and a number that may be
    [undefined]. *)
Definition sameId (n : nullable Z) (o : option Z) : bool :=
  match n, o with
  | Val z, Some w => (z =? w)%Z
  | Undef, None => true
  | _, _ => false
  end.

Definition leNullable (o : option Z) (n : nullable Z) : bool :=
  match o, n with Some z, Val w => (z <=? w)%Z | _, _ => false end.

Definition unreadableId : JsError := TypeError "Cannot read properties of undefined (reading 'id')".

Definition isFirstPage (s : NetworkMessagesState) : bool :=
  let page := activePage s in
  let start := id <$> ap_start page in
  bool_decide (start = Some 0%Z)
  || (negb (truthyNullable (firstPageIdWithTimestamp page)) && (Z.of_nat (length (messages s)) <? limit s)%Z)
  || sameId (firstPageIdWithFilters page) start
  || (truthyNullable (firstPageIdWithTimestamp page) && leNullable start (firstPageIdWithTimestamp page)).

Definition isLastPage (s : NetworkMessagesState) : exec bool :=
  let page := activePage s in
  if stream s
     || (negb (truthyNullable (firstPageIdWithTimestamp page))
         && (bool_decide (length (pages s) = 0)
             || bool_decide ((id <$> ap_end page) = mjoin (lastElem (pages s)))))
  then Ret true
  else match ap_end page with
       | None => Throw unreadableId
       | Some e => Ret (sameId (lastPageIdWithFilters page) (Some (id e))
                        || sameId (lastPageIdWithTimestamp page) (Some (id e)))
       end.

Definition messageId (o : option NetworkMessage) : exec Z :=
  match o with Some m => Ret (id m) | None => Throw unreadableId end.

Definition previousPage (s : NetworkMessagesState) (currentTimestamp : option TimestampInterval)
  : exec NetworkMessagesActions :=
  start ← messageId (ap_start (activePage s));
  Ret (NetworkMessagesGetPaginatedMessages
    match currentTimestamp with
    | Some t => mkPaginated (Some (start - limit s)%Z) (Some FORWARD) (Some (mkInterval None (ts_to t)))
    | None => mkPaginated (Some (start - 1)%Z) (Some REVERSE) None
    end).

Definition nextPage (s : NetworkMessagesState) (currentTimestamp : option TimestampInterval)
  : exec NetworkMessagesActions :=
  final ← messageId (ap_end (activePage s));
  Ret (NetworkMessagesGetPaginatedMessages
    (mkPaginated (Some (final + 1)%Z) (Some FORWARD)
       (match currentTimestamp with Some t => Some (mkInterval None (ts_to t)) | None => None end))).

(** [firstPageIdWithTimestamp] is passed on as the id: [null] and [undefined]
    are both left out of the request. *)
Definition firstPage (s : NetworkMessagesState) (currentTimestamp : option TimestampInterval)
  : NetworkMessagesActions :=
  NetworkMessagesGetPaginatedMessages
    match currentTimestamp with
    | Some t => mkPaginated (match firstPageIdWithTimestamp (activePage s) with Val z => Some z | _ => None end)
                  (Some FORWARD) (Some (mkInterval None (ts_to t)))
    | None => mkPaginated (Some 0%Z) (Some FORWARD) None
    end.

Definition lastPage (s : NetworkMessagesState) (currentTimestamp : option TimestampInterval)
  : NetworkMessagesActions :=
  NetworkMessagesGetPaginatedMessages
    match currentTimestamp with
    | Some t => mkPaginated None (Some REVERSE) (Some (mkInterval (ts_to t) (ts_from t)))
    | None => mkPaginated (mjoin (lastElem (pages s))) (Some REVERSE) None
    end.

(** The interval the footer keeps: the last one with a start. *)
Definition listenToTimestampIntervalChange (current : option TimestampInterval) (ts : TimestampInterval)
  : option TimestampInterval :=
  if truthyNum (ts_from ts) then Some ts else current.

(** The text of the interval; the day is not repeated. *)
Definition activeInterval {DF : DateFormat} (from to : Z) : string :=
  let ms z := inject_Z (z * ONE_THOUSAND) in
  let fromText := formatDate (ms from) "MMM d, H:mm:ss" in
  let toText := formatDate (ms to) "MMM d, H:mm:ss" in
  let day text := fst (splitFirst comma text) in
  fromText +:+ " - " +:+
    (if bool_decide (day fromText = day toText) then formatDate (ms to) "H:mm:ss" else toText).

(** The answer of the interval picker, in milliseconds.  The picker builds a [Date]
    from fields of which the seconds are the smallest, and the constructor drops
    fractions, so both times are multiples of 1000 and the division is exact. *)
Definition confirmInterval (response : TimestampInterval) : NetworkMessagesActions :=
  NetworkMessagesSetTimestampInterval
    (mkInterval ((fun z => z / ONE_THOUSAND)%Z <$> ts_from response) ((fun z => z / ONE_THOUSAND)%Z <$> ts_to response))
    (Some FORWARD).

Definition clearTimestampInterval : option TimestampInterval * NetworkMessagesActions :=
  (None, NetworkMessagesSetTimestampInterval (mkInterval None None) (Some REVERSE)).

(** * Texts of several values *)

Fixpoint without (c : Ascii.ascii) (s : string) : bool :=
  match s with EmptyString => true | String d s => negb (Ascii.eqb d c) && without c s end.

Lemma splitOn_without c s : without c s = true -> splitOn c s = [s].
Proof.
  induction s as [|d s IH]; cbn; [done|]. intros [Hd Hs]%andb_true_iff.
  apply negb_true_iff in Hd. by rewrite Hd, IH.
Qed.

Lemma splitOn_sep c s t : without c s = true -> splitOn c (s +:+ String c t) = s :: splitOn c t.
Proof.
  induction s as [|d s IH]; intros Hs.
  - change ("" +:+ String c t) with (String c t). cbn [splitOn]. by rewrite Ascii.eqb_refl.
  - cbn in Hs. apply andb_true_iff in Hs as [Hd Hs]. apply negb_true_iff in Hd.
    change (String d s +:+ String c t) with (String d (s +:+ String c t)). cbn. by rewrite Hd, IH.
Qed.

Lemma splitOn_join l :
  l <> [] -> Forall (fun s => without comma s = true) l -> splitOn comma (join "," l) = l.
Proof.
  induction l as [|s l IH]; intros Hne Hl; [done|]. apply Forall_cons in Hl as [Hs Hl].
  destruct l as [|t l]; [by apply splitOn_without|].
  change (join "," (s :: t :: l)) with (s +:+ String comma (join "," (t :: l))).
  rewrite splitOn_sep by done. by rewrite IH.
Qed.

Lemma sapp_nonempty s t : s <> "" -> s +:+ t <> "".
Proof. by destruct s. Qed.

Lemma join_nonempty l : l <> [] -> Forall (fun s => s <> "") l -> join "," l <> "".
Proof.
  intros Hne Hl. destruct l as [|s [|t l]]; [done|by apply Forall_cons in Hl as [Hs _]|].
  apply Forall_cons in Hl as [Hs _]. by apply sapp_nonempty.
Qed.

(** * The catalogue *)

(** A kind of the catalogue can be written and read back. *)
Definition readable (f : NetworkMessagesFilter) : bool :=
  negb (bool_decide (f_type f = ADDRESS)) &&
  match f_value f with
  | FvString s => truthyStr (Some s) && without comma s && bool_decide (findFilter s = Some f)
  | FvNumber _ => false
  end.

Lemma catalogue_readable : Forall (fun f => readable f = true) availableFilters.
Proof.
  apply Forall_forall. intros f Hf. apply (proj1 (forallb_forall readable availableFilters)).
  - vm_compute. reflexivity.
  - by apply list_elem_of_In.
Qed.

Lemma catalogue_filter f :
  f ∈ availableFilters -> f_type f <> ADDRESS /\ exists s, f_value f = FvString s /\ s <> ""
    /\ without comma s = true /\ findFilter s = Some f.
Proof.
  intros Hf. pose proof catalogue_readable as H. rewrite Forall_forall in H. specialize (H f Hf).
  unfold readable in H. apply andb_true_iff in H as [Ht H]. apply negb_true_iff, bool_decide_eq_false in Ht.
  split; [done|]. destruct (f_value f) as [s|]; [|done].
  rewrite !andb_true_iff, bool_decide_eq_true in H. destruct H as [[Hs Hc] Hfind].
  exists s. split_and!; try done. by destruct s.
Qed.

(** * Writing and reading the filters *)

(** A filter the page can have made active. *)
Definition writtenFilter (f : NetworkMessagesFilter) : Prop :=
  f ∈ availableFilters \/ exists a, a <> "" /\ f = addressFilter a.

Definition ofType (t : NetworkMessagesFilterTypes) (l : list NetworkMessagesFilter) : list NetworkMessagesFilter :=
  List.filter (fun f => bool_decide (f_type f = t)) l.

Lemma written_kind t f : t <> ADDRESS -> writtenFilter f -> f_type f = t -> f ∈ availableFilters.
Proof. intros Ht [Hf|(a & _ & ->)] E; [done|]. cbn in E. congruence. Qed.

Lemma written_address f : writtenFilter f -> f_type f = ADDRESS -> exists a, a <> "" /\ f = addressFilter a.
Proof. intros [Hf|Hf] E; [|done]. by apply catalogue_filter in Hf as [Ht _]. Qed.

Lemma getParam_app q1 q2 k :
  getParam (q1 ++ q2) k = match getParam q1 k with Some v => Some v | None => getParam q2 k end.
Proof.
  unfold getParam. induction q1 as [|p q1 IH]; [done|]. cbn. by destruct (bool_decide _).
Qed.

Lemma getParam_text k k' v :
  getParam (textParam k v) k' = if decide (k = k' /\ v <> "") then Some v else None.
Proof.
  unfold textParam, getParam. destruct v as [|c v]; cbn.
  - by rewrite decide_False by naive_solver.
  - case_bool_decide; [rewrite decide_True|rewrite decide_False]; naive_solver.
Qed.

Lemma getParam_cons k v q k' : getParam ((k, v) :: q) k' = if decide (k = k') then Some v else getParam q k'.
Proof. unfold getParam. cbn. case_bool_decide; by case_decide. Qed.

Section Written.
Context (fs : list NetworkMessagesFilter) (Hfs : Forall writtenFilter fs).
Context (ts : TimestampInterval) (node : option string).
Notation query := (addFiltersToRoute fs (Some ts) node).

Lemma values_read t :
  t <> ADDRESS ->
  findFilter <$> (filterValueText ∘ f_value <$> ofType t fs) = Some <$> ofType t fs
  /\ Forall (fun s => s <> "" /\ without comma s = true) (filterValueText ∘ f_value <$> ofType t fs).
Proof.
  intros Ht. assert (forall f, f ∈ ofType t fs -> f ∈ availableFilters) as Hin.
  { intros f [Hf E]%elem_of_list_filter. rewrite Forall_forall in Hfs.
    apply bool_decide_eq_true in E. by eapply written_kind; eauto. }
  revert Hin. induction (ofType t fs) as [|f l IH]; intros Hin; [done|].
  destruct (catalogue_filter f (Hin f ltac:(set_solver))) as (_ & s & Ev & Hs & Hc & Hfind).
  destruct IH as [IH1 IH2]; [set_solver|]. rewrite !fmap_cons.
  change ((filterValueText ∘ f_value) f) with (filterValueText (f_value f)). rewrite Ev. cbn [filterValueText]. split.
  - by rewrite Hfind, IH1.
  - by constructor.
Qed.

Lemma valuesOf_read t :
  t <> ADDRESS ->
  (if decide (valuesOf t fs <> "") then findFilter <$> splitOn comma (valuesOf t fs) else []) = Some <$> ofType t fs.
Proof.
  intros Ht. destruct (values_read t Ht) as [Hf Hv]. unfold valuesOf. fold (ofType t fs).
  destruct (ofType t fs) as [|f l] eqn:E; [done|]. rewrite decide_True.
  - rewrite splitOn_join; [done|done|]. eapply Forall_impl; [exact Hv|]. by intros x [_ ?].
  - apply join_nonempty; [done|]. eapply Forall_impl; [exact Hv|]. by intros x [? _].
Qed.

Lemma getParam_address k :
  getParam (addressParam fs) k =
    if decide (k = "addr") then (fun f => filterValueText (f_value f)) <$> firstAddress fs else None.
Proof.
  unfold addressParam. destruct (firstAddress fs) as [f|] eqn:E; [|by case_decide].
  apply find_Some_iff in E as [Hf Ht]. apply bool_decide_eq_true in Ht. rewrite Forall_forall in Hfs.
  destruct (written_address f (Hfs f Hf) Ht) as (a & Ha & ->).
  cbn [f_value addressFilter fmap option_fmap option_map filterValueText]. rewrite getParam_text.
  destruct (decide (k = "addr")) as [->|Hne]; [by rewrite decide_True|rewrite decide_False; naive_solver].
Qed.

Lemma getParam_interval k : k <> "from" -> k <> "to" -> getParam (intervalParams (Some ts)) k = None.
Proof.
  intros H1 H2. unfold intervalParams. destruct (truthyNum _); [|done].
  rewrite getParam_cons, decide_False by done. destruct (Some ts ≫= ts_to); [|done].
  by rewrite getParam_cons, decide_False.
Qed.

Lemma kind_read t :
  t <> ADDRESS -> kindFilters query (filterTypeText t) = Some <$> ofType t fs.
Proof.
  intros Ht. rewrite <- valuesOf_read by done. unfold kindFilters, addFiltersToRoute.
  rewrite !getParam_app, !getParam_text, getParam_address, getParam_interval by (by destruct t).
  destruct t; [| |done]; cbn [filterTypeText];
    (destruct (decide (valuesOf _ fs <> "")) as [H|H];
      [rewrite ?(decide_False (P := "stream_kind" = "message_kind" /\ _)) by (by intros [? _]);
       by rewrite decide_True|]);
    rewrite !decide_False by (tauto || by intros [? _]); done.
Qed.

Lemma address_read :
  (if truthyStr (getParam query "addr") then [Some (addressFilter (default "" (getParam query "addr")))] else [])
  = Some <$> option_list (firstAddress fs).
Proof.
  unfold addFiltersToRoute. rewrite !getParam_app, !getParam_text, getParam_address, getParam_interval by done.
  rewrite !decide_False by (by intros [? _]). rewrite decide_True by done.
  destruct (firstAddress fs) as [f|] eqn:E; [|done].
  apply find_Some_iff in E as [Hf Ht]. apply bool_decide_eq_true in Ht. rewrite Forall_forall in Hfs.
  destruct (written_address f (Hfs f Hf) Ht) as (a & Ha & ->). cbn. by destruct a.
Qed.

Lemma filters_read :
  getFiltersFromTheRoute query
  = Some <$> (option_list (firstAddress fs) ++ ofType STREAM_KIND fs ++ ofType MESSAGE_KIND fs).
Proof.
  unfold getFiltersFromTheRoute. rewrite address_read, !fmap_app. f_equal.
  f_equal; [by apply (kind_read STREAM_KIND)|by apply (kind_read MESSAGE_KIND)].
Qed.

Lemma interval_read f t :
  (0 < f)%Z -> (0 <= t)%Z -> ts = mkInterval (Some f) (Some t) ->
  getParam query "from" = Some (showZ f) /\ getParam query "to" = Some (showZ t).
Proof.
  intros Hf Ht ->. unfold addFiltersToRoute. rewrite !getParam_app, !getParam_text, !getParam_address.
  rewrite !decide_False by (done || by intros [? _]). unfold intervalParams. cbn [mbind option_bind ts_from ts_to].
  assert (truthyNum (Some f) = true) as -> by (cbn; apply negb_true_iff, Z.eqb_neq; lia).
  by rewrite !getParam_cons.
Qed.

Lemma no_interval_read :
  ts_from ts = None -> getParam query "from" = None /\ getParam query "to" = None.
Proof.
  intros E. unfold addFiltersToRoute. rewrite !getParam_app, !getParam_text, !getParam_address.
  rewrite !decide_False by (done || by intros [? _]). unfold intervalParams. cbn [mbind option_bind]. by rewrite E.
Qed.

End Written.

Lemma numberOf_showZ z : (0 <= z)%Z -> numberOf (Some (showZ z)) = Some z.
Proof.
  intros Hz. pose proof (digitsValue_showZ z Hz) as H. unfold numberOf. by destruct (showZ z).
Qed.

Lemma mapM_Some_id {A} (l : list A) : mapM (fun o => o) (Some <$> l) = Some l.
Proof. induction l as [|x l IH]; [done|]. cbn. cbn in IH. by rewrite IH. Qed.

(** Every filter has one of the three types. *)
Lemma ofType_partition l : Permutation (ofType ADDRESS l ++ ofType STREAM_KIND l ++ ofType MESSAGE_KIND l) l.
Proof.
  induction l as [|f l IH]; [done|]. unfold ofType in *. cbn [List.filter].
  destruct (f_type f) eqn:E; repeat case_bool_decide; try congruence; cbn [app].
  - rewrite <- Permutation_middle. by constructor.
  - rewrite app_assoc, <- Permutation_middle, <- app_assoc. by constructor.
  - by constructor.
Qed.

Lemma ofType_single l :
  countIf (fun f => bool_decide (f_type f = ADDRESS)) l <= 1 -> option_list (firstAddress l) = ofType ADDRESS l.
Proof.
  unfold firstAddress, ofType, countIf. induction l as [|f l IH]; cbn; [done|].
  case_bool_decide; cbn; [|done]. intros Hl.
  destruct (List.filter _ l) eqn:E; [done|]. cbn in Hl. lia.
Qed.

Lemma query_not_only_node fs ts node k v :
  k <> "node" -> getParam (addFiltersToRoute fs (Some ts) node) k = Some v ->
  existsb (fun p => negb (bool_decide (fst p = "node"))) (addFiltersToRoute fs (Some ts) node) = true.
Proof.
  intros Hk H. unfold getParam in H. apply fmap_Some in H as (p & Hp & ->).
  apply find_Some_iff in Hp as [Hin E]. apply bool_decide_eq_true in E.
  apply existsb_exists. exists p. split; [by apply list_elem_of_In|].
  apply negb_true_iff, bool_decide_eq_false. congruence.
Qed.

(** * The footer *)

Definition footerInv (s : NetworkMessagesState) : Prop :=
  pagesOrdered (pages s) /\
  (ap_end (activePage s) = None ->
     truthyNullable (firstPageIdWithTimestamp (activePage s)) = false
     /\ (pages s = [] \/ lastElem (pages s) = Some None)).

Lemma setPages_undefined page s :
  pagesOrdered (pages s) -> ap_id page = None -> lastElem (setPages page s) = Some None.
Proof.
  intros (zs & b & Hp & _) E. unfold setPages. rewrite E.
  destruct (includes (pages s) None) eqn:Hin.
  - apply includes_true in Hin. rewrite Hp in Hin |- *. destruct b; [by apply last_snoc|].
    rewrite app_nil_r in Hin. apply list_elem_of_fmap in Hin as (z & ? & _). done.
  - cbn [gtUndef]. unfold sortNumbers. rewrite List.filter_app. cbn [List.filter].
    rewrite app_assoc. apply last_snoc.
Qed.

Lemma setActivePage_end msgs s :
  ap_end (setActivePage msgs s) = None -> setActivePage msgs s = emptyPage.
Proof.
  unfold setActivePage. destruct (firstItem msgs); [|done]. by destruct (lastElem msgs).
Qed.

Lemma reducer_footerInv s a : footerInv s -> footerInv (networkMessagesReducer s a).
Proof.
  intros [Hp He]. split; [by apply reducer_pages_ordered|].
  destruct a; try exact He; cbn [networkMessagesReducer]; try (intros _; split; [done|by left]).
  cbn [activePage pages field_update]. intros E. change (ap_end (setActivePage payload s) = None) in E.
  apply setActivePage_end in E as E'.
  change (truthyNullable (firstPageIdWithTimestamp (setActivePage payload s)) = false /\
    (setPages (setActivePage payload s) s = [] \/ lastElem (setPages (setActivePage payload s) s) = Some None)).
  rewrite E'. split; [done|]. right. by apply setPages_undefined.
Qed.

Lemma reachable_footerInv s :
  reachable_by networkMessagesReducer initialState (fun _ _ => True) s -> footerInv s.
Proof.
  revert s. apply reachable_by_inv.
  - split; [exists [], false; split; [done|constructor]|]. intros _. split; [done|by left].
  - intros s a H _. by apply reducer_footerInv.
Qed.

(** Some parameter of the route is not the name of the node. *)
Lemma query_has_filters fs ts node :
  Forall writtenFilter fs -> fs <> [] \/ truthyNum (ts_from ts) = true ->
  existsb (fun p => negb (bool_decide (fst p = "node"))) (addFiltersToRoute fs (Some ts) node) = true.
Proof.
  intros Hfs H. destruct (getFiltersFromTheRoute (addFiltersToRoute fs (Some ts) node)) as [|o l] eqn:Hr.
  - rewrite filters_read in Hr by done. destruct H as [Hne|Hfrom].
    + exfalso. apply fmap_nil_inv in Hr. destruct fs as [|f fs]; [done|].
      apply app_eq_nil in Hr as [Ha [Hs Hm]%app_eq_nil]. unfold firstAddress, ofType in *. cbn [List.find List.filter] in *.
      destruct (f_type f) eqn:E; repeat case_bool_decide; done || congruence.
    + unfold addFiltersToRoute, intervalParams. cbn [mbind option_bind]. rewrite Hfrom, !existsb_app.
      cbn [existsb fst]. rewrite bool_decide_false by done. cbn [negb orb]. by rewrite !orb_true_r.
  - destruct (existsb _ _) eqn:E; [done|]. exfalso.
    assert (forall k, k <> "node" -> getParam (addFiltersToRoute fs (Some ts) node) k = None) as Hnone.
    { intros k Hk. destruct (getParam _ k) eqn:Hg; [|done].
      by rewrite (query_not_only_node fs ts node k _ Hk Hg) in E. }
    revert Hr. unfold getFiltersFromTheRoute, kindFilters. by rewrite !Hnone.
Qed.

Lemma filter_all_new (l : list NetworkMessagesFilter) :
  List.filter (fun f => negb (existsb (sameValue f) [])) l = l.
Proof. induction l as [|f l IH]; [done|]. cbn in *. by rewrite IH. Qed.

(** * The theorems *)

(** C16: the address bar keeps the filters: opening the page with the parameters the
    filters component wrote dispatches one action, after which the kinds and the
    first address that were active are active again, and the interval is the same.
    Nothing is lost when at most one address was active; of several addresses all
    but the first are. *)
Theorem messages_filters_survive_reload fs ts node :
  Forall writtenFilter fs ->
  ts = mkInterval None None \/ (exists f t, (0 < f)%Z /\ (0 <= t)%Z /\ ts = mkInterval (Some f) (Some t)) ->
  fs <> [] \/ ts_from ts <> None ->
  exists a, routeAction true None (addFiltersToRoute fs (Some ts) node) = Some a /\
    let s := networkMessagesReducer initialState a in
    activeFilters s = option_list (firstAddress fs) ++ ofType STREAM_KIND fs ++ ofType MESSAGE_KIND fs
    /\ timestamp s = ts
    /\ (countIf (fun f => bool_decide (f_type f = ADDRESS)) fs <= 1 -> Permutation (activeFilters s) fs).
Proof.
  intros Hfs Hts Hsome. set (read := option_list (firstAddress fs) ++ ofType STREAM_KIND fs ++ ofType MESSAGE_KIND fs).
  assert (countIf (fun f => bool_decide (f_type f = ADDRESS)) fs <= 1 -> Permutation read fs) as Hperm.
  { intros Hc. unfold read. rewrite (ofType_single _ Hc). apply ofType_partition. }
  assert (mkInterval (numberOf (getParam (addFiltersToRoute fs (Some ts) node) "from"))
    (numberOf (getParam (addFiltersToRoute fs (Some ts) node) "to")) = ts) as Hint.
  { destruct Hts as [E|(f & t & Hf & Ht & E)].
    - destruct (no_interval_read fs Hfs ts node) as [-> ->]; [by rewrite E|]. by rewrite E.
    - destruct (interval_read fs Hfs ts node f t Hf Ht E) as [-> ->].
      by rewrite !numberOf_showZ by lia. }
  assert (fs <> [] \/ truthyNum (ts_from ts) = true) as Hsome'.
  { destruct Hsome as [?|Hf]; [by left|right]. destruct Hts as [->|(f & t & Hf' & _ & ->)]; [done|].
    cbn. apply negb_true_iff, Z.eqb_neq. lia. }
  unfold routeAction. cbn [numberOf isPresent andb orb].
  rewrite query_has_filters, filters_read by done.
  fold read. rewrite mapM_Some_id. cbn [mbind option_bind]. rewrite Hint.
  assert (mkInterval (ts_from ts) (ts_to ts) = ts) as Heta by by destruct ts.
  destruct read as [|f l] eqn:Er; (eexists; split; [reflexivity|]).
  - cbn. by split_and!.
  - cbn -[existsb]. rewrite filter_all_new. by split_and!.
Qed.

Definition demoKind : NetworkMessagesFilter := mkFilter STREAM_KIND "Multistream" (FvString "/multistream/1.0.0") (Some "").

Lemma messages_filters_survive_reload_witness :
  exists a, routeAction true None
      (addFiltersToRoute [demoKind; addressFilter "10.0.0.1:80"] (Some (mkInterval (Some 5%Z) (Some 9%Z))) None) = Some a
    /\ activeFilters (networkMessagesReducer initialState a) = [addressFilter "10.0.0.1:80"; demoKind].
Proof.
  destruct (messages_filters_survive_reload [demoKind; addressFilter "10.0.0.1:80"]
    (mkInterval (Some 5%Z) (Some 9%Z)) None) as (a & Ha & Hf & _).
  - constructor; [left; apply list_elem_of_lookup; by exists 0|].
    constructor; [right; by exists "10.0.0.1:80"|constructor].
  - right. by exists 5%Z, 9%Z.
  - by left.
  - exists a. split; [exact Ha|exact Hf].
Defined.

(** C15: the footer never reads a property of a missing message while it follows the
    slice: in every state the reducer can reach, the test for the last page
    returns, and whenever it is false, so that the button of the next page is
    enabled, a click on it returns the request of the page after the last message
    shown. *)
Theorem messages_footer_safe s ts :
  reachable_by networkMessagesReducer initialState (fun _ _ => True) s ->
  exists b, isLastPage s = Ret b /\
    (b = false -> exists e, ap_end (activePage s) = Some e
       /\ nextPage s ts = Ret (NetworkMessagesGetPaginatedMessages
            (mkPaginated (Some (id e + 1)%Z) (Some FORWARD) ((fun t => mkInterval None (ts_to t)) <$> ts)))).
Proof.
  intros Hs. apply reachable_footerInv in Hs as [_ Hend]. unfold isLastPage, nextPage.
  destruct (ap_end (activePage s)) as [e|] eqn:E.
  - destruct (_ || _); eexists; (split; [reflexivity|]); [done|]. intros _. exists e. by destruct ts.
  - destruct (Hend eq_refl) as [-> Hp]. exists true. split; [|done].
    destruct Hp as [Hp|Hp]; rewrite Hp; [by rewrite orb_true_r|]. cbn [negb andb fmap option_fmap option_map mjoin option_join].
    rewrite (bool_decide_true (None = None)) by done. by rewrite !orb_true_r.
Qed.

Definition demoMessageOf (n : Z) : NetworkMessage := mkMessage n 3 "1.2.3.4" 100 Incoming_ "now" "kad" JNull None.

Definition demoPages : NetworkMessagesState :=
  run networkMessagesReducer initialState
    [NetworkMessagesGetMessagesSuccess [demoMessageOf 8; demoMessageOf 9];
     NetworkMessagesGetMessagesSuccess [demoMessageOf 6; demoMessageOf 7]].

Lemma messages_footer_safe_witness :
  isLastPage demoPages = Ret false
  /\ exists e, ap_end (activePage demoPages) = Some e
       /\ nextPage demoPages None = Ret (NetworkMessagesGetPaginatedMessages (mkPaginated (Some (id e + 1)%Z) (Some FORWARD) None)).
Proof.
  split; [reflexivity|]. destruct (messages_footer_safe demoPages None) as (b & Hb & H).
  - unfold demoPages, run. cbn [fold_left].
    repeat (apply (reachable_step networkMessagesReducer _ (fun _ _ => True)); [|exact I]). apply reachable_init.
  - apply H. vm_compute in Hb. by injection Hb.
Defined.

(** Going back is not as safe: between the toggle of a filter and its answer the
    old messages are still counted, the button of the previous page is enabled and
    a click on it reads the first message of a page without one. *)
Theorem messages_previous_page_throws s p ts :
  (limit s <= Z.of_nat (length (messages s)))%Z ->
  let s' := networkMessagesReducer s (NetworkMessagesToggleFilter p) in
  isFirstPage s' = false /\ previousPage s' ts = Throw unreadableId.
Proof.
  intros Hl. split; [|reflexivity]. unfold isFirstPage. cbn. apply Z.ltb_ge in Hl. by rewrite Hl.
Qed.

Lemma messages_previous_page_throws_witness :
  let s := run networkMessagesReducer initialState
    [NetworkMessagesGetMessagesSuccess (demoMessageOf ∘ Z.of_nat <$> seq 0 1000);
     NetworkMessagesToggleFilter (mkToggle [demoKind] add None None)] in
  isFirstPage s = false /\ previousPage s None = Throw unreadableId.
Proof.
  apply (messages_previous_page_throws (networkMessagesReducer initialState
    (NetworkMessagesGetMessagesSuccess (demoMessageOf ∘ Z.of_nat <$> seq 0 1000)))
    (mkToggle [demoKind] add None None) None). vm_compute. discriminate.
Defined.

End MessagesPage.
