(* ===== verification/NetworkBlocks.v ===== *)
(** Network blocks page (frontend/src/app/features/network/blocks): the gossip
    messages of one block height, filtered by block hash, with latencies
    relative to the first sighting. *)

From S2P Require Import Prelude JsRuntime TableSort.

Module Blocks.

(** * Data *)

Record NetworkBlock := mkBlock {
  messageKind : string;
  producerId : string;
  hash : string;
  date : string;
  timestamp : string;
  sender : string;
  receiver : string;
  messageId : Z;
  height : Z;
  globalSlot : Z;
  incoming : bool;
  sentLatency : option Q;
  receivedLatency : option Q
}.

#[export] Instance NetworkBlock_copy : RecordCopy NetworkBlock := {|
  record_copy b := mkBlock (messageKind b) (producerId b) (hash b) (date b) (timestamp b)
    (sender b) (receiver b) (messageId b) (height b) (globalSlot b) (incoming b)
    (sentLatency b) (receivedLatency b);
  record_copy_id := fun '(mkBlock _ _ _ _ _ _ _ _ _ _ _ _ _) => eq_refl |}.

Inductive BlockField :=
| fMessageKind | fProducerId | fHash | fDate | fTimestamp | fSender | fReceiver
| fMessageId | fHeight | fGlobalSlot | fIncoming | fSentLatency | fReceivedLatency.

#[export] Instance BlockField_eq_dec : EqDecision BlockField.
Proof. solve_decision. Defined.

#[export] Instance NetworkBlock_row : Row NetworkBlock BlockField := fun f b =>
  match f with
  | fMessageKind => VStr (messageKind b)
  | fProducerId => VStr (producerId b)
  | fHash => VStr (hash b)
  | fDate => VStr (date b)
  | fTimestamp => VStr (timestamp b)
  | fSender => VStr (sender b)
  | fReceiver => VStr (receiver b)
  | fMessageId => vZ (messageId b)
  | fHeight => vZ (height b)
  | fGlobalSlot => vZ (globalSlot b)
  | fIncoming => VStr (if incoming b then "Incoming" else "Outgoing")
  | fSentLatency => ofOption VNum (sentLatency b)
  | fReceivedLatency => ofOption VNum (receivedLatency b)
  end.

Record NetworkBlocksState := mkState {
  blocks : list NetworkBlock;
  filteredBlocks : list NetworkBlock;
  stream : bool;
  tableSort : TableSort BlockField;
  openSidePanel : bool;
  allFilters : list string;
  activeFilters : list string;
  activeBlock : option Z;
  earliestBlock : option Z
}.

#[export] Instance NetworkBlocksState_copy : RecordCopy NetworkBlocksState := {|
  record_copy s := mkState (blocks s) (filteredBlocks s) (stream s) (tableSort s)
    (openSidePanel s) (allFilters s) (activeFilters s) (activeBlock s) (earliestBlock s);
  record_copy_id := fun '(mkState _ _ _ _ _ _ _ _ _) => eq_refl |}.

Inductive NetworkBlocksActions :=
| NetworkBlocksInit
| NetworkBlocksClose
| NetworkBlocksGetBlocks (height : option Z)
| NetworkBlocksGetBlocksSuccess (payload : list NetworkBlock)
| NetworkBlocksSort (payload : TableSort BlockField)
| NetworkBlocksToggleSidePanel
| NetworkBlocksToggleFilter (payload : string)
| NetworkBlocksSetActiveBlock (height : option Z) (fetchNew : bool)
| NetworkBlocksGetEarliestBlock
| NetworkBlocksSetEarliestBlock (height : option Z).

Definition actionType (a : NetworkBlocksActions) : string :=
  match a with
  | NetworkBlocksInit => "NETWORK_BLOCKS_INIT"
  | NetworkBlocksClose => "NETWORK_BLOCKS_CLOSE"
  | NetworkBlocksGetBlocks _ => "NETWORK_BLOCKS_GET_BLOCKS"
  | NetworkBlocksGetBlocksSuccess _ => "NETWORK_BLOCKS_GET_BLOCKS_SUCCESS"
  | NetworkBlocksSort _ => "NETWORK_BLOCKS_SORT"
  | NetworkBlocksToggleSidePanel => "NETWORK_BLOCKS_TOGGLE_SIDE_PANEL"
  | NetworkBlocksToggleFilter _ => "NETWORK_BLOCKS_TOGGLE_FILTER"
  | NetworkBlocksSetActiveBlock _ _ => "NETWORK_BLOCKS_SET_ACTIVE_BLOCK"
  | NetworkBlocksGetEarliestBlock => "NETWORK_BLOCKS_GET_EARLIEST_BLOCK"
  | NetworkBlocksSetEarliestBlock _ => "NETWORK_BLOCKS_SET_EARLIEST_BLOCK"
  end.

(** * Reducer *)

Definition initialState : NetworkBlocksState := {|
  blocks := [];
  filteredBlocks := [];
  stream := true;
  activeBlock := None;
  earliestBlock := None;
  tableSort := mkTableSort fDate ASC;
  openSidePanel := false;
  allFilters := [];
  activeFilters := []
|}.

Definition getFilteredBlocks (allBlocks : list NetworkBlock) (filters : list string)
  : list NetworkBlock :=
  if bool_decide (0 < length filters)
  then List.filter (fun b => includes filters (hash b)) allBlocks
  else allBlocks.

(** [(t1, t2) => (t2 < t1 ? t2 : t1)] *)
Definition earlier (t1 t2 : Z) : Z := if (t2 <? t1)%Z then t2 else t1.

(** [Number(t - fastestTime) / ONE_BILLION] *)
Definition latencySeconds (t fastest : Z) : Q := (inject_Z (t - fastest) / inject_Z ONE_BILLION)%Q.

Definition relatency (fastest : Z) (b : NetworkBlock) : exec NetworkBlock :=
  rl ← match receivedLatency b with
       | Some _ => t ← BigInt (timestamp b); Ret (Some (latencySeconds t fastest))
       | None => Ret None
       end;
  sl ← match sentLatency b with
       | Some _ => t ← BigInt (timestamp b); Ret (Some (latencySeconds t fastest))
       | None => Ret None
       end;
  Ret (b <| receivedLatency := rl |> <| sentLatency := sl |>).

Definition applyNewLatencies (bs : list NetworkBlock) : exec (list NetworkBlock) :=
  times ← exec_map (fun b => BigInt (timestamp b)) bs;
  fastestTime ← reduce1 earlier times;
  exec_map (relatency fastestTime) bs.

Section Reducer.
Context {LC : LocaleCompare}.

Definition sortBlocks (bs : list NetworkBlock) (ts : TableSort BlockField) : list NetworkBlock :=
  sort bs ts [fDate; fHash; fSender; fReceiver; fMessageKind] false.

Definition networkBlocksReducer (state : NetworkBlocksState) (action : NetworkBlocksActions)
  : exec NetworkBlocksState :=
  match action with
  | NetworkBlocksGetBlocksSuccess payload =>
      let bs := sortBlocks payload (tableSort state) in
      let filtered := getFilteredBlocks bs (activeFilters state) in
      filtered ← if bool_decide (0 < length (activeFilters state))
                 then applyNewLatencies filtered else Ret filtered;
      Ret (state <| blocks := bs |> <| filteredBlocks := filtered |>
                 <| allFilters := arrayFromSet (hash <$> payload) |>)
  | NetworkBlocksSort payload =>
      Ret (state <| filteredBlocks := sortBlocks (filteredBlocks state) payload |>
                 <| tableSort := payload |>)
  | NetworkBlocksToggleSidePanel => Ret (state <| openSidePanel := negb (openSidePanel state) |>)
  | NetworkBlocksToggleFilter payload =>
      let filters :=
        if includes (activeFilters state) payload
        then List.filter (fun f => negb (bool_decide (f = payload))) (activeFilters state)
        else activeFilters state ++ [payload] in
      let filtered := getFilteredBlocks (blocks state) filters in
      filtered ← applyNewLatencies (sortBlocks filtered (tableSort state));
      Ret (state <| activeFilters := filters |> <| filteredBlocks := filtered |>)
  | NetworkBlocksSetActiveBlock height fetchNew =>
      Ret (state <| activeBlock := height |>
                 <| activeFilters := if fetchNew then [] else activeFilters state |>)
  | NetworkBlocksSetEarliestBlock height => Ret (state <| earliestBlock := height |>)
  | NetworkBlocksClose => Ret initialState
  | NetworkBlocksInit | NetworkBlocksGetBlocks _ | NetworkBlocksGetEarliestBlock => Ret state
  end.

End Reducer.

(** * Service *)

Record RawTime := mkTime { secs_since_epoch : Z; nanos_since_epoch : Z }.

Record RawEvent := mkEvent {
  e_message_kind : string;
  e_producer_id : string;
  e_hash : string;
  e_time : RawTime;
  e_sender_addr : string;
  e_receiver_addr : string;
  e_block_height : Z;
  e_global_slot : Z;
  e_message_id : Z;
  e_incoming : bool
}.

Definition getTimestamp (time : RawTime) : string :=
  showZ (secs_since_epoch time) +:+ padStart 9 (showZ (nanos_since_epoch time)).

Section Service.
Context {DF : DateFormat}.

Definition mapEvent (fastestTime : Z) (allTimestamp : string) (block : RawEvent) : exec NetworkBlock :=
  t ← BigInt allTimestamp;
  let latency := Some (latencySeconds t fastestTime) in
  Ret {| messageKind := e_message_kind block;
         producerId := e_producer_id block;
         hash := e_hash block;
         date := toReadableDate
           (inject_Z (secs_since_epoch (e_time block) * ONE_THOUSAND)
            + inject_Z (nanos_since_epoch (e_time block)) / inject_Z ONE_MILLION) None;
         timestamp := allTimestamp;
         sender := e_sender_addr block;
         receiver := e_receiver_addr block;
         height := e_block_height block;
         globalSlot := e_global_slot block;
         messageId := e_message_id block;
         incoming := e_incoming block;
         receivedLatency := if e_incoming block then latency else None;
         sentLatency := if e_incoming block then None else latency |}.

(** [None] is the debugger's [null] answer. *)
Definition mapBlocks (events : option (list RawEvent)) : exec (list NetworkBlock) :=
  match events with
  | None => Ret []
  | Some events =>
      times ← exec_map (fun e => BigInt (getTimestamp (e_time e))) events;
      fastestTime ← reduce1 earlier times;
      exec_map (fun e => mapEvent fastestTime (getTimestamp (e_time e)) e) events
  end.

End Service.

(** * Timestamps *)

Definition validTime (t : RawTime) : Prop :=
  (0 <= secs_since_epoch t)%Z /\ (0 <= nanos_since_epoch t < 1000000000)%Z.

Lemma getTimestamp_exact t :
  validTime t ->
  BigInt (getTimestamp t) = Ret (secs_since_epoch t * ONE_BILLION + nanos_since_epoch t)%Z.
Proof.
  intros [Hs Hn]. unfold BigInt, getTimestamp. rewrite digitsValue_app, digitsValue_showZ by done.
  cbn [mbind option_bind].
  assert (String.length (showZ (nanos_since_epoch t)) <= 9) as Hlen by (apply showZ_length; lia).
  rewrite (digitsValue_shift _ _ (nanos_since_epoch t)).
  - rewrite padStart_length by done. done.
  - unfold padStart. rewrite digitsValue_zeros. apply digitsValue_showZ. lia.
Qed.

Lemma reduce1_earlier times m :
  reduce1 earlier times = Ret m -> m ∈ times /\ forall t, t ∈ times -> (m <= t)%Z.
Proof.
  destruct times as [|x times]; [done|]. cbn. intros [= <-].
  revert x; induction times as [|y times IH]; intros x; cbn; [set_solver by lia|].
  destruct (IH (earlier x y)) as [Hin Hle]. unfold earlier in *.
  destruct (Z.ltb_spec y x); split; try set_solver.
  - intros t [->|[->|Ht]%elem_of_cons]%elem_of_cons; [|apply Hle; set_solver..].
    etrans; [apply Hle; left|lia].
  - intros t [->|[->|Ht]%elem_of_cons]%elem_of_cons; [apply Hle; set_solver| |apply Hle; set_solver].
    etrans; [apply Hle; left|lia].
Qed.

Section Theorems.
Context {DF : DateFormat}.

(** A debugger answer is mapped event by event, in order; every message
    carries a latency in exactly one direction, in exact seconds since the
    first sighting (never negative, zero for the first one), computed from
    timestamps that keep all nanoseconds.  An answer without events makes the
    mapping throw instead of showing an empty list. *)
Theorem blocks_latencies_exact (events : list RawEvent) :
  Forall (fun e => validTime (e_time e)) events ->
  let time e := (secs_since_epoch (e_time e) * ONE_BILLION + nanos_since_epoch (e_time e))%Z in
  match events with
  | [] => mapBlocks (Some events) = Throw (TypeError "Reduce of empty array with no initial value")
  | _ => exists bs fastest,
      mapBlocks (Some events) = Ret bs /\
      (exists e, e ∈ events /\ time e = fastest) /\
      Forall2 (fun e b =>
        let latency := latencySeconds (time e) fastest in
        hash b = e_hash e /\ (0 <= latency)%Q /\
        receivedLatency b = (if e_incoming e then Some latency else None) /\
        sentLatency b = (if e_incoming e then None else Some latency)) events bs
  end.
Proof.
  intros Hv time.
  assert (exec_map (fun e => BigInt (getTimestamp (e_time e))) events = Ret (time <$> events)) as Ht.
  { apply exec_map_Ret. intros e He. rewrite Forall_forall in Hv. by apply getTimestamp_exact, Hv. }
  destruct events as [|e0 rest] eqn:He; [done|]. rewrite <- He in *.
  assert (exists fastest, reduce1 earlier (time <$> events) = Ret fastest) as [m Hm]
    by (rewrite He; eauto).
  destruct (reduce1_earlier _ _ Hm) as [Hin Hle].
  set (mk := fun e => let latency := Some (latencySeconds (time e) m) in
    {| messageKind := e_message_kind e; producerId := e_producer_id e; hash := e_hash e;
       date := toReadableDate
         (inject_Z (secs_since_epoch (e_time e) * ONE_THOUSAND)
          + inject_Z (nanos_since_epoch (e_time e)) / inject_Z ONE_MILLION) None;
       timestamp := getTimestamp (e_time e);
       sender := e_sender_addr e; receiver := e_receiver_addr e; height := e_block_height e;
       globalSlot := e_global_slot e; messageId := e_message_id e; incoming := e_incoming e;
       receivedLatency := if e_incoming e then latency else None;
       sentLatency := if e_incoming e then None else latency |}).
  exists (mk <$> events), m. split_and!.
  - unfold mapBlocks. rewrite Ht. cbn. rewrite Hm. cbn. apply exec_map_Ret.
    intros e Hee. unfold mapEvent. rewrite Forall_forall in Hv.
    rewrite getTimestamp_exact by (by apply Hv). done.
  - apply list_elem_of_fmap in Hin as (e & -> & Hin). eauto.
  - apply Forall2_fmap_r, Forall_Forall2_diag, Forall_forall. intros e Hee. cbn.
    split_and!; try done; [|by destruct (e_incoming e)..].
    unfold latencySeconds. apply Qle_shift_div_l; [done|]. rewrite Qmult_0_l.
    assert (m <= time e)%Z by (apply Hle; by apply list_elem_of_fmap_2).
    change 0%Q with (inject_Z 0). rewrite <- Zle_Qle. lia.
Qed.

End Theorems.

Definition demoEvent (s n : Z) (inc : bool) : RawEvent :=
  mkEvent "block" "p" "h1" (mkTime s n) "a" "b" 5 6 7 inc.

Lemma blocks_latencies_exact_witness :
  exists bs fastest,
    mapBlocks (DF := fun _ _ => "d") (Some [demoEvent 10 5 true; demoEvent 9 999999999 false]) = Ret bs /\
    (exists e, e ∈ [demoEvent 10 5 true; demoEvent 9 999999999 false] /\
      (secs_since_epoch (e_time e) * ONE_BILLION + nanos_since_epoch (e_time e))%Z = fastest).
Proof.
  destruct (blocks_latencies_exact (DF := fun _ _ => "d")
    [demoEvent 10 5 true; demoEvent 9 999999999 false]) as (bs & m & H1 & H2 & _).
  - repeat constructor; cbn; lia.
  - exists bs, m. split; [exact H1|exact H2].
Defined.

(** * The displayed rows *)

Definition validBlock (b : NetworkBlock) : Prop := exists t, BigInt (timestamp b) = Ret t.

(** A row without its latencies. *)
Definition identity (b : NetworkBlock) : NetworkBlock :=
  b <| receivedLatency := None |> <| sentLatency := None |>.

Lemma exec_map_total {A B} (f : A -> exec B) l :
  Forall (fun x => exists y, f x = Ret y) l -> exists ys, exec_map f l = Ret ys.
Proof.
  induction 1 as [|x l (y & Hy) _ (ys & Hys)]; [by exists []|].
  exists (y :: ys). cbn. rewrite Hy. cbn. by rewrite Hys.
Qed.

Lemma relatency_total m b : validBlock b -> exists b', relatency m b = Ret b'.
Proof.
  intros (t & Ht). unfold relatency. destruct (receivedLatency b), (sentLatency b);
    rewrite ?Ht; cbn; eauto.
Qed.

Lemma relatency_identity m b b' :
  relatency m b = Ret b' -> identity b' = identity b /\ timestamp b' = timestamp b.
Proof.
  unfold relatency. intros H.
  apply exec_bind_Ret in H as (rl & _ & H). apply exec_bind_Ret in H as (sl & _ & H).
  by simplify_eq.
Qed.

Lemma exec_map_identity m l l' :
  exec_map (relatency m) l = Ret l' ->
  identity <$> l' = identity <$> l /\ timestamp <$> l' = timestamp <$> l.
Proof.
  revert l'; induction l as [|b l IH]; cbn; intros l' H; [by simplify_eq|].
  apply exec_bind_Ret in H as (b' & Hb & H). apply exec_bind_Ret in H as (ys & Hys & H).
  simplify_eq. apply relatency_identity in Hb as [Hb1 Hb2]. apply IH in Hys as [H1 H2].
  cbn. split; congruence.
Qed.

Lemma applyNewLatencies_total l :
  Forall validBlock l -> l <> [] -> exists l', applyNewLatencies l = Ret l'.
Proof.
  intros Hv Hne. unfold applyNewLatencies.
  destruct (exec_map_total (fun b => BigInt (timestamp b)) l Hv) as (ts & Hts). rewrite Hts. cbn.
  destruct ts as [|t ts].
  { apply exec_map_length in Hts. by destruct l. }
  cbn. apply exec_map_total. eapply Forall_impl; [exact Hv|]. intros b. apply relatency_total.
Qed.

Lemma applyNewLatencies_identity l l' :
  applyNewLatencies l = Ret l' ->
  identity <$> l' = identity <$> l /\ timestamp <$> l' = timestamp <$> l.
Proof.
  unfold applyNewLatencies. intros H. apply exec_bind_Ret in H as (ts & _ & H).
  apply exec_bind_Ret in H as (m & _ & H). by eapply exec_map_identity.
Qed.

Lemma getFilteredBlocks_perm l1 l2 fs :
  Permutation l1 l2 -> Permutation (getFilteredBlocks l1 fs) (getFilteredBlocks l2 fs).
Proof. unfold getFilteredBlocks. case_bool_decide; [apply list_filter_perm|done]. Qed.

Lemma getFilteredBlocks_elem l fs b :
  b ∈ getFilteredBlocks l fs <-> b ∈ l /\ (fs = [] \/ hash b ∈ fs).
Proof.
  unfold getFilteredBlocks. case_bool_decide as E.
  - rewrite elem_of_list_filter, includes_true. destruct fs; cbn in E; [lia|naive_solver].
  - destruct fs; cbn in E; [naive_solver|lia].
Qed.

Section ReducerTheorems.
Context {LC : LocaleCompare}.

(** Loading the messages of a height succeeds exactly when no hash filter
    is active or some message matches one; otherwise the reducer throws.  The
    error path of the effect dispatches an empty list, so any failed request
    under an active filter throws too. *)
Theorem blocks_load_succeeds_iff (s : NetworkBlocksState) (payload : list NetworkBlock) :
  Forall validBlock payload ->
  ((exists s', networkBlocksReducer s (NetworkBlocksGetBlocksSuccess payload) = Ret s') <->
   activeFilters s = [] \/ exists b, b ∈ payload /\ hash b ∈ activeFilters s) /\
  (activeFilters s <> [] ->
   networkBlocksReducer s (NetworkBlocksGetBlocksSuccess [])
   = Throw (TypeError "Reduce of empty array with no initial value")).
Proof.
  intros Hv. split.
  - cbn [networkBlocksReducer]. set (filtered := getFilteredBlocks _ _).
    assert (forall b, b ∈ filtered <-> b ∈ payload /\ (activeFilters s = [] \/ hash b ∈ activeFilters s)) as Hf.
    { intros b. unfold filtered. rewrite getFilteredBlocks_elem. unfold sortBlocks. by rewrite sort_elem. }
    case_bool_decide as E.
    + assert (activeFilters s <> []) as Hne by (by destruct (activeFilters s); cbn in E; [lia|]).
      split.
      * intros (s' & H). apply exec_bind_Ret in H as (l & Hl & _). right.
        destruct filtered as [|b rest] eqn:Eb; [done|].
        exists b. destruct (proj1 (Hf b) ltac:(left)) as [? [?|?]]; done.
      * intros [?|(b & Hb & Hh)]; [done|].
        destruct (applyNewLatencies_total filtered) as (l & Hl).
        -- apply Forall_forall. intros x [Hx _]%Hf. by eapply Forall_forall in Hv.
        -- intros E'. assert (b ∈ filtered) as Hin by (apply Hf; auto). rewrite E' in Hin. set_solver.
        -- rewrite Hl. cbn. eauto.
    + assert (activeFilters s = []) as Hnil by (by destruct (activeFilters s); cbn in E; [|lia]).
      split; [auto|]. intros _. cbn. eauto.
  - intros Hne. cbn [networkBlocksReducer]. unfold sortBlocks. rewrite sort_nil.
    destruct (activeFilters s); [done|]. done.
Qed.

Definition blocksInv (s : NetworkBlocksState) : Prop :=
  Permutation (identity <$> filteredBlocks s)
    (identity <$> getFilteredBlocks (blocks s) (activeFilters s)).

Definition keepsFilters (s : NetworkBlocksState) (a : NetworkBlocksActions) : Prop :=
  match a with NetworkBlocksSetActiveBlock _ fetchNew => fetchNew = false | _ => True end.

Lemma reducer_blocksInv s a s' :
  blocksInv s -> keepsFilters s a -> networkBlocksReducer s a = Ret s' -> blocksInv s'.
Proof.
  unfold blocksInv. intros Hi Hk. destruct a; cbn [networkBlocksReducer]; intros H; simplify_eq/=;
    try exact Hi; try done.
  - apply exec_bind_Ret in H as (l & Hl & H). simplify_eq/=.
    case_bool_decide; [|by simplify_eq].
    apply applyNewLatencies_identity in Hl as [-> _]. done.
  - unfold sortBlocks. rewrite <- sort_perm. done.
  - apply exec_bind_Ret in H as (l & Hl & H). simplify_eq/=.
    apply applyNewLatencies_identity in Hl as [-> _].
    unfold sortBlocks. by rewrite <- sort_perm.
Qed.

(** Through any sequence of loads, sorts and filter toggles, the rows on
    display are (up to order and latencies) the loaded messages whose hash is
    among the active filters, all of them when no filter is active. *)
Theorem blocks_display_matches_filters s :
  reachable_exec networkBlocksReducer initialState keepsFilters s ->
  Permutation (identity <$> filteredBlocks s)
    (identity <$> getFilteredBlocks (blocks s) (activeFilters s)).
Proof.
  revert s. apply reachable_exec_inv; [done|]. intros s a s'. apply reducer_blocksInv.
Qed.

End ReducerTheorems.

Definition demoBlock (h t : string) : NetworkBlock :=
  mkBlock "block" "p" h "d" t "a" "b" 1 2 3 true None (Some 0%Q).

Lemma blocks_load_succeeds_iff_witness :
  Forall validBlock [demoBlock "h1" "42"] /\
  networkBlocksReducer (LC := codeUnitCompare) (initialState <| activeFilters := ["h2"] |>)
    (NetworkBlocksGetBlocksSuccess [])
  = Throw (TypeError "Reduce of empty array with no initial value").
Proof.
  assert (Forall validBlock [demoBlock "h1" "42"]) as H by (repeat constructor; by exists 42%Z).
  split; [exact H|].
  apply (blocks_load_succeeds_iff (LC := codeUnitCompare) (initialState <| activeFilters := ["h2"] |>)
    [demoBlock "h1" "42"] H). discriminate.
Defined.

Lemma blocks_display_matches_filters_witness :
  exists s, networkBlocksReducer (LC := codeUnitCompare) initialState
    (NetworkBlocksGetBlocksSuccess [demoBlock "h1" "42"; demoBlock "h2" "43"]) = Ret s /\
  Permutation (identity <$> filteredBlocks s)
    (identity <$> getFilteredBlocks (blocks s) (activeFilters s)).
Proof.
  eexists. split; [reflexivity|]. apply (blocks_display_matches_filters (LC := codeUnitCompare)).
  eapply (reachable_exec_step _ _ _ _
    (NetworkBlocksGetBlocksSuccess [demoBlock "h1" "42"; demoBlock "h2" "43"]));
    [apply reachable_exec_init|exact I|reflexivity].
Defined.

End Blocks.
