(* ===== verification/DashboardSplits.v ===== *)
(** Network splits page (frontend/src/app/features/network/splits): the
    reducer that groups the peers of the network into the sets that can reach
    each other. *)

From S2P Require Import Prelude JsRuntime TableSort Graph.

Module Splits.

(** * Data *)

Record DashboardSplitsPeer := mkPeer {
  address : string;
  node : option string;
  radius : option Z;
  outgoingConnections : option Z;
  incomingConnections : option Z
}.

#[export] Instance DashboardSplitsPeer_eq_dec : EqDecision DashboardSplitsPeer.
Proof. solve_decision. Defined.

#[export] Instance DashboardSplitsPeer_copy : RecordCopy DashboardSplitsPeer := {|
  record_copy p := mkPeer (address p) (node p) (radius p) (outgoingConnections p) (incomingConnections p);
  record_copy_id := fun '(mkPeer _ _ _ _ _) => eq_refl |}.

Inductive PeerField := fAddress | fNode | fRadius | fOutgoingConnections | fIncomingConnections.

#[export] Instance PeerField_eq_dec : EqDecision PeerField.
Proof. solve_decision. Defined.

#[export] Instance DashboardSplitsPeer_row : Row DashboardSplitsPeer PeerField := fun f p =>
  match f with
  | fAddress => VStr (address p)
  | fNode => ofOption VStr (node p)
  | fRadius => ofOption vZ (radius p)
  | fOutgoingConnections => ofOption vZ (outgoingConnections p)
  | fIncomingConnections => ofOption vZ (incomingConnections p)
  end.

Record DashboardNodeCount := mkNodeCount {
  nodes : nat;
  producers : nat;
  snarkers : nat;
  seeders : nat;
  transactionGenerators : nat
}.

(** A [DashboardSplitsSet] is its array of peers. *)
Definition DashboardSplitsSet : Type := list DashboardSplitsPeer.

Record DashboardSplits := mkSplits {
  splitPeers : list DashboardSplitsPeer;
  splitLinks : list DashboardSplitsLink
}.

Record DashboardSplitsState := mkState {
  peers : list DashboardSplitsPeer;
  links : list DashboardSplitsLink;
  sets : list DashboardSplitsSet;
  activePeer : option DashboardSplitsPeer;
  networkSplitsDetails : option string;
  networkMergeDetails : option string;
  nodeStats : option DashboardNodeCount;
  fetching : bool;
  tableSort : TableSort PeerField;
  openSidePanel : bool
}.

#[export] Instance DashboardSplitsState_copy : RecordCopy DashboardSplitsState := {|
  record_copy s := mkState (peers s) (links s) (sets s) (activePeer s) (networkSplitsDetails s)
    (networkMergeDetails s) (nodeStats s) (fetching s) (tableSort s) (openSidePanel s);
  record_copy_id := fun '(mkState _ _ _ _ _ _ _ _ _ _) => eq_refl |}.

Inductive DashboardSplitsActions :=
| DashboardSplitsClose
| DashboardSplitsGetSplits
| DashboardSplitsGetSplitsSuccess (payload : DashboardSplits)
| DashboardSplitsSetActivePeer (payload : option DashboardSplitsPeer)
| DashboardSplitsSplitNodes
| DashboardSplitsSplitNodesSuccess
| DashboardSplitsMergeNodes
| DashboardSplitsMergeNodesSuccess
| DashboardSplitsSortPeers (payload : TableSort PeerField)
| DashboardSplitsToggleSidePanel.

Definition actionType (a : DashboardSplitsActions) : string :=
  match a with
  | DashboardSplitsClose => "DASHBOARD_SPLITS_CLOSE"
  | DashboardSplitsGetSplits => "DASHBOARD_SPLITS_GET_SPLITS"
  | DashboardSplitsGetSplitsSuccess _ => "DASHBOARD_SPLITS_GET_SPLITS_SUCCESS"
  | DashboardSplitsSetActivePeer _ => "DASHBOARD_SPLITS_SET_ACTIVE_PEER"
  | DashboardSplitsSplitNodes => "DASHBOARD_SPLITS_SPLIT_NODES"
  | DashboardSplitsSplitNodesSuccess => "DASHBOARD_SPLITS_SPLIT_NODES_SUCCESS"
  | DashboardSplitsMergeNodes => "DASHBOARD_SPLITS_MERGE_NODES"
  | DashboardSplitsMergeNodesSuccess => "DASHBOARD_SPLITS_MERGE_NODES_SUCCESS"
  | DashboardSplitsSortPeers _ => "DASHBOARD_SPLITS_SORT_PEERS"
  | DashboardSplitsToggleSidePanel => "DASHBOARD_SPLITS_TOGGLE_SIDE_PANEL"
  end.

(** * Reducer *)

Definition getRadius (peer : DashboardSplitsPeer) (ls : list DashboardSplitsLink) : Z :=
  if bool_decide (node peer = Some "Webnode") then 14
  else
    let occurrence := countIf (fun link => bool_decide (source link = address peer)
                                        || bool_decide (target link = address peer)) ls in
    if occurrence <? 6 then 4
    else if occurrence <? 8 then 6
    else if occurrence <? 10 then 8
    else if occurrence <? 12 then 10
    else if occurrence <? 14 then 12
    else 14.

(** The reducer passes objects with a [url] only: a list of urls. *)
Definition getNodeCount (urls : list string) : DashboardNodeCount := {|
  nodes := countIf (fun url => strIncludes url "node") urls;
  producers := countIf (fun url => strIncludes url "prod") urls;
  snarkers := countIf (fun url => strIncludes url "snarker") urls;
  seeders := countIf (fun url => strIncludes url "seed") urls;
  transactionGenerators := countIf (fun url => strIncludes url "transaction-generator") urls
|}.

Definition unreadable : JsError :=
  TypeError "Cannot read properties of undefined (reading 'address')".

Section Reducer.
Context {LC : LocaleCompare} {DF : DateFormat}.

Definition sortPeers (messages : list DashboardSplitsPeer) (ts : TableSort PeerField)
  : list DashboardSplitsPeer :=
  sort messages ts [fAddress; fNode] true.
#[local] Arguments sortPeers _ _ : simpl never.

(** ** The traversal

    A peer object is its position in [peers]: the [Set] of peers compares
    references.  [None] in the queue is the [undefined] that [peers.find]
    returns for an address of no peer. *)
Section Traversal.
Context (ps : list DashboardSplitsPeer) (ls : list DashboardSplitsLink).

Definition findPeer (a : string) : option nat :=
  findIndex (fun p => bool_decide (address p = a)) ps.

(** The address one link adds to the queue, if any. *)
Definition nextAddress (visited : list string) (current : string) (link : DashboardSplitsLink)
  : option string :=
  if bool_decide (source link = current) && negb (includes visited (target link))
  then Some (target link)
  else if bool_decide (target link = current) && negb (includes visited (source link))
  then Some (source link)
  else None.

Definition pushes (visited : list string) (current : string) : list (option nat) :=
  findPeer <$> omap (nextAddress visited current) ls.

(** The [while (queue.length > 0)] loop. *)
Fixpoint bfs (fuel : nat) (visited : list string) (peersForCurrentSet : list nat)
  (queue : list (option nat)) : exec (list string * list nat) :=
  match fuel, queue with
  | _, [] => Ret (visited, peersForCurrentSet)
  | 0, _ :: _ => Throw (RangeError "out of fuel")
  | S fuel, currentPeer :: queue =>
      match currentPeer with
      | Some i =>
          if includes peersForCurrentSet i then bfs fuel visited peersForCurrentSet queue
          else match ps !! i with
               | Some p =>
                   let visited := visited ++ [address p] in
                   bfs fuel visited (peersForCurrentSet ++ [i]) (queue ++ pushes visited (address p))
               | None => Throw unreadable
               end
      | None => Throw unreadable
      end
  end.

(** Every peer is expanded at most once, and pushes at most one entry per link. *)
Definition bfsFuel : nat := 1 + length ps * length ls.

(** The [for (const peer of peers)] loop, from the position [i] on. *)
Fixpoint splitFrom (i : nat) (rest : list DashboardSplitsPeer) (visited : list string)
  : exec (list (list nat)) :=
  match rest with
  | [] => Ret []
  | p :: rest =>
      if includes visited (address p) then splitFrom (S i) rest visited
      else '(visited, current) ← bfs bfsFuel visited [] [Some i];
           others ← splitFrom (S i) rest visited;
           Ret (current :: others)
  end.

Definition deref (refs : list nat) : list DashboardSplitsPeer := omap (fun i => ps !! i) refs.

(** [index === peers.findIndex(p => p.address === peer.address)] *)
Definition isFirst (index : nat) : bool :=
  match ps !! index with Some peer => bool_decide (findPeer (address peer) = Some index) | None => false end.

(** The first peer of each address. *)
Definition removeDuplicatedPeers : list DashboardSplitsPeer :=
  deref (List.filter isFirst (seq 0 (length ps))).

Definition splitThePeers : exec (list DashboardSplitsSet) :=
  groups ← splitFrom 0 ps [];
  Ret ((fun g => sortPeers (deref g) (mkTableSort fOutgoingConnections DSC))
         <$> (groups : list (list nat))).

End Traversal.

(** [isMobile()] and [Date.now()] are read from the browser. *)
Section Browser.
Context (mobile : bool) (now : Q).

Definition initialState : DashboardSplitsState := {|
  peers := [];
  links := [];
  sets := [];
  activePeer := None;
  networkSplitsDetails := None;
  networkMergeDetails := None;
  nodeStats := None;
  fetching := true;
  tableSort := mkTableSort fOutgoingConnections DSC;
  openSidePanel := negb mobile
|}.

Definition withConnections (ls : list DashboardSplitsLink) (p : DashboardSplitsPeer)
  : DashboardSplitsPeer :=
  p <| radius := Some (getRadius p ls) |>
    <| outgoingConnections :=
         Some (Z.of_nat (countIf (fun l => bool_decide (source l = address p)) ls)) |>
    <| incomingConnections :=
         Some (Z.of_nat (countIf (fun l => bool_decide (target l = address p)) ls)) |>.

Definition peerUrl (p : DashboardSplitsPeer) : string :=
  if truthyStr (node p) then toLowerCase (default "" (node p)) else "node".

Definition topologyReducer (state : DashboardSplitsState) (action : DashboardSplitsActions)
  : exec DashboardSplitsState :=
  match action with
  | DashboardSplitsGetSplits => Ret (state <| activePeer := None |> <| fetching := true |>)
  | DashboardSplitsGetSplitsSuccess payload =>
      let ps := withConnections (splitLinks payload) <$> splitPeers payload in
      groups ← splitThePeers ps (splitLinks payload);
      Ret (state <| peers := ps |>
                 <| sets := (fun set => sortPeers set (tableSort state)) <$> (groups : list DashboardSplitsSet) |>
                 <| links := splitLinks payload |>
                 <| nodeStats := Some (getNodeCount (peerUrl <$> ps)) |>
                 <| fetching := false |>)
  | DashboardSplitsSetActivePeer payload =>
      Ret (state <| activePeer := payload |> <| openSidePanel := true |>)
  | DashboardSplitsSplitNodes =>
      Ret (state <| fetching := true |>
                 <| networkSplitsDetails :=
                      Some ("Last split: " +:+ toReadableDate now (Some noMillisFormat)) |>)
  | DashboardSplitsMergeNodes =>
      Ret (state <| fetching := true |>
                 <| networkMergeDetails :=
                      Some ("Last merge: " +:+ toReadableDate now (Some noMillisFormat)) |>)
  | DashboardSplitsSortPeers payload =>
      Ret (state <| tableSort := payload |>
                 <| sets := (fun set => sortPeers set payload) <$> sets state |>)
  | DashboardSplitsToggleSidePanel => Ret (state <| openSidePanel := negb (openSidePanel state) |>)
  | DashboardSplitsClose => Ret initialState
  | DashboardSplitsSplitNodesSuccess | DashboardSplitsMergeNodesSuccess => Ret state
  end.

End Browser.
End Reducer.
#[local] Arguments sortPeers {LC} _ _ : simpl never.

(** * The traversal returns the connected components *)

Section TraversalProof.
Context (ps : list DashboardSplitsPeer) (ls : list DashboardSplitsLink).

Definition addresses : list string := address <$> ps.

(** Some peer is linked to an address that no peer has. *)
Definition danglingLink : Prop :=
  exists a b, linked ls a b /\ a ∈ addresses /\ b ∉ addresses.

Definition addressesOf (refs : list nat) : list string := address <$> deref ps refs.

Lemma elem_of_addressesOf refs x :
  x ∈ addressesOf refs <-> exists i p, i ∈ refs /\ ps !! i = Some p /\ address p = x.
Proof.
  unfold addressesOf, deref. rewrite list_elem_of_fmap. setoid_rewrite list_elem_of_omap.
  naive_solver.
Qed.

Lemma findPeer_Some a i : findPeer ps a = Some i -> exists p, ps !! i = Some p /\ address p = a.
Proof. intros [(p & Hp & Ha) _]%findIndex_Some. js_simpl. eauto. Qed.

Lemma findPeer_None a : findPeer ps a = None -> a ∉ addresses.
Proof.
  intros H (p & -> & Hp)%list_elem_of_fmap.
  apply (proj1 (findIndex_None _ _) H) in Hp. js_simpl. done.
Qed.

Lemma nextAddress_sound visited a l d :
  l ∈ ls -> nextAddress visited a l = Some d -> linked ls a d /\ d ∉ visited.
Proof.
  unfold nextAddress, linked. intros Hl. repeat case_match; intros; simplify_eq; js_simpl;
    (split; [exists l|]; naive_solver).
Qed.

Lemma nextAddress_complete visited a d :
  a ∈ visited -> linked ls a d -> d ∉ visited -> exists l, l ∈ ls /\ nextAddress visited a l = Some d.
Proof.
  intros Ha (l & Hl & Hends) Hd. exists l. split; [done|]. unfold nextAddress.
  destruct Hends as [[<- <-]|[<- <-]].
  - rewrite bool_decide_true by done. rewrite (proj2 (includes_false _ _)) by done. done.
  - rewrite bool_decide_false by congruence. cbn.
    rewrite bool_decide_true by done. rewrite (proj2 (includes_false _ _)) by done. done.
Qed.

Lemma elem_of_pushes visited a q :
  a ∈ visited ->
  q ∈ pushes ps ls visited a <-> exists d, linked ls a d /\ d ∉ visited /\ q = findPeer ps d.
Proof.
  intros Ha. unfold pushes. rewrite list_elem_of_fmap. setoid_rewrite list_elem_of_omap. split.
  - intros (d & -> & l & Hl & Hd). exists d. apply nextAddress_sound in Hd as [??]; done.
  - intros (d & Hl & Hd & ->). exists d. split; [done|]. by apply nextAddress_complete.
Qed.

Lemma pushes_length visited a : length (pushes ps ls visited a) <= length ls.
Proof.
  unfold pushes. rewrite length_fmap. induction ls as [|l ls' IH]; [done|]. cbn.
  destruct (nextAddress visited a l); cbn; lia.
Qed.

(** Invariant of the loop started at the address [a] with [V] visited. *)
Record TraversalInv (V : list string) (a : string) (visited : list string)
  (current : list nat) (queue : list (option nat)) : Prop := {
  inv_nodup : NoDup current;
  inv_bound : forall i, i ∈ current -> i < length ps;
  inv_visited : forall x, x ∈ visited <-> x ∈ V \/ x ∈ addressesOf current;
  inv_fresh : forall x, x ∈ addressesOf current -> x ∉ V;
  inv_sound : forall x, x ∈ addressesOf current -> connected ls a x;
  inv_queue : forall i, Some i ∈ queue ->
    exists p, ps !! i = Some p /\ connected ls a (address p) /\ address p ∉ V;
  inv_first : forall i, i ∈ current \/ Some i ∈ queue -> isFirst ps i = true;
  inv_dangling : None ∈ queue -> danglingLink;
  inv_pending : forall x d, x ∈ addressesOf current -> linked ls x d ->
    d ∈ visited \/ (exists i p, Some i ∈ queue /\ ps !! i = Some p /\ address p = d) \/ None ∈ queue;
  inv_start : a ∈ addressesOf current \/
    exists i p, Some i ∈ queue /\ ps !! i = Some p /\ address p = a
}.

Lemma isFirst_spec i p : ps !! i = Some p -> isFirst ps i = true <-> findPeer ps (address p) = Some i.
Proof. intros Hp. unfold isFirst. rewrite Hp. apply bool_decide_eq_true. Qed.

Lemma findPeer_first a i : findPeer ps a = Some i -> isFirst ps i = true.
Proof. intros Ha. destruct (findPeer_Some a i Ha) as (p & Hp & <-). by apply (isFirst_spec i p Hp). Qed.

Lemma isFirst_lookup i : isFirst ps i = true -> exists p, ps !! i = Some p /\ findPeer ps (address p) = Some i.
Proof.
  unfold isFirst. destruct (ps !! i) as [p|]; [|done]. intros H%bool_decide_eq_true. by exists p.
Qed.

Lemma TraversalInv_init V i p :
  ps !! i = Some p -> isFirst ps i = true -> address p ∉ V -> TraversalInv V (address p) V [] [Some i].
Proof.
  intros Hp Hf HV. split; try set_solver. constructor.
Qed.

Lemma TraversalInv_skip V a visited current i queue :
  TraversalInv V a visited current (Some i :: queue) -> i ∈ current ->
  TraversalInv V a visited current queue.
Proof.
  intros [H1 H2 H3 H4 H5 H6 Hfst H7 H8 H9] Hi. split; try done.
  - intros j Hj. apply H6. by right.
  - intros j Hj. apply Hfst. rewrite elem_of_cons. tauto.
  - intros Hn. apply H7. by right.
  - intros x d Hx Hd. destruct (H8 x d Hx Hd) as [?|[(j & p & Hj & Hp & Ha)|?]].
    + auto.
    + apply elem_of_cons in Hj as [[= ->]|Hj]; [|naive_solver].
      left. apply H3. right. apply elem_of_addressesOf. eauto.
    + right; right. by apply elem_of_cons in H as [|].
  - destruct H9 as [?|(j & p & Hj & Hp & Ha)]; [auto|].
    apply elem_of_cons in Hj as [[= ->]|Hj]; [|naive_solver].
    left. apply elem_of_addressesOf. eauto.
Qed.

Lemma addressesOf_snoc refs i p x :
  ps !! i = Some p -> x ∈ addressesOf (refs ++ [i]) <-> x ∈ addressesOf refs \/ x = address p.
Proof.
  intros Hp. rewrite !elem_of_addressesOf. setoid_rewrite elem_of_app.
  setoid_rewrite list_elem_of_singleton. naive_solver.
Qed.

Lemma TraversalInv_expand V a visited current i p queue :
  TraversalInv V a visited current (Some i :: queue) -> i ∉ current -> ps !! i = Some p ->
  let visited' := visited ++ [address p] in
  TraversalInv V a visited' (current ++ [i]) (queue ++ pushes ps ls visited' (address p)).
Proof.
  intros [H1 H2 H3 H4 H5 H6 Hfst H7 H8 H9] Hi Hp visited'.
  destruct (H6 i) as (p' & Hp' & Hap & HpV); [set_solver|]. simplify_eq.
  assert (forall q, q ∈ pushes ps ls visited' (address p) <->
    exists d, linked ls (address p) d /\ d ∉ visited' /\ q = findPeer ps d) as Hpush.
  { intros q. apply elem_of_pushes. set_solver. }
  assert (forall x, x ∈ visited' <-> x ∈ V \/ x ∈ addressesOf (current ++ [i])) as Hvis.
  { intros x. unfold visited'. rewrite elem_of_app, H3, list_elem_of_singleton,
      (addressesOf_snoc _ _ _ _ Hp). tauto. }
  split; try done.
  - apply NoDup_app. split_and!; [done|set_solver|apply NoDup_singleton].
  - intros j [Hj| ->%list_elem_of_singleton]%elem_of_app; [auto|]. by eapply lookup_lt_Some.
  - intros x [Hx| ->]%(addressesOf_snoc _ _ _ _ Hp); auto.
  - intros x [Hx| ->]%(addressesOf_snoc _ _ _ _ Hp); auto.
  - intros j [Hj|Hj]%elem_of_app; [apply H6; set_solver|].
    apply Hpush in Hj as (d & Hd & Hdv & Hj). symmetry in Hj.
    apply findPeer_Some in Hj as (pj & Hpj & <-). exists pj. split_and!; [done| |].
    + eapply rtc_r; eauto.
    + intros HV. apply Hdv, Hvis. auto.
  - intros j Hj. assert (j ∈ current \/ Some j ∈ Some i :: queue \/ Some j ∈ pushes ps ls visited' (address p))
      as [?|[?|(d & _ & _ & Hd)%Hpush]] by set_solver; [auto..|]. by apply (findPeer_first d).
  - intros [Hn|Hn]%elem_of_app; [apply H7; set_solver|].
    apply Hpush in Hn as (d & Hd & _ & Hn). symmetry in Hn. apply findPeer_None in Hn.
    exists (address p), d. split_and!; try done. apply list_elem_of_fmap.
    exists p. split; [done|]. by eapply list_elem_of_lookup_2.
  - intros x d Hx Hd. destruct (decide (d ∈ visited')) as [|Hdv]; [auto|].
    apply (addressesOf_snoc _ _ _ _ Hp) in Hx as [Hx| ->].
    + destruct (H8 x d Hx Hd) as [?|[(j & pj & Hj & Hpj & Ha)|?]]; [set_solver| |].
      * apply elem_of_cons in Hj as [[= ->]|Hj]; [|right; left; exists j, pj; set_solver].
        simplify_eq. set_solver.
      * right; right. set_solver.
    + right. assert (findPeer ps d ∈ pushes ps ls visited' (address p)) as Hin by (apply Hpush; eauto).
      destruct (findPeer ps d) as [j|] eqn:Hj; [left|right; set_solver].
      apply findPeer_Some in Hj as (pj & ? & ?). exists j, pj. set_solver.
  - destruct H9 as [?|(j & pj & Hj & Hpj & Ha)]; [left; apply (addressesOf_snoc _ _ _ _ Hp); auto|].
    apply elem_of_cons in Hj as [[= ->]|Hj]; [|right; exists j, pj; set_solver].
    left. apply (addressesOf_snoc _ _ _ _ Hp). right. congruence.
Qed.

Lemma refs_length current :
  NoDup current -> (forall i, i ∈ current -> i < length ps) -> length current <= length ps.
Proof.
  intros Hnd Hb. rewrite <- (length_seq (length ps) 0). apply submseteq_length.
  apply NoDup_submseteq; [done|]. intros i Hi. apply elem_of_seq. specialize (Hb i Hi). lia.
Qed.

(** The loop ends, either in the whole component or at a dangling link. *)
Lemma bfs_spec V a fuel : forall visited current queue,
  TraversalInv V a visited current queue ->
  length queue + (length ps - length current) * length ls <= fuel ->
  match bfs ps ls fuel visited current queue with
  | Ret (visited', current') => TraversalInv V a visited' current' []
  | Throw e => e = unreadable /\ danglingLink
  end.
Proof.
  induction fuel as [|fuel IH]; intros visited current queue Hinv Hfuel;
    destruct queue as [|[i|] queue]; cbn [bfs]; try exact Hinv; try by inversion Hfuel.
  - destruct (includes current i) eqn:Hi; js_simpl.
    + apply IH; [by eapply TraversalInv_skip|]. cbn in Hfuel. lia.
    + destruct (inv_queue _ _ _ _ _ Hinv i) as (p & Hp & _); [set_solver|]. rewrite Hp.
      pose proof (TraversalInv_expand _ _ _ _ _ _ _ Hinv Hi Hp) as Hinv'. apply IH; [done|].
      pose proof (refs_length _ (inv_nodup _ _ _ _ _ Hinv') (inv_bound _ _ _ _ _ Hinv')) as Hle.
      rewrite length_app in Hle. cbn [length] in Hfuel, Hle.
      pose proof (pushes_length (visited ++ [address p]) (address p)).
      replace (length ps - length current) with (S (length ps - (length current + 1))) in Hfuel by lia.
      rewrite Nat.mul_succ_l in Hfuel. rewrite !length_app. cbn [length].
      revert Hfuel. generalize ((length ps - (length current + 1)) * length ls). lia.
  - split; [done|]. apply (inv_dangling _ _ _ _ _ Hinv). set_solver.
Qed.

Lemma first_inj i j p q :
  isFirst ps i = true -> isFirst ps j = true -> ps !! i = Some p -> ps !! j = Some q -> address p = address q -> i = j.
Proof.
  intros Hi%isFirst_lookup Hj%isFirst_lookup Hp Hq Heq. naive_solver congruence.
Qed.

Lemma addressesOf_NoDup refs :
  (forall i, i ∈ refs -> isFirst ps i = true) -> NoDup refs -> NoDup (addressesOf refs).
Proof.
  intros Hf. induction 1 as [|i refs Hi _ IH]; [constructor|]. unfold addressesOf, deref in *. cbn.
  destruct (ps !! i) as [p|] eqn:Hp; [|apply IH; intros j Hj; apply Hf; by right]. cbn. constructor.
  - intros (j & q & Hj & Hq & Heq)%elem_of_addressesOf. apply Hi.
    rewrite <- (first_inj j i q p); [done|apply Hf; by right|apply Hf; by left|done..].
  - apply IH. intros j Hj. apply Hf. by right.
Qed.

Lemma elem_of_unique p : p ∈ removeDuplicatedPeers ps <-> exists i, ps !! i = Some p /\ isFirst ps i = true.
Proof.
  unfold removeDuplicatedPeers, deref. rewrite list_elem_of_omap. split.
  - intros (i & Hi & Hp). rewrite list_elem_of_In, filter_In in Hi. naive_solver.
  - intros (i & Hp & Hf). exists i. split; [|done]. rewrite list_elem_of_In, filter_In, <- list_elem_of_In.
    split; [|done]. apply elem_of_seq. apply lookup_lt_Some in Hp. lia.
Qed.

Lemma unique_NoDup : NoDup (address <$> removeDuplicatedPeers ps).
Proof.
  apply addressesOf_NoDup.
  - intros i Hi. rewrite list_elem_of_In, filter_In in Hi. tauto.
  - apply NoDup_ListNoDup, List.NoDup_filter, NoDup_ListNoDup, NoDup_seq.
Qed.

Lemma unique_addresses x : x ∈ (address <$> removeDuplicatedPeers ps) <-> x ∈ addresses.
Proof.
  unfold addresses. rewrite !list_elem_of_fmap. split.
  - intros (p & -> & (i & Hp & _)%elem_of_unique). exists p. split; [done|]. by eapply list_elem_of_lookup_2.
  - intros (p & -> & Hp). destruct (findPeer ps (address p)) as [i|] eqn:Hi.
    + destruct (findPeer_Some _ _ Hi) as (q & Hq & Heq). exists q. split; [done|]. apply elem_of_unique. exists i.
      split; [done|]. by apply (findPeer_first (address p)).
    + apply findPeer_None in Hi. destruct Hi. by apply list_elem_of_fmap_2.
Qed.

(** One iteration of the outer loop adds one component. *)
Lemma bfs_component V comps i p :
  ps !! i = Some p -> isFirst ps i = true -> address p ∉ V -> ComponentsOf ls V comps ->
  match bfs ps ls (bfsFuel ps ls) V [] [Some i] with
  | Ret (V', c) => ComponentsOf ls V' (comps ++ [addressesOf c]) /\ address p ∈ V' /\
      (forall x, x ∈ V -> x ∈ V') /\ (forall x, x ∈ V' -> x ∈ V \/ x ∈ addresses) /\
      (forall i, i ∈ c -> isFirst ps i = true)
  | Throw e => e = unreadable /\ danglingLink
  end.
Proof.
  intros Hp Hf HV HC. pose proof (bfs_spec V (address p) (bfsFuel ps ls) _ _ _
    (TraversalInv_init V i p Hp Hf HV)) as Hspec.
  destruct (bfs _ _ _ _ _ _) as [[V' c]|e].
  2:{ apply Hspec. unfold bfsFuel. cbn. lia. }
  destruct Hspec as [H1 H2 H3 H4 H5 _ Hfst _ H8 H9]; [unfold bfsFuel; cbn; lia|].
  assert (address p ∈ addressesOf c) as Hpc by (destruct H9 as [|(?&?&?&_)]; set_solver).
  assert (forall x d, x ∈ addressesOf c -> linked ls x d -> d ∈ V') as Hcl
    by (intros x d Hx Hd; destruct (H8 x d Hx Hd) as [|[(?&?&?&_)|]]; set_solver).
  split_and!; try done.
  - eapply ComponentsOf_snoc; [done|exact HV|apply addressesOf_NoDup; auto| |exact H3].
    eapply explored_component; [by eapply ComponentsOf_closed|done..|].
    intros b d Hb Hd. specialize (Hcl b d Hb Hd). apply H3 in Hcl. tauto.
  - apply H3. auto.
  - intros x Hx. apply H3. auto.
  - intros x [|Hx]%H3; [auto|]. right.
    apply elem_of_addressesOf in Hx as (j & q & _ & Hq & <-). apply list_elem_of_fmap.
    exists q. split; [done|]. by eapply list_elem_of_lookup_2.
  - auto.
Qed.

Lemma splitFrom_spec rest : forall i V comps,
  (forall k, rest !! k = ps !! (i + k)) ->
  (forall j p, j < i -> ps !! j = Some p -> address p ∈ V) ->
  (forall x, x ∈ V -> x ∈ addresses) ->
  ComponentsOf ls V comps ->
  match splitFrom ps ls i rest V with
  | Ret groups => ~ danglingLink /\
      IsComponents ls (address <$> removeDuplicatedPeers ps) (comps ++ (addressesOf <$> groups)) /\
      (forall g i, g ∈ groups -> i ∈ g -> isFirst ps i = true)
  | Throw e => e = unreadable /\ danglingLink
  end.
Proof.
  induction rest as [|p rest IH]; intros i V comps Hrest Hdone HV HC; cbn [splitFrom].
  - assert (forall x, x ∈ V <-> x ∈ addresses) as HVA.
    { split; [apply HV|]. intros (p & -> & Hp)%list_elem_of_fmap.
      apply list_elem_of_lookup in Hp as [j Hj]. apply (Hdone j); [|done].
      destruct (decide (j < i)) as [|Hge]; [done|]. specialize (Hrest (j - i)).
      replace (i + (j - i)) with j in Hrest by lia. rewrite Hj in Hrest. done. }
    rewrite app_nil_r. split_and!;
      [|eapply ComponentsOf_is; [done|apply unique_NoDup|intros x; by rewrite HVA, unique_addresses]|set_solver].
    intros (a & b & Hab & Ha & Hb). apply Hb, HVA.
    apply (ComponentsOf_closed _ _ _ HC _ _ Hab). by apply HVA.
  - assert (ps !! i = Some p) as Hp by (rewrite <- (Nat.add_0_r i), <- (Hrest 0); done).
    assert (forall k, rest !! k = ps !! (S i + k)) as Hrest'.
    { intros k. specialize (Hrest (S k)). rewrite Nat.add_succ_r in Hrest. exact Hrest. }
    assert (forall (V' : list string), address p ∈ V' -> (forall x, x ∈ V -> x ∈ V') ->
      forall j q, j < S i -> ps !! j = Some q -> address q ∈ V') as Hdone'.
    { intros V' Hpv Hsub j q Hj Hq. destruct (decide (j = i)) as [->|]; [congruence|].
      apply Hsub, (Hdone j); [lia|done]. }
    destruct (includes V (address p)) eqn:Hin; js_simpl.
    { apply IH; [done|by apply Hdone'|done|done]. }
    assert (isFirst ps i = true) as Hfirst.
    { apply (isFirst_spec i p Hp), findIndex_Some. split; [exists p; by js_simpl|].
      intros j q Hj Hq. apply bool_decide_eq_false. intros E. apply Hin. rewrite <- E. by apply (Hdone j). }
    pose proof (bfs_component V comps i p Hp Hfirst Hin HC) as Hb.
    destruct (bfs _ _ _ _ _ _) as [[V' c]|e]; cbn; [|done].
    destruct Hb as (HC' & HpV' & Hsub & Hnew & Hcf).
    assert (forall x, x ∈ V' -> x ∈ addresses) as HV' by (intros x [|]%Hnew; auto).
    specialize (IH (S i) V' _ Hrest' (Hdone' V' HpV' Hsub) HV' HC').
    destruct (splitFrom _ _ _ _ _) as [groups|e]; cbn; [|done].
    rewrite <- app_assoc in IH. destruct IH as (Hd & HI & Hgf). split_and!; [done|done|].
    intros g j [->|Hg]%elem_of_cons; [auto|by apply Hgf].
Qed.

Lemma same_address p q :
  p ∈ removeDuplicatedPeers ps -> q ∈ removeDuplicatedPeers ps -> address p = address q -> p = q.
Proof.
  intros (i & Hi & Fi)%elem_of_unique (j & Hj & Fj)%elem_of_unique Heq.
  pose proof (first_inj i j p q Fi Fj Hi Hj Heq). congruence.
Qed.

(** Peers with the addresses of the first peers, each once, are the first peers. *)
Lemma same_peers l :
  (forall p, p ∈ l -> p ∈ removeDuplicatedPeers ps) ->
  Permutation (address <$> l) (address <$> removeDuplicatedPeers ps) -> Permutation l (removeDuplicatedPeers ps).
Proof.
  intros Hsub Hperm. pose proof unique_NoDup as Hu. assert (NoDup (address <$> l)) as Hl by by rewrite Hperm.
  apply NoDup_Permutation; [by eapply NoDup_fmap_1|by eapply NoDup_fmap_1|].
  intros p. split; [apply Hsub|]. intros Hp.
  assert (address p ∈ address <$> l) as Hin by (rewrite Hperm; by apply list_elem_of_fmap_2).
  apply list_elem_of_fmap in Hin as (q & Heq & Hq). by rewrite (same_address p q) by auto.
Qed.

Definition setAddresses (set : DashboardSplitsSet) : list string :=
  address <$> (set : list DashboardSplitsPeer).

(** [sets] group the first peers of the addresses by connection. *)
Definition GroupsOf (sets : list DashboardSplitsSet) : Prop :=
  Permutation (concat sets) (removeDuplicatedPeers ps)
  /\ IsComponents ls (address <$> removeDuplicatedPeers ps) (setAddresses <$> sets).

Lemma GroupsOf_intro sets :
  (forall set p, set ∈ sets -> p ∈ set -> p ∈ removeDuplicatedPeers ps) ->
  IsComponents ls (address <$> removeDuplicatedPeers ps) (setAddresses <$> sets) -> GroupsOf sets.
Proof.
  intros Hsub HI. split; [|done]. apply same_peers.
  - intros p Hp. rewrite list_elem_of_In, in_concat in Hp. setoid_rewrite <- list_elem_of_In in Hp.
    naive_solver.
  - rewrite <- (is_partition _ _ _ HI). clear. apply reflexive_eq.
    induction sets as [|s sets IH]; [done|]. cbn. rewrite <- IH. apply fmap_app.
Qed.

End TraversalProof.

Lemma deref_first ps refs p :
  (forall i, i ∈ refs -> isFirst ps i = true) -> p ∈ deref ps refs -> p ∈ removeDuplicatedPeers ps.
Proof. intros Hf (i & Hi & Hp)%list_elem_of_omap. apply elem_of_unique. eauto. Qed.

Lemma findPeer_fmap f ps a : (forall p, address (f p) = address p) -> findPeer (f <$> ps) a = findPeer ps a.
Proof.
  intros Hf. unfold findPeer. induction ps as [|p ps IH]; [done|]. rewrite fmap_cons. cbn [findIndex].
  by rewrite Hf, IH.
Qed.

(** Which peers are the first of their address depends on the addresses only. *)
Lemma unique_fmap f ps :
  (forall p, address (f p) = address p) -> removeDuplicatedPeers (f <$> ps) = f <$> removeDuplicatedPeers ps.
Proof.
  intros Hf. unfold removeDuplicatedPeers. rewrite length_fmap.
  assert (forall i, isFirst (f <$> ps) i = isFirst ps i) as Hi.
  { intros i. unfold isFirst. rewrite list_lookup_fmap. destruct (ps !! i) as [p|]; [|done]. cbn.
    by rewrite Hf, findPeer_fmap. }
  rewrite (List.filter_ext _ _ Hi). generalize (List.filter (isFirst ps) (seq 0 (length ps))) as refs. unfold deref.
  induction refs as [|i refs IH]; [done|]. cbn [omap list_omap]. rewrite list_lookup_fmap.
  destruct (ps !! i); cbn; by rewrite ?IH.
Qed.

Lemma deref_seq pre ps : deref (pre ++ ps) (seq (length pre) (length ps)) = ps.
Proof.
  revert pre. induction ps as [|p ps IH]; intros pre; [done|]. unfold deref in *.
  cbn [length seq omap list_omap]. rewrite list_lookup_middle by done. f_equal.
  specialize (IH (pre ++ [p])). rewrite length_app in IH. cbn [length] in IH. by rewrite Nat.add_1_r, <- app_assoc in IH.
Qed.

(** Without a duplicate every peer is the first of its address. *)
Lemma unique_id ps : NoDup (addresses ps) -> removeDuplicatedPeers ps = ps.
Proof.
  intros Hnd. unfold removeDuplicatedPeers.
  assert (forall i, i ∈ seq 0 (length ps) -> isFirst ps i = true) as Hf.
  { intros i Hi%elem_of_seq. destruct (lookup_lt_is_Some_2 ps i) as [p Hp]; [lia|]. apply (isFirst_spec ps i p Hp).
    apply findIndex_Some. split; [exists p; by js_simpl|]. intros j q Hj Hq. apply bool_decide_eq_false. intros E.
    assert (j = i); [|lia]. apply (NoDup_lookup (addresses ps) j i (address p) Hnd); unfold addresses;
      rewrite list_lookup_fmap; [rewrite Hq|rewrite Hp]; cbn; congruence. }
  replace (List.filter (isFirst ps) (seq 0 (length ps))) with (seq 0 (length ps)).
  - apply (deref_seq [] ps).
  - symmetry. clear -Hf. induction (seq 0 (length ps)) as [|i l IH]; [done|]. cbn.
    rewrite (Hf i) by by left. f_equal. apply IH. intros j Hj. apply Hf. by right.
Qed.

Section Theorems.
Context {LC : LocaleCompare} {DF : DateFormat}.

Lemma GroupsOf_sort ps ls sets ts :
  GroupsOf ps ls sets -> GroupsOf ps ls ((fun set => sortPeers set ts) <$> sets).
Proof.
  intros [Hp HI]. apply GroupsOf_intro.
  - intros set p (set0 & -> & Hset)%list_elem_of_fmap Hin. unfold sortPeers in Hin.
    apply sort_elem in Hin. rewrite <- Hp, list_elem_of_In, in_concat.
    exists set0. by rewrite <- !list_elem_of_In.
  - eapply IsComponents_perm; [done|]. clear. induction sets as [|s sets IH]; [constructor|].
    rewrite !fmap_cons. constructor; [|done].
    apply fmap_Permutation, sort_perm.
Qed.

Lemma splitThePeers_spec ps ls :
  match splitThePeers ps ls with
  | Ret sets => ~ danglingLink ps ls /\ GroupsOf ps ls sets
  | Throw e => e = unreadable /\ danglingLink ps ls
  end.
Proof.
  unfold splitThePeers.
  assert (forall x : string, x ∈ [] -> x ∈ addresses ps) as Hnil by set_solver.
  pose proof (splitFrom_spec ps ls ps 0 [] [] (fun _ => eq_refl)
    ltac:(lia) Hnil (ComponentsOf_nil _)) as Hspec.
  destruct (splitFrom _ _ _ _ _) as [groups|e]; cbn [mbind exec_bind]; [|done].
  destruct Hspec as (Hd & HI & Hf). split; [done|].
  replace ((fun g => sortPeers (deref ps g) _) <$> groups) with
    ((fun set => sortPeers set (mkTableSort fOutgoingConnections DSC)) <$> (deref ps <$> groups))
    by (by rewrite <- list_fmap_compose).
  apply GroupsOf_sort, GroupsOf_intro.
  - intros set p (g & -> & Hg)%list_elem_of_fmap. apply deref_first. intros i. by apply Hf.
  - rewrite <- list_fmap_compose. exact HI.
Qed.

Lemma withConnections_addresses ls ps : addresses (withConnections ls <$> ps) = address <$> ps.
Proof. unfold addresses. by rewrite <- list_fmap_compose. Qed.

(** Loading a network succeeds exactly when no peer is linked to an address
    outside the peer list; otherwise the reducer throws a TypeError (the
    traversal dequeues an undefined peer).  The traversal always ends. *)
Theorem splits_load_succeeds_iff mobile now state payload :
  match topologyReducer mobile now state (DashboardSplitsGetSplitsSuccess payload) with
  | Ret _ => forall a b, linked (splitLinks payload) a b ->
      a ∈ (address <$> splitPeers payload) -> b ∈ (address <$> splitPeers payload)
  | Throw e => e = unreadable /\ exists a b, linked (splitLinks payload) a b /\
      a ∈ (address <$> splitPeers payload) /\ b ∉ (address <$> splitPeers payload)
  end.
Proof.
  cbn. rewrite <- (withConnections_addresses (splitLinks payload)).
  pose proof (splitThePeers_spec (withConnections (splitLinks payload) <$> splitPeers payload) (splitLinks payload)) as Hspec.
  destruct (splitThePeers _ _) as [gs|e]; cbn; [|exact Hspec].
  intros a b Hab Ha. destruct (decide (b ∈ addresses (withConnections (splitLinks payload) <$> splitPeers payload)))
    as [|Hb]; [done|]. destruct (proj1 Hspec). by exists a, b.
Qed.

Section Reachable.
Context (mobile : bool).

Definition dispatch (state : DashboardSplitsState) (event : Q * DashboardSplitsActions)
  : exec DashboardSplitsState :=
  topologyReducer mobile event.1 state event.2.

Definition SplitsInv (s : DashboardSplitsState) : Prop :=
  GroupsOf (peers s) (links s) (sets s) /\ Forall (fun p => withConnections (links s) p = p) (peers s).

Lemma SplitsInv_init : SplitsInv (initialState mobile).
Proof.
  split; [|constructor]. split; [done|]. split; [done|set_solver|set_solver].
Qed.

Lemma SplitsInv_step s ev s' : SplitsInv s -> dispatch s ev = Ret s' -> SplitsInv s'.
Proof.
  intros (HG & HC) Hs'. destruct ev as [now a]. unfold dispatch in Hs'.
  destruct a; cbn in Hs'; simplify_eq; try (split; done).
  - apply SplitsInv_init.
  - pose proof (splitThePeers_spec (withConnections (splitLinks payload) <$> splitPeers payload) (splitLinks payload)) as Hspec.
    destruct (splitThePeers _ _) as [gs|e]; cbn in Hs'; simplify_eq.
    split; [by apply GroupsOf_sort, Hspec|]. cbn. apply Forall_fmap, Forall_true. done.
  - split; [by apply GroupsOf_sort|done].
Qed.

(** C10: in every state the page can reach by loading networks of any peers and
    links, sorting, selecting, splitting, merging and closing, the sets hold exactly
    the first peer of each address, each in one set, two of them share a set exactly
    when the links connect them, and the connection counters of each peer count its
    links.  A peer with the address of an earlier one is in no set; with distinct
    addresses the sets hold all peers. *)
Theorem splits_sets_are_components s :
  reachable_exec dispatch (initialState mobile) (fun _ _ => True) s ->
  let shown := removeDuplicatedPeers (peers s) in
  Permutation (concat (sets s)) shown /\
  (forall set, set ∈ sets s -> set <> []) /\
  (forall p q, p ∈ shown -> q ∈ shown ->
    (exists set, set ∈ sets s /\ p ∈ set /\ q ∈ set) <-> connected (links s) (address p) (address q)) /\
  (forall p, p ∈ peers s ->
    outgoingConnections p = Some (Z.of_nat (countIf (fun l => bool_decide (source l = address p)) (links s))) /\
    incomingConnections p = Some (Z.of_nat (countIf (fun l => bool_decide (target l = address p)) (links s)))) /\
  (NoDup (address <$> peers s) -> shown = peers s).
Proof.
  intros Hs. apply (reachable_exec_inv _ _ _ SplitsInv SplitsInv_init) in Hs as ([Hp HI] & HC);
    [|intros s0 ev s1 H0 _ H1; by apply (SplitsInv_step s0 ev)].
  intros shown. split_and!; [done| | | |apply unique_id].
  - intros set Hset ->. apply (is_nonempty _ _ _ HI []); [|done].
    apply list_elem_of_fmap. by exists [].
  - intros p q Hpin Hqin. rewrite <- (is_connected _ _ _ HI) by (by apply list_elem_of_fmap_2).
    assert (forall set p, set ∈ sets s -> p ∈ set -> p ∈ shown) as Hsub.
    { intros set r Hset Hin. subst shown. rewrite <- Hp, list_elem_of_In, in_concat. exists set.
      by rewrite <- !list_elem_of_In. }
    split.
    + intros (set & Hset & Hps & Hqs). exists (setAddresses set).
      unfold setAddresses. split_and!; [by apply (list_elem_of_fmap_2 setAddresses)|..];
        by apply list_elem_of_fmap_2.
    + intros (c & (set & -> & Hset)%list_elem_of_fmap & Hpc & Hqc).
      exists set. unfold setAddresses in *. apply list_elem_of_fmap in Hpc as (p' & Hpe & Hp').
      apply list_elem_of_fmap in Hqc as (q' & Hqe & Hq').
      assert (p' = p /\ q' = q) as [-> ->]; [|done].
      split; eapply (same_address (peers s)); eauto.
  - intros p Hin. rewrite Forall_forall in HC. rewrite <- (HC p Hin). done.
Qed.

End Reachable.
End Theorems.

Definition demoPeer (a : string) : DashboardSplitsPeer := mkPeer a (Some "Node") None None None.
(** Two of the peers have the address "b". *)
Definition demoSplits : DashboardSplits :=
  mkSplits [demoPeer "a"; demoPeer "b"; demoPeer "c"; demoPeer "d"; demoPeer "b"]
    [mkLink "c" "a"; mkLink "b" "d"].

Lemma splits_sets_are_components_witness :
  exists s, dispatch (LC := codeUnitCompare) (DF := fun _ _ => "now") false (initialState false)
    (0%Q, DashboardSplitsGetSplitsSuccess demoSplits) = Ret s /\
  setAddresses <$> sets s = [["c"; "a"]; ["b"; "d"]] /\ Permutation (concat (sets s)) (removeDuplicatedPeers (peers s)).
Proof.
  eexists. split; [reflexivity|]. split; [vm_compute; reflexivity|].
  apply (splits_sets_are_components (LC := codeUnitCompare) (DF := fun _ _ => "now") false).
  eapply (reachable_exec_step _ _ _ _ (0%Q, DashboardSplitsGetSplitsSuccess demoSplits));
    [apply reachable_exec_init|exact I|reflexivity].
Defined.

End Splits.
