(* ===== verification/SplitsGraph.v ===== *)
(** The graph of the network splits page
    (frontend/src/app/features/network/splits/dashboard-splits-graph): the
    Laplacian matrix of the network, the lines and shapes that are drawn, the
    places the sets are pulled to, and the colours of peers and links. *)

From S2P Require Import Prelude JsRuntime TableSort Graph DashboardSplits.
Import DashboardSplits.Splits.

Module SplitsGraph.

(** * The Laplacian matrix *)

Notation Matrix := (list (list Z)).

(** [matrix[i][j] = v] with both indices in range. *)
Definition setCell (i j : nat) (v : Z) (m : Matrix) : Matrix := alter (<[j := v]>) i m.

Definition getCell (m : Matrix) (i j : nat) : Z := default 0%Z (m !! i ≫= fun row => row !! j).

Definition zeroMatrix (n : nat) : Matrix := replicate n (replicate n 0%Z).

(** [row.reduce((sum, value) => sum + value, 0)] *)
Definition sumRow (row : list Z) : Z := fold_left Z.add row 0%Z.

Section Matrices.
Context (peers : list DashboardSplitsPeer) (links : list DashboardSplitsLink).

Definition addresses : list string :=
  arrayFromSet (concat ((fun link => [source link; target link]) <$> links) ++ (address <$> peers)).

Definition indexOf (a : string) : option nat := findIndex (fun b => bool_decide (b = a)) addresses.

Definition addEdge (m : Matrix) (link : DashboardSplitsLink) : Matrix :=
  match indexOf (source link), indexOf (target link) with
  | Some sourceIndex, Some targetIndex =>
      setCell targetIndex sourceIndex 1 (setCell sourceIndex targetIndex 1 m)
  | _, _ => m
  end.

Definition adjacencyMatrix : Matrix := fold_left addEdge links (zeroMatrix (length addresses)).

Definition degreeMatrix : Matrix :=
  fold_left (fun m '(rowIndex, row) => setCell rowIndex rowIndex (sumRow row) m)
    (imap pair adjacencyMatrix) (zeroMatrix (length addresses)).

Definition laplacianMatrix : Matrix :=
  mapi (fun i row =>
    mapi (fun j (_ : Z) =>
      if i =? j then fold_left (fun acc k => acc + getCell adjacencyMatrix i k)%Z (seq 0 (length row)) 0%Z
      else if (getCell adjacencyMatrix i j =? 0)%Z then 0%Z
      else (- getCell adjacencyMatrix i j)%Z) row) degreeMatrix.

End Matrices.

(** * What is drawn *)

(** A line holds the peer objects [nodes.find] returned: [undefined] for an
    address of no peer. *)
Record GraphLine := mkLine { lineSource : option DashboardSplitsPeer; lineTarget : option DashboardSplitsPeer }.

Definition addressOf (o : option DashboardSplitsPeer) : exec string :=
  match o with Some p => Ret (address p) | None => Throw unreadable end.

(** [lines.some(f)] with a callback that can throw. *)
Fixpoint execSome {A} (f : A -> exec bool) (l : list A) : exec bool :=
  match l with
  | [] => Ret false
  | x :: l => b ← f x; if b : bool then Ret true else execSome f l
  end.

(** [a.address === b.address && c.address === d.address] *)
Definition sameAddresses (a b c d : option DashboardSplitsPeer) : exec bool :=
  x ← addressOf a; y ← addressOf b;
  if bool_decide (x = y) then (z ← addressOf c; w ← addressOf d; Ret (bool_decide (z = w))) else Ret false.

Definition findNode (nodes : list DashboardSplitsPeer) (a : string) : option DashboardSplitsPeer :=
  List.find (fun n => bool_decide (address n = a)) nodes.

(** One turn of [links.forEach]. *)
Definition addLine (nodes : list DashboardSplitsPeer) (lines : list GraphLine) (link : DashboardSplitsLink)
  : exec (list GraphLine) :=
  let line := mkLine (findNode nodes (source link)) (findNode nodes (target link)) in
  mutualConnection ← execSome (fun l => sameAddresses (lineSource l) (lineTarget line) (lineTarget l) (lineSource line)) lines;
  sameConnection ← execSome (fun l => sameAddresses (lineSource l) (lineSource line) (lineTarget l) (lineTarget line)) lines;
  Ret (if negb mutualConnection && negb sameConnection then lines ++ [line] else lines).

Fixpoint addLines (nodes : list DashboardSplitsPeer) (lines : list GraphLine) (links : list DashboardSplitsLink)
  : exec (list GraphLine) :=
  match links with
  | [] => Ret lines
  | link :: links => lines ← addLine nodes lines link; addLines nodes lines links
  end.

(** The class of a drawn line names both its ends. *)
Definition lineClass (l : GraphLine) : exec string :=
  s ← addressOf (lineSource l); t ← addressOf (lineTarget l); Ret ("link " +:+ s +:+ " " +:+ t).

Definition nameIncludes (part : string) (p : DashboardSplitsPeer) : bool :=
  truthyStr (node p) && strIncludes (toLowerCase (default "" (node p))) part.

Record Shapes := mkShapes {
  circles : list DashboardSplitsPeer;
  webnodes : list DashboardSplitsPeer;
  triangles : list DashboardSplitsPeer;
  squares : list DashboardSplitsPeer;
  diamonds : list DashboardSplitsPeer
}.

Definition isCircle (p : DashboardSplitsPeer) : bool :=
  negb (truthyStr (node p))
  || existsb (fun n => nameIncludes n p && negb (nameIncludes "webnode" p)) ["node"; "generator"].

Definition shapesOf (nodes : list DashboardSplitsPeer) : Shapes := {|
  circles := List.filter isCircle nodes;
  webnodes := List.filter (nameIncludes "webnode") nodes;
  triangles := List.filter (nameIncludes "snark") nodes;
  squares := List.filter (nameIncludes "prod") nodes;
  diamonds := List.filter (nameIncludes "seed") nodes
|}.

(** Lines, their classes and the shapes; the simulation in between only moves
    the nodes. *)
Definition renderGraph (peers : list DashboardSplitsPeer) (links : list DashboardSplitsLink)
  : exec (list GraphLine * list string * Shapes) :=
  lines ← addLines peers [] links;
  classes ← exec_map lineClass lines;
  Ret (lines, classes, shapesOf peers).

(** * Where the sets are pulled to *)

(** [Math.ceil(Math.sqrt(numberOfSets))] *)
Definition matrixSize (numberOfSets : nat) : nat := Nat.sqrt_up numberOfSets.

Definition setOf (sets : list DashboardSplitsSet) (a : string) : option nat :=
  findIndex (fun peers => existsb (fun p => bool_decide (address p = a)) peers) sets.

Definition q (n : nat) : Q := inject_Z (Z.of_nat n).

Definition forceX (width : Q) (sets : list DashboardSplitsSet) (a : string) : Q :=
  match setOf sets a with
  | Some i => q (i mod matrixSize (length sets)) * width / q (matrixSize (length sets))
  | None => width
  end.

Definition forceY (height : Q) (sets : list DashboardSplitsSet) (a : string) : Q :=
  match setOf sets a with
  | Some i => q (i / matrixSize (length sets)) * height / q (matrixSize (length sets))
  | None => height
  end.

Definition getRepulsion (sets : nat) : Z :=
  match sets with
  | 1 => 30 | 2 => 25 | 3 => 22 | 4 => 20 | 5 => 15 | 6 => 12 | 7 => 9 | 8 => 7 | 9 => 5 | _ => 2
  end.

(** One coordinate of the force [bounds]. *)
Definition boundCoordinate (limit x : Q) : Q :=
  let minAllowed := if Qlt_le_dec x 0 then (- x)%Q else x in
  let maxAllowed := if Qlt_le_dec limit x then (limit - (x - limit))%Q else x in
  if Qlt_le_dec minAllowed maxAllowed then minAllowed else maxAllowed.

(** * Colours and clicks *)

Definition hasLine (links : list DashboardSplitsLink) (a : string) : bool :=
  existsb (fun l => bool_decide (source l = a) || bool_decide (target l = a)) links.

Definition strokeOf (links : list DashboardSplitsLink) (a : string) : string :=
  if hasLine links a then "var(--success-primary)" else "var(--warn-primary)".

Definition strokeOfActive (links : list DashboardSplitsLink) (a : string) : string :=
  if hasLine links a then "var(--selected-primary)" else "var(--warn-primary)".

(** The links coloured while the mouse is over a peer; those of the active peer
    keep their colour. *)
Definition hoveredLink (activePeer : option DashboardSplitsPeer) (a : string) (l : DashboardSplitsLink) : bool :=
  let isDirectConnection := bool_decide (source l = a) || bool_decide (target l = a) in
  match activePeer with
  | Some p => isDirectConnection && negb (bool_decide (target l = address p))
                && negb (bool_decide (source l = address p))
  | None => isDirectConnection
  end.

(** A click selects the peer of the store, or deselects the active one: [===]
    compares references, here positions in [peers]. *)
Definition clickPeer (peers : list DashboardSplitsPeer) (activePeer : option nat) (a : string) : option nat :=
  let selectedPeer := findIndex (fun p => bool_decide (address p = a)) peers in
  if bool_decide (selectedPeer = activePeer) then None else selectedPeer.

(** * When the graph is drawn again

    The stream of [{ peers, links, sets, fetching }]: the field [fetching] is
    set by [tap] when a request starts and by the callback when it is drawn. *)
Definition graphEvent (fieldFetching : bool) (peers : list DashboardSplitsPeer)
  (links : list DashboardSplitsLink) (fetching : bool) : bool * bool :=
  let field := if fetching then true else fieldFetching in
  if bool_decide (0 < length peers) && bool_decide (0 < length links) && field && negb fetching
  then (fetching, true) else (field, false).

(** * Matrices *)

Definition square (n : nat) (m : Matrix) : Prop := length m = n /\ forall i row, m !! i = Some row -> length row = n.

Lemma zeroMatrix_square n : square n (zeroMatrix n).
Proof.
  split; [apply length_replicate|]. intros i row [-> _]%lookup_replicate_1. apply length_replicate.
Qed.

Lemma zeroMatrix_cell n i j : getCell (zeroMatrix n) i j = 0%Z.
Proof.
  unfold getCell, zeroMatrix. destruct (replicate n (replicate n 0%Z) !! i) as [row|] eqn:E; [|done].
  apply lookup_replicate_1 in E as [-> _]. cbn.
  destruct (replicate n 0%Z !! j) as [z|] eqn:E; [|done]. by apply lookup_replicate_1 in E as [-> _].
Qed.

Lemma setCell_square n i j v m : square n m -> square n (setCell i j v m).
Proof.
  intros [Hl Hr]. split; [by unfold setCell; rewrite length_alter|].
  intros k row. unfold setCell. destruct (decide (i = k)) as [<-|Hne].
  - rewrite list_lookup_alter_eq. intros (row' & Hrow & ->)%fmap_Some. rewrite length_insert. eauto.
  - rewrite list_lookup_alter_ne by done. apply Hr.
Qed.

Lemma getCell_setCell n m i j v i' j' :
  square n m -> i < n -> j < n ->
  getCell (setCell i j v m) i' j' = if decide (i = i' /\ j = j') then v else getCell m i' j'.
Proof.
  intros [Hl Hr] Hi Hj. unfold getCell, setCell.
  destruct (lookup_lt_is_Some_2 m i ltac:(lia)) as [row Hrow].
  destruct (decide (i = i')) as [<-|Hne].
  - rewrite list_lookup_alter_eq, Hrow. cbn. pose proof (Hr _ _ Hrow).
    destruct (decide (j = j')) as [<-|Hne].
    + rewrite list_lookup_insert_eq by lia. by rewrite decide_True.
    + rewrite list_lookup_insert_ne by done. rewrite decide_False by naive_solver. done.
  - rewrite list_lookup_alter_ne by done. by rewrite decide_False by naive_solver.
Qed.

(** Sums over the columns. *)
Definition sumTo (f : nat -> Z) (n : nat) : Z := foldr Z.add 0%Z (f <$> seq 0 n).

Lemma foldr_add_acc (l : list Z) a : fold_left Z.add l a = (a + foldr Z.add 0 l)%Z.
Proof. revert a; induction l as [|x l IH]; intros a; cbn; [lia|]. rewrite IH. lia. Qed.

Lemma sumTo_ext f g n : (forall k, k < n -> f k = g k) -> sumTo f n = sumTo g n.
Proof.
  intros H. unfold sumTo. f_equal. apply list_fmap_ext. intros i k Hk%lookup_seq. apply H. lia.
Qed.

Lemma sumTo_S f n : sumTo f (S n) = (sumTo f n + f n)%Z.
Proof.
  unfold sumTo. rewrite seq_S, fmap_app, foldr_app. cbn.
  generalize (f <$> seq 0 n) as l. induction l as [|x l IH]; cbn; lia.
Qed.

Lemma sumTo_zero f n : (forall k, k < n -> f k = 0%Z) -> sumTo f n = 0%Z.
Proof.
  induction n as [|n IH]; intros H; [done|]. rewrite sumTo_S, IH, H; [lia|lia|]. intros k Hk. apply H. lia.
Qed.

Lemma sumTo_sub f g n : sumTo (fun k => f k - g k)%Z n = (sumTo f n - sumTo g n)%Z.
Proof. induction n as [|n IH]; [done|]. rewrite !sumTo_S, IH. lia. Qed.

Lemma sumTo_scale f c n : sumTo (fun k => f k * c)%Z n = (sumTo f n * c)%Z.
Proof. induction n as [|n IH]; [done|]. rewrite !sumTo_S, IH. lia. Qed.

Lemma sumTo_single i c n : i < n -> sumTo (fun k => if decide (i = k) then c else 0)%Z n = c.
Proof.
  induction n as [|n IH]; intros Hi; [lia|]. rewrite sumTo_S.
  destruct (decide (i = n)) as [->|Hne].
  - rewrite sumTo_zero; [lia|]. intros k Hk. rewrite decide_False; [done|lia].
  - rewrite IH by lia. lia.
Qed.

(** * Adjacency *)

Definition linkedb (links : list DashboardSplitsLink) (a b : string) : bool :=
  existsb (fun l => bool_decide (source l = a) && bool_decide (target l = b)
                    || bool_decide (source l = b) && bool_decide (target l = a)) links.

Lemma linkedb_true links a b : linkedb links a b = true <-> linked links a b.
Proof.
  unfold linkedb, linked. rewrite existsb_exists. setoid_rewrite list_elem_of_In.
  split; intros (l & Hl & H); exists l; (split; [done|]);
    rewrite orb_true_iff, !andb_true_iff, !bool_decide_eq_true in *; naive_solver.
Qed.

Section Adjacency.
Context (peers : list DashboardSplitsPeer) (links : list DashboardSplitsLink).
Notation A := (addresses peers links).
Notation n := (length A).

Lemma addresses_NoDup : NoDup A.
Proof. apply uniqueFrom_NoDup. Qed.

Lemma addresses_elem a : a ∈ A <-> (exists l, l ∈ links /\ (source l = a \/ target l = a)) \/ a ∈ address <$> peers.
Proof.
  unfold addresses. rewrite arrayFromSet_elem, elem_of_app. f_equiv.
  rewrite list_elem_of_In, List.in_concat. setoid_rewrite <- list_elem_of_In.
  setoid_rewrite list_elem_of_fmap. split.
  - intros (x & (l & -> & Hl) & Ha). exists l. set_solver.
  - intros (l & Hl & Ha). exists [source l; target l]. set_solver.
Qed.

Lemma indexOf_Some a i : indexOf peers links a = Some i <-> A !! i = Some a.
Proof.
  unfold indexOf. rewrite findIndex_Some. setoid_rewrite bool_decide_eq_true.
  setoid_rewrite bool_decide_eq_false. split.
  - intros [(x & Hx & ->) _]. done.
  - intros Ha. split; [eauto|]. intros j x Hj Hx ->.
    pose proof (NoDup_lookup _ _ _ _ addresses_NoDup Ha Hx). lia.
Qed.

Lemma indexOf_known a : a ∈ A -> exists i, indexOf peers links a = Some i /\ A !! i = Some a.
Proof. intros [i Hi]%list_elem_of_lookup. exists i. by rewrite indexOf_Some. Qed.

Lemma address_unique i j a : A !! i = Some a -> A !! j = Some a -> i = j.
Proof. apply NoDup_lookup, addresses_NoDup. Qed.

(** After any of the links, the matrix marks the linked pairs. *)
Definition marks (ls : list DashboardSplitsLink) (m : Matrix) : Prop :=
  square n m /\ forall i j a b, A !! i = Some a -> A !! j = Some b ->
    getCell m i j = if linkedb ls a b then 1%Z else 0%Z.

Lemma addEdge_marks ls l m : l ∈ links -> marks ls m -> marks (ls ++ [l]) (addEdge peers links m l).
Proof.
  intros Hl [Hsq Hm]. unfold addEdge.
  destruct (indexOf_known (source l)) as (s & Es & Hs); [apply addresses_elem; eauto|].
  destruct (indexOf_known (target l)) as (t & Et & Ht); [apply addresses_elem; eauto|].
  rewrite Es, Et. pose proof (lookup_lt_Some _ _ _ Hs). pose proof (lookup_lt_Some _ _ _ Ht).
  split; [by apply setCell_square, setCell_square|]. intros i j a b Ha Hb.
  rewrite (getCell_setCell n), (getCell_setCell n) by (try apply setCell_square; done).
  rewrite (Hm i j a b Ha Hb). unfold linkedb. rewrite existsb_app. cbn [existsb]. rewrite orb_false_r.
  destruct (decide (t = i /\ s = j)) as [[-> ->]|H1].
  - simplify_eq. rewrite (bool_decide_true (source l = source l)), (bool_decide_true (target l = target l)) by done.
    by rewrite !orb_true_r.
  - destruct (decide (s = i /\ t = j)) as [[-> ->]|H2].
    + simplify_eq. rewrite (bool_decide_true (source l = source l)), (bool_decide_true (target l = target l)) by done.
      by rewrite !orb_true_r.
    + assert ((bool_decide (source l = a) && bool_decide (target l = b)
        || bool_decide (source l = b) && bool_decide (target l = a)) = false) as ->; [|by rewrite orb_false_r].
      apply orb_false_iff. rewrite !andb_false_iff, !bool_decide_eq_false.
      split; apply not_and_l; intros [E1 E2]; subst; [apply H2|apply H1]; split;
        eauto using address_unique.
Qed.

Lemma adjacency_marks : marks links (adjacencyMatrix peers links).
Proof.
  unfold adjacencyMatrix.
  assert (forall ls, (forall l, l ∈ ls -> l ∈ links) ->
    marks ls (fold_left (addEdge peers links) ls (zeroMatrix n))) as H; [|by apply H].
  induction ls as [|l ls IH] using rev_ind; intros Hls.
  - split; [apply zeroMatrix_square|]. intros. apply zeroMatrix_cell.
  - rewrite fold_left_app. cbn. apply addEdge_marks; [apply Hls; set_solver|].
    apply IH. intros x Hx. apply Hls. set_solver.
Qed.

Lemma degree_square : square n (degreeMatrix peers links).
Proof.
  unfold degreeMatrix. generalize (imap pair (adjacencyMatrix peers links)) as l.
  pose proof (zeroMatrix_square n) as H. revert H. generalize (zeroMatrix n) as m.
  intros m Hm l. revert m Hm. induction l as [|[i row] l IH]; intros m Hm; [done|]. cbn.
  apply IH. by apply setCell_square.
Qed.

Lemma laplacian_square : square n (laplacianMatrix peers links).
Proof.
  destruct degree_square as [Hl Hr]. unfold laplacianMatrix, mapi.
  split; [by rewrite length_imap|]. intros i row. rewrite list_lookup_imap.
  intros (r & Hi & ->)%fmap_Some. rewrite length_imap. eauto.
Qed.

Lemma laplacian_cell i j :
  i < n -> j < n ->
  getCell (laplacianMatrix peers links) i j =
    if decide (i = j) then sumTo (getCell (adjacencyMatrix peers links) i) n
    else (- getCell (adjacencyMatrix peers links) i j)%Z.
Proof.
  intros Hi Hj. destruct degree_square as [Hl Hr].
  destruct (lookup_lt_is_Some_2 (degreeMatrix peers links) i ltac:(lia)) as [row Hrow].
  pose proof (Hr _ _ Hrow) as Hlen.
  destruct (lookup_lt_is_Some_2 row j ltac:(lia)) as [z Hz].
  unfold getCell at 1, laplacianMatrix, mapi. rewrite list_lookup_imap, Hrow. cbn [fmap option_fmap option_map mbind option_bind].
  rewrite list_lookup_imap, Hz. cbn [fmap option_fmap option_map default from_option id].
  destruct (decide (i = j)) as [<-|Hne].
  - rewrite Nat.eqb_refl, Hlen. unfold sumTo.
    assert (forall l a, fold_left (fun acc k => (acc + getCell (adjacencyMatrix peers links) i k)%Z) l a
      = (a + foldr Z.add 0 (getCell (adjacencyMatrix peers links) i <$> l))%Z) as ->; [|lia].
    induction l as [|x l IH]; intros a; cbn; [lia|]. rewrite IH. cbn. lia.
  - rewrite (proj2 (Nat.eqb_neq i j) Hne).
    destruct (Z.eqb_spec (getCell (adjacencyMatrix peers links) i j) 0) as [->|]; done.
Qed.

End Adjacency.

Lemma countIf_sumTo {X} (p : X -> bool) (l : list X) (f : nat -> Z) :
  (forall k x, l !! k = Some x -> f k = if p x then 1%Z else 0%Z) -> sumTo f (length l) = Z.of_nat (countIf p l).
Proof.
  induction l as [|x l IH] using rev_ind; intros H; [done|].
  rewrite length_app. cbn [length]. rewrite Nat.add_1_r, sumTo_S, IH.
  - unfold countIf. rewrite List.filter_app, length_app. cbn.
    rewrite (H (length l) x) by (by rewrite lookup_app_r, Nat.sub_diag). destruct (p x); cbn; lia.
  - intros k y Hk. apply H. rewrite lookup_app_l; [done|]. by apply lookup_lt_Some in Hk.
Qed.

(** * Lines *)

Lemma execSome_true {X} (f : X -> exec bool) l : execSome f l = Ret true -> exists x, x ∈ l /\ f x = Ret true.
Proof.
  induction l as [|x l IH]; cbn; [done|]. destruct (f x) as [[]|] eqn:E; cbn; [|intros H|done].
  - intros _. exists x. set_solver.
  - destruct (IH H) as (y & Hy & Hf). exists y. set_solver.
Qed.

Lemma execSome_false {X} (f : X -> exec bool) l : execSome f l = Ret false -> forall x, x ∈ l -> f x = Ret false.
Proof.
  induction l as [|x l IH]; cbn; [set_solver|]. destruct (f x) as [[]|] eqn:E; cbn; [done|intros H|done].
  intros y [->|Hy]%elem_of_cons; auto.
Qed.

Lemma execSome_total {X} (f : X -> exec bool) l :
  (forall x, x ∈ l -> exec_ok (f x) = true) -> exec_ok (execSome f l) = true.
Proof.
  induction l as [|x l IH]; intros H; [done|]. cbn. specialize (H x ltac:(set_solver)) as Hx.
  destruct (f x) as [[]|]; [done| |done]. cbn. apply IH. set_solver.
Qed.

(** The object is a peer with the address [a]. *)
Definition at_ (o : option DashboardSplitsPeer) (a : string) : Prop := exists p, o = Some p /\ address p = a.

Lemma addressOf_Ret o a : addressOf o = Ret a <-> at_ o a.
Proof. unfold at_. destruct o; cbn; naive_solver. Qed.

Lemma at_inj o a b : at_ o a -> at_ o b -> a = b.
Proof. unfold at_. naive_solver. Qed.

Lemma sameAddresses_known o1 o2 o3 o4 a b c d :
  at_ o1 a -> at_ o2 b -> at_ o3 c -> at_ o4 d ->
  sameAddresses o1 o2 o3 o4 = Ret (bool_decide (a = b /\ c = d)).
Proof.
  intros (p1 & -> & <-) (p2 & -> & <-) (p3 & -> & <-) (p4 & -> & <-). unfold sameAddresses. cbn.
  repeat case_bool_decide; naive_solver.
Qed.

Lemma sameAddresses_true o1 o2 o3 o4 :
  sameAddresses o1 o2 o3 o4 = Ret true -> exists a c, at_ o1 a /\ at_ o2 a /\ at_ o3 c /\ at_ o4 c.
Proof.
  unfold sameAddresses. destruct o1, o2; cbn; try done.
  case_bool_decide; [|done]. destruct o3, o4; cbn; try done. case_bool_decide; [|done].
  intros _. unfold at_. naive_solver.
Qed.

(** Both ends of the line are peers. *)
Definition lineAt (l : GraphLine) (a b : string) : Prop := at_ (lineSource l) a /\ at_ (lineTarget l) b.

(** The line joins the two addresses, in either direction. *)
Definition joins (l : GraphLine) (a b : string) : Prop := lineAt l a b \/ lineAt l b a.

Definition complete (l : GraphLine) : Prop := exists a b, lineAt l a b.

Definition lineOf (nodes : list DashboardSplitsPeer) (link : DashboardSplitsLink) : GraphLine :=
  mkLine (findNode nodes (source link)) (findNode nodes (target link)).

Lemma findNode_at nodes a : at_ (findNode nodes a) a <-> a ∈ address <$> nodes.
Proof.
  unfold at_, findNode. rewrite list_elem_of_fmap. split.
  - intros (p & Hp & <-). apply find_Some_iff in Hp as [Hp _]. eauto.
  - intros (p & -> & Hp). destruct (List.find _ nodes) as [x|] eqn:E.
    + apply find_Some_iff in E as [_ E]. apply bool_decide_eq_true in E. eauto.
    + rewrite find_None_iff in E. specialize (E p Hp). apply bool_decide_eq_false in E. done.
Qed.

Lemma findNode_only nodes a b : at_ (findNode nodes a) b -> b = a.
Proof. intros (p & Hp & <-). apply find_Some_iff in Hp as [_ E]. by apply bool_decide_eq_true in E. Qed.

Definition endsKnown (nodes : list DashboardSplitsPeer) (link : DashboardSplitsLink) : Prop :=
  source link ∈ address <$> nodes /\ target link ∈ address <$> nodes.

Lemma lineOf_at nodes link : lineAt (lineOf nodes link) (source link) (target link) <-> endsKnown nodes link.
Proof. unfold lineAt, endsKnown. cbn. by rewrite !findNode_at. Qed.

Lemma lineOf_only nodes link a b : lineAt (lineOf nodes link) a b -> a = source link /\ b = target link.
Proof. intros [Ha Hb]. cbn in *. eauto using findNode_only. Qed.

(** What a turn of the loop did, when it did not throw. *)
Lemma addLine_Ret nodes lines link lines' :
  addLine nodes lines link = Ret lines' ->
  (lines' = lines /\ endsKnown nodes link /\ exists l, l ∈ lines /\ joins l (source link) (target link))
  \/ (lines' = lines ++ [lineOf nodes link]
      /\ (endsKnown nodes link -> forall l, l ∈ lines -> complete l -> ~ joins l (source link) (target link))).
Proof.
  unfold addLine. fold (lineOf nodes link). intros H.
  apply exec_bind_Ret in H as (mut & Hm & H). apply exec_bind_Ret in H as (same & Hs & H).
  injection H as <-. destruct mut; [|destruct same]; cbn [negb andb].
  - left. split; [done|]. apply execSome_true in Hm as (l & Hl & E).
    apply sameAddresses_true in E as (a & c & H1 & H2 & H3 & H4).
    assert (lineAt (lineOf nodes link) c a) as Hla by done.
    apply lineOf_only in Hla as E. destruct E as [-> ->]. split; [by apply lineOf_at|].
    exists l. split; [done|]. right. done.
  - left. split; [done|]. apply execSome_true in Hs as (l & Hl & E).
    apply sameAddresses_true in E as (a & c & H1 & H2 & H3 & H4).
    assert (lineAt (lineOf nodes link) a c) as Hla by done.
    apply lineOf_only in Hla as E. destruct E as [-> ->]. split; [by apply lineOf_at|].
    exists l. split; [done|]. left. done.
  - right. split; [done|]. intros Hk l Hl _ Hj. apply lineOf_at in Hk as [Hks Hkt].
    pose proof (execSome_false _ _ Hm l Hl) as E1. pose proof (execSome_false _ _ Hs l Hl) as E2. cbv beta in E1, E2.
    destruct Hj as [[Ha Hb]|[Ha Hb]].
    + rewrite (sameAddresses_known _ _ _ _ _ _ _ _ Ha Hks Hb Hkt) in E2.
      by rewrite bool_decide_true in E2.
    + rewrite (sameAddresses_known _ _ _ _ _ _ _ _ Ha Hkt Hb Hks) in E1.
      by rewrite bool_decide_true in E1.
Qed.

Lemma addLine_total nodes lines link :
  Forall complete lines -> endsKnown nodes link -> exec_ok (addLine nodes lines link) = true.
Proof.
  intros Hl [Hs Ht]%lineOf_at. rewrite Forall_forall in Hl. unfold addLine. fold (lineOf nodes link).
  assert (forall f : GraphLine -> exec bool, (forall l, l ∈ lines -> exec_ok (f l) = true) ->
    exists b, execSome f lines = Ret b) as Htot.
  { intros f Hf. apply execSome_total in Hf. destruct (execSome f lines); [eauto|done]. }
  destruct (Htot (fun l => sameAddresses (lineSource l) (lineTarget (lineOf nodes link)) (lineTarget l)
    (lineSource (lineOf nodes link)))) as [b1 ->].
  { intros l (a & b & Ha & Hb)%Hl. by rewrite (sameAddresses_known _ _ _ _ _ _ _ _ Ha Ht Hb Hs). }
  destruct (Htot (fun l => sameAddresses (lineSource l) (lineSource (lineOf nodes link)) (lineTarget l)
    (lineTarget (lineOf nodes link)))) as [b2 ->]; [|done].
  intros l (a & b & Ha & Hb)%Hl. by rewrite (sameAddresses_known _ _ _ _ _ _ _ _ Ha Hs Hb Ht).
Qed.

(** The lines after some links: complete, one for every linked pair, none twice. *)
Record LinesOf (links : list DashboardSplitsLink) (lines : list GraphLine) : Prop := {
  lines_complete : Forall complete lines;
  lines_linked : forall a b, linked links a b <-> exists l, l ∈ lines /\ joins l a b;
  lines_once : forall i j l l' a b, lines !! i = Some l -> lines !! j = Some l' ->
    joins l a b -> joins l' a b -> i = j
}.

Lemma LinesOf_nil : LinesOf [] [].
Proof. split; [done| |done]. intros a b. split; [intros (l & Hl & _)|intros (l & Hl & _)]; by apply elem_of_nil in Hl. Qed.

Lemma linked_snoc links link a b :
  linked (links ++ [link]) a b <->
  linked links a b \/ (source link = a /\ target link = b) \/ (source link = b /\ target link = a).
Proof.
  unfold linked. split.
  - intros (l & [Hl| ->%list_elem_of_singleton]%elem_of_app & H); [left; by exists l|by right].
  - intros [(l & Hl & H)|H]; [exists l|exists link]; rewrite elem_of_app, list_elem_of_singleton; tauto.
Qed.

Lemma joins_ends l a b c d : lineAt l a b -> joins l c d -> (c = a /\ d = b) \/ (c = b /\ d = a).
Proof.
  intros [Ha Hb] [[Hc Hd]|[Hc Hd]].
  - left. eauto using at_inj.
  - right. eauto using at_inj.
Qed.

Lemma LinesOf_known links link lines l :
  LinesOf links lines -> l ∈ lines -> joins l (source link) (target link) -> LinesOf (links ++ [link]) lines.
Proof.
  intros [Hc Hl Ho] Hin Hj. split; [done| |done]. intros a b. rewrite linked_snoc, Hl.
  split; [|tauto]. intros [H|[[<- <-]|[<- <-]]]; [done|eauto|]. exists l. split; [done|].
  unfold joins in *. tauto.
Qed.

Lemma LinesOf_new nodes links link lines :
  LinesOf links lines -> endsKnown nodes link ->
  (forall l, l ∈ lines -> complete l -> ~ joins l (source link) (target link)) ->
  LinesOf (links ++ [link]) (lines ++ [lineOf nodes link]).
Proof.
  intros [Hc Hl Ho] Hk%lineOf_at Hnew. rewrite Forall_forall in Hc. split.
  - apply Forall_app. split; [by apply Forall_forall|]. apply Forall_singleton. unfold complete. eauto.
  - intros a b. rewrite linked_snoc, Hl. setoid_rewrite elem_of_app. setoid_rewrite list_elem_of_singleton.
    split.
    + intros [(l & Hin & Hj)|[[<- <-]|[<- <-]]]; [eauto| |]; exists (lineOf nodes link);
        (split; [by right|]); [by left|by right].
    + intros (l & [Hin| ->] & Hj); [eauto|]. right.
      destruct (joins_ends _ _ _ _ _ Hk Hj) as [[-> ->]|[-> ->]]; auto.
  - assert (forall i l, lines !! i = Some l -> forall a b, joins l a b -> joins (lineOf nodes link) a b -> False) as Habs.
    { intros i l Hi a b H1 H2. apply list_elem_of_lookup_2 in Hi as Hin. apply (Hnew l Hin (Hc l Hin)).
      destruct (joins_ends _ _ _ _ _ Hk H2) as [[-> ->]|[-> ->]]; unfold joins in *; tauto. }
    intros i j l l' a b Hi Hj H1 H2.
    apply lookup_app_Some in Hi as [Hi|[Li Hi]]; apply lookup_app_Some in Hj as [Hj|[Lj Hj]].
    + by eapply Ho.
    + apply list_lookup_singleton_Some in Hj as [_ <-]. exfalso. eauto.
    + apply list_lookup_singleton_Some in Hi as [_ <-]. exfalso. eauto.
    + apply list_lookup_singleton_Some in Hi as [Hi _]. apply list_lookup_singleton_Some in Hj as [Hj _]. lia.
Qed.

Lemma addLine_LinesOf nodes done_ link lines lines' :
  LinesOf done_ lines -> endsKnown nodes link -> addLine nodes lines link = Ret lines' ->
  LinesOf (done_ ++ [link]) lines'.
Proof.
  intros HL Hk [(-> & _ & l & Hl & Hj)|(-> & Hn)]%addLine_Ret.
  - by eapply LinesOf_known.
  - apply LinesOf_new; auto.
Qed.

Lemma addLines_known nodes links : forall done_ lines,
  LinesOf done_ lines -> Forall (endsKnown nodes) links ->
  exists lines', addLines nodes lines links = Ret lines' /\ LinesOf (done_ ++ links) lines'.
Proof.
  induction links as [|link links IH]; intros done_ lines HL Hk.
  - exists lines. by rewrite app_nil_r.
  - apply Forall_cons in Hk as [Hk Hks]. cbn.
    pose proof (addLine_total nodes lines link (lines_complete _ _ HL) Hk) as Hok.
    destruct (addLine nodes lines link) as [lines1|] eqn:E; [|done]. cbn.
    destruct (IH (done_ ++ [link]) lines1) as (lines' & E' & HL'); [by eapply addLine_LinesOf|done|].
    exists lines'. rewrite <- app_assoc in HL'. done.
Qed.

Lemma addLines_keeps nodes links : forall lines lines',
  addLines nodes lines links = Ret lines' ->
  (forall l, l ∈ lines -> l ∈ lines')
  /\ forall link, link ∈ links -> endsKnown nodes link \/ lineOf nodes link ∈ lines'.
Proof.
  induction links as [|link links IH]; cbn; intros lines lines' H.
  - injection H as <-. split; [done|]. intros link Hl. by apply elem_of_nil in Hl.
  - apply exec_bind_Ret in H as (lines1 & E & H). apply IH in H as [Hkeep Hall].
    apply addLine_Ret in E as [(-> & Hk & _)|[-> _]].
    + split; [done|]. intros l [->|Hl]%elem_of_cons; auto.
    + split; [intros l Hl; apply Hkeep; set_solver|].
      intros l [->|Hl]%elem_of_cons; [right; apply Hkeep; set_solver|auto].
Qed.

Lemma lineClass_complete l : exec_ok (lineClass l) = true <-> complete l.
Proof.
  unfold complete, lineAt, at_, lineClass. destruct l as [[s|] [t|]]; cbn; naive_solver.
Qed.

Lemma exec_map_ok {X Y} (f : X -> exec Y) l :
  exec_ok (exec_map f l) = true <-> forall x, x ∈ l -> exec_ok (f x) = true.
Proof.
  induction l as [|x l IH]; cbn; [set_solver|].
  destruct (f x) as [y|] eqn:E; cbn.
  - destruct (exec_map f l); cbn in *; split; try done.
    + intros _ z [->|Hz]%elem_of_cons; [by rewrite E|by apply IH].
    + intros H. apply IH. set_solver.
  - split; [done|]. intros H. specialize (H x ltac:(set_solver)). by rewrite E in H.
Qed.

(** * Places *)

Lemma q_lt a b : a < b -> (q a < q b)%Q.
Proof. intros H. unfold q. rewrite <- Zlt_Qlt. lia. Qed.

Lemma q_nonneg a : (0 <= q a)%Q.
Proof. change 0%Q with (inject_Z 0). unfold q. rewrite <- Zle_Qle. lia. Qed.

Lemma cell_range width c m : (0 < width)%Q -> c < m -> (0 <= q c * width / q m < width)%Q.
Proof.
  intros Hw Hc. assert (0 < q m)%Q as Hm by (apply (Qle_lt_trans _ (q c)); [apply q_nonneg|by apply q_lt]).
  pose proof (q_nonneg c). pose proof (q_lt c m Hc). split.
  - apply Qle_shift_div_l; [done|]. nra.
  - apply Qlt_shift_div_r; [done|]. nra.
Qed.

Lemma cell_inj width c d m : (0 < width)%Q -> 0 < m -> (q c * width / q m == q d * width / q m)%Q -> c = d.
Proof.
  intros Hw Hm E. assert (0 < q m)%Q as Hq by (change 0%Q with (q 0); by apply q_lt).
  assert (q c * width == q d * width)%Q as E2.
  { assert (~ q m == 0)%Q as Hne by (intros H0; lra).
    rewrite <- (Qmult_div_r (q c * width) (q m)), <- (Qmult_div_r (q d * width) (q m)) by done.
    by apply Qmult_comp. }
  apply Qmult_inj_r in E2; [|intros H0; lra]. unfold q in E2. apply (proj1 (inject_Z_injective _ _)) in E2. lia.
Qed.

Lemma matrixSize_covers k i : i < k -> 0 < matrixSize k /\ i mod matrixSize k < matrixSize k /\ i / matrixSize k < matrixSize k.
Proof.
  intros Hi. destruct (Nat.sqrt_up_spec k ltac:(lia)) as [_ H]. fold (matrixSize k) in H.
  assert (0 < matrixSize k) by nia. split; [done|]. split; [by apply Nat.mod_upper_bound; lia|].
  apply Nat.Div0.div_lt_upper_bound. lia.
Qed.

Lemma setOf_lt sets a i : setOf sets a = Some i -> i < length sets.
Proof. unfold setOf. intros [(x & Hx & _) _]%findIndex_Some. by apply lookup_lt_Some in Hx. Qed.

(** * The theorems *)

(** The entry of [V] at an address. *)
Definition indicator (V : list string) (o : option string) : Z :=
  match o with Some a => if decide (a ∈ V) then 1 else 0 | None => 0 end.

Lemma sum_list_sumTo {X} (g : X -> nat) (l : list X) (f : nat -> Z) :
  (forall k x, l !! k = Some x -> f k = Z.of_nat (g x)) -> sumTo f (length l) = Z.of_nat (sum_list_with g l).
Proof.
  induction l as [|x l IH] using rev_ind; intros H; [done|].
  rewrite length_app. cbn [length]. rewrite Nat.add_1_r, sumTo_S, IH, sum_list_with_app.
  - cbn. rewrite (H (length l) x) by (by rewrite lookup_app_r, Nat.sub_diag). lia.
  - intros k y Hk. apply H. rewrite lookup_app_l; [done|]. by apply lookup_lt_Some in Hk.
Qed.

Section Laplacian.
Context (peers : list DashboardSplitsPeer) (links : list DashboardSplitsLink).
Notation A := (addresses peers links).
Notation L := (laplacianMatrix peers links).
Notation adj := (getCell (adjacencyMatrix peers links)).

(** The neighbours outside [V] of the addresses in [V], added up: the linked pairs
    that [V] cuts. *)
Definition cutPairs (V : list string) : nat :=
  sum_list_with (fun a => countIf (fun b => bool_decide (a ∈ V) && bool_decide (b ∉ V) && linkedb links a b) A) A.

(** The addresses in [V] with a link to themselves. *)
Definition selfLinked (V : list string) : nat := countIf (fun a => bool_decide (a ∈ V) && linkedb links a a) A.

Lemma laplacian_row (x : nat -> Z) i :
  i < length A ->
  sumTo (fun j => getCell L i j * x j)%Z (length A)
  = ((sumTo (adj i) (length A) + adj i i) * x i - sumTo (fun j => adj i j * x j) (length A))%Z.
Proof.
  intros Hi.
  rewrite (sumTo_ext _ (fun j => (if decide (i = j) then (sumTo (adj i) (length A) + adj i i) * x i else 0) - adj i j * x j)%Z).
  - by rewrite sumTo_sub, sumTo_single.
  - intros j Hj. rewrite laplacian_cell by done. destruct (decide (i = j)) as [<-|]; lia.
Qed.

Lemma adj_cell i j a b : A !! i = Some a -> A !! j = Some b -> adj i j = if linkedb links a b then 1%Z else 0%Z.
Proof. apply adjacency_marks. Qed.

Lemma closed_row V i :
  closed links V -> i < length A ->
  sumTo (fun j => getCell L i j * indicator V (A !! j))%Z (length A) = (adj i i * indicator V (A !! i))%Z.
Proof.
  intros HV Hi. rewrite laplacian_row by done. destruct (lookup_lt_is_Some_2 A i Hi) as [a Ha].
  rewrite (sumTo_ext (fun j => adj i j * indicator V (A !! j))%Z (fun j => adj i j * indicator V (A !! i))%Z);
    [rewrite sumTo_scale; lia|].
  intros j Hj. destruct (lookup_lt_is_Some_2 A j Hj) as [b Hb].
  rewrite (adj_cell i j a b), Ha, Hb by done. destruct (linkedb links a b) eqn:E; [|lia].
  apply linkedb_true in E. cbn.
  assert (a ∈ V <-> b ∈ V) as Hab by (split; apply HV; [done|by apply linked_sym]).
  destruct (decide (a ∈ V)), (decide (b ∈ V)); tauto || lia.
Qed.

Lemma quadratic_form V :
  sumTo (fun i => indicator V (A !! i) * sumTo (fun j => getCell L i j * indicator V (A !! j)) (length A))%Z (length A)
  = Z.of_nat (cutPairs V + selfLinked V).
Proof.
  unfold cutPairs, selfLinked, countIf at 2. rewrite Nat2Z.inj_add.
  fold (countIf (fun a => bool_decide (a ∈ V) && linkedb links a a) A).
  rewrite <- (countIf_sumTo (fun a => bool_decide (a ∈ V) && linkedb links a a) A
    (fun i => indicator V (A !! i) * adj i i)%Z).
  2:{ intros i a Ha. rewrite (adj_cell i i a a), Ha by done. cbn.
      case_bool_decide; destruct (decide (a ∈ V)), (linkedb links a a); done. }
  rewrite <- (sum_list_sumTo _ A
    (fun i => sumTo (fun j => indicator V (A !! i) * (1 - indicator V (A !! j)) * adj i j) (length A))%Z).
  2:{ intros i a Ha. apply countIf_sumTo. intros j b Hb. rewrite (adj_cell i j a b), Ha, Hb by done. cbn.
      repeat case_bool_decide; destruct (decide (a ∈ V)), (decide (b ∈ V)), (linkedb links a b); done. }
  assert (forall f g m, (sumTo f m + sumTo g m)%Z = sumTo (fun k => f k + g k)%Z m) as ->.
  { intros f g m. induction m as [|m IH]; [done|]. rewrite !sumTo_S. lia. }
  apply sumTo_ext. intros i Hi. rewrite laplacian_row by done.
  destruct (lookup_lt_is_Some_2 A i Hi) as [a Ha]. rewrite Ha. cbn. destruct (decide (a ∈ V)).
  2:{ rewrite (sumTo_zero (fun j => 0 * _ * _)%Z) by lia. lia. }
  rewrite (sumTo_ext (fun j => 1 * (1 - _) * _)%Z (fun j => adj i j - adj i j * indicator V (A !! j))%Z) by lia.
  rewrite sumTo_sub. lia.
Qed.

(** C14: the matrix the page computes is the Laplacian of the network: square over
    the distinct addresses, symmetric, the number of distinct neighbours on the
    diagonal and -1 exactly for linked addresses beside it.  Its quadratic form at a
    set of addresses counts the linked pairs the set cuts and, because a link of a
    peer to itself is counted on the diagonal, the addresses of the set that are
    linked to themselves.  If there are no such links, it maps every set closed under
    the links, hence every component, to zero, which is why a split shows as a
    vanishing second eigenvalue. *)
Theorem splits_laplacian :
  square (length A) L
  /\ (forall i j a b, A !! i = Some a -> A !! j = Some b ->
       getCell L i j = (if decide (i = j) then Z.of_nat (countIf (linkedb links a) A)
                        else if linkedb links a b then -1 else 0)%Z
       /\ getCell L i j = getCell L j i)
  /\ (forall V, let x i := indicator V (A !! i) in
       sumTo (fun i => x i * sumTo (fun j => getCell L i j * x j) (length A))%Z (length A)
       = Z.of_nat (cutPairs V + selfLinked V))
  /\ (Forall (fun l => source l <> target l) links ->
      (forall V, selfLinked V = 0) /\
      forall V, closed links V -> forall i, i < length A ->
        sumTo (fun j => getCell L i j * indicator V (A !! j))%Z (length A) = 0%Z).
Proof.
  assert (forall i j a b, A !! i = Some a -> A !! j = Some b ->
    getCell L i j = (if decide (i = j) then Z.of_nat (countIf (linkedb links a) A)
                     else if linkedb links a b then -1 else 0)%Z) as Hcell.
  { intros i j a b Ha Hb. rewrite laplacian_cell by (by apply lookup_lt_Some in Ha, Hb).
    destruct (decide (i = j)) as [<-|Hne].
    - apply countIf_sumTo. intros k x Hx. by apply adj_cell.
    - rewrite (adj_cell i j a b Ha Hb). by destruct (linkedb links a b). }
  split; [apply laplacian_square|]. split; [|split; [exact quadratic_form|]].
  - intros i j a b Ha Hb. split; [by apply Hcell|]. rewrite (Hcell i j a b), (Hcell j i b a) by done.
    destruct (decide (i = j)) as [<-|Hne].
    + rewrite decide_True by done. by simplify_eq.
    + rewrite decide_False by done.
      assert (linkedb links a b = linkedb links b a) as ->; [|done].
      apply eq_bool_prop_intro. split; intros H%Is_true_true; apply Is_true_true; apply linkedb_true in H;
        apply linkedb_true; by apply linked_sym.
  - intros Hself. rewrite Forall_forall in Hself. assert (forall a, linkedb links a a = false) as Hno.
    { intros a. destruct (linkedb links a a) eqn:E; [|done]. apply linkedb_true in E as (l & Hl & H).
      specialize (Hself l Hl). naive_solver. }
    split.
    + intros V. unfold selfLinked, countIf. clear Hcell. induction A as [|a l IH]; [done|].
      cbn [List.filter]. rewrite Hno, andb_false_r. exact IH.
    + intros V HV i Hi. rewrite closed_row by done. destruct (lookup_lt_is_Some_2 A i Hi) as [a Ha].
      rewrite (adj_cell i i a a), Hno by done. done.
Qed.

End Laplacian.

(** The graph is drawn exactly when every end of a link is the address of a
    peer, else a TypeError is thrown.  A drawn graph has a line for every pair of
    linked addresses and only for those, one line per pair however many links
    there are in whichever direction, and every peer without a name is a circle. *)
Theorem splits_lines peers links :
  (exec_ok (renderGraph peers links) = true <-> Forall (endsKnown peers) links)
  /\ forall lines classes shapes, renderGraph peers links = Ret (lines, classes, shapes) ->
     LinesOf links lines /\ length classes = length lines
     /\ (forall p, p ∈ peers -> truthyStr (node p) = false -> p ∈ circles shapes).
Proof.
  assert (exec_ok (renderGraph peers links) = true -> Forall (endsKnown peers) links) as Honly.
  { unfold renderGraph. destruct (addLines peers [] links) as [lines|] eqn:E; [|done]. cbn.
    destruct (exec_map lineClass lines) eqn:Ec; [|done]. intros _.
    assert (exec_ok (exec_map lineClass lines) = true) as Hok by (by rewrite Ec).
    rewrite exec_map_ok in Hok. apply addLines_keeps in E as [_ Hall]. apply Forall_forall.
    intros link Hl. destruct (Hall link Hl) as [|Hin]; [done|].
    apply Hok, lineClass_complete in Hin as (x & y & Hab). apply lineOf_at.
    apply lineOf_only in Hab as E. by destruct E as [-> ->]. }
  assert (forall lines, addLines peers [] links = Ret lines -> Forall (endsKnown peers) links -> LinesOf links lines) as Hlines.
  { intros lines E Hk. destruct (addLines_known peers links [] [] LinesOf_nil Hk) as (lines' & E' & HL).
    rewrite E in E'. by injection E' as <-. }
  split; [split; [done|]|].
  - intros Hk. destruct (addLines_known peers links [] [] LinesOf_nil Hk) as (lines & E & HL).
    unfold renderGraph. rewrite E. cbn.
    assert (exec_ok (exec_map lineClass lines) = true) as Hok.
    { rewrite exec_map_ok. intros l Hl. apply lineClass_complete.
      pose proof (lines_complete _ _ HL) as Hc. rewrite Forall_forall in Hc. auto. }
    by destruct (exec_map lineClass lines).
  - intros lines classes shapes E. assert (Forall (endsKnown peers) links) as Hk.
    { apply Honly. by rewrite E. }
    unfold renderGraph in E. apply exec_bind_Ret in E as (lines1 & E1 & E).
    apply exec_bind_Ret in E as (classes1 & E2 & E). injection E as -> -> <-.
    split; [by apply Hlines|]. split; [by apply exec_map_length in E2|].
    intros p Hp Hn. cbn. apply elem_of_list_filter. split; [done|]. unfold isCircle. by rewrite Hn.
Qed.

(** The sets are pulled apart: every peer of a set is pulled to a place inside
    the drawing, and peers of different sets to different places.  The force that
    should keep the nodes inside only reflects them at the right and the bottom:
    its result is never beyond the limit, but a negative coordinate is kept. *)
Theorem splits_sets_apart width height sets a b i j :
  (0 < width)%Q -> (0 < height)%Q -> setOf sets a = Some i -> setOf sets b = Some j ->
  (0 <= forceX width sets a < width /\ 0 <= forceY height sets a < height)%Q
  /\ (i <> j -> ~ (forceX width sets a == forceX width sets b /\ forceY height sets a == forceY height sets b)%Q)
  /\ forall x, (boundCoordinate width x <= width)%Q /\ ((x < 0)%Q -> boundCoordinate width x = x).
Proof.
  intros Hw Hh Ha Hb.
  destruct (matrixSize_covers _ _ (setOf_lt _ _ _ Ha)) as (Hm & Hai & Hdi).
  destruct (matrixSize_covers _ _ (setOf_lt _ _ _ Hb)) as (_ & Haj & Hdj).
  unfold forceX, forceY. rewrite Ha, Hb. split; [split; by apply cell_range|]. split.
  - intros Hne [Ex Ey]. apply cell_inj in Ex, Ey; [|done..]. apply Hne.
    rewrite (Nat.div_mod_eq i (matrixSize (length sets))), (Nat.div_mod_eq j (matrixSize (length sets))).
    by rewrite Ex, Ey.
  - intros x. unfold boundCoordinate. destruct (Qlt_le_dec x 0), (Qlt_le_dec width x); cbv zeta;
      destruct (Qlt_le_dec _ _); split; try lra; intros; try done; exfalso; lra.
Qed.

Definition demoPeers : list DashboardSplitsPeer :=
  [mkPeer "a" (Some "Node-1") None None None; mkPeer "b" None None None None; mkPeer "c" (Some "Seed") None None None].

Lemma splits_sets_apart_witness :
  ~ (forceX 300 [[mkPeer "a" None None None None]; [mkPeer "b" None None None None]] "a"
     == forceX 300 [[mkPeer "a" None None None None]; [mkPeer "b" None None None None]] "b"
   /\ forceY 200 [[mkPeer "a" None None None None]; [mkPeer "b" None None None None]] "a"
     == forceY 200 [[mkPeer "a" None None None None]; [mkPeer "b" None None None None]] "b")%Q.
Proof.
  apply (splits_sets_apart 300 200 _ "a" "b" 0 1); [reflexivity|reflexivity|reflexivity|reflexivity|done].
Defined.

Example demo_laplacian :
  laplacianMatrix demoPeers [mkLink "a" "b"; mkLink "b" "a"; mkLink "b" "c"]
  = [[1; -1; 0]; [-1; 2; -1]; [0; -1; 1]]%Z.
Proof. vm_compute. reflexivity. Qed.

Example demo_render :
  exec_ok (renderGraph demoPeers [mkLink "a" "b"; mkLink "b" "a"]) = true
  /\ exec_ok (renderGraph demoPeers [mkLink "x" "y"]) = false.
Proof. split; vm_compute; reflexivity. Qed.

(** A peer whose name holds none of the known parts is not drawn at all. *)
Example unnamed_shape :
  shapesOf [mkPeer "a" (Some "Coordinator") None None None] = mkShapes [] [] [] [] [].
Proof. vm_compute. reflexivity. Qed.

End SplitsGraph.
