(* ===== verification/SplitsService.v ===== *)
(** The service of the network splits page
    (frontend/src/app/features/network/splits/dashboard-splits.service.ts): it
    generates a random network, splits its largest component in two and merges
    the components again. *)

From stdpp Require Import gmap.
From S2P Require Import Prelude JsRuntime TableSort Graph DashboardSplits.

Module SplitsService.
Import Splits.

(** * Adjacency maps and depth-first search *)

(** [Set.prototype.add] on an insertion-ordered set. *)
Definition setAdd (s : list string) (x : string) : list string :=
  if includes s x then s else s ++ [x].

Notation AdjacencyMap := (gmap string (list string)).

(** [adjacencyMap.get(a)?.add(b)] *)
Definition addNeighbor (m : AdjacencyMap) (a b : string) : AdjacencyMap :=
  match m !! a with Some s => <[a := setAdd s b]> m | None => m end.

Definition buildAdjacency (group : list string) (ls : list DashboardSplitsLink) : AdjacencyMap :=
  fold_left (fun m l => addNeighbor (addNeighbor m (source l) (target l)) (target l) (source l)) ls
    (fold_left (fun m a => <[a := []]> m) group ∅).

(** [adjacencyMap.get(node) || new Set()] *)
Definition neighborsOf (m : AdjacencyMap) (a : string) : list string := default [] (m !! a).

(** The visited set and the component array both searches mutate. *)
Notation Search := (list string * list string)%type.

Section Dfs.
Context (m : AdjacencyMap).

(** [for (const neighbor of neighbors) if (!visited.has(neighbor)) dfs(neighbor)] *)
Fixpoint visitAll (dfs : Search -> string -> option Search) (s : Search) (ns : list string)
  : option Search :=
  match ns with
  | [] => Some s
  | n :: ns =>
      if includes s.1 n then visitAll dfs s ns
      else match dfs s n with Some s => visitAll dfs s ns | None => None end
  end.

(** [None]: the recursion is deeper than the fuel. *)
Fixpoint dfs (fuel : nat) (s : Search) (node : string) : option Search :=
  match fuel with
  | 0 => None
  | S fuel => visitAll (dfs fuel) (s.1 ++ [node], s.2 ++ [node]) (neighborsOf m node)
  end.

(** The loop over the addresses: a new component per unvisited address. *)
Fixpoint searchFrom (fuel : nat) (visited : list string) (group : list string)
  : option (list (list string)) :=
  match group with
  | [] => Some []
  | a :: group =>
      if includes visited a then searchFrom fuel visited group
      else match dfs fuel (visited, []) a with
           | Some (visited, component) => cons component <$> searchFrom fuel visited group
           | None => None
           end
  end.

End Dfs.

Definition searchFuel (group : list string) (ls : list DashboardSplitsLink) : nat :=
  length group + 2 * length ls.

Definition componentsOf (group : list string) (ls : list DashboardSplitsLink) : option (list (list string)) :=
  searchFrom (buildAdjacency group ls) (searchFuel group ls) [] group.

(** * The service *)

Definition outOfFuel : JsError := RangeError "Maximum call stack size exceeded".

Definition orFuel {A} (o : option A) : exec A :=
  match o with Some a => Ret a | None => Throw outOfFuel end.

Definition checkConnectivity (group : list string) (groupLinks : list DashboardSplitsLink)
  : exec (bool * list (list string)) :=
  components ← orFuel (componentsOf group groupLinks);
  Ret (bool_decide (length components = 1), components).

Definition identifyDisconnectedComponents (currentData : DashboardSplits) : exec (list (list string)) :=
  orFuel (componentsOf (address <$> splitPeers currentData) (splitLinks currentData)).

(** [components[i][0]] *)
Definition headOf (c : list string) : exec string :=
  match c with
  | x :: _ => Ret x
  | [] => Throw (TypeError "undefined address")
  end.

Fixpoint chainLinks (group : list string) : list DashboardSplitsLink :=
  match group with
  | a :: (b :: _) as rest => mkLink a b :: chainLinks rest
  | _ => []
  end.

Definition ensureGroupIsConnected (currentData : DashboardSplits) (group : list string)
  : exec (list DashboardSplitsLink) :=
  if length group <? 2 then Ret []
  else
    let groupLinks := List.filter (fun link => includes group (source link)
                                            && includes group (target link)) (splitLinks currentData) in
    if 0 <? length groupLinks then
      '(fullyConnected, components) ← checkConnectivity group groupLinks;
      if (fullyConnected : bool) then Ret []
      else match (components : list (list string)) with
           | first :: others =>
               sourceNode ← headOf first;
               targets ← exec_map headOf others;
               Ret (mkLink sourceNode <$> (targets : list string))
           | [] => Ret []
           end
    else Ret (chainLinks group).

(** [components.sort((a, b) => b.length - a.length)] *)
Definition bySize (a b : list string) : comparison := Nat.compare (length b) (length a).

(** Keep a link unless it joins the two halves of the group. *)
Definition keepLink (group subgroup1 subgroup2 : list string) (link : DashboardSplitsLink) : bool :=
  if includes group (source link) && includes group (target link)
  then (includes subgroup1 (source link) && includes subgroup1 (target link))
    || (includes subgroup2 (source link) && includes subgroup2 (target link))
  else true.

(** [this.currentData] is undefined until the first load. *)
Definition noData {A} : exec A :=
  Throw (TypeError "Cannot read properties of undefined (reading 'peers')").

Definition splitNodes (currentData : option DashboardSplits) : exec (option DashboardSplits) :=
  match currentData with
  | None => noData
  | Some data =>
      components ← identifyDisconnectedComponents data;
      match List.find (fun group => 4 <=? length group) (arraySort bySize components) with
      | None => Ret (Some data)
      | Some groupToSplit =>
          let splitIndex := length groupToSplit / 2 in
          let subgroup1 := sliceTo splitIndex groupToSplit in
          let subgroup2 := sliceFrom splitIndex groupToSplit in
          let newLinks := List.filter (keepLink groupToSplit subgroup1 subgroup2) (splitLinks data) in
          additional1 ← ensureGroupIsConnected data subgroup1;
          additional2 ← ensureGroupIsConnected data subgroup2;
          Ret (Some (mkSplits (splitPeers data) (newLinks ++ additional1 ++ additional2)))
      end
  end.

(** ** Random choices: [random i] is the result of the i-th call of [Math.random()]. *)
Section Random.
Context (random : nat -> Q).

(** [Math.floor(Math.random() * n)] *)
Definition randomBelow (i n : nat) : nat := Z.to_nat (Qfloor (random i * inject_Z (Z.of_nat n))).

(** The links between consecutive components, from the i-th random number on. *)
Fixpoint bridges (i : nat) (components : list (list string)) : exec (list DashboardSplitsLink) :=
  match components with
  | c1 :: (c2 :: _) as rest =>
      match c1 !! randomBelow i (length c1), c2 !! randomBelow (S i) (length c2) with
      | Some sourceNode, Some targetNode =>
          ls ← bridges (S (S i)) rest; Ret (mkLink sourceNode targetNode :: ls)
      | _, _ => Throw (TypeError "undefined address")
      end
  | _ => Ret []
  end.

Definition mergeNodes (i : nat) (currentData : option DashboardSplits) : exec (option DashboardSplits) :=
  match currentData with
  | None => noData
  | Some data =>
      components ← identifyDisconnectedComponents data;
      added ← bridges i components;
      Ret (Some (mkSplits (splitPeers data) (splitLinks data ++ added)))
  end.

(** ** The generated network *)

Definition generateRandomIpAddress (i : nat) : string :=
  showNat (randomBelow i 256) +:+ "." +:+ showNat (randomBelow (i + 1) 256) +:+ "." +:+
  showNat (randomBelow (i + 2) 256) +:+ "." +:+ showNat (randomBelow (i + 3) 256).

Definition generatePeer (i index : nat) : DashboardSplitsPeer :=
  mkPeer (generateRandomIpAddress i)
    (Some (if bool_decide (index = 0) then "Webnode" else "Node-" +:+ showNat (index + 1)))
    None None None.

Definition generatePeers (i peerCount : nat) : list DashboardSplitsPeer :=
  (fun index => generatePeer (i + 4 * index) index) <$> seq 0 peerCount.

(** [[a, b].sort()] orders by code units. *)
Definition connectionKey (a b : string) : string :=
  match String.compare a b with
  | Gt => b +:+ "-" +:+ a
  | _ => a +:+ "-" +:+ b
  end.

(** The [while] loop of one peer; [attempts] counts down from [maxAttempts].
    The state: random numbers used, links, connection keys. *)
Record Generation := mkGen {
  used : nat;
  genLinks : list DashboardSplitsLink;
  connectionSet : list string
}.

Section Connect.
Context (ps : list DashboardSplitsPeer) (peerCount : nat).

Fixpoint connectPeer (attempts wanted : nat) (peer : DashboardSplitsPeer) (g : Generation)
  : exec Generation :=
  match attempts, wanted with
  | S attempts, S wanted' =>
      match ps !! randomBelow (used g) peerCount with
      | None => Throw (TypeError "Cannot read properties of undefined (reading 'address')")
      | Some targetPeer =>
          let g := mkGen (S (used g)) (genLinks g) (connectionSet g) in
          if bool_decide (address targetPeer = address peer) then connectPeer attempts wanted peer g
          else
            let key := connectionKey (address peer) (address targetPeer) in
            if includes (connectionSet g) key then connectPeer attempts wanted peer g
            else connectPeer attempts wanted' peer
                   (mkGen (used g) (genLinks g ++ [mkLink (address peer) (address targetPeer)])
                          (connectionSet g ++ [key]))
      end
  | _, _ => Ret g
  end.

Fixpoint connectAll (connectionsPerPeer : nat) (todo : list DashboardSplitsPeer) (g : Generation)
  : exec Generation :=
  match todo with
  | [] => Ret g
  | peer :: todo =>
      g ← connectPeer (peerCount * 2) connectionsPerPeer peer g;
      connectAll connectionsPerPeer todo g
  end.

End Connect.

Definition generatePeerNetwork (i peerCount connectionsPerPeer : nat) : exec DashboardSplits :=
  let ps := generatePeers i peerCount in
  g ← connectAll ps peerCount connectionsPerPeer ps (mkGen (i + 4 * peerCount) [] []);
  Ret (mkSplits ps (genLinks g)).

(** The answer of [getPeers] and the data kept for the next call. *)
Definition getPeers (i : nat) (currentData : option DashboardSplits) : exec DashboardSplits :=
  match currentData with
  | Some data => Ret data
  | None => generatePeerNetwork i 100 50
  end.

End Random.

(** * The adjacency map lists the links *)

Definition entry (m : AdjacencyMap) (a b : string) : Prop := exists s, m !! a = Some s /\ b ∈ s.

Lemma elem_of_neighborsOf m a b : b ∈ neighborsOf m a <-> entry m a b.
Proof.
  unfold neighborsOf, entry. destruct (m !! a) as [s|]; cbn; [naive_solver|].
  rewrite elem_of_nil. naive_solver.
Qed.

Lemma elem_of_setAdd s x y : y ∈ setAdd s x <-> y ∈ s \/ y = x.
Proof.
  unfold setAdd. destruct (includes s x) eqn:E; js_simpl; [naive_solver|].
  rewrite elem_of_app, list_elem_of_singleton. done.
Qed.

Lemma addNeighbor_dom m x y a : is_Some (addNeighbor m x y !! a) <-> is_Some (m !! a).
Proof.
  unfold addNeighbor. destruct (m !! x) as [s|] eqn:Hx; [|done].
  destruct (decide (x = a)) as [->|]; [|by rewrite lookup_insert_ne].
  rewrite lookup_insert_eq, Hx. split; eauto.
Qed.

Lemma addNeighbor_entry m x y a b :
  entry (addNeighbor m x y) a b <-> entry m a b \/ (is_Some (m !! a) /\ a = x /\ b = y).
Proof.
  unfold addNeighbor, entry. destruct (m !! x) as [s|] eqn:Hx.
  - destruct (decide (x = a)) as [->|].
    + rewrite lookup_insert_eq, Hx. split.
      * intros (s' & [= <-] & Hb%elem_of_setAdd). naive_solver.
      * intros H. exists (setAdd s y). split; [done|]. apply elem_of_setAdd. naive_solver.
    + rewrite lookup_insert_ne by done. naive_solver.
  - split; [naive_solver|]. intros [?|([? ?] & -> & ->)]; [done|congruence].
Qed.

Lemma buildAdjacency_init group : forall (m : AdjacencyMap) a,
  fold_left (fun m a => <[a := []]> m) group m !! a = if decide (a ∈ group) then Some [] else m !! a.
Proof.
  induction group as [|x group IH]; intros m a; cbn [fold_left]; [done|]. rewrite IH.
  destruct (decide (a ∈ group)); [by rewrite decide_True by set_solver|].
  destruct (decide (x = a)) as [->|].
  - by rewrite lookup_insert_eq, decide_True by set_solver.
  - by rewrite lookup_insert_ne, decide_False by set_solver.
Qed.

Lemma buildAdjacency_links ls : forall m a b,
  entry (fold_left (fun m l => addNeighbor (addNeighbor m (source l) (target l)) (target l) (source l)) ls m) a b
  <-> entry m a b \/ (is_Some (m !! a) /\ linked ls a b).
Proof.
  induction ls as [|l ls IH]; intros m a b; cbn [fold_left].
  - unfold linked. set_solver.
  - rewrite IH, !addNeighbor_entry, !addNeighbor_dom.
    assert (linked (l :: ls) a b <->
      (source l = a /\ target l = b \/ source l = b /\ target l = a) \/ linked ls a b) as ->.
    { unfold linked. setoid_rewrite elem_of_cons. naive_solver. }
    naive_solver.
Qed.

Lemma neighbors_linked group ls a b :
  b ∈ neighborsOf (buildAdjacency group ls) a <-> a ∈ group /\ linked ls a b.
Proof.
  rewrite elem_of_neighborsOf. unfold buildAdjacency. rewrite buildAdjacency_links.
  unfold entry. rewrite buildAdjacency_init, lookup_empty. destruct (decide (a ∈ group)).
  - split; [|naive_solver]. intros [(s & [= <-] & Hb%elem_of_nil)|]; naive_solver.
  - split; [|naive_solver]. intros [(s & ? & _)|[[? ?] _]]; done.
Qed.

(** * The depth-first search *)

Section DfsProof.
Context (m : AdjacencyMap) (U : list string).
Context (HU : forall a b, a ∈ U -> b ∈ neighborsOf m a -> b ∈ U).

Definition edge (a b : string) : Prop := b ∈ neighborsOf m a.

(** What the searches from [roots] add to both arrays. *)
Record Explored (roots : list string) (s s' : Search) (new : list string) : Prop := {
  ex_visited : s'.1 = s.1 ++ new;
  ex_component : s'.2 = s.2 ++ new;
  ex_NoDup : NoDup new;
  ex_fresh : forall x, x ∈ new -> x ∉ s.1;
  ex_univ : forall x, x ∈ new -> x ∈ U;
  ex_closed : forall x y, x ∈ new -> edge x y -> y ∈ s'.1;
  ex_sound : forall x, x ∈ new -> exists r, r ∈ roots /\ rtc edge r x
}.

Definition remaining (visited : list string) : nat := countIf (fun u => negb (includes visited u)) U.

Lemma filter_count_mono {A} (p q : A -> bool) l :
  (forall x, x ∈ l -> p x = true -> q x = true) -> countIf p l <= countIf q l.
Proof.
  unfold countIf. induction l as [|y l IH]; intros H; [done|]. cbn.
  assert (length (List.filter p l) <= length (List.filter q l)) by (apply IH; set_solver).
  destruct (p y) eqn:Hp; [rewrite H by set_solver; cbn; lia|]. destruct (q y); cbn; lia.
Qed.

Lemma filter_count_strict {A} (p q : A -> bool) l x :
  (forall y, y ∈ l -> p y = true -> q y = true) -> x ∈ l -> p x = false -> q x = true ->
  countIf p l < countIf q l.
Proof.
  intros H Hx Hp Hq. apply list_elem_of_split in Hx as (l1 & l2 & ->). unfold countIf.
  rewrite !List.filter_app, !length_app. cbn. rewrite Hp, Hq. cbn.
  pose proof (filter_count_mono p q l1 ltac:(set_solver)).
  pose proof (filter_count_mono p q l2 ltac:(set_solver)). unfold countIf in *. lia.
Qed.

Lemma remaining_mono V W : (forall x, x ∈ V -> x ∈ W) -> remaining W <= remaining V.
Proof. intros H. apply filter_count_mono. intros x _ Hx. js_simpl. naive_solver. Qed.

Lemma remaining_snoc V a : a ∈ U -> a ∉ V -> remaining (V ++ [a]) < remaining V.
Proof.
  intros Ha HV. apply (filter_count_strict _ _ _ a); [|done|js_simpl; set_solver|js_simpl; done].
  intros y _ Hy. js_simpl. set_solver.
Qed.

Lemma visitAll_spec (search : Search -> string -> option Search) k :
  (forall s n, n ∈ U -> n ∉ s.1 -> remaining s.1 <= k ->
     exists s' new, search s n = Some s' /\ Explored [n] s s' new /\ n ∈ new) ->
  forall ns s, (forall n, n ∈ ns -> n ∈ U) -> remaining s.1 <= k ->
  exists s' new, visitAll search s ns = Some s' /\ Explored ns s s' new /\
    forall n, n ∈ ns -> n ∈ s'.1.
Proof.
  intros Hsearch. induction ns as [|n ns IH]; intros s Hns Hk; cbn [visitAll].
  - exists s, []. split_and!; [done| |set_solver].
    split; rewrite ?app_nil_r; try done; [constructor|set_solver..].
  - destruct (includes s.1 n) eqn:Hn; js_simpl.
    + destruct (IH s) as (s' & new & Heq & HE & Hall); [set_solver|done|].
      exists s', new. split_and!; [done| |].
      * destruct HE as [E1 E2 E3 E4 E5 E6 E7]. split; try done. intros x (r & ? & ?)%E7.
        exists r. set_solver.
      * intros z [->|Hz]%elem_of_cons; [|auto]. rewrite (ex_visited _ _ _ _ HE). set_solver.
    + destruct (Hsearch s n) as (s1 & new1 & Heq1 & [E1 E2 E3 E4 E5 E6 E7] & Hn1);
        [set_solver|done..|]. rewrite Heq1.
      destruct (IH s1) as (s' & new2 & Heq2 & [F1 F2 F3 F4 F5 F6 F7] & Hall).
      { set_solver. }
      { etrans; [apply remaining_mono|exact Hk]. rewrite E1. set_solver. }
      exists s', (new1 ++ new2). split_and!; [done| |].
      * split.
        -- by rewrite F1, E1, app_assoc.
        -- by rewrite F2, E2, app_assoc.
        -- apply NoDup_app. split_and!; [done| |done]. intros x Hx Hx2. apply (F4 x Hx2).
           rewrite E1. set_solver.
        -- intros x [Hx|Hx]%elem_of_app; [auto|]. intros HV. apply (F4 x Hx). rewrite E1. set_solver.
        -- intros x [Hx|Hx]%elem_of_app; auto.
        -- intros x y [Hx|Hx]%elem_of_app Hxy; [|eauto]. rewrite F1. apply elem_of_app. left. eauto.
        -- intros x [(r & Hr & ?)%E7|(r & ? & ?)%F7]%elem_of_app; exists r; [|set_solver].
           apply list_elem_of_singleton in Hr as ->. split; [left|done].
      * intros z [->|Hz]%elem_of_cons; [|auto]. rewrite F1, E1. set_solver.
Qed.

Lemma dfs_spec fuel : forall s a,
  a ∈ U -> a ∉ s.1 -> remaining s.1 <= fuel ->
  exists s' new, dfs m fuel s a = Some s' /\ Explored [a] s s' new /\ a ∈ new.
Proof.
  induction fuel as [|fuel IH]; intros s a Ha HV Hk.
  { pose proof (remaining_snoc _ _ Ha HV). lia. }
  cbn [dfs]. pose proof (remaining_snoc _ _ Ha HV) as Hlt.
  destruct (visitAll_spec (dfs m fuel) fuel IH (neighborsOf m a) (s.1 ++ [a], s.2 ++ [a]))
    as (s' & new & Heq & [E1 E2 E3 E4 E5 E6 E7] & Hall); [eauto|cbn; lia|]. cbn in E1, E2, E4.
  exists s', (a :: new). split_and!; [done| |left]. split.
  - rewrite E1, <- app_assoc. done.
  - rewrite E2, <- app_assoc. done.
  - constructor; [|done]. intros Hin. apply (E4 a Hin). set_solver.
  - intros x [->|Hx]%elem_of_cons; [done|]. intros Hin. apply (E4 x Hx). set_solver.
  - intros x [->|Hx]%elem_of_cons; auto.
  - intros x y [->|Hx]%elem_of_cons Hxy; eauto.
  - intros x [->|Hx]%elem_of_cons; exists a; (split; [left|]); [reflexivity|].
    destruct (E7 x Hx) as (r & Hr & Hrx). eapply rtc_l; [exact Hr|done].
Qed.

End DfsProof.

(** * The components found are the connected components *)

Section ComponentsProof.
Context (group : list string) (ls : list DashboardSplitsLink).
Context (Hknown : forall l, l ∈ ls -> source l ∈ group /\ target l ∈ group).

Let m := buildAdjacency group ls.

Lemma linked_known a b : linked ls a b -> a ∈ group /\ b ∈ group.
Proof. intros (l & Hl & Hab). destruct (Hknown l Hl). naive_solver. Qed.

Lemma edge_linked a b : edge m a b <-> linked ls a b.
Proof.
  unfold edge, m. rewrite neighbors_linked. split; [naive_solver|]. intros H. split; [|done].
  by apply linked_known in H as [? _].
Qed.

Lemma dfs_component fuel V comps a :
  length group <= fuel -> a ∈ group -> a ∉ V -> ComponentsOf ls V comps ->
  exists V' c, dfs m fuel (V, []) a = Some (V', c) /\ ComponentsOf ls V' (comps ++ [c]) /\
    a ∈ V' /\ (forall x, x ∈ V -> x ∈ V') /\ (forall x, x ∈ V' -> x ∈ V \/ x ∈ group).
Proof.
  intros Hfuel Ha HV HC.
  destruct (dfs_spec m group) with (fuel := fuel) (s := (V, @nil string)) (a := a)
    as ([V' c] & new & Heq & [E1 E2 E3 E4 E5 E6 E7] & Hnew); try done.
  { intros x y _ Hxy. apply (edge_linked x y), linked_known in Hxy. tauto. }
  { etrans; [apply countIf_le|done]. }
  cbn in E1, E2, E4, E6. subst V' c. exists (V ++ new), new. split_and!; try done.
  2:{ apply elem_of_app. auto. }
  2:{ intros x Hx. apply elem_of_app. auto. }
  2:{ intros x [|]%elem_of_app; auto. }
  eapply ComponentsOf_snoc; [done|exact HV|done| |intros x; apply elem_of_app].
  eapply explored_component; [by eapply ComponentsOf_closed|done..| |].
  - intros b (r & Hr & Hb)%E7. apply list_elem_of_singleton in Hr as ->.
    eapply rtc_subrel; [|exact Hb]. intros x y. apply edge_linked.
  - intros b d Hb Hd%edge_linked. apply (E6 b d Hb) in Hd. apply elem_of_app in Hd. tauto.
Qed.

Lemma searchFrom_spec fuel : length group <= fuel -> forall todo V comps,
  (forall x, x ∈ todo -> x ∈ group) -> (forall x, x ∈ V -> x ∈ group) -> ComponentsOf ls V comps ->
  exists V' cs, searchFrom m fuel V todo = Some cs /\ ComponentsOf ls V' (comps ++ cs) /\
    (forall x, x ∈ V' -> x ∈ group) /\ (forall x, x ∈ V -> x ∈ V') /\ (forall x, x ∈ todo -> x ∈ V').
Proof.
  intros Hfuel. induction todo as [|a todo IH]; intros V comps Htodo HV HC; cbn [searchFrom].
  - exists V, []. rewrite app_nil_r. split_and!; try done; set_solver.
  - destruct (includes V a) eqn:Ha; js_simpl.
    + destruct (IH V comps) as (V' & cs & ? & ? & ? & Hsub & ?); [set_solver|done..|].
      exists V', cs. split_and!; try done. intros x [->|]%elem_of_cons; auto.
    + destruct (dfs_component fuel V comps a) as (V1 & c & -> & HC1 & Ha1 & Hs1 & Hn1);
        [done|set_solver|done..|].
      destruct (IH V1 (comps ++ [c])) as (V' & cs & -> & HC' & ? & Hsub & ?);
        [set_solver|intros x [|]%Hn1; auto|done|].
      exists V', (c :: cs). rewrite <- app_assoc in HC'. split_and!; try done; [auto|].
      intros x [->|]%elem_of_cons; auto.
Qed.

Lemma componentsOf_spec :
  exists V comps, componentsOf group ls = Some comps /\ ComponentsOf ls V comps /\
    forall x, x ∈ V <-> x ∈ group.
Proof.
  destruct (searchFrom_spec (searchFuel group ls)) with (todo := group) (V := @nil string)
    (comps := @nil (list string)) as (V & comps & ? & ? & ? & _ & ?);
    [unfold searchFuel; lia|done|set_solver|apply ComponentsOf_nil|].
  exists V, comps. split_and!; try done. split; auto.
Qed.

End ComponentsProof.

(** * Operations of the service *)

(** Every link ends at peers of the network. *)
Definition linksKnown (data : DashboardSplits) : Prop :=
  forall l, l ∈ splitLinks data ->
    source l ∈ (address <$> splitPeers data) /\ target l ∈ (address <$> splitPeers data).

Lemma identify_spec data :
  linksKnown data ->
  exists V comps, identifyDisconnectedComponents data = Ret comps /\
    ComponentsOf (splitLinks data) V comps /\ forall x, x ∈ V <-> x ∈ (address <$> splitPeers data).
Proof.
  intros Hk. destruct (componentsOf_spec _ _ Hk) as (V & comps & Heq & HC & HV).
  exists V, comps. unfold identifyDisconnectedComponents. rewrite Heq. done.
Qed.

(** Two members of a component are connected. *)
Lemma component_connected ls V comps c x y :
  ComponentsOf ls V comps -> c ∈ comps -> x ∈ c -> y ∈ c -> connected ls x y.
Proof.
  intros HC Hc Hx Hy. destruct (comps_class _ _ _ HC c Hc) as (a & _ & Ha).
  eapply connected_trans; [apply connected_sym|]; by apply Ha.
Qed.

Lemma component_nonempty ls V comps c : ComponentsOf ls V comps -> c ∈ comps -> c <> [].
Proof.
  intros HC Hc ->. destruct (comps_class _ _ _ HC [] Hc) as (a & Ha & _). by apply elem_of_nil in Ha.
Qed.

Lemma connected_link ls l : l ∈ ls -> connected ls (source l) (target l).
Proof. intros Hl. apply rtc_once. exists l. auto. Qed.

(** ** Merging *)

Section Merge.
Context (random : nat -> Q) (Hrandom : forall i, (0 <= random i)%Q /\ (random i < 1)%Q).

Lemma randomBelow_lt i n : 0 < n -> randomBelow random i n < n.
Proof.
  intros Hn. unfold randomBelow. destruct (Hrandom i) as [H0 H1].
  assert (0 < inject_Z (Z.of_nat n))%Q as Hpos by (change 0%Q with (inject_Z 0); rewrite <- Zlt_Qlt; lia).
  assert (random i * inject_Z (Z.of_nat n) < inject_Z (Z.of_nat n))%Q as Hlt by nra.
  assert (0 <= Qfloor (random i * inject_Z (Z.of_nat n)))%Z as Hge.
  { change 0%Z with (Qfloor 0). apply Qfloor_resp_le. nra. }
  assert (Qfloor (random i * inject_Z (Z.of_nat n)) < Z.of_nat n)%Z; [|lia].
  rewrite Zlt_Qlt. eapply Qle_lt_trans; [apply Qfloor_le|done].
Qed.

Lemma random_member i (c : list string) :
  c <> [] -> exists x, c !! randomBelow random i (length c) = Some x /\ x ∈ c.
Proof.
  intros Hc. destruct (lookup_lt_is_Some_2 c (randomBelow random i (length c))) as [x Hx].
  { apply randomBelow_lt. destruct c; [done|cbn; lia]. }
  exists x. split; [done|]. by eapply list_elem_of_lookup_2.
Qed.

Lemma bridges_cons i c1 c2 comps :
  bridges random i (c1 :: c2 :: comps) =
  match c1 !! randomBelow random i (length c1), c2 !! randomBelow random (S i) (length c2) with
  | Some s, Some t => ls ← bridges random (S (S i)) (c2 :: comps); Ret (mkLink s t :: ls)
  | _, _ => Throw (TypeError "undefined address")
  end.
Proof. reflexivity. Qed.

(** The links added between components connect all of them. *)
Lemma bridges_spec comps : forall i,
  (forall c, c ∈ comps -> c <> []) ->
  exists added, bridges random i comps = Ret added /\ length added = length comps - 1 /\
    (forall l, l ∈ added -> source l ∈ concat comps /\ target l ∈ concat comps) /\
    forall L, (forall l, l ∈ added -> l ∈ L) ->
      (forall c x y, c ∈ comps -> x ∈ c -> y ∈ c -> connected L x y) ->
      forall x y, x ∈ concat comps -> y ∈ concat comps -> connected L x y.
Proof.
  induction comps as [|c1 comps IH]; intros i Hne.
  { exists []. split_and!; try done; set_solver. }
  destruct comps as [|c2 comps].
  { exists []. split_and!; try done; [set_solver|]. intros L _ Hin x y.
    cbn. rewrite app_nil_r. apply Hin. left. }
  destruct (random_member i c1) as (s & Hs & Hsin); [apply Hne; left|].
  destruct (random_member (S i) c2) as (t & Ht & Htin); [apply Hne; set_solver|].
  destruct (IH (S (S i))) as (added & Heq & Hlen & Hends & Hconn); [set_solver|].
  exists (mkLink s t :: added). rewrite bridges_cons, Hs, Ht, Heq. split_and!.
  - done.
  - cbn. cbn in Hlen. lia.
  - intros l [->|Hl]%elem_of_cons; cbn [concat source target].
    + rewrite !elem_of_app. auto.
    + destruct (Hends l Hl). rewrite !(elem_of_app c1). auto.
  - intros L Hsub Hin.
    assert (forall x y, x ∈ concat (c2 :: comps) -> y ∈ concat (c2 :: comps) -> connected L x y) as Hrest.
    { apply Hconn; [set_solver|]. intros c x y Hc. apply Hin. by right. }
    assert (connected L s t) as Hst.
    { apply (connected_link L (mkLink s t)). apply Hsub. left. }
    assert (forall x, x ∈ concat (c1 :: c2 :: comps) -> connected L s x) as Hall.
    { intros x. cbn [concat]. intros [Hx|Hx]%elem_of_app; [by apply (Hin c1); [left|..]|].
      eapply connected_trans; [exact Hst|]. apply Hrest; [|done]. cbn. apply elem_of_app. auto. }
    intros x y Hx Hy. eapply connected_trans; [apply connected_sym, Hall, Hx|by apply Hall].
Qed.

(** After a merge every two peers are connected; the peers and all the old
    links are kept, exactly one link fewer than there were components is
    added, and it ends at peers of the network. *)
Theorem mergeNodes_connects i data :
  linksKnown data ->
  exists comps added,
    identifyDisconnectedComponents data = Ret comps /\
    mergeNodes random i (Some data) = Ret (Some (mkSplits (splitPeers data) (splitLinks data ++ added))) /\
    length added = length comps - 1 /\
    linksKnown (mkSplits (splitPeers data) (splitLinks data ++ added)) /\
    (forall p q, p ∈ splitPeers data -> q ∈ splitPeers data ->
      connected (splitLinks data ++ added) (address p) (address q)).
Proof.
  intros Hk. destruct (identify_spec data Hk) as (V & comps & Heq & HC & HV).
  destruct (bridges_spec comps i) as (added & Hb & Hlen & Hends & Hconn).
  { intros c. by eapply component_nonempty. }
  assert (forall x, x ∈ concat comps <-> x ∈ (address <$> splitPeers data)) as Hcat.
  { intros x. rewrite <- HV. symmetry. apply HC. }
  exists comps, added. split_and!; [done| |done| |].
  - unfold mergeNodes. rewrite Heq. cbn [mbind exec_bind]. by rewrite Hb.
  - intros l [Hl|Hl]%elem_of_app; cbn; [by apply Hk|]. rewrite <- !Hcat. auto.
  - intros p q Hp Hq. apply Hconn; [set_solver| |by apply Hcat, list_elem_of_fmap_2..].
    intros c x y Hc Hx Hy. eapply connected_mono; [|by eapply component_connected].
    intros l Hl. apply elem_of_app. auto.
Qed.

End Merge.

(** ** Splitting *)

Lemma chainLinks_ends group l :
  l ∈ chainLinks group -> source l ∈ group /\ target l ∈ group.
Proof.
  induction group as [|a [|b group] IH]; cbn [chainLinks]; try by intros ?%elem_of_nil.
  intros [->|Hl]%elem_of_cons; [cbn; set_solver|]. destruct (IH Hl). set_solver.
Qed.

Lemma chainLinks_connected group L :
  (forall l, l ∈ chainLinks group -> l ∈ L) ->
  forall x, x ∈ group -> exists h, head group = Some h /\ connected L h x.
Proof.
  induction group as [|a group IH]; intros HL x Hx; [by apply elem_of_nil in Hx|].
  exists a. split; [done|]. apply elem_of_cons in Hx as [->|Hx]; [reflexivity|].
  destruct group as [|b group]; [by apply elem_of_nil in Hx|].
  destruct (IH ltac:(intros l Hl; apply HL; by right) x Hx) as (h & [= <-] & Hh).
  eapply connected_trans; [|exact Hh]. apply (connected_link L (mkLink a b)), HL. left.
Qed.

Lemma headOf_spec c : c <> [] -> exists x, headOf c = Ret x /\ x ∈ c.
Proof. destruct c as [|x c]; [done|]. intros _. exists x. split; [done|left]. Qed.

Lemma exec_map_headOf cs :
  (forall c, c ∈ cs -> c <> []) ->
  exists hs, exec_map headOf cs = Ret hs /\ Forall2 (fun c h => h ∈ c) cs hs.
Proof.
  induction cs as [|c cs IH]; intros Hne; [exists []; split; [done|constructor]|].
  destruct (headOf_spec c) as (x & Hx & Hin); [apply Hne; left|].
  destruct IH as (hs & Hhs & HF); [set_solver|].
  exists (x :: hs). cbn. rewrite Hx. cbn. rewrite Hhs. split; [done|by constructor].
Qed.

(** [added] makes [group] connected in every graph that has the old links
    inside the group. *)
Definition Reconnects (ls : list DashboardSplitsLink) (group : list string)
  (added : list DashboardSplitsLink) : Prop :=
  (forall l, l ∈ added -> source l ∈ group /\ target l ∈ group) /\
  forall L, (forall l, l ∈ ls -> source l ∈ group -> target l ∈ group -> l ∈ L) ->
    (forall l, l ∈ added -> l ∈ L) ->
    forall x y, x ∈ group -> y ∈ group -> connected L x y.

(** A hub linked to every component connects the group. *)
Lemma hub_connects L cs hs h :
  Forall2 (fun c t => t ∈ c) cs hs ->
  (forall c x y, c ∈ cs -> x ∈ c -> y ∈ c -> connected L x y) ->
  (forall t, t ∈ hs -> mkLink h t ∈ L) ->
  forall x, x ∈ concat cs -> connected L h x.
Proof.
  intros HF Hin HL x (c & Hc & Hx)%elem_of_concat.
  apply list_elem_of_lookup in Hc as [i Hi].
  destruct (Forall2_lookup_l _ _ _ _ _ HF Hi) as (t & Ht & Htc).
  eapply connected_trans; [apply (connected_link L (mkLink h t)), HL|cbn].
  - by eapply list_elem_of_lookup_2.
  - apply (Hin c); try done. by eapply list_elem_of_lookup_2.
Qed.

Lemma ensureGroupIsConnected_spec data group :
  exists added, ensureGroupIsConnected data group = Ret added /\
    Reconnects (splitLinks data) group added.
Proof.
  unfold ensureGroupIsConnected. destruct (Nat.ltb_spec (length group) 2) as [Hlt|Hge].
  { exists []. split; [done|]. split; [set_solver|]. intros L _ _ x y Hx Hy.
    destruct group as [|a [|b group]]; cbn in Hlt; [set_solver| |lia].
    assert (x = a /\ y = a) as [-> ->] by set_solver. reflexivity. }
  set (gl := List.filter _ _).
  assert (forall l, l ∈ gl <-> l ∈ splitLinks data /\ source l ∈ group /\ target l ∈ group) as Hgl.
  { intros l. unfold gl. rewrite elem_of_list_filter. js_simpl. tauto. }
  destruct (0 <? length gl).
  2:{ exists (chainLinks group). split; [done|]. split; [apply chainLinks_ends|].
      intros L _ HL x y Hx Hy.
      destruct (chainLinks_connected _ _ HL x Hx) as (h & Hh & Hhx).
      destruct (chainLinks_connected _ _ HL y Hy) as (h' & Hh' & Hhy). simplify_eq.
      eapply connected_trans; [by apply connected_sym|done]. }
  destruct (componentsOf_spec group gl) as (V & comps & Heq & HC & HV); [set_solver|].
  assert (forall x, x ∈ concat comps <-> x ∈ group) as Hcat.
  { intros x. rewrite <- HV. symmetry. apply HC. }
  assert (forall L, (forall l, l ∈ splitLinks data -> source l ∈ group -> target l ∈ group -> l ∈ L) ->
    forall c x y, c ∈ comps -> x ∈ c -> y ∈ c -> connected L x y) as Hin.
  { intros L HL c x y Hc Hx Hy. eapply connected_mono; [|by eapply component_connected].
    intros l Hl. apply Hgl in Hl as (? & ? & ?). auto. }
  unfold checkConnectivity. rewrite Heq. cbn [orFuel mbind exec_bind].
  case_bool_decide as H1.
  - exists []. split; [done|]. split; [set_solver|]. intros L HL _ x y Hx Hy.
    destruct comps as [|c [|]]; cbn in H1; try lia. apply Hcat in Hx, Hy. cbn in Hx, Hy.
    rewrite app_nil_r in Hx, Hy. apply (Hin L HL c); [left|done..].
  - destruct comps as [|first others].
    { exists []. split; [done|]. split; [set_solver|]. intros L _ _ x y Hx. by apply Hcat, elem_of_nil in Hx. }
    destruct (headOf_spec first) as (h & Hh & Hhin).
    { eapply component_nonempty; [done|left]. }
    destruct (exec_map_headOf others) as (hs & Hhs & HF).
    { intros c Hc. eapply component_nonempty; [done|by right]. }
    rewrite Hh. cbn [mbind exec_bind]. rewrite Hhs. cbn [mbind exec_bind].
    eexists. split; [done|]. split.
    + intros l (t & -> & Ht)%list_elem_of_fmap. cbn. rewrite <- !Hcat. cbn. rewrite !elem_of_app.
      split; [auto|]. right. apply elem_of_concat.
      apply list_elem_of_lookup in Ht as [i Hi].
      destruct (Forall2_lookup_r _ _ _ _ _ HF Hi) as (c & Hc & Htc). exists c.
      split; [by eapply list_elem_of_lookup_2|done].
    + intros L HL Hadd.
      assert (forall x, x ∈ group -> connected L h x) as Hhub.
      { intros x Hx. apply Hcat in Hx. cbn in Hx. apply elem_of_app in Hx as [Hx|Hx].
        - apply (Hin L HL first); [left|done..].
        - eapply hub_connects; [exact HF| | |done].
          + intros c y z Hc. apply (Hin L HL). by right.
          + intros t Ht. apply Hadd. by apply (list_elem_of_fmap_2 (mkLink h)). }
      intros x y Hx Hy. eapply connected_trans; [apply connected_sym|]; by apply Hhub.
Qed.

(** The order of [bySize]: larger components first. *)
#[export] Instance bySize_consistent : ConsistentOn bySize (fun _ => True).
Proof.
  unfold bySize. split.
  - intros x y _ _. by rewrite Nat.compare_antisym.
  - intros x y z _ _ _ H1 H2. unfold cle in *. rewrite !Nat.compare_ngt_iff in *. lia.
Qed.

(** The component chosen for the split is a largest one. *)
Lemma largest_found comps g :
  List.find (fun group => 4 <=? length group) (arraySort bySize comps) = Some g ->
  g ∈ comps /\ 4 <= length g /\ forall c, c ∈ comps -> length c <= length g.
Proof.
  intros Hfind. pose proof (find_Some_iff _ _ _ Hfind) as [Hin Hlen%Nat.leb_le].
  split_and!; [by apply (arraySort_elem bySize)|done|]. intros c Hc.
  apply (arraySort_elem bySize) in Hc.
  assert (StronglySorted (cle bySize) (arraySort bySize comps)) as Hs
    by (apply (arraySort_sorted _ (P := fun _ => True)), Forall_true; done).
  destruct (arraySort bySize comps) as [|f rest]; [by apply elem_of_nil in Hc|].
  inversion Hs as [|? ? _ Hall]; subst. rewrite Forall_forall in Hall.
  assert (forall d, d ∈ f :: rest -> length d <= length f) as Hf.
  { intros d [->|Hd]%elem_of_cons; [done|]. specialize (Hall d Hd).
    unfold cle, bySize in Hall. by apply Nat.compare_le_iff in Hall. }
  cbn [List.find] in Hfind. destruct (Nat.leb_spec 4 (length f)).
  - simplify_eq. auto.
  - specialize (Hf g Hin). lia.
Qed.

(** The connection relation after the group [s1 ++ s2] is cut in two. *)
Definition splitConnected (ls : list DashboardSplitsLink) (s1 s2 : list string) (a b : string) : Prop :=
  connected ls a b /\ (a ∉ s1 ++ s2 \/ (a ∈ s1 /\ b ∈ s1) \/ (a ∈ s2 /\ b ∈ s2)).

Section SplitProof.
Context (ls : list DashboardSplitsLink) (s1 s2 : list string).
Context (add1 add2 : list DashboardSplitsLink).
Context (Hnd : NoDup (s1 ++ s2)) (Hclass : forall a b, connected ls a b -> a ∈ s1 ++ s2 -> b ∈ s1 ++ s2).
Context (Hgroup : forall a b, a ∈ s1 ++ s2 -> b ∈ s1 ++ s2 -> connected ls a b).
Context (H1 : Reconnects ls s1 add1) (H2 : Reconnects ls s2 add2).

Let L := List.filter (keepLink (s1 ++ s2) s1 s2) ls ++ add1 ++ add2.

Lemma keepLink_true l :
  keepLink (s1 ++ s2) s1 s2 l = true <->
  ~ (source l ∈ s1 ++ s2 /\ target l ∈ s1 ++ s2) \/
  (source l ∈ s1 /\ target l ∈ s1) \/ (source l ∈ s2 /\ target l ∈ s2).
Proof.
  unfold keepLink. destruct (includes (s1 ++ s2) (source l) && includes (s1 ++ s2) (target l)) eqn:E.
  - rewrite orb_true_iff, !andb_true_iff, !includes_true in *. naive_solver.
  - apply andb_false_iff in E. rewrite !includes_false in E. naive_solver.
Qed.

Lemma split_step a b : linked L a b -> splitConnected ls s1 s2 a b.
Proof.
  assert (forall x y, x ∈ s1 -> y ∈ s1 -> splitConnected ls s1 s2 x y) as Hs1.
  { intros x y ??. split; [apply Hgroup; set_solver|auto]. }
  assert (forall x y, x ∈ s2 -> y ∈ s2 -> splitConnected ls s1 s2 x y) as Hs2.
  { intros x y ??. split; [apply Hgroup; set_solver|auto]. }
  intros (l & Hl & Hends). unfold L in Hl. rewrite !elem_of_app in Hl. destruct Hl as [Hl|[Hl|Hl]].
  - apply elem_of_list_filter in Hl as [Hl Hkeep%keepLink_true].
    assert (linked ls a b) as Hab by (exists l; done).
    destruct (decide (a ∈ s1 ++ s2)) as [Ha|Ha]; [|split; [by apply rtc_once|auto]].
    assert (b ∈ s1 ++ s2) as Hb by (eapply Hclass; [by apply rtc_once|done]).
    destruct Hkeep as [Hno|[[??]|[??]]]; [destruct Hno; naive_solver|naive_solver..].
  - destruct (proj1 H1 l Hl). naive_solver.
  - destruct (proj1 H2 l Hl). naive_solver.
Qed.

Lemma splitConnected_trans a b c :
  splitConnected ls s1 s2 a b -> splitConnected ls s1 s2 b c -> splitConnected ls s1 s2 a c.
Proof.
  intros [Hab Ca] [Hbc Cb]. split; [by eapply connected_trans|].
  apply NoDup_app in Hnd as (_ & Hdisj & _). rewrite elem_of_app in *.
  assert (b ∉ s1 ++ s2 -> a ∉ s1 ++ s2) as Hback by (intros Hb Ha; by apply Hb, (Hclass a)).
  rewrite !elem_of_app in Hback. naive_solver.
Qed.

Lemma split_connected a b : connected L a b <-> splitConnected ls s1 s2 a b.
Proof.
  split.
  - induction 1 as [a|a c b Hac _ IH]; [|by eapply splitConnected_trans; [apply split_step|]].
    split; [reflexivity|]. destruct (decide (a ∈ s1 ++ s2)) as [Ha|]; [|auto].
    apply elem_of_app in Ha as [|]; auto.
  - intros [Hab [Ha|[[Ha Hb]|[Ha Hb]]]].
    + induction Hab as [|a c b Hac _ IH]; [reflexivity|].
      assert (c ∉ s1 ++ s2) as Hc.
      { intros Hc. apply Ha. eapply Hclass; [|exact Hc]. by apply rtc_once, linked_sym. }
      eapply rtc_l; [|by apply IH]. destruct Hac as (l & Hl & Hends). exists l. split; [|done].
      unfold L. apply elem_of_app. left. apply elem_of_list_filter. split; [done|].
      apply keepLink_true. left. naive_solver.
    + apply (proj2 H1); try done; intros l Hl; unfold L; rewrite !elem_of_app; [|auto].
      intros ??. left. apply elem_of_list_filter. split; [done|]. apply keepLink_true. auto.
    + apply (proj2 H2); try done; intros l Hl; unfold L; rewrite !elem_of_app; [|auto].
      intros ??. left. apply elem_of_list_filter. split; [done|]. apply keepLink_true. auto.
Qed.

End SplitProof.

(** Splitting needs a component of at least four peers.  It takes a largest
    component, cuts it into two halves (the first of half the size, rounded
    down), and afterwards two peers are connected exactly when they were
    connected and do not fall into different halves: each half stays
    connected, every other component is untouched.  Peers never change, and
    without a component of four the links do not change either. *)
Theorem splitNodes_splits_largest data :
  linksKnown data ->
  exists comps ls',
    identifyDisconnectedComponents data = Ret comps /\
    splitNodes (Some data) = Ret (Some (mkSplits (splitPeers data) ls')) /\
    linksKnown (mkSplits (splitPeers data) ls') /\
    (((forall c, c ∈ comps -> length c < 4) /\ ls' = splitLinks data) \/
     exists s1 s2, s1 ++ s2 ∈ comps /\ 4 <= length (s1 ++ s2) /\
       (forall c, c ∈ comps -> length c <= length (s1 ++ s2)) /\
       length s1 = length (s1 ++ s2) / 2 /\
       forall a b, connected ls' a b <-> splitConnected (splitLinks data) s1 s2 a b).
Proof.
  intros Hk. destruct (identify_spec data Hk) as (V & comps & Heq & HC & HV). exists comps.
  unfold splitNodes. rewrite Heq. cbn [mbind exec_bind].
  destruct (List.find _ _) as [g|] eqn:Hfind.
  2:{ exists (splitLinks data). destruct data as [ps ls]. split_and!; try done. left. split; [|done].
      intros c Hc. apply (find_None_iff _ _) with (x := c) in Hfind; [by apply Nat.leb_gt in Hfind|].
      by apply arraySort_elem. }
  destruct (largest_found _ _ Hfind) as (Hg & Hlen & Hmax). unfold sliceTo, sliceFrom.
  set (s1 := take (length g / 2) g). set (s2 := drop (length g / 2) g).
  assert (g = s1 ++ s2) as Hgs by (symmetry; apply take_drop).
  destruct (ensureGroupIsConnected_spec data s1) as (add1 & -> & HR1).
  destruct (ensureGroupIsConnected_spec data s2) as (add2 & -> & HR2). cbn [mbind exec_bind].
  destruct (comps_class _ _ _ HC g Hg) as (r & Hr & Hrg).
  assert (forall x, x ∈ g -> x ∈ (address <$> splitPeers data)) as Hga.
  { intros x Hx. apply HV, HC, elem_of_concat. eauto. }
  eexists. split; [done|]. split; [done|]. split.
  - intros l. cbn. rewrite !elem_of_app. intros [Hl|[Hl|Hl]].
    + apply elem_of_list_filter in Hl as [Hl _]. by apply Hk.
    + destruct (proj1 HR1 l Hl). split; apply Hga; rewrite Hgs, elem_of_app; auto.
    + destruct (proj1 HR2 l Hl). split; apply Hga; rewrite Hgs, elem_of_app; auto.
  - right. exists s1, s2. rewrite <- Hgs. split_and!; try done.
    { unfold s1. rewrite length_take. pose proof (Nat.Div0.div_le_mono (length g) (length g * 2) 2 ltac:(lia)).
      rewrite Nat.div_mul in H by done. lia. }
    intros a b. rewrite Hgs. apply split_connected; try done; rewrite <- Hgs.
    + pose proof (comps_NoDup _ _ _ HC) as Hn. apply list_elem_of_split in Hg as (l1 & l2 & ->).
      rewrite concat_app in Hn. cbn in Hn. apply NoDup_app in Hn as (_ & _ & Hn).
      by apply NoDup_app in Hn as (Hn & _ & _).
    + intros x y Hxy Hx. rewrite Hrg in *. by eapply connected_trans.
    + intros x y Hx Hy. by eapply component_connected.
Qed.

(** ** The generated network *)

Lemma connectionKey_sym a b : connectionKey a b = connectionKey b a.
Proof.
  unfold connectionKey. rewrite (String.compare_antisym b a).
  destruct (String.compare a b) eqn:E; cbn; [|done..].
  by apply String.compare_eq_iff in E as ->.
Qed.

Definition linkKey (l : DashboardSplitsLink) : string := connectionKey (source l) (target l).

(** The two links join the same two addresses, in either direction. *)
Definition sameEnds (l1 l2 : DashboardSplitsLink) : Prop :=
  (source l1 = source l2 /\ target l1 = target l2) \/ (source l1 = target l2 /\ target l1 = source l2).

Lemma sameEnds_key l1 l2 : sameEnds l1 l2 -> linkKey l1 = linkKey l2.
Proof.
  unfold linkKey. intros [[-> ->]|[-> ->]]; [done|]. apply connectionKey_sym.
Qed.

Section Generate.
Context (random : nat -> Q) (Hrandom : forall i, (0 <= random i)%Q /\ (random i < 1)%Q).

Section Invariant.
Context (ps : list DashboardSplitsPeer).

Record GenerationInv (g : Generation) : Prop := {
  gen_keys : connectionSet g = linkKey <$> genLinks g;
  gen_NoDup : NoDup (connectionSet g);
  gen_known : linksKnown (mkSplits ps (genLinks g));
  gen_noself : forall l, l ∈ genLinks g -> source l <> target l
}.

Lemma GenerationInv_used g n :
  GenerationInv g -> GenerationInv (mkGen n (genLinks g) (connectionSet g)).
Proof. by intros []. Qed.

Lemma GenerationInv_add g p q :
  GenerationInv g -> p ∈ ps -> q ∈ ps -> address q <> address p ->
  connectionKey (address p) (address q) ∉ connectionSet g ->
  GenerationInv (mkGen (used g) (genLinks g ++ [mkLink (address p) (address q)])
    (connectionSet g ++ [connectionKey (address p) (address q)])).
Proof.
  intros [G1 G2 G3 G4] Hp Hq Hne Hkey. split; cbn.
  - by rewrite fmap_app, G1.
  - apply NoDup_app. split_and!; [done|set_solver|apply NoDup_singleton].
  - intros l [Hl| ->%list_elem_of_singleton]%elem_of_app; [by apply G3|]. cbn.
    split; by apply list_elem_of_fmap_2.
  - intros l [Hl| ->%list_elem_of_singleton]%elem_of_app; [auto|]. cbn. congruence.
Qed.

Lemma connectPeer_spec p attempts : forall wanted g,
  p ∈ ps -> GenerationInv g ->
  exists g', connectPeer random ps (length ps) attempts wanted p g = Ret g' /\ GenerationInv g' /\
    length (genLinks g') <= length (genLinks g) + wanted.
Proof.
  induction attempts as [|attempts IH]; intros wanted g Hp Hg; cbn [connectPeer].
  { exists g. split_and!; [done|done|lia]. }
  destruct wanted as [|wanted]; [exists g; split_and!; [done|done|lia]|].
  destruct (lookup_lt_is_Some_2 ps (randomBelow random (used g) (length ps))) as [q Hq].
  { apply randomBelow_lt; [done|]. destruct ps; [by apply elem_of_nil in Hp|cbn; lia]. }
  rewrite Hq. case_bool_decide as Hself.
  { destruct (IH (S wanted) _ Hp (GenerationInv_used g (S (used g)) Hg)) as (g' & ? & ? & ?). eauto. }
  cbn [connectionSet genLinks used].
  destruct (includes (connectionSet g) _) eqn:Hin; js_simpl.
  { destruct (IH (S wanted) _ Hp (GenerationInv_used g (S (used g)) Hg)) as (g' & ? & ? & ?). eauto. }
  destruct (IH wanted _ Hp (GenerationInv_add _ p q (GenerationInv_used g (S (used g)) Hg)
    Hp (list_elem_of_lookup_2 _ _ _ Hq) Hself Hin)) as (g' & Heq & Hg' & Hlen).
  exists g'. split_and!; [done|done|]. cbn in Hlen. rewrite length_app in Hlen. cbn in Hlen. lia.
Qed.

Lemma connectAll_spec k todo : forall g,
  (forall p, p ∈ todo -> p ∈ ps) -> GenerationInv g ->
  exists g', connectAll random ps (length ps) k todo g = Ret g' /\ GenerationInv g' /\
    length (genLinks g') <= length (genLinks g) + length todo * k.
Proof.
  induction todo as [|p todo IH]; intros g Hsub Hg; cbn [connectAll].
  { exists g. split_and!; [done|done|lia]. }
  destruct (connectPeer_spec p (length ps * 2) k g) as (g1 & -> & Hg1 & Hl1); [set_solver|done|].
  cbn [mbind exec_bind].
  destruct (IH g1) as (g2 & -> & Hg2 & Hl2); [set_solver|done|].
  exists g2. split_and!; [done|done|]. cbn. lia.
Qed.

End Invariant.

(** The generated network has the requested number of peers (the first one
    the web node), links peers of the network only, never a peer to its own
    address, never the same two addresses twice in either direction, and has
    at most the requested number of links per peer. *)
Theorem generated_network_simple i peerCount connectionsPerPeer :
  exists data, generatePeerNetwork random i peerCount connectionsPerPeer = Ret data /\
    length (splitPeers data) = peerCount /\
    (0 < peerCount -> exists p, head (splitPeers data) = Some p /\ node p = Some "Webnode") /\
    linksKnown data /\
    (forall l, l ∈ splitLinks data -> source l <> target l) /\
    (forall j k l1 l2, splitLinks data !! j = Some l1 -> splitLinks data !! k = Some l2 ->
      sameEnds l1 l2 -> j = k) /\
    length (splitLinks data) <= peerCount * connectionsPerPeer.
Proof.
  unfold generatePeerNetwork. set (ps := generatePeers random i peerCount).
  assert (length ps = peerCount) as Hlen.
  { unfold ps, generatePeers. by rewrite length_fmap, length_seq. }
  destruct (connectAll_spec ps connectionsPerPeer ps (mkGen (i + 4 * peerCount) [] []))
    as (g & Heq & [G1 G2 G3 G4] & Hl); [done| |].
  { split; cbn; [done|constructor|intros l Hl|intros l Hl]; by apply elem_of_nil in Hl. }
  rewrite Hlen in Heq. rewrite Heq. cbn [mbind exec_bind]. eexists. split; [done|].
  split_and!; try done.
  - destruct peerCount as [|n]; [lia|]. intros _. eexists. split; [done|]. done.
  - intros j k l1 l2 Hj Hk Hsame. cbn in Hj, Hk. rewrite G1 in G2.
    apply (NoDup_lookup (linkKey <$> genLinks g) j k (linkKey l1) G2); rewrite list_lookup_fmap;
      [by rewrite Hj|]. rewrite Hk. cbn. by rewrite (sameEnds_key l1 l2).
  - cbn in Hl |- *. lia.
Qed.

End Generate.

(** A random source that always answers a half. *)
Definition half (_ : nat) : Q := (1 # 2).

Lemma half_range i : (0 <= half i)%Q /\ (half i < 1)%Q.
Proof. unfold half. split; lra. Qed.

Definition demoNetwork : DashboardSplits :=
  mkSplits (demoPeer <$> ["a"; "b"; "c"; "d"; "e"]) [mkLink "a" "b"; mkLink "b" "c"; mkLink "d" "a"].

Lemma demoNetwork_known : linksKnown demoNetwork.
Proof. intros l Hl. cbn in *. set_solver. Qed.

Lemma mergeNodes_connects_witness :
  exists comps added, identifyDisconnectedComponents demoNetwork = Ret comps /\
    mergeNodes half 0 (Some demoNetwork) =
      Ret (Some (mkSplits (splitPeers demoNetwork) (splitLinks demoNetwork ++ added))) /\
    length added = length comps - 1.
Proof.
  destruct (mergeNodes_connects half half_range 0 demoNetwork demoNetwork_known)
    as (comps & added & H1 & H2 & H3 & _).
  exists comps, added. split; [exact H1|split; [exact H2|exact H3]].
Defined.

Lemma splitNodes_splits_largest_witness :
  identifyDisconnectedComponents demoNetwork = Ret [["a"; "b"; "c"; "d"]; ["e"]] /\
  exists ls', splitNodes (Some demoNetwork) = Ret (Some (mkSplits (splitPeers demoNetwork) ls')).
Proof.
  split; [vm_compute; reflexivity|].
  destruct (splitNodes_splits_largest demoNetwork demoNetwork_known) as (comps & ls' & _ & H2 & _).
  exists ls'. exact H2.
Defined.

Lemma generated_network_simple_witness :
  exists data, generatePeerNetwork half 0 3 2 = Ret data /\ length (splitPeers data) = 3.
Proof.
  destruct (generated_network_simple half half_range 0 3 2) as (data & H1 & H2 & _).
  exists data. split; [exact H1|exact H2].
Defined.

End SplitsService.
