(* ===== verification/SplitsPage.v ===== *)
(** The network splits page as a whole: the effects of
    frontend/src/app/features/network/splits/dashboard-splits.effects.ts between
    the reducer of DashboardSplits.v and the service of SplitsService.v.  What the
    page shows follows the data of the service, and a split or a merge that the
    user asks for ends in the sets it promises. *)

From S2P Require Import Prelude JsRuntime TableSort Graph DashboardSplits SplitsService.
Import DashboardSplits.Splits SplitsService.SplitsService.

Module SplitsPage.

(** * The page *)

(** The slice of the store, the data the service keeps, whether an answer of
    [getPeers] is awaited, and the number of errors that were added. *)
Record World := mkWorld {
  store : DashboardSplitsState;
  currentData : option DashboardSplits;
  awaiting : bool;
  errors : nat
}.

#[export] Instance World_copy : RecordCopy World := {|
  record_copy w := mkWorld (store w) (currentData w) (awaiting w) (errors w);
  record_copy_id := fun '(mkWorld _ _ _ _) => eq_refl |}.

Section Page.
Context {LC : LocaleCompare} {DF : DateFormat} (mobile : bool).

Definition reduce (now : Q) (w : World) (a : DashboardSplitsActions) : exec World :=
  s ← topologyReducer mobile now (store w) a; Ret (w <| store := s |>).

(** [getSplits$]: a new request replaces the one awaited. *)
Definition getSplits (a : DashboardSplitsActions) (w : World) : World :=
  match a with
  | DashboardSplitsGetSplits | DashboardSplitsSplitNodesSuccess | DashboardSplitsMergeNodesSuccess =>
      w <| awaiting := true |>
  | DashboardSplitsClose => w <| awaiting := false |>
  | _ => w
  end.

(** [tap] with an operation of the service; an error it throws is added and does
    not end the effect. *)
Definition tapService (operation : option DashboardSplits -> exec (option DashboardSplits)) (w : World) : World :=
  match operation (currentData w) with
  | Ret d => w <| currentData := d |>
  | Throw _ => w <| errors := S (errors w) |>
  end.

(** An action with the success action its effect dispatches.  [random] are the
    random numbers the operation draws. *)
Definition dispatch (random : nat -> Q) (now : Q) (w : World) (a : DashboardSplitsActions) : exec World :=
  w ← reduce now w a;
  let w := getSplits a w in
  match a with
  | DashboardSplitsSplitNodes =>
      w ← reduce now (tapService splitNodes w) DashboardSplitsSplitNodesSuccess;
      Ret (getSplits DashboardSplitsSplitNodesSuccess w)
  | DashboardSplitsMergeNodes =>
      w ← reduce now (tapService (mergeNodes random 0) w) DashboardSplitsMergeNodesSuccess;
      Ret (getSplits DashboardSplitsMergeNodesSuccess w)
  | _ => Ret w
  end.

(** The answer of [getPeers], a tenth of a second after the request. *)
Definition answer (random : nat -> Q) (now : Q) (w : World) : exec World :=
  if awaiting w then
    match getPeers random 0 (currentData w) with
    | Ret d => reduce now (w <| currentData := Some d |> <| awaiting := false |>) (DashboardSplitsGetSplitsSuccess d)
    | Throw _ =>
        reduce now (w <| awaiting := false |> <| errors := S (errors w) |>)
          (DashboardSplitsGetSplitsSuccess (mkSplits [] []))
    end
  else Ret w.

Inductive Event :=
| Dispatched (random : nat -> Q) (now : Q) (a : DashboardSplitsActions)
| Answered (random : nat -> Q) (now : Q).

Definition step (w : World) (e : Event) : exec World :=
  match e with
  | Dispatched random now a => dispatch random now w a
  | Answered random now => answer random now w
  end.

(** The page as it is opened, with the data of an earlier visit if there was one. *)
Definition opened (d : option DashboardSplits) : World := mkWorld (initialState mobile) d false 0.

(** * What can happen *)

Definition isRandom (random : nat -> Q) : Prop := forall i, (0 <= random i)%Q /\ (random i < 1)%Q.

(** Components dispatch every action but the successes. *)
Definition ofComponents (a : DashboardSplitsActions) : bool :=
  match a with
  | DashboardSplitsGetSplitsSuccess _ | DashboardSplitsSplitNodesSuccess | DashboardSplitsMergeNodesSuccess => false
  | _ => true
  end.

Definition allowed (w : World) (e : Event) : Prop :=
  match e with
  | Dispatched random _ a => isRandom random /\ ofComponents a = true
  | Answered random _ => isRandom random
  end.

(** The addresses of the peers the sets can show: of peers with one address, which
    the random addresses of a network may give, the first. *)
Definition shownAddresses (ps : list DashboardSplitsPeer) : list string := address <$> removeDuplicatedPeers ps.

Lemma shown_withConnections ls ps : shownAddresses (withConnections ls <$> ps) = shownAddresses ps.
Proof. unfold shownAddresses. rewrite unique_fmap by done. by rewrite <- list_fmap_compose. Qed.

Lemma shown_distinct ps : NoDup (address <$> ps) -> shownAddresses ps = address <$> ps.
Proof. intros Hnd. unfold shownAddresses. by rewrite unique_id. Qed.

Lemma shown_NoDup ps : NoDup (shownAddresses ps).
Proof. apply unique_NoDup. Qed.

(** The store shows [d]. *)
Definition shows (s : DashboardSplitsState) (d : DashboardSplits) : Prop :=
  links s = splitLinks d /\ peers s = withConnections (splitLinks d) <$> splitPeers d.

Definition pageInv (w : World) : Prop :=
  (forall d, currentData w = Some d -> linksKnown d) /\
  (fetching (store w) = false -> exists d, currentData w = Some d /\ shows (store w) d) /\
  SplitsInv (store w).

(** ** Loading *)

Lemma good_not_dangling d :
  linksKnown d -> ~ danglingLink (withConnections (splitLinks d) <$> splitPeers d) (splitLinks d).
Proof.
  intros Hk (a & b & (l & Hl & Hends) & Ha & Hb). rewrite withConnections_addresses in Hb.
  destruct (Hk l Hl). naive_solver.
Qed.

(** A network with known links is loaded, and shown in its components. *)
Lemma load_good now s d :
  linksKnown d ->
  exists s', topologyReducer mobile now s (DashboardSplitsGetSplitsSuccess d) = Ret s'
    /\ fetching s' = false /\ shows s' d /\ SplitsInv s'.
Proof.
  intros Hk. pose proof (splitThePeers_spec (withConnections (splitLinks d) <$> splitPeers d) (splitLinks d)) as Hspec.
  cbn [topologyReducer].
  destruct (splitThePeers _ _) as [gs|e]; [|by destruct Hspec as [_ []%(good_not_dangling d)]].
  destruct Hspec as [_ HG]. eexists. split; [reflexivity|]. split_and!; [done|done|].
  split; [by apply GroupsOf_sort|]. cbn. apply Forall_fmap, Forall_true. done.
Qed.

Lemma getPeers_good random d :
  isRandom random -> (forall e, d = Some e -> linksKnown e) ->
  exists d', getPeers random 0 d = Ret d' /\ linksKnown d'.
Proof.
  intros Hr Hd. destruct d as [d|]; [by exists d; split; [|apply Hd]|]. cbn [getPeers].
  destruct (generated_network_simple random Hr 0 100 50) as (d & Hg & _ & _ & Hk & _).
  by exists d.
Qed.

Lemma answer_inv random now w :
  pageInv w -> allowed w (Answered random now) ->
  exists w', answer random now w = Ret w' /\ pageInv w' /\
    (awaiting w = true -> fetching (store w') = false /\ (forall d, currentData w = Some d -> currentData w' = Some d)).
Proof.
  intros (Hd & Hf & Hs) Hr. unfold answer. destruct (awaiting w); [|by exists w].
  destruct (getPeers_good random (currentData w) Hr Hd) as (d & Hg & Hgood). rewrite Hg.
  unfold reduce. cbn [store]. destruct (load_good now (store w) d Hgood) as (s & Hl & Hfs & Hshow & Hinv).
  change (store (w <| currentData := Some d |> <| awaiting := false |>)) with (store w).
  rewrite Hl. cbn [mbind exec_bind]. eexists. split; [reflexivity|]. split.
  - split_and!; [by intros e [= <-]|intros _; by exists d|done].
  - intros _. split; [done|]. intros e He. rewrite He in Hg. cbn in Hg. cbn. congruence.
Qed.

(** ** Splitting and merging *)

(** What the user is shown, by addresses. *)
Definition shownSets (w : World) : list (list string) := setAddresses <$> sets (store w).

Lemma shown_components w d :
  SplitsInv (store w) -> shows (store w) d ->
  IsComponents (splitLinks d) (shownAddresses (splitPeers d)) (shownSets w).
Proof.
  intros ([_ HI] & _) [Hl Hp]. rewrite Hl, Hp in HI. rewrite <- (shown_withConnections (splitLinks d)). exact HI.
Qed.

(** An operation of the service: it throws before the first load, and on good
    data changes the links only and keeps it good. *)
Definition keepsGood (operation : option DashboardSplits -> exec (option DashboardSplits)) : Prop :=
  (exists e, operation None = Throw e) /\
  forall d, linksKnown d -> exists ls, operation (Some d) = Ret (Some (mkSplits (splitPeers d) ls))
    /\ linksKnown (mkSplits (splitPeers d) ls).

Lemma splitNodes_good : keepsGood splitNodes.
Proof.
  split; [by eexists|]. intros d Hk.
  destruct (splitNodes_splits_largest d Hk) as (_ & ls & _ & Hs & Hk' & _). by exists ls.
Qed.

Lemma mergeNodes_good random : isRandom random -> keepsGood (mergeNodes random 0).
Proof.
  intros Hr. split; [by eexists|]. intros d Hk.
  destruct (mergeNodes_connects random Hr 0 d Hk) as (_ & added & _ & Hm & _ & Hk' & _).
  by exists (splitLinks d ++ added).
Qed.

Lemma tapService_inv operation w :
  keepsGood operation -> pageInv w -> fetching (store w) = true -> pageInv (tapService operation w).
Proof.
  intros [[e Hnone] Hop] (Hd & _ & Hs) Hfetch. unfold tapService.
  destruct (currentData w) as [d|] eqn:Ed.
  - destruct (Hop d (Hd d eq_refl)) as (ls & -> & Hgood).
    split_and!; [by intros ? [= <-]|cbn; congruence|done].
  - rewrite Hnone. split_and!; [by cbn; rewrite Ed|cbn; congruence|done].
Qed.

Lemma reduce_inv now w a :
  pageInv w -> ofComponents a = true ->
  exists w', reduce now w a = Ret w' /\ pageInv w' /\ currentData w' = currentData w.
Proof.
  intros (Hd & Hf & Hs) Ha.
  destruct (topologyReducer mobile now (store w) a) as [s|e] eqn:E; [|by destruct a].
  unfold reduce. rewrite E. eexists. split; [reflexivity|]. split; [|done].
  split_and!; [done| |eapply (SplitsInv_step mobile (store w) (now, a)); [done|exact E]].
  destruct a; cbn in E; try done; injection E as <-; done.
Qed.

Lemma getSplits_inv a w : pageInv w -> pageInv (getSplits a w).
Proof. intros H. by destruct a. Qed.

(** The two actions with an operation of the service. *)
Definition operationOf (random : nat -> Q) (a : DashboardSplitsActions)
  : option (option DashboardSplits -> exec (option DashboardSplits)) :=
  match a with
  | DashboardSplitsSplitNodes => Some splitNodes
  | DashboardSplitsMergeNodes => Some (mergeNodes random 0)
  | _ => None
  end.

Lemma operation_good random a operation :
  isRandom random -> operationOf random a = Some operation -> keepsGood operation.
Proof.
  intros Hr H. destruct a; try done; injection H as <-; [apply splitNodes_good|by apply mergeNodes_good].
Qed.

Lemma reduce_success now w a :
  a = DashboardSplitsSplitNodesSuccess \/ a = DashboardSplitsMergeNodesSuccess -> reduce now w a = Ret w.
Proof. intros [-> | ->]; by destruct w. Qed.

(** After such an action the data are those of the operation and an answer is
    awaited. *)
Lemma dispatch_operation random now w a operation :
  operationOf random a = Some operation -> pageInv w -> isRandom random ->
  exists w', dispatch random now w a = Ret w' /\ pageInv w' /\ awaiting w' = true /\
    (forall d, operation (currentData w) = Ret d -> currentData w' = d).
Proof.
  intros Hop Hw Hr. pose proof (operation_good random a operation Hr Hop) as Hgood.
  assert (ofComponents a = true) as Ha by by destruct a.
  destruct (reduce_inv now w a Hw Ha) as (w1 & H1 & Hinv1 & Hd1).
  assert (fetching (store w1) = true) as Hf1.
  { destruct a; try done; unfold reduce in H1; cbn in H1; by injection H1 as <-. }
  exists ((tapService operation w1) <| awaiting := true |>). split_and!.
  - unfold dispatch. rewrite H1. cbn [mbind exec_bind].
    destruct a; try done; injection Hop as <-; cbn [getSplits];
      [by rewrite (reduce_success _ _ _ (or_introl eq_refl))|by rewrite (reduce_success _ _ _ (or_intror eq_refl))].
  - by apply tapService_inv.
  - done.
  - intros d Hd. unfold tapService. rewrite Hd1, Hd. done.
Qed.

Lemma dispatch_pageInv random now w a :
  pageInv w -> allowed w (Dispatched random now a) ->
  exists w', dispatch random now w a = Ret w' /\ pageInv w'.
Proof.
  intros Hw [Hr Ha]. destruct (operationOf random a) as [operation|] eqn:Hop.
  - destruct (dispatch_operation random now w a operation Hop Hw Hr) as (w' & H & Hinv & _). by exists w'.
  - destruct (reduce_inv now w a Hw Ha) as (w1 & H1 & Hinv1 & _).
    exists (getSplits a w1). split; [|by apply getSplits_inv]. unfold dispatch. rewrite H1. by destruct a.
Qed.

Lemma step_pageInv w e : pageInv w -> allowed w e -> exists w', step w e = Ret w' /\ pageInv w'.
Proof.
  intros Hw He. destruct e as [random now a|random now]; [by apply dispatch_pageInv|].
  destruct (answer_inv random now w Hw He) as (w' & H & Hinv & _). by exists w'.
Qed.

Section Opened.
Context (d0 : option DashboardSplits) (Hd0 : forall d, d0 = Some d -> linksKnown d).
Notation reachable := (reachable_exec step (opened d0) allowed).

Lemma reachable_pageInv w : reachable w -> pageInv w.
Proof.
  revert w. apply reachable_exec_inv.
  - split_and!; [done|done|apply SplitsInv_init].
  - intros w e w' Hw He H. destruct (step_pageInv w e Hw He) as (w2 & H2 & Hinv). congruence.
Qed.

(** An operation of the service and the answer after it. *)
Lemma operation_shown w d a operation random now random' now' :
  pageInv w -> currentData w = Some d -> operationOf random a = Some operation ->
  isRandom random -> isRandom random' ->
  exists w' d', runM step w [Dispatched random now a; Answered random' now'] = Ret w'
    /\ operation (Some d) = Ret (Some d') /\ splitPeers d' = splitPeers d
    /\ fetching (store w') = false /\ currentData w' = Some d'
    /\ IsComponents (splitLinks d') (shownAddresses (splitPeers d)) (shownSets w').
Proof.
  intros Hw Hd Hop Hr Hr'. pose proof Hw as [Hgood _]. specialize (Hgood d Hd).
  destruct (operation_good random a operation Hr Hop) as [_ Hkeeps]. destruct (Hkeeps d Hgood) as (ls & Hls & Hg').
  destruct (dispatch_operation random now w a operation Hop Hw Hr) as (w1 & H1 & Hinv1 & Hwait & Hdata).
  rewrite Hd in Hdata. specialize (Hdata _ Hls).
  destruct (answer_inv random' now' w1 Hinv1) as (w2 & H2 & Hinv2 & Hafter); [done|].
  destruct (Hafter Hwait) as [Hf Hkept]. specialize (Hkept _ Hdata).
  exists w2, (mkSplits (splitPeers d) ls). split_and!; try done.
  - cbn [runM step]. rewrite H1. cbn [mbind exec_bind]. by rewrite H2.
  - destruct Hinv2 as (_ & Hshow & Hinv). destruct (Hshow Hf) as (d' & Hd' & Hsh).
    rewrite Hkept in Hd'. injection Hd' as <-. by apply (shown_components w2 _ Hinv Hsh).
Qed.

Lemma reachable_current w :
  reachable w -> fetching (store w) = false ->
  exists d, currentData w = Some d /\ linksKnown d /\ shows (store w) d
    /\ IsComponents (splitLinks d) (shownAddresses (splitPeers d)) (shownSets w).
Proof.
  intros (Hd & Hshow & Hinv)%reachable_pageInv Hf. destruct (Hshow Hf) as (d & Hdata & Hsh).
  exists d. split_and!; [done|by apply Hd|done|by apply shown_components].
Qed.

(** What the service calls the components are the sets the page shows. *)
Lemma identified_shown w d comps :
  linksKnown d -> IsComponents (splitLinks d) (shownAddresses (splitPeers d)) (shownSets w) ->
  identifyDisconnectedComponents d = Ret comps ->
  IsComponents (splitLinks d) (shownAddresses (splitPeers d)) comps.
Proof.
  intros Hk HI Hid. destruct (identify_spec d Hk) as (V & comps' & Hid' & HC & HV).
  rewrite Hid in Hid'. injection Hid' as <-. eapply ComponentsOf_is; [done|apply shown_NoDup|].
  intros x. unfold shownAddresses. rewrite unique_addresses. apply HV.
Qed.

(** Cutting one component in two cuts one of the sets. *)
Lemma cut_sets ls ls' nodes A A' comps s1 s2 rest :
  NoDup nodes -> IsComponents ls nodes A -> IsComponents ls' nodes A' -> IsComponents ls nodes comps ->
  Permutation comps ((s1 ++ s2) :: rest) -> s1 <> [] -> s2 <> [] ->
  (forall a b, connected ls' a b <-> splitConnected ls s1 s2 a b) ->
  sameSets A ((s1 ++ s2) :: rest) /\ sameSets A' (s1 :: s2 :: rest).
Proof.
  intros Hnd HA HA' HC Hrest H1 H2 Hconn.
  assert (Permutation (concat ((s1 ++ s2) :: rest)) nodes) as Hcat
    by (rewrite <- (concat_Permutation _ _ Hrest); apply HC).
  assert (forall a b, together ((s1 ++ s2) :: rest) a b <-> a ∈ nodes /\ connected ls a b) as Htog.
  { intros a b. rewrite <- (together_perm _ _ _ _ Hrest). by apply IsComponents_together. }
  assert (forall c, c ∈ rest -> c <> []) as Hne.
  { intros c Hc. apply (is_nonempty _ _ _ HC). rewrite Hrest. by right. }
  split; eapply (IsComponents_same _ nodes); try eassumption.
  - intros c [->|Hc]%elem_of_cons; [|by apply Hne]. by destruct s1.
  - cbn in Hcat |- *. by rewrite app_assoc.
  - intros c. rewrite !elem_of_cons. intros [->|[->|Hc]]; auto.
  - intros a b. rewrite together_cut by (by rewrite Hcat). rewrite Htog, Hconn. unfold splitConnected. tauto.
Qed.

(** One set of the shown addresses. *)
Lemma merged_sets w random d d' :
  isRandom random -> linksKnown d -> splitPeers d <> [] -> mergeNodes random 0 (Some d) = Ret (Some d') ->
  IsComponents (splitLinks d') (shownAddresses (splitPeers d)) (shownSets w) ->
  sameSets (shownSets w) [shownAddresses (splitPeers d)].
Proof.
  intros Hr Hgood Hne Hmerge HI.
  destruct (mergeNodes_connects random Hr 0 d Hgood) as (comps & added & _ & Hmerge' & _ & Hk' & Hconn).
  rewrite Hmerge' in Hmerge. injection Hmerge as <-. cbn [splitLinks] in HI.
  assert (forall x, x ∈ shownAddresses (splitPeers d) -> exists p, x = address p /\ p ∈ splitPeers d) as Hin.
  { intros x Hx%(proj1 (unique_addresses _ _)). apply list_elem_of_fmap in Hx as (p & -> & Hp). by exists p. }
  eapply IsComponents_same; [apply shown_NoDup|exact HI|by cbn; rewrite app_nil_r| |].
  - intros c ->%list_elem_of_singleton E. destruct (splitPeers d) as [|p ps] eqn:Hps; [done|].
    assert (address p ∈ shownAddresses (p :: ps)) as Hp by (apply (proj2 (unique_addresses _ _)); by left).
    rewrite E in Hp. by apply elem_of_nil in Hp.
  - intros a b. split.
    + intros (c & ->%list_elem_of_singleton & Ha & Hb). split; [done|].
      apply Hin in Ha as (p & -> & Hp). apply Hin in Hb as (q & -> & Hq). by apply Hconn.
    + intros [Ha Hab]. exists (shownAddresses (splitPeers d)). split_and!; [by left|done|].
      destruct (proj2 (IsComponents_together _ _ _ a b HI)) as (c & Hc & _ & Hb); [done|].
      rewrite <- (is_partition _ _ _ HI). apply elem_of_concat. eauto.
Qed.

(** * The theorems *)

(** C7: the page never throws, whatever the user does, whatever is drawn and whenever
    the answers come, and whenever it is not fetching it shows the data of the
    service: its links, its peers and, as sets, its connected components, where of
    peers with the same address the first is shown, so all peers if their addresses
    are distinct. *)
Theorem splits_page_current w e :
  reachable w -> allowed w e ->
  exec_ok (step w e) = true /\
  (fetching (store w) = false -> exists d, currentData w = Some d /\ shows (store w) d
     /\ IsComponents (splitLinks d) (shownAddresses (splitPeers d)) (shownSets w)
     /\ (NoDup (address <$> splitPeers d) -> IsComponents (splitLinks d) (address <$> splitPeers d) (shownSets w))).
Proof.
  intros Hw He. split.
  - apply reachable_pageInv in Hw. destruct (step_pageInv w e Hw He) as (w' & -> & _). done.
  - intros Hf. destruct (reachable_current w Hw Hf) as (d & ? & _ & ? & HI). exists d. split_and!; try done.
    intros Hnd. by rewrite <- (shown_distinct _ Hnd).
Qed.

(** C1: a split that the user asks for ends, with the answer after it, in the same
    sets but for one: a largest set of at least four peers is shown as two, the
    first of half its size rounded down.  Without such a set nothing changes. *)
Theorem splits_page_split w random now random' now' :
  reachable w -> fetching (store w) = false -> isRandom random -> isRandom random' ->
  exists w', runM step w [Dispatched random now DashboardSplitsSplitNodes; Answered random' now'] = Ret w' /\
    fetching (store w') = false /\
    (((forall c, c ∈ shownSets w -> length c < 4) /\ sameSets (shownSets w') (shownSets w)) \/
     exists s1 s2 rest,
       sameSets (shownSets w) ((s1 ++ s2) :: rest) /\ sameSets (shownSets w') (s1 :: s2 :: rest) /\
       4 <= length (s1 ++ s2) /\ length s1 = length (s1 ++ s2) / 2 /\
       forall c, c ∈ shownSets w -> length c <= length (s1 ++ s2)).
Proof.
  intros Hw Hf Hr Hr'. destruct (reachable_current w Hw Hf) as (d & Hd & Hgood & _ & HI).
  destruct (operation_shown w d DashboardSplitsSplitNodes splitNodes random now random' now')
    as (w' & d' & Hrun & Hsplit & Hp & Hf' & _ & HI'); try done; [by apply reachable_pageInv|].
  exists w'. split_and!; [done|done|].
  destruct (splitNodes_splits_largest d Hgood) as (comps & ls & Hid & Hsplit' & _ & Hcases).
  rewrite Hsplit' in Hsplit. injection Hsplit as <-. cbn [splitLinks] in HI'.
  pose proof (identified_shown w d comps Hgood HI Hid) as HC. pose proof (shown_NoDup (splitPeers d)) as Hnd.
  assert (sameSets (shownSets w) comps) as Hsame.
  { apply (IsComponents_same (splitLinks d) (shownAddresses (splitPeers d))); try done; [apply HC..|].
    intros a b. by apply IsComponents_together. }
  assert (forall n, (forall c, c ∈ comps -> length c <= n) -> forall c, c ∈ shownSets w -> length c <= n) as Hsizes.
  { intros n Hn c Hc. destruct (sameSets_member _ _ _ Hsame Hc) as (c' & Hc' & ->). by apply Hn. }
  destruct Hcases as [[Hsmall ->]|(s1 & s2 & Hin & Hlen & Hmax & Hhalf & Hconn)].
  - left. split.
    + intros c Hc. enough (length c <= 3) by lia. apply (Hsizes 3); [|done]. intros c' Hc'. specialize (Hsmall c' Hc'). lia.
    + apply (IsComponents_same (splitLinks d) (shownAddresses (splitPeers d))); try done; [apply HI..|].
      intros a b. by apply IsComponents_together.
  - right. apply elem_of_Permutation in Hin as [rest Hrest]. exists s1, s2, rest.
    destruct (cut_sets (splitLinks d) ls (shownAddresses (splitPeers d)) (shownSets w) (shownSets w') comps s1 s2 rest)
      as [Hbefore Hafter]; try done.
    { intros ->. cbn [app] in Hhalf, Hlen. cbn [length] in Hhalf. symmetry in Hhalf. apply Nat.div_small_iff in Hhalf; lia. }
    { intros ->. rewrite app_nil_r in *. pose proof (Nat.div_lt (length s1) 2 ltac:(lia) ltac:(lia)). lia. }
    split_and!; try done. by apply Hsizes.
Qed.

(** C6: a merge that the user asks for ends, with the answer after it, in one set of
    all addresses: of the first peer of each, so of all peers if their addresses are
    distinct.  The random addresses of the service need not be distinct; a peer with
    the address of an earlier one is in no set. *)
Theorem splits_page_merge w random now random' now' :
  reachable w -> fetching (store w) = false -> peers (store w) <> [] -> isRandom random -> isRandom random' ->
  exists w', runM step w [Dispatched random now DashboardSplitsMergeNodes; Answered random' now'] = Ret w' /\
    fetching (store w') = false /\ sameSets (shownSets w') [shownAddresses (peers (store w))] /\
    (forall a, a ∈ shownAddresses (peers (store w)) <-> a ∈ (address <$> peers (store w))) /\
    (NoDup (address <$> peers (store w)) -> sameSets (shownSets w') [address <$> peers (store w)]).
Proof.
  intros Hw Hf Hne Hr Hr'. destruct (reachable_current w Hw Hf) as (d & Hd & Hgood & [_ Hpeers] & HI).
  destruct (operation_shown w d DashboardSplitsMergeNodes (mergeNodes random 0) random now random' now')
    as (w' & d' & Hrun & Hmerge & Hp & Hf' & _ & HI'); try done; [by apply reachable_pageInv|].
  assert (sameSets (shownSets w') [shownAddresses (peers (store w))]) as Hsets.
  { rewrite Hpeers, shown_withConnections. apply (merged_sets w' random d d'); try done.
    rewrite Hpeers in Hne. intros E. apply Hne. by rewrite E. }
  exists w'. split_and!; [done|done|done|intros a; apply unique_addresses|].
  intros Hnd. by rewrite <- (shown_distinct _ Hnd).
Qed.

End Opened.
End Page.

(** * A visit *)

#[local] Instance visitLocale : LocaleCompare := codeUnitCompare.
#[local] Instance visitDates : DateFormat := fun _ _ => "now".

Lemma demo_good d : Some demoNetwork = Some d -> linksKnown d.
Proof.
  intros [= <-]. apply demoNetwork_known.
Qed.

(** The page reopened with a network of an earlier visit, after its answer. *)
Definition visited : World :=
  match runM (step false) (opened false (Some demoNetwork))
    [Dispatched half 0 DashboardSplitsGetSplits; Answered half 0] with
  | Ret w => w
  | Throw _ => opened false None
  end.

Lemma visited_reachable : reachable_exec (step false) (opened false (Some demoNetwork)) allowed visited.
Proof.
  eapply reachable_exec_step with (a := Answered half 0);
    [eapply reachable_exec_step with (a := Dispatched half 0 DashboardSplitsGetSplits);
      [apply reachable_exec_init|split; [exact half_range|done]|vm_compute; reflexivity]
    |exact half_range|vm_compute; reflexivity].
Qed.

Lemma splits_page_current_witness :
  exists d, currentData visited = Some d /\ shows (store visited) d.
Proof.
  destruct (splits_page_current false (Some demoNetwork) demo_good visited (Answered half 0) visited_reachable)
    as [_ H].
  - exact half_range.
  - destruct H as (d & H1 & H2 & _); [vm_compute; reflexivity|]. exists d. split; [exact H1|exact H2].
Defined.

Lemma splits_page_split_witness :
  shownSets visited = [["a"; "b"; "d"; "c"]; ["e"]] /\
  exists w', runM (step false) visited [Dispatched half 0 DashboardSplitsSplitNodes; Answered half 0] = Ret w'
    /\ fetching (store w') = false.
Proof.
  split; [vm_compute; reflexivity|].
  destruct (splits_page_split false (Some demoNetwork) demo_good visited half 0 half 0 visited_reachable)
    as (w' & H1 & H2 & _); [vm_compute; reflexivity|exact half_range|exact half_range|].
  exists w'. split; [exact H1|exact H2].
Defined.

Lemma splits_page_merge_witness :
  exists w', runM (step false) visited [Dispatched half 0 DashboardSplitsMergeNodes; Answered half 0] = Ret w'
    /\ sameSets (shownSets w') [shownAddresses (peers (store visited))].
Proof.
  destruct (splits_page_merge false (Some demoNetwork) demo_good visited half 0 half 0 visited_reachable)
    as (w' & H1 & _ & H2 & _); [vm_compute; reflexivity|vm_compute; discriminate|exact half_range|exact half_range|].
  exists w'. split; [exact H1|exact H2].
Defined.

End SplitsPage.
