(* ===== verification/NodeDht.v ===== *)
(** Node DHT page (frontend/src/app/features/network/node-dht): the Kademlia
    routing table of the node, flattened into a list of peers with their XOR
    distance to this node. *)

From S2P Require Import Prelude JsRuntime.
From Stdlib Require Import Ascii.

Module NodeDht.

(** * Data *)

Inductive NetworkNodeDhtPeerConnectionType := NotConnected | Connected | CanConnect | CannotConnect.

Definition connectionText (c : NetworkNodeDhtPeerConnectionType) : string :=
  match c with
  | NotConnected => "Not Connected"
  | Connected => "Connected"
  | CanConnect => "Can Connect"
  | CannotConnect => "Cannot Connect"
  end.

(** The column [xorDistance]: a number, or a dash for this node itself. *)
Inductive XorDistance := Dash | Zeros (n : nat).

#[export] Instance XorDistance_eq_dec : EqDecision XorDistance.
Proof. solve_decision. Defined.

Record NetworkNodeDhtPeer := mkPeer {
  peerId : string;
  key : string;
  addressesLength : nat;
  addrs : list string;
  libp2p : string;
  connection : string;
  hexDistance : string;
  binaryDistance : string;
  xorDistance : XorDistance;
  bucketMaxHex : string;
  bucketIndex : nat
}.

#[export] Instance NetworkNodeDhtPeer_eq_dec : EqDecision NetworkNodeDhtPeer.
Proof. solve_decision. Defined.

#[export] Instance NetworkNodeDhtPeer_copy : RecordCopy NetworkNodeDhtPeer := {|
  record_copy p := mkPeer (peerId p) (key p) (addressesLength p) (addrs p) (libp2p p) (connection p)
    (hexDistance p) (binaryDistance p) (xorDistance p) (bucketMaxHex p) (bucketIndex p);
  record_copy_id := fun '(mkPeer _ _ _ _ _ _ _ _ _ _ _) => eq_refl |}.

Record NetworkNodeDhtBucket := mkBucket {
  bucketPeers : nat;
  maxCapacity : nat;
  maxHex : string
}.

Record NetworkNodeDhtState := mkState {
  peers : list NetworkNodeDhtPeer;
  thisKey : string;
  activePeer : option NetworkNodeDhtPeer;
  buckets : list NetworkNodeDhtBucket;
  sidePanelWidth : Z
}.

#[export] Instance NetworkNodeDhtState_copy : RecordCopy NetworkNodeDhtState := {|
  record_copy s := mkState (peers s) (thisKey s) (activePeer s) (buckets s) (sidePanelWidth s);
  record_copy_id := fun '(mkState _ _ _ _ _) => eq_refl |}.

Record RoutingTable := mkTable {
  tablePeers : list NetworkNodeDhtPeer;
  tableKey : string;
  tableBuckets : list NetworkNodeDhtBucket
}.

Inductive NetworkNodeDhtActions :=
| NetworkNodeDhtInit
| NetworkNodeDhtClose
| NetworkNodeDhtGetPeers
| NetworkNodeDhtGetPeersSuccess (payload : RoutingTable)
| NetworkNodeDhtSetActivePeer (payload : option NetworkNodeDhtPeer)
| NetworkNodeDhtSidePanelResize (payload : Z).

Definition actionType (a : NetworkNodeDhtActions) : string :=
  match a with
  | NetworkNodeDhtInit => "NETWORK_NODE_DHT_INIT"
  | NetworkNodeDhtClose => "NETWORK_NODE_DHT_CLOSE"
  | NetworkNodeDhtGetPeers => "NETWORK_NODE_DHT_GET_PEERS"
  | NetworkNodeDhtGetPeersSuccess _ => "NETWORK_NODE_DHT_GET_PEERS_SUCCESS"
  | NetworkNodeDhtSetActivePeer _ => "NETWORK_NODE_DHT_SET_ACTIVE_PEER"
  | NetworkNodeDhtSidePanelResize _ => "NETWORK_NODE_DHT_SIDE_PANEL_RESIZE"
  end.

(** * Reducer *)

Definition initialState : NetworkNodeDhtState := {|
  peers := [];
  thisKey := "";
  activePeer := None;
  buckets := [];
  sidePanelWidth := -1
|}.

(** [addrs.every((addr, i) => addr === other[i])] *)
Definition everyAddr (l other : list string) : bool :=
  forallb (fun '(i, a) => bool_decide (other !! i = Some a)) (imap (fun i a => (i, a)) l).

Definition samePeer (peer other : NetworkNodeDhtPeer) : bool :=
  bool_decide (peerId peer = peerId other) &&
  bool_decide (addressesLength peer = addressesLength other) &&
  everyAddr (addrs peer) (addrs other) &&
  bool_decide (key peer = key other) &&
  bool_decide (hexDistance peer = hexDistance other) &&
  bool_decide (libp2p peer = libp2p other).

Definition sameRecord (state : NetworkNodeDhtState) (payload : RoutingTable) : bool :=
  bool_decide (length (peers state) = length (tablePeers payload)) &&
  bool_decide (thisKey state = tableKey payload) &&
  forallb (fun '(peer, other) => samePeer peer other) (combine (peers state) (tablePeers payload)).

Definition networkDhtReducer (state : NetworkNodeDhtState) (action : NetworkNodeDhtActions)
  : NetworkNodeDhtState :=
  match action with
  | NetworkNodeDhtGetPeersSuccess payload =>
      if sameRecord state payload then state
      else state <| peers := tablePeers payload |> <| thisKey := tableKey payload |>
                 <| buckets := tableBuckets payload |>
  | NetworkNodeDhtSetActivePeer payload => state <| activePeer := payload |>
  | NetworkNodeDhtSidePanelResize payload => state <| sidePanelWidth := payload |>
  | NetworkNodeDhtClose => initialState
  | NetworkNodeDhtInit | NetworkNodeDhtGetPeers => state
  end.

(** * Service *)

Inductive ConnectionType := RawCannotConnect | RawConnected | RawNotConnected | RawCanConnect.

Definition rawConnection (c : ConnectionType) : string :=
  match c with
  | RawCannotConnect => "CannotConnect"
  | RawConnected => "Connected"
  | RawNotConnected => "NotConnected"
  | RawCanConnect => "CanConnect"
  end.

Record Entry := mkEntry {
  e_peer_id : string;
  e_libp2p : string;
  e_key : string;
  e_dist : string;
  e_addrs : list string;
  e_connection : ConnectionType
}.

Record Bucket := mkRawBucket { b_max_dist : string; b_entries : list Entry }.

Record DhtPeersResponse := mkResponse { this_key : string; r_buckets : list Bucket }.

Definition hexDigit (c : ascii) : option N :=
  let n := N_of_ascii c in
  if ((48 <=? n) && (n <=? 57))%N then Some (n - 48)%N
  else if ((97 <=? n) && (n <=? 102))%N then Some (n - 87)%N
  else if ((65 <=? n) && (n <=? 70))%N then Some (n - 55)%N
  else None.

Fixpoint hexValue (acc : N) (s : string) : option N :=
  match s with
  | EmptyString => Some acc
  | String c s => d ← hexDigit c; hexValue (acc * 16 + d)%N s
  end.

(** [BigInt('0x' + hex)] *)
Definition BigIntHex (hex : string) : exec N :=
  match hex with
  | EmptyString => Throw (SyntaxError "Cannot convert 0x to a BigInt")
  | _ => match hexValue 0 hex with
         | Some v => Ret v
         | None => Throw (SyntaxError ("Cannot convert 0x" +:+ hex +:+ " to a BigInt"))
         end
  end.

(** [toString(2)] *)
Fixpoint bits (p : positive) (acc : string) : string :=
  match p with
  | xH => String "1" acc
  | xO p => bits p (String "0" acc)
  | xI p => bits p (String "1" acc)
  end.
Definition toString2 (v : N) : string :=
  match v with N0 => "0" | Npos p => bits p "" end.

Definition hexToBinary (hex : string) : exec string :=
  decimalValue ← BigIntHex hex; Ret (padStart 256 (toString2 decimalValue)).

Fixpoint getNumberOfZerosUntilFirst1 (binaryString : string) : nat :=
  match binaryString with
  | String "0" s => S (getNumberOfZerosUntilFirst1 s)
  | _ => 0
  end.

(** [.replace(/([A-Z])/g, ' $1')] *)
Fixpoint spaceCapitals (s : string) : string :=
  match s with
  | EmptyString => ""
  | String c s =>
      let n := N_of_ascii c in
      if ((65 <=? n) && (n <=? 90))%N then String " " (String c (spaceCapitals s))
      else String c (spaceCapitals s)
  end.

(** [.trim()], of the spaces the replacement adds at the start. *)
Fixpoint trimStart (s : string) : string :=
  match s with String " " s => trimStart s | _ => s end.

Definition convertConnectionType (c : ConnectionType) : string := trimStart (spaceCapitals (rawConnection c)).

Definition mapEntry (thisKey : string) (index : nat) (bucket : Bucket) (entry : Entry)
  : exec NetworkNodeDhtPeer :=
  binary ← hexToBinary (e_dist entry);
  Ret {| connection := convertConnectionType (e_connection entry);
         peerId := e_peer_id entry;
         addressesLength := length (e_addrs entry);
         addrs := e_addrs entry;
         key := e_key entry;
         hexDistance := e_dist entry;
         libp2p := e_libp2p entry;
         binaryDistance := binary;
         bucketIndex := index;
         xorDistance := if bool_decide (e_key entry = thisKey) then Dash
                        else Zeros (getNumberOfZerosUntilFirst1 binary);
         bucketMaxHex := b_max_dist bucket |}.

(** The buckets, reduced in order; [index] is the position of the first one. *)
Fixpoint mapBuckets (thisKey : string) (index : nat) (bs : list Bucket)
  : exec (list NetworkNodeDhtPeer) :=
  match bs with
  | [] => Ret []
  | b :: bs =>
      nodes ← exec_map (mapEntry thisKey index b) (b_entries b);
      others ← mapBuckets thisKey (S index) bs;
      Ret (nodes ++ others)
  end.

(** [peers.splice(i, 1)] and [peers.unshift] when the origin is not first. *)
Definition originFirst (thisKey : string) (ps : list NetworkNodeDhtPeer) : list NetworkNodeDhtPeer :=
  match findIndex (fun p => bool_decide (key p = thisKey)) ps with
  | Some (S i) =>
      match ps !! S i with
      | Some origin => origin :: take (S i) ps ++ drop (S (S i)) ps
      | None => ps
      end
  | _ => ps
  end.

Definition mapDhtPeers (response : DhtPeersResponse) : exec RoutingTable :=
  ps ← mapBuckets (this_key response) 0 (r_buckets response);
  Ret {| tablePeers := originFirst (this_key response) ps;
         tableKey := this_key response;
         tableBuckets := (fun b => mkBucket (length (b_entries b)) 20 (b_max_dist b)) <$> r_buckets response |}.

(** * Distances *)

Lemma bits_spec p : forall acc, exists s,
  bits p acc = String "1" s /\ S (String.length s) = Pos.size_nat p + String.length acc.
Proof.
  induction p as [p IH|p IH|]; intros acc; cbn.
  - destruct (IH (String "1" acc)) as (s & -> & Hs). exists s. cbn in Hs. split; [done|lia].
  - destruct (IH (String "0" acc)) as (s & -> & Hs). exists s. cbn in Hs. split; [done|lia].
  - exists acc. split; [done|lia].
Qed.

Lemma zeros_count k s : getNumberOfZerosUntilFirst1 (zeros k +:+ String "1" s) = k.
Proof.
  induction k as [|k IH]; [done|]. cbn [zeros].
  change (String "0" (zeros k) +:+ String "1" s) with (String "0" (zeros k +:+ String "1" s)).
  exact (f_equal S IH).
Qed.

Lemma leading_zeros_padded v :
  getNumberOfZerosUntilFirst1 (padStart 256 (toString2 v)) = 256 - N.to_nat (N.size v).
Proof.
  destruct v as [|p]; [vm_compute; reflexivity|].
  destruct (bits_spec p "") as (s & Hs & Hlen).
  unfold padStart, toString2. rewrite Hs, zeros_count. cbn [String.length] in Hlen |- *.
  rewrite Hlen. cbn [N.size]. cbn. rewrite Nat.add_0_r.
  f_equal. clear. induction p; cbn; lia.
Qed.

Definition hexByte (s : string) : Prop := s <> "" /\ is_Some (hexValue 0 s).

(** The XOR distance shown for another peer is the number of leading zero
    bits of its 256-bit distance (256 minus the bit length of the hexadecimal
    value, so 256 for distance zero); this node itself shows a dash.  A
    distance that is not hexadecimal makes the mapping throw a SyntaxError. *)
Theorem dht_xor_distance thisKey index bucket entry :
  match mapEntry thisKey index bucket entry with
  | Ret p => exists v, BigIntHex (e_dist entry) = Ret v /\
      binaryDistance p = padStart 256 (toString2 v) /\
      xorDistance p = (if bool_decide (e_key entry = thisKey) then Dash
                       else Zeros (256 - N.to_nat (N.size v))) /\
      connection p = match e_connection entry with
                     | RawNotConnected => connectionText NotConnected
                     | RawConnected => connectionText Connected
                     | RawCanConnect => connectionText CanConnect
                     | RawCannotConnect => connectionText CannotConnect end
  | Throw e => ~ hexByte (e_dist entry) /\ exists msg, e = SyntaxError msg
  end.
Proof.
  unfold mapEntry, hexToBinary. destruct (BigIntHex (e_dist entry)) as [v|e] eqn:Hv; cbn.
  - exists v. split_and!; [done..| |by destruct (e_connection entry)].
    case_bool_decide; [done|]. by rewrite leading_zeros_padded.
  - unfold BigIntHex, hexByte in *. destruct (e_dist entry) as [|c s] eqn:Hd.
    + split; [naive_solver|]. simplify_eq. eauto.
    + destruct (hexValue 0 (String c s)) eqn:Hx; [done|]. simplify_eq.
      split; [|eauto]. intros [_ [? ?]]. done.
Qed.

(** * The flattened table *)

Lemma originFirst_perm k ps : Permutation (originFirst k ps) ps.
Proof.
  unfold originFirst. destruct (findIndex _ ps) as [[|i]|]; [done| |done].
  destruct (ps !! S i) as [p|] eqn:Hp; [|done].
  rewrite <- (take_drop_middle ps (S i) p Hp) at 3. by apply Permutation_middle.
Qed.

Lemma originFirst_head k ps p :
  p ∈ ps -> key p = k -> exists o rest, originFirst k ps = o :: rest /\ key o = k.
Proof.
  intros Hp Hk. unfold originFirst.
  destruct (findIndex _ ps) as [i|] eqn:Hi.
  - apply findIndex_Some in Hi as [(o & Ho & Hok) _]. js_simpl.
    destruct i as [|i]; [|rewrite Ho; eauto]. destruct ps; [done|]. cbn in Ho. simplify_eq. eauto.
  - apply (proj1 (findIndex_None _ _)) with (x := p) in Hi; [|done]. js_simpl. done.
Qed.

Lemma originFirst_rest k ps :
  List.filter (fun p => negb (bool_decide (key p = k))) (originFirst k ps) =
  List.filter (fun p => negb (bool_decide (key p = k))) ps.
Proof.
  unfold originFirst. destruct (findIndex _ ps) as [[|i]|] eqn:Hi; [done| |done].
  apply findIndex_Some in Hi as [(o & Ho & Hok) _]. rewrite Ho.
  rewrite <- (take_drop_middle ps (S i) o Ho) at 3. cbn [List.filter]. rewrite Hok. cbn [negb].
  rewrite !List.filter_app. cbn [List.filter]. by rewrite Hok.
Qed.

Lemma exec_map_Forall2 {A B} (f : A -> exec B) (R : A -> B -> Prop) l ys :
  (forall x y, f x = Ret y -> R x y) -> exec_map f l = Ret ys -> Forall2 R l ys.
Proof.
  intros Hf. revert ys. induction l as [|x l IH]; cbn; intros ys H; simplify_eq; [constructor|].
  apply exec_bind_Ret in H as (y & Hy & H). apply exec_bind_Ret in H as (ys' & Hys & H).
  simplify_eq. constructor; auto.
Qed.

(** The entries with the position of their bucket, in order. *)
Definition indexedEntries (bs : list Bucket) : list (nat * Entry) :=
  concat (imap (fun i b => (fun e => (i, e)) <$> b_entries b) bs).

Definition shownEntry (ie : nat * Entry) (p : NetworkNodeDhtPeer) : Prop :=
  bucketIndex p = ie.1 /\ peerId p = e_peer_id ie.2 /\ key p = e_key ie.2 /\
  addrs p = e_addrs ie.2 /\ hexDistance p = e_dist ie.2 /\ libp2p p = e_libp2p ie.2.

Lemma mapEntry_shown k i b e p : mapEntry k i b e = Ret p -> shownEntry (i, e) p.
Proof. intros (v & _ & H)%exec_bind_Ret. by simplify_eq. Qed.

Lemma mapBuckets_spec k bs : forall i ps,
  mapBuckets k i bs = Ret ps ->
  Forall2 shownEntry (concat (imap (fun j b => (fun e => (i + j, e)) <$> b_entries b) bs)) ps.
Proof.
  induction bs as [|b bs IH]; intros i ps H; cbn in H; simplify_eq; [constructor|].
  apply exec_bind_Ret in H as (ns & Hns & H). apply exec_bind_Ret in H as (os & Hos & H). simplify_eq.
  cbn. apply Forall2_app.
  - rewrite Nat.add_0_r. apply Forall2_fmap_l.
    eapply exec_map_Forall2; [|exact Hns]. intros e p. apply mapEntry_shown.
  - apply IH in Hos. erewrite imap_ext; [exact Hos|]. intros j x _. cbn. by rewrite Nat.add_succ_r.
Qed.

(** The routing table is shown completely: each entry of each bucket
    appears once, tagged with the position of its bucket; this node, when it
    is in the table, comes first; all other peers keep the order of the
    buckets. *)
Theorem dht_table_complete response table :
  mapDhtPeers response = Ret table ->
  exists flat, Forall2 shownEntry (indexedEntries (r_buckets response)) flat /\
    Permutation (tablePeers table) flat /\
    let others := List.filter (fun p => negb (bool_decide (key p = this_key response))) in
    others (tablePeers table) = others flat /\
    (forall p, p ∈ flat -> key p = this_key response ->
      exists o rest, tablePeers table = o :: rest /\ key o = this_key response) /\
    length (tableBuckets table) = length (r_buckets response).
Proof.
  intros (ps & Hps & H)%exec_bind_Ret. simplify_eq. exists ps. cbn.
  split_and!.
  - by apply (mapBuckets_spec _ _ 0) in Hps.
  - apply originFirst_perm.
  - apply originFirst_rest.
  - intros p. apply originFirst_head.
  - apply length_fmap.
Qed.

(** * Refreshing *)

Lemma everyAddr_refl_le l other :
  everyAddr l other = true <-> forall i a, l !! i = Some a -> other !! i = Some a.
Proof.
  unfold everyAddr. rewrite forallb_forall. split.
  - intros H i a Hi. specialize (H (i, a)). rewrite <- list_elem_of_In in H.
    ospecialize (H _); [|by js_simpl]. apply elem_of_lookup_imap. eauto.
  - intros H [i a]. rewrite <- list_elem_of_In, elem_of_lookup_imap.
    intros (j & b & [= <- <-] & Hj). js_simpl. auto.
Qed.

Lemma everyAddr_eq l other : length l = length other -> everyAddr l other = true -> l = other.
Proof.
  intros Hlen H. rewrite everyAddr_refl_le in H. apply list_eq. intros i.
  destruct (l !! i) as [a|] eqn:Hi; [symmetry; auto|].
  symmetry. apply lookup_ge_None. apply lookup_ge_None in Hi. lia.
Qed.

(** The fields a refresh compares. *)
Definition identity (p : NetworkNodeDhtPeer) : string * string * list string * string * string :=
  (peerId p, key p, addrs p, hexDistance p, libp2p p).

Definition countsAddresses (p : NetworkNodeDhtPeer) : Prop := addressesLength p = length (addrs p).

Lemma samePeer_true p q :
  countsAddresses p -> countsAddresses q -> samePeer p q = true <-> identity p = identity q.
Proof.
  unfold countsAddresses, samePeer, identity. intros Hp Hq. rewrite !andb_true_iff, !bool_decide_eq_true.
  split.
  - intros (((((H1 & H2) & H3) & H4) & H5) & H6).
    assert (addrs p = addrs q) by (apply everyAddr_eq; [congruence|done]). congruence.
  - intros [= H1 H2 H3 H4 H5]. split_and!; try congruence. apply everyAddr_refl_le. by rewrite H3.
Qed.

Lemma sameRecord_true state payload :
  Forall countsAddresses (peers state) -> Forall countsAddresses (tablePeers payload) ->
  sameRecord state payload = true <->
  thisKey state = tableKey payload /\ identity <$> peers state = identity <$> tablePeers payload.
Proof.
  intros Hs Ht. unfold sameRecord. rewrite !andb_true_iff, !bool_decide_eq_true.
  assert (forall l1 l2, Forall countsAddresses l1 -> Forall countsAddresses l2 ->
    (length l1 = length l2 /\ forallb (fun '(p, q) => samePeer p q) (combine l1 l2) = true) <->
    identity <$> l1 = identity <$> l2) as Haux.
  { clear. induction l1 as [|p l1 IH]; intros [|q l2] H1 H2; cbn; try by split; [intros [? ?]|].
    apply Forall_cons in H1 as [Hp H1]. apply Forall_cons in H2 as [Hq H2].
    rewrite andb_true_iff, (samePeer_true p q Hp Hq). split.
    - intros (Hlen & Hpq & Hall). f_equal; [done|]. apply IH; [done..|]. split; [lia|done].
    - intros [= ? ? ? ? ? Hrest]. apply IH in Hrest as [? ?]; [|done..]. split; [lia|].
      split; [|done]. unfold identity. congruence. }
  rewrite <- (Haux _ _ Hs Ht). tauto.
Qed.

(** A refresh shows the identities (id, key, addresses, distance) and the
    key of the table it received, and is skipped exactly when they are what is
    shown already; then the connection status and the bucket sizes of the new
    table are dropped too. *)
Theorem dht_refresh_identity state payload :
  Forall countsAddresses (peers state) -> Forall countsAddresses (tablePeers payload) ->
  let state' := networkDhtReducer state (NetworkNodeDhtGetPeersSuccess payload) in
  thisKey state' = tableKey payload /\
  identity <$> peers state' = identity <$> tablePeers payload /\
  (thisKey state = tableKey payload -> identity <$> peers state = identity <$> tablePeers payload ->
    state' = state) /\
  (~ (thisKey state = tableKey payload /\ identity <$> peers state = identity <$> tablePeers payload) ->
    peers state' = tablePeers payload /\ buckets state' = tableBuckets payload).
Proof.
  intros Hs Ht state'. unfold state'. cbn. pose proof (sameRecord_true _ _ Hs Ht) as Hiff.
  destruct (sameRecord state payload) eqn:E.
  - destruct (proj1 Hiff eq_refl) as [Hk Hi]. split_and!; try done. tauto.
  - split_and!; try done. intros Hk Hi. discriminate (proj2 Hiff (conj Hk Hi)).
Qed.

Definition demoEntry (d : string) (k : string) : Entry :=
  mkEntry "peer" "lp" k d ["a1"; "a2"] RawCanConnect.
Definition demoResponse : DhtPeersResponse :=
  mkResponse "me" [mkRawBucket "ff" [demoEntry "0f" "x"; demoEntry "00" "me"]; mkRawBucket "fff" [demoEntry "abc" "y"]].

Lemma dht_table_complete_witness :
  exists table, mapDhtPeers demoResponse = Ret table /\
    (key <$> tablePeers table) = ["me"; "x"; "y"] /\
    (xorDistance <$> tablePeers table) = [Dash; Zeros 252; Zeros 244] /\
    length (tableBuckets table) = length (r_buckets demoResponse).
Proof.
  destruct (mapDhtPeers demoResponse) as [table|] eqn:E; [|vm_compute in E; discriminate E].
  exists table. split; [reflexivity|].
  destruct (dht_table_complete demoResponse table E) as (flat & _ & _ & _ & _ & H).
  vm_compute in E. injection E as <-. split; [reflexivity|]. split; [reflexivity|]. exact H.
Defined.

Definition demoDhtPeer (c : NetworkNodeDhtPeerConnectionType) : NetworkNodeDhtPeer :=
  mkPeer "p" "k" 1 ["a"] "l" (connectionText c) "0" "0" Dash "f" 0.

(** A peer that went from not connected to connected stays as it was shown. *)
Lemma dht_refresh_identity_witness :
  let state := initialState <| peers := [demoDhtPeer NotConnected] |> <| thisKey := "me" |> in
  let payload := mkTable [demoDhtPeer Connected] "me" [mkBucket 1 20 "f"] in
  networkDhtReducer state (NetworkNodeDhtGetPeersSuccess payload) = state.
Proof.
  intros state payload.
  assert (Forall countsAddresses (peers state)) as H1 by (repeat constructor).
  assert (Forall countsAddresses (tablePeers payload)) as H2 by (repeat constructor).
  destruct (dht_refresh_identity state payload H1 H2) as (_ & _ & H & _).
  apply H; reflexivity.
Defined.

End NodeDht.
