(* ===== verification/DhtLine.v ===== *)
(** The line of the node DHT page
    (frontend/src/app/features/network/node-dht/network-node-dht-line): the peers
    placed on a line by their distance, and when a report of the store redraws it. *)

From S2P Require Import Prelude JsRuntime TableSort NodeDht.
Import NodeDht.NodeDht.

Module DhtLine.

(** * The component *)

(** [left] of a point is [None] until it is computed, and when the quotient it is
    made of is not finite. *)
Record DhtPoint := mkPoint {
  left : option Q;
  isBucket : bool;
  isOrigin : option bool;
  pointPeerId : string;
  originalLeft : option Q;
  pointConnection : option string
}.

#[export] Instance DhtPoint_copy : RecordCopy DhtPoint := {|
  record_copy p := mkPoint (left p) (isBucket p) (isOrigin p) (pointPeerId p) (originalLeft p) (pointConnection p);
  record_copy_id := fun '(mkPoint _ _ _ _ _ _) => eq_refl |}.

Record Line := mkLine {
  linePeers : list NetworkNodeDhtPeer;
  lineBuckets : list NetworkNodeDhtBucket;
  points : list DhtPoint;
  bucketPoints : list DhtPoint
}.

Definition initialLine : Line := mkLine [] [] [] [].

(** [a > b] on texts. *)
Definition textGt (a b : string) : bool := bool_decide (String.compare a b = Gt).

Definition getMaxOfHex (bs : list NetworkNodeDhtBucket) : string :=
  fold_left (fun maxH b => if textGt maxH (maxHex b) then maxH else maxHex b) bs "0".

(** [Number(n) / Number(max) * 100] *)
Definition percentOfMax (n max : N) : option Q :=
  if (max =? 0)%N then None else Some (inject_Z (Z.of_N n) / inject_Z (Z.of_N max) * 100)%Q.

Definition bucketPoint (max : N) (bucket : NetworkNodeDhtBucket) : exec DhtPoint :=
  n ← BigIntHex (maxHex bucket); Ret (mkPoint (percentOfMax n max) true None "" None None).

Definition peerPoint (max : N) (key0 : string) (peer : NetworkNodeDhtPeer) : exec DhtPoint :=
  n ← BigIntHex (hexDistance peer);
  Ret (mkPoint None false (Some (bool_decide (key peer = key0))) (peerId peer) (percentOfMax n max)
         (Some (connection peer))).

Definition calculateLeftBasedOnParentContainer (offsetWidth : Q) (ps : list DhtPoint) : list DhtPoint :=
  (fun p => p <| left := (fun l => l / 100 * (offsetWidth - 16))%Q <$> originalLeft p |>) <$> ps.

Definition calculate (offsetWidth : Q) (key0 : string) (ps : list NetworkNodeDhtPeer)
  (bs : list NetworkNodeDhtBucket) : exec (list DhtPoint * list DhtPoint) :=
  max ← BigIntHex (getMaxOfHex bs);
  bpoints ← exec_map (bucketPoint max) (rev bs);
  ppoints ← exec_map (peerPoint max key0) ps;
  Ret (calculateLeftBasedOnParentContainer offsetWidth ppoints, bpoints).

Definition unreadableDistance : JsError := TypeError "Cannot read properties of undefined (reading 'hexDistance')".

(** [this.peers.some((p, i) => p.hexDistance !== peers[i].hexDistance)] *)
Fixpoint somePeerDiffers (old new : list NetworkNodeDhtPeer) : exec bool :=
  match old, new with
  | [], _ => Ret false
  | _ :: _, [] => Throw unreadableDistance
  | p :: old, q :: new =>
      if bool_decide (hexDistance p = hexDistance q) then somePeerDiffers old new else Ret true
  end.

(** A report of the store; one without a key is filtered out. *)
Definition listenToNodeDhtPeers (offsetWidth : Q) (key0 : string) (new : list NetworkNodeDhtPeer)
  (bs : list NetworkNodeDhtBucket) (l : Line) : exec Line :=
  if bool_decide (key0 = "") then Ret l
  else
    redraw ← (if bool_decide (length (linePeers l) = 0) then Ret true else somePeerDiffers (linePeers l) new);
    if (redraw : bool) then
      '(ppoints, bpoints) ← calculate offsetWidth key0 new bs;
      Ret (mkLine new bs ppoints bpoints)
    else Ret l.

(** Another width of the element. *)
Definition widthChange (offsetWidth : Q) (l : Line) : Line :=
  mkLine (linePeers l) (lineBuckets l) (calculateLeftBasedOnParentContainer offsetWidth (points l)) (bucketPoints l).

Definition selectPeer (l : Line) (point : DhtPoint) : NetworkNodeDhtActions :=
  NetworkNodeDhtSetActivePeer (List.find (fun p => bool_decide (peerId p = pointPeerId point)) (linePeers l)).

(** * Hexadecimal texts *)

Definition lowerHexDigit (c : Ascii.ascii) : bool :=
  let n := Ascii.N_of_ascii c in ((48 <=? n) && (n <=? 57))%N || ((97 <=? n) && (n <=? 102))%N.

Fixpoint lowerHex (s : string) : bool :=
  match s with EmptyString => true | String c s => lowerHexDigit c && lowerHex s end.

Definition hexVal (s : string) : N := default 0%N (hexValue 0 s).

Lemma lowerHexDigit_value c :
  lowerHexDigit c = true -> exists d, hexDigit c = Some d /\ (d < 16)%N.
Proof.
  unfold lowerHexDigit, hexDigit. set (n := Ascii.N_of_ascii c).
  intros [H|H]%orb_true_iff; apply andb_true_iff in H as [H1%N.leb_le H2%N.leb_le].
  - rewrite (proj2 (N.leb_le _ _) H1), (proj2 (N.leb_le _ _) H2). exists (n - 48)%N. split; [done|lia].
  - destruct (N.leb_spec n 57); [lia|]. rewrite andb_false_r.
    rewrite (proj2 (N.leb_le _ _) H1), (proj2 (N.leb_le _ _) H2). exists (n - 87)%N. split; [done|lia].
Qed.

(** Digits are in the order of their code units. *)
Lemma lowerHexDigit_order c d x y :
  lowerHexDigit c = true -> lowerHexDigit d = true -> hexDigit c = Some x -> hexDigit d = Some y ->
  (Ascii.N_of_ascii c ?= Ascii.N_of_ascii d)%N = (x ?= y)%N.
Proof.
  unfold lowerHexDigit, hexDigit. set (n := Ascii.N_of_ascii c). set (m := Ascii.N_of_ascii d).
  intros Hc Hd Hx Hy.
  destruct (N.leb_spec 48 n), (N.leb_spec n 57), (N.leb_spec 97 n), (N.leb_spec n 102); cbn in *; try done;
  destruct (N.leb_spec 48 m), (N.leb_spec m 57), (N.leb_spec 97 m), (N.leb_spec m 102); cbn in *; try done;
  injection Hx as <-; injection Hy as <-;
  (destruct (N.compare_spec n m); symmetry; [apply N.compare_eq_iff|apply N.compare_lt_iff|apply N.compare_gt_iff]; lia).
Qed.

Lemma hexValue_shift s :
  lowerHex s = true ->
  exists v, (v < 16 ^ N.of_nat (String.length s))%N
    /\ forall acc, hexValue acc s = Some (acc * 16 ^ N.of_nat (String.length s) + v)%N.
Proof.
  induction s as [|c s IH]; cbn [lowerHex].
  - intros _. exists 0%N. split; [cbn; lia|]. intros acc. cbn. f_equal. lia.
  - intros [Hc Hs]%andb_true_iff. destruct (IH Hs) as (v & Hv & Hacc).
    destruct (lowerHexDigit_value c Hc) as (d & Hd & Hlt).
    cbn [String.length]. rewrite Nat2N.inj_succ, N.pow_succ_r'.
    exists (d * 16 ^ N.of_nat (String.length s) + v)%N. split; [nia|].
    intros acc. cbn [hexValue]. rewrite Hd. cbn [mbind option_bind]. rewrite Hacc. f_equal. lia.
Qed.

Lemma hexVal_value s : lowerHex s = true -> forall acc,
  hexValue acc s = Some (acc * 16 ^ N.of_nat (String.length s) + hexVal s)%N
  /\ (hexVal s < 16 ^ N.of_nat (String.length s))%N.
Proof.
  intros Hs acc. destruct (hexValue_shift s Hs) as (v & Hv & Hacc).
  assert (hexVal s = v) as -> by (unfold hexVal; rewrite Hacc; cbn; lia). auto.
Qed.

(** Texts of one length are in the order of their values. *)
Lemma hex_order s t :
  lowerHex s = true -> lowerHex t = true -> String.length s = String.length t ->
  String.compare s t = (hexVal s ?= hexVal t)%N.
Proof.
  revert t. induction s as [|c s IH]; intros [|d t] Hs Ht Hlen; try done.
  cbn [lowerHex] in Hs, Ht. apply andb_true_iff in Hs as [Hc Hs], Ht as [Hd Ht].
  cbn [String.length] in Hlen. injection Hlen as Hlen.
  destruct (lowerHexDigit_value c Hc) as (x & Hx & Hx16), (lowerHexDigit_value d Hd) as (y & Hy & Hy16).
  assert (forall e s z, hexDigit e = Some z -> lowerHex s = true ->
    hexVal (String e s) = (z * 16 ^ N.of_nat (String.length s) + hexVal s)%N) as Hval.
  { intros e u z He Hu. unfold hexVal at 1. cbn [hexValue]. rewrite He. cbn [mbind option_bind].
    rewrite (proj1 (hexVal_value u Hu _)). cbn. lia. }
  rewrite (Hval c s x), (Hval d t y), Hlen by done.
  destruct (hexVal_value s Hs 0) as [_ Hvs], (hexVal_value t Ht 0) as [_ Hvt]. rewrite Hlen in Hvs.
  cbn [String.compare]. unfold Ascii.compare. rewrite (lowerHexDigit_order c d x y) by done.
  destruct (N.compare_spec x y) as [->|Hlt|Hgt].
  - rewrite IH by done. destruct (N.compare_spec (hexVal s) (hexVal t)); symmetry;
      [apply N.compare_eq_iff|apply N.compare_lt_iff|apply N.compare_gt_iff]; lia.
  - symmetry. apply N.compare_lt_iff. nia.
  - symmetry. apply N.compare_gt_iff. nia.
Qed.

Lemma textGt_value s t :
  lowerHex s = true -> lowerHex t = true -> String.length s = String.length t ->
  textGt s t = (hexVal t <? hexVal s)%N.
Proof.
  intros Hs Ht Hlen. unfold textGt. rewrite (hex_order s t) by done.
  destruct (N.ltb_spec (hexVal t) (hexVal s)) as [H|H].
  - apply bool_decide_eq_true. by apply N.compare_gt_iff.
  - apply bool_decide_eq_false. intros E%N.compare_gt_iff. lia.
Qed.

(** * The largest bucket *)

Definition sameWidth (n : nat) (b : NetworkNodeDhtBucket) : Prop :=
  lowerHex (maxHex b) = true /\ String.length (maxHex b) = S n.

Notation larger := (fun maxH b => if textGt maxH (maxHex b) then maxH else maxHex b).

Lemma larger_fold n bs m :
  Forall (sameWidth n) bs -> lowerHex m = true -> String.length m = S n ->
  let r := fold_left larger bs m in
  (r = m \/ r ∈ (maxHex <$> bs)) /\ (hexVal m <= hexVal r)%N
  /\ Forall (fun b => (hexVal (maxHex b) <= hexVal r)%N) bs.
Proof.
  revert m. induction bs as [|b bs IH]; intros m Hbs Hm Hlen; cbn [fold_left].
  - split; [by left|]. split; [lia|constructor].
  - apply Forall_cons in Hbs as [[Hb Hbl] Hbs]. rewrite (textGt_value m (maxHex b)) by congruence.
    destruct (N.ltb_spec (hexVal (maxHex b)) (hexVal m)).
    + destruct (IH m Hbs Hm Hlen) as (Hr & Hle & Hall). rewrite fmap_cons.
      split; [set_solver|]. split; [lia|]. constructor; [lia|done].
    + destruct (IH (maxHex b) Hbs Hb Hbl) as (Hr & Hle & Hall). rewrite fmap_cons.
      split; [set_solver|]. split; [lia|]. by constructor.
Qed.

(** The text order gives the bucket of the largest value. *)
Lemma getMaxOfHex_spec n bs :
  bs <> [] -> Forall (sameWidth n) bs ->
  exists b, b ∈ bs /\ getMaxOfHex bs = maxHex b /\ Forall (fun c => (hexVal (maxHex c) <= hexVal (maxHex b))%N) bs.
Proof.
  intros Hne Hbs. destruct bs as [|b bs]; [done|]. apply Forall_cons in Hbs as [[Hb Hbl] Hbs].
  assert (textGt "0" (maxHex b) = false) as H0.
  { unfold textGt. apply bool_decide_eq_false. destruct (maxHex b) as [|c s]; [done|]. cbn [lowerHex] in Hb.
    apply andb_true_iff in Hb as [Hc _]. cbn [String.compare]. unfold Ascii.compare.
    change (Ascii.N_of_ascii _) with 48%N at 1. unfold lowerHexDigit in Hc.
    destruct (N.compare_spec 48 (Ascii.N_of_ascii c)) as [E|E|E]; [by destruct s|done|].
    destruct (N.leb_spec 48 (Ascii.N_of_ascii c)), (N.leb_spec 97 (Ascii.N_of_ascii c)); cbn in Hc; lia || done. }
  unfold getMaxOfHex. cbn [fold_left]. rewrite H0.
  destruct (larger_fold n bs (maxHex b) Hbs Hb Hbl) as (Hr & Hle & Hall).
  destruct Hr as [Hr|(c & Hr & Hc)%list_elem_of_fmap].
  - exists b. split; [by left|]. split; [done|]. rewrite Hr in Hall. constructor; [lia|done].
  - exists c. split; [by right|]. split; [done|]. rewrite Hr in Hall, Hle. constructor; done.
Qed.

(** * The theorems *)

Lemma BigIntHex_value s : lowerHex s = true -> s <> "" -> BigIntHex s = Ret (hexVal s).
Proof.
  intros Hs Hne. unfold BigIntHex. rewrite (proj1 (hexVal_value s Hs 0)). by destruct s.
Qed.

Lemma percentOfMax_mono x y max :
  (0 < max)%N -> (x <= y)%N ->
  exists p q, percentOfMax x max = Some p /\ percentOfMax y max = Some q /\ (0 <= p)%Q /\ (p <= q)%Q.
Proof.
  intros Hm Hxy. unfold percentOfMax. destruct (N.eqb_spec max 0); [lia|]. do 2 eexists. split_and!; [done..| |].
  all: assert (0 < inject_Z (Z.of_N max))%Q as Hpos by (change 0%Q with (inject_Z 0); rewrite <- Zlt_Qlt; lia).
  all: assert (0 < / inject_Z (Z.of_N max))%Q as Hinv by by apply Qinv_lt_0_compat.
  - assert (0 <= inject_Z (Z.of_N x))%Q by (change 0%Q with (inject_Z 0); rewrite <- Zle_Qle; lia). unfold Qdiv. nra.
  - assert (inject_Z (Z.of_N x) <= inject_Z (Z.of_N y))%Q by (rewrite <- Zle_Qle; lia). unfold Qdiv. nra.
Qed.

(** A routing table as the node reports it: the largest distances of the buckets
    are hexadecimal texts of one length, not all zero, and every peer lies in the
    range of some bucket. *)
Record goodTable (n : nat) (ps : list NetworkNodeDhtPeer) (bs : list NetworkNodeDhtBucket) : Prop := {
  good_buckets : Forall (sameWidth n) bs;
  good_range : exists b, b ∈ bs /\ (0 < hexVal (maxHex b))%N;
  good_peers : Forall (fun p => lowerHex (hexDistance p) = true /\ hexDistance p <> "" /\
    exists b, b ∈ bs /\ (hexVal (hexDistance p) <= hexVal (maxHex b))%N) ps
}.

Definition placedPeer (offsetWidth : Q) (max : N) (key0 : string) (p : NetworkNodeDhtPeer) : DhtPoint :=
  let original := percentOfMax (hexVal (hexDistance p)) max in
  mkPoint ((fun l => l / 100 * (offsetWidth - 16))%Q <$> original) false (Some (bool_decide (key p = key0)))
    (peerId p) original (Some (connection p)).

Lemma calculate_spec n w key0 ps bs :
  goodTable n ps bs ->
  exists top, top ∈ bs /\ (0 < hexVal (maxHex top))%N /\
    Forall (fun c => (hexVal (maxHex c) <= hexVal (maxHex top))%N) bs /\
    calculate w key0 ps bs =
      Ret (placedPeer w (hexVal (maxHex top)) key0 <$> ps,
           (fun b => mkPoint (percentOfMax (hexVal (maxHex b)) (hexVal (maxHex top))) true None "" None None) <$> rev bs).
Proof.
  intros [Hbs (b & Hb & Hpos) Hps].
  destruct (getMaxOfHex_spec n bs) as (top & Htop & Hmax & Hall); [by intros ->; apply elem_of_nil in Hb|done|].
  exists top. rewrite Forall_forall in Hbs. split; [done|].
  assert (forall c, c ∈ bs -> BigIntHex (maxHex c) = Ret (hexVal (maxHex c))) as Hval.
  { intros c Hc. destruct (Hbs c Hc) as [Hl Hn]. apply BigIntHex_value; [done|]. intros E. by rewrite E in Hn. }
  split_and!; [rewrite Forall_forall in Hall; specialize (Hall b Hb); lia|done|].
  unfold calculate. rewrite Hmax, Hval by done. cbn [mbind exec_bind].
  rewrite (exec_map_Ret _ (fun b => mkPoint (percentOfMax (hexVal (maxHex b)) (hexVal (maxHex top))) true None "" None None)).
  - cbn [mbind exec_bind]. rewrite (exec_map_Ret _ (fun p => mkPoint None false (Some (bool_decide (key p = key0)))
      (peerId p) (percentOfMax (hexVal (hexDistance p)) (hexVal (maxHex top))) (Some (connection p)))).
    + cbn [mbind exec_bind]. unfold calculateLeftBasedOnParentContainer. by rewrite <- list_fmap_compose.
    + intros p Hp. rewrite Forall_forall in Hps. destruct (Hps p Hp) as (Hl & Hne & _).
      unfold peerPoint. by rewrite BigIntHex_value.
  - intros c Hc. unfold bucketPoint. rewrite Hval; [done|]. by apply list_elem_of_In, in_rev, list_elem_of_In.
Qed.

Lemma scaled_within x y w :
  (0 <= x)%Q -> (x <= y)%Q -> (y <= 100)%Q -> (16 <= w)%Q ->
  (0 <= x / 100 * (w - 16))%Q /\ (x / 100 * (w - 16) <= y / 100 * (w - 16))%Q /\ (y / 100 * (w - 16) <= w - 16)%Q.
Proof.
  intros H0 Hxy H100 Hw. unfold Qdiv. change (/ 100)%Q with (1 # 100)%Q.
  assert (0 <= w - 16)%Q as Hr by lra.
  assert (0 <= x * (1 # 100) /\ x * (1 # 100) <= y * (1 # 100) /\ y * (1 # 100) <= 1)%Q as (H1 & H2 & H3) by lra.
  split_and!.
  - by apply Qmult_le_0_compat.
  - by apply Qmult_le_compat_r.
  - rewrite <- (Qmult_1_l (w - 16)) at 2. by apply Qmult_le_compat_r.
Qed.

(** Peers are placed on the line by their distance: each peer of the table has one
    point, in order, within the width of the line, and a peer that is farther away
    is not further left; the buckets lie within the line and the largest ends it. *)
Theorem dht_line_positions n w key0 ps bs :
  (16 <= w)%Q -> goodTable n ps bs ->
  exists pts bpts, calculate w key0 ps bs = Ret (pts, bpts) /\
    pointPeerId <$> pts = peerId <$> ps /\
    (forall i j p q pt qt, ps !! i = Some p -> ps !! j = Some q -> pts !! i = Some pt -> pts !! j = Some qt ->
       (hexVal (hexDistance p) <= hexVal (hexDistance q))%N ->
       exists x y, left pt = Some x /\ left qt = Some y /\ (0 <= x)%Q /\ (x <= y)%Q /\ (y <= w - 16)%Q) /\
    (forall b, b ∈ bpts -> exists x, left b = Some x /\ (0 <= x)%Q /\ (x <= 100)%Q) /\
    (exists b x, b ∈ bpts /\ left b = Some x /\ (x == 100)%Q).
Proof.
  intros Hw Hgood. destruct (calculate_spec n w key0 ps bs Hgood) as (top & Htop & Hpos & Hall & Hcalc).
  destruct Hgood as [_ _ Hps]. rewrite Forall_forall in Hall. rewrite Forall_forall in Hps.
  assert (forall x, (x <= hexVal (maxHex top))%N -> exists p q, percentOfMax x (hexVal (maxHex top)) = Some p
    /\ percentOfMax (hexVal (maxHex top)) (hexVal (maxHex top)) = Some q /\ (0 <= p)%Q /\ (p <= q)%Q) as Hle.
  { intros x Hx. by apply percentOfMax_mono. }
  assert (exists q, percentOfMax (hexVal (maxHex top)) (hexVal (maxHex top)) = Some q /\ (q == 100)%Q) as (full & Hfull & H100).
  { unfold percentOfMax. destruct (N.eqb_spec (hexVal (maxHex top)) 0); [lia|]. eexists. split; [done|].
    field. intros E. change 0%Q with (inject_Z 0) in E. apply (proj1 (inject_Z_injective _ _)) in E. lia. }
  do 2 eexists. split; [exact Hcalc|]. split_and!.
  - by rewrite <- list_fmap_compose.
  - intros i j p q pt qt Hi Hj Hpt Hqt Hpq. rewrite list_lookup_fmap in Hpt, Hqt. rewrite Hi in Hpt. rewrite Hj in Hqt.
    injection Hpt as <-. injection Hqt as <-.
    destruct (Hps q (list_elem_of_lookup_2 _ _ _ Hj)) as (_ & _ & b & Hb & Hqb). specialize (Hall b Hb).
    destruct (percentOfMax_mono _ _ (hexVal (maxHex top)) Hpos Hpq) as (x & y & Hx & Hy & H0 & Hxy).
    destruct (Hle (hexVal (hexDistance q))) as (y' & f' & Hy' & Hf' & _ & Hyf); [lia|]. simplify_eq.
    unfold placedPeer. cbn [left]. rewrite Hx, Hy. cbn [fmap option_fmap option_map].
    do 2 eexists. split; [done|]. split; [done|]. apply scaled_within; [done|done|by rewrite <- H100|done].
  - intros b (c & -> & Hc)%list_elem_of_fmap. rewrite list_elem_of_In, <- in_rev, <- list_elem_of_In in Hc.
    destruct (Hle (hexVal (maxHex c)) (Hall c Hc)) as (x & f & Hx & Hf & H0 & Hxf). simplify_eq.
    exists x. cbn [left]. split_and!; [done|done|]. by rewrite <- H100.
  - exists (mkPoint (Some full) true None "" None None), full. split; [|done].
    apply list_elem_of_fmap. exists top. split; [by rewrite Hfull|].
    by apply list_elem_of_In, in_rev; rewrite rev_involutive; apply list_elem_of_In.
Qed.

Lemma somePeerDiffers_spec old new :
  match somePeerDiffers old new with
  | Ret false => (hexDistance <$> old) `prefix_of` (hexDistance <$> new)
  | Ret true => ~ (hexDistance <$> old) `prefix_of` (hexDistance <$> new)
      /\ ~ (hexDistance <$> new) `prefix_of` (hexDistance <$> old)
  | Throw e => e = unreadableDistance /\ length new < length old
      /\ (hexDistance <$> new) `prefix_of` (hexDistance <$> old)
  end.
Proof.
  revert new. induction old as [|p old IH]; intros new; [apply prefix_nil|].
  destruct new as [|q new]; cbn [somePeerDiffers].
  - split_and!; [done|cbn; lia|apply prefix_nil].
  - rewrite !fmap_cons. case_bool_decide as E.
    + specialize (IH new). rewrite E. destruct (somePeerDiffers old new) as [[]|e].
      * split; intros H%prefix_cons_inv_2; naive_solver.
      * by apply prefix_cons.
      * destruct IH as (-> & Hlen & Hpre). split_and!; [done|cbn; lia|by apply prefix_cons].
    + split; intros H%prefix_cons_inv_1; congruence.
Qed.

(** C17: what a report of the store does to a line that was drawn.  If the new
    distances begin with the old ones, nothing is redrawn, also when peers have
    joined at the end; if they are a proper beginning of the old ones, as when the
    last peers have left, the report throws; otherwise the line is computed anew.
    For a well-formed routing table the report throws exactly when the new distances
    are a proper beginning of the old ones. *)
Theorem dht_line_report w key0 new bs l :
  key0 <> "" -> linePeers l <> [] ->
  let old := hexDistance <$> linePeers l in
  let fresh := hexDistance <$> new in
  let report := listenToNodeDhtPeers w key0 new bs l in
  (old `prefix_of` fresh -> report = Ret l) /\
  (fresh `prefix_of` old -> fresh <> old -> report = Throw unreadableDistance) /\
  (~ old `prefix_of` fresh -> ~ fresh `prefix_of` old ->
     report = ('(ppoints, bpoints) ← calculate w key0 new bs; Ret (mkLine new bs ppoints bpoints))) /\
  (forall n, goodTable n new bs -> (exists e, report = Throw e) <-> (fresh `prefix_of` old /\ fresh <> old)).
Proof.
  intros Hkey Hne old fresh report.
  assert (report = (redraw ← somePeerDiffers (linePeers l) new;
    if (redraw : bool) then '(ppoints, bpoints) ← calculate w key0 new bs; Ret (mkLine new bs ppoints bpoints)
    else Ret l)) as Hrep.
  { subst report. unfold listenToNodeDhtPeers. rewrite bool_decide_false by done.
    by rewrite bool_decide_false by (by intros E%nil_length_inv). }
  pose proof (somePeerDiffers_spec (linePeers l) new) as H. fold old fresh in H.
  rewrite Hrep. clear Hrep report. destruct (somePeerDiffers (linePeers l) new) as [[]|e]; cbn [mbind exec_bind].
  - destruct H as [H1 H2]. split_and!; [done|done|done|]. intros n Hgood.
    destruct (calculate_spec n w key0 new bs Hgood) as (top & _ & _ & _ & ->). cbn [mbind exec_bind].
    split; [by intros [e He]|by intros [? _]].
  - split_and!; [done| |done|].
    + intros Hp Hn. exfalso. by apply Hn, (anti_symm prefix).
    + intros n _. split; [by intros [e He]|]. intros [Hp Hn]. exfalso. by apply Hn, (anti_symm prefix).
  - destruct H as (-> & Hlen & Hpre). assert (fresh <> old) as Hneq.
    { intros E%(f_equal length). subst fresh old. rewrite !length_fmap in E. lia. }
    split_and!; [|done|done|].
    + intros Hp. exfalso. by apply Hneq, (anti_symm prefix).
    + intros n _. split; [done|by eexists].
Qed.

(** * A table of two peers *)

Definition demoPeer (name distance : string) : NetworkNodeDhtPeer :=
  mkPeer name name 0 [] "" "Connected" distance "" Dash "ff" 0.
Definition demoTable : list NetworkNodeDhtPeer := [demoPeer "me" "00"; demoPeer "far" "7f"].
Definition demoBuckets : list NetworkNodeDhtBucket := [mkBucket 2 20 "ff"; mkBucket 0 20 "0f"].

Lemma demoTable_good : goodTable 1 demoTable demoBuckets.
Proof.
  split.
  - repeat constructor.
  - exists (mkBucket 2 20 "ff"). split; [left|vm_compute; reflexivity].
  - repeat constructor; try discriminate; (exists (mkBucket 2 20 "ff"); split; [left|vm_compute; discriminate]).
Qed.

Lemma dht_line_positions_witness :
  exists pts bpts, calculate 116 "me" demoTable demoBuckets = Ret (pts, bpts)
    /\ pointPeerId <$> pts = ["me"; "far"].
Proof.
  destruct (dht_line_positions 1 116 "me" demoTable demoBuckets) as (pts & bpts & H1 & H2 & _).
  - vm_compute. discriminate.
  - exact demoTable_good.
  - exists pts, bpts. split; [exact H1|exact H2].
Defined.

Lemma dht_line_report_witness :
  listenToNodeDhtPeers 116 "me" (take 1 demoTable) demoBuckets (mkLine demoTable demoBuckets [] [])
  = Throw unreadableDistance.
Proof.
  pose proof (dht_line_report 116 "me" (take 1 demoTable) demoBuckets (mkLine demoTable demoBuckets [] [])
    ltac:(discriminate) ltac:(discriminate)) as (_ & Hthrow & _ & _).
  apply Hthrow; [exists ["7f"]; reflexivity|discriminate].
Defined.

End DhtLine.
