(* ===== verification/DhtGraph.v ===== *)
(** DHT graph (frontend/src/app/features/network/dht-graph): the binary tree that
    places the peers of the routing table by the digits of their XOR distance, as
    minimum-distance-algorithm.ts builds it. *)

From Stdlib Require Import Ascii.
From stdpp Require Import sorting.
From S2P Require Import Prelude JsRuntime TableSort NodeDht.

Module DhtGraph.

(** * Data *)

(** A peer with the position the page gives it after sorting; the peers are
    compared by reference, which the position identifies. *)
Record GraphPeer := mkGraphPeer { dhtPeer : NodeDht.NetworkNodeDhtPeer; position : nat }.

(** The characters of a peer's binary distance. *)
Definition digits (p : GraphPeer) : list ascii :=
  String.list_ascii_of_string (NodeDht.binaryDistance (dhtPeer p)).

(** The peer of a node; [None] is the placeholder [{ binaryDistance: '-' }]. *)
Notation NodePeer := (option GraphPeer).

(** [peer.binaryDistance === '-'] *)
Definition isDash (x : NodePeer) : bool :=
  match x with None => true | Some p => bool_decide (digits p = ["-"%char]) end.

(** A node with no child, only the child of index 0, or both; [A] are the other
    fields of the node. *)
Inductive DhtGraphNode (A : Type) :=
| Leaf (a : A) (peer : NodePeer)
| One (a : A) (peer : NodePeer) (c0 : DhtGraphNode A)
| Two (a : A) (peer : NodePeer) (c0 c1 : DhtGraphNode A).
Arguments Leaf {A} a peer.
Arguments One {A} a peer c0.
Arguments Two {A} a peer c0 c1.

Definition peer {A} (t : DhtGraphNode A) : NodePeer :=
  match t with Leaf _ p | One _ p _ | Two _ p _ _ => p end.
Definition fields {A} (t : DhtGraphNode A) : A :=
  match t with Leaf a _ | One a _ _ | Two a _ _ _ => a end.

(** [node.children[i]] *)
Definition child {A} (t : DhtGraphNode A) (right : bool) : option (DhtGraphNode A) :=
  match t, right with
  | One _ _ c0, false | Two _ _ c0 _, false => Some c0
  | Two _ _ _ c1, true => Some c1
  | _, _ => None
  end.

(** [node.children[i] = c] of a node that has this child. *)
Definition setChild {A} (t : DhtGraphNode A) (right : bool) (c : DhtGraphNode A) : DhtGraphNode A :=
  match t, right with
  | One a p _, false => One a p c
  | Two a p _ c1, false => Two a p c c1
  | Two a p c0 _, true => Two a p c0 c
  | _, _ => t
  end.

Definition isLeaf {A} (t : DhtGraphNode A) : bool := match t with Leaf _ _ => true | _ => false end.

(** * Sorting of the peers *)

(** The comparator of the page: the first digit that differs decides. *)
Fixpoint compareDigits (a b : list ascii) : comparison :=
  match a with
  | [] => Eq
  | x :: a' =>
      if bool_decide (Some x = head b) then compareDigits a' (tail b)
      else if bool_decide (x = "1"%char) then Gt else Lt
  end.

Definition peerDigits (p : NodeDht.NetworkNodeDhtPeer) : list ascii :=
  String.list_ascii_of_string (NodeDht.binaryDistance p).

Definition sortPeers (ps : list NodeDht.NetworkNodeDhtPeer) : list GraphPeer :=
  mapi (fun i p => mkGraphPeer p i) (arraySort (fun a b => compareDigits (peerDigits a) (peerDigits b)) ps).

(** * Insertion

    While peers are inserted and the tree is cleaned up, a node has no or both
    children. *)

(** [peer.binaryDistance[level] === '0' ? 0 : 1], true for the right child *)
Definition direction (p : GraphPeer) (level : nat) : bool :=
  negb (bool_decide (digits p !! level = Some "0"%char)).

(** [peers.slice(peers.indexOf(p) + 1)] *)
Definition peersAfter (peers : list GraphPeer) (p : GraphPeer) : list GraphPeer :=
  drop (match findIndex (fun q => bool_decide (position q = position p)) peers with
        | Some i => S i
        | None => 0
        end) peers.

(** The condition under which a peer takes an empty node next to a peer that is
    alone on the left: [child0] is the left child of the parent, and no later
    peer shares the digits before. *)
Definition takesNode {A} (peers : list GraphPeer) (child0 : option (DhtGraphNode A))
  (node : DhtGraphNode A) (p : GraphPeer) (level : nat) : bool :=
  match level with
  | 0 => false
  | S n =>
      bool_decide (digits p !! n = Some "1"%char) &&
      match child0 with
      | Some (Leaf _ (Some q)) =>
          negb (isDash (Some q)) && isLeaf node && bool_decide (take n (digits q) = take n (digits p)) &&
          forallb (fun r => negb (bool_decide (take n (digits r) = take n (digits p)))) (peersAfter peers p)
      | _ => false
      end
  end.

(** [peers.find(p => p.binaryDistance === q.binaryDistance)] *)
Definition findPeer (peers : list GraphPeer) (q : NodePeer) : exec GraphPeer :=
  match q ≫= fun q => List.find (fun p => bool_decide (digits p = digits q)) peers with
  | Some p => Ret p
  | None => Throw (TypeError "Cannot read properties of undefined (reading 'binaryDistance')")
  end.

(** The recursion goes one digit deeper with each call and stops behind the last
    one: two more than the longest distance is enough. *)
Definition insertFuel (peers : list GraphPeer) : nat := 2 + max_list_with (fun p => length (digits p)) peers.

(** ** minimum-distance-algorithm.ts *)

Notation Tree := (DhtGraphNode unit).
Definition empty : Tree := Leaf () None.

Fixpoint insertPeer (fuel : nat) (peers : list GraphPeer) (child0 : option Tree) (node : Tree)
  (p : GraphPeer) (level : nat) : exec Tree :=
  match fuel with
  | 0 => Ret node
  | S fuel =>
      if length (digits p) <? level then Ret node else
      let d := direction p level in
      match child node d with
      | None =>
          if takesNode peers child0 node p level then Ret (Leaf () (Some p)) else
          let other := default empty (child node (negb d)) in
          Ret (if d then Two () (peer node) other (Leaf () (Some p))
               else Two () (peer node) (Leaf () (Some p)) other)
      | Some c =>
          let left c := if d then child node false else Some c in
          if isDash (peer c) then
            c ← insertPeer fuel peers (left c) c p (S level);
            Ret (setChild node d c)
          else
            existing ← findPeer peers (peer c);
            c ← insertPeer fuel peers (left empty) empty existing (S level);
            c ← insertPeer fuel peers (left c) c p (S level);
            Ret (setChild node d c)
      end
  end.

Fixpoint cleanUpTree (node : Tree) : Tree :=
  match node with
  | Two a p c0 c1 =>
      if isDash (peer c0) && negb (isDash (peer c1)) then Leaf a (peer c1)
      else Two a p (cleanUpTree c0) (cleanUpTree c1)
  | _ => node
  end.

Fixpoint insertAll (peers : list GraphPeer) (root : Tree) (ps : list GraphPeer) : exec Tree :=
  match ps with
  | [] => Ret root
  | p :: ps => root ← insertPeer (insertFuel peers) peers None root p 0; insertAll peers root ps
  end.

(** [MinimumDistanceAlgorithm.peers] is the array itself. *)
Definition createBinaryTree (peers : list GraphPeer) : exec (option Tree) :=
  match peers with
  | [] => Ret None
  | first :: ps => t ← insertAll peers (Leaf () (Some first)) ps; Ret (Some (cleanUpTree t))
  end.

(** * Insertion of sorted peers *)

(** The order of the page: the distances agree up to a digit that is zero in the
    first and one in the second. *)
Definition before (p q : GraphPeer) : Prop :=
  exists k, (forall i, i < k -> digits p !! i = digits q !! i) /\
            digits p !! k = Some "0"%char /\ digits q !! k = Some "1"%char.

(** The distance starts with [pre]. *)
Definition has (pre : list ascii) (p : GraphPeer) : Prop := take (length pre) (digits p) = pre.
#[export] Instance has_dec pre p : Decision (has pre p).
Proof. unfold has. apply _. Defined.

Lemma has_snoc pre c p : has (pre ++ [c]) p <-> has pre p /\ digits p !! length pre = Some c.
Proof.
  unfold has. rewrite length_app, Nat.add_1_r. split.
  - intros H. assert (digits p !! length pre = Some c) as Hc.
    { rewrite <- (lookup_take_lt _ (S (length pre))), H by lia. by rewrite lookup_app_r, Nat.sub_diag by lia. }
    split; [|done]. rewrite (take_S_r _ _ c) in H by done. by apply app_inj_tail in H as [-> _].
  - intros [H1 H2]. by rewrite (take_S_r _ _ c), H1 by done.
Qed.

Lemma has_agree pre p q i : has pre p -> has pre q -> i < length pre -> digits p !! i = digits q !! i.
Proof.
  unfold has. intros Hp Hq Hi. rewrite <- (lookup_take_lt (digits p) (length pre)) by done.
  rewrite <- (lookup_take_lt (digits q) (length pre)) by done. by rewrite Hp, Hq.
Qed.

Lemma before_digits p q : before p q -> digits p <> digits q.
Proof. intros (k & _ & H0 & H1) Heq. rewrite Heq in H0. congruence. Qed.

Lemma before_asym p q : before p q -> before q p -> False.
Proof.
  intros (k & A1 & B1 & C1) (l & A2 & B2 & C2).
  destruct (Nat.lt_trichotomy k l) as [Hk|[->|Hk]]; [specialize (A2 _ Hk)| |specialize (A1 _ Hk)]; congruence.
Qed.

(** A peer on the right of another is not before it. *)
Lemma before_sides pre p q :
  has (pre ++ ["1"%char]) p -> has (pre ++ ["0"%char]) q -> ~ before p q.
Proof.
  intros [Hp Hp1]%has_snoc [Hq Hq0]%has_snoc (k & Hk & H0 & H1).
  destruct (Nat.lt_trichotomy k (length pre)) as [Hlt|[->|Hlt]].
  - pose proof (has_agree pre p q k Hp Hq Hlt). congruence.
  - congruence.
  - specialize (Hk _ Hlt). congruence.
Qed.

Definition peerLeaf {A} (t : DhtGraphNode A) : bool :=
  match t with Leaf _ (Some _) => true | _ => false end.

Section Sorted.
(** The peers in order of their distances, all with [L] binary digits. *)
Context (peers : list GraphPeer) (L : nat).
Hypothesis Hlen : forall p, p ∈ peers -> length (digits p) = L.
Hypothesis Hbin : forall p, p ∈ peers -> Forall (fun c => c = "0"%char \/ c = "1"%char) (digits p).
Hypothesis Hsorted : StronglySorted before peers.
Hypothesis Hpos : NoDup (position <$> peers).

(** The tree below the digits [pre] holds the peers [ps], in order, each on the
    path of its digits; inner nodes are placeholders with a peer below, directly
    below when it is the only one, and a peer on the right has no tree on its
    left.  A single peer on the left is a leaf, and one on the right next to it is so
    too unless a later peer shares its digits up to there. *)
Definition snug {A} (pre : list ascii) (c0 c1 : DhtGraphNode A) (ps0 ps1 : list GraphPeer) : Prop :=
  (isLeaf c0 = false -> length ps0 <> 1) /\
  (isLeaf c1 = false -> peerLeaf c0 = true -> forall p, ps1 = [p] -> exists r, r ∈ peersAfter peers p /\ has pre r).

Fixpoint trie {A} (pre : list ascii) (t : DhtGraphNode A) (ps : list GraphPeer) : Prop :=
  match t with
  | Leaf _ None => ps = []
  | Leaf _ (Some p) => ps = [p]
  | One _ _ _ => False
  | Two _ x c0 c1 =>
      x = None /\ ps <> [] /\ (peerLeaf c1 = true -> isLeaf c0 = true) /\
      (length ps = 1 -> peerLeaf c0 = true \/ peerLeaf c1 = true) /\
      exists ps0 ps1, ps = ps0 ++ ps1 /\
        Forall (has (pre ++ ["0"%char])) ps0 /\ Forall (has (pre ++ ["1"%char])) ps1 /\
        trie (pre ++ ["0"%char]) c0 ps0 /\ trie (pre ++ ["1"%char]) c1 ps1 /\ snug pre c0 c1 ps0 ps1
  end.

Lemma trie_nil {A} pre (t : DhtGraphNode A) : trie pre t [] -> isLeaf t = true /\ peer t = None.
Proof. destruct t as [? []|?|?]; cbn; naive_solver. Qed.

Lemma trie_leaf {A} pre (t : DhtGraphNode A) ps :
  trie pre t ps -> isLeaf t = true -> peerLeaf t = false -> ps = [] /\ peer t = None.
Proof. by destruct t as [? []|?|?]. Qed.

Lemma peer_not_dash p : p ∈ peers -> isDash (Some p) = false.
Proof.
  intros Hp. cbn. apply bool_decide_eq_false. intros Hd. specialize (Hbin p Hp). rewrite Hd in Hbin.
  apply Forall_cons in Hbin as [[|] _]; done.
Qed.

Lemma peers_split d p rest : peers = d ++ p :: rest ->
  p ∈ peers /\ (forall q, q ∈ d -> q ∈ peers /\ before q p) /\ (forall r, r ∈ rest -> r ∈ peers /\ before p r).
Proof.
  intros Heq. rewrite Heq in Hsorted |- *. apply StronglySorted_app in Hsorted as (H1 & _ & H2).
  apply StronglySorted_inv in H2 as [_ H2]. rewrite Forall_forall in H2.
  split; [set_solver|]. split; intros q Hq.
  - split; [set_solver|]. apply H1; [done|set_solver].
  - split; [set_solver|]. auto.
Qed.

Lemma peersAfter_split d p rest : peers = d ++ p :: rest -> peersAfter peers p = rest.
Proof.
  intros Heq. unfold peersAfter.
  assert (findIndex (fun q => bool_decide (position q = position p)) peers = Some (length d)) as ->.
  { apply findIndex_Some. rewrite Heq. split.
    - exists p. rewrite list_lookup_middle by done. split; [done|]. by apply bool_decide_eq_true.
    - intros j x Hj Hx. rewrite lookup_app_l in Hx by done. apply bool_decide_eq_false. intros E.
      rewrite Heq, fmap_app, fmap_cons in Hpos. apply NoDup_app in Hpos as (_ & Hd & _).
      apply (Hd (position x)); [|rewrite E; set_solver]. apply list_elem_of_fmap_2.
      by eapply list_elem_of_lookup_2. }
  rewrite Heq. rewrite cons_middle, app_assoc. rewrite drop_app_length'; [done|].
  rewrite length_app. cbn. lia.
Qed.

Lemma findPeer_self q : q ∈ peers -> findPeer peers (Some q) = Ret q.
Proof.
  intros Hq. apply list_elem_of_split in Hq as (d & rest & Heq). unfold findPeer. cbn.
  destruct (peers_split d q rest Heq) as (_ & Hd & _).
  assert (List.find (fun p => bool_decide (digits p = digits q)) peers = Some q) as ->; [|done].
  rewrite Heq. clear Heq. induction d as [|x d IH]; cbn.
  - by rewrite bool_decide_true.
  - rewrite bool_decide_false; [|apply before_digits, Hd; set_solver]. apply IH. set_solver.
Qed.

Lemma direction_digit p pre : p ∈ peers -> has pre p -> length pre < L ->
  has (pre ++ [if direction p (length pre) then "1"%char else "0"%char]) p.
Proof.
  intros Hp Hh Hl. apply has_snoc. split; [done|].
  destruct (lookup_lt_is_Some_2 (digits p) (length pre)) as [c Hc]; [rewrite Hlen; done|].
  specialize (Hbin p Hp). rewrite Forall_forall in Hbin.
  destruct (Hbin c) as [->| ->]; [by eapply list_elem_of_lookup_2|..]; unfold direction; rewrite Hc;
    [rewrite bool_decide_true by done|rewrite bool_decide_false by done]; done.
Qed.

Lemma has_length pre p : p ∈ peers -> has pre p -> length pre <= L.
Proof.
  intros Hp Hh. rewrite <- (Hlen p Hp). unfold has in Hh. rewrite <- Hh at 1. rewrite length_take. lia.
Qed.

(** Two peers with the same first digits have further digits. *)
Lemma has_two pre p q : p ∈ peers -> q ∈ peers -> before p q -> has pre p -> has pre q -> length pre < L.
Proof.
  intros Hp Hq (k & _ & H0 & H1) Hhp Hhq. pose proof (has_length pre p Hp Hhp).
  destruct (decide (k < length pre)) as [Hk|Hk].
  - pose proof (has_agree pre p q k Hhp Hhq Hk). congruence.
  - apply lookup_lt_Some in H0. rewrite Hlen in H0 by done. lia.
Qed.

Lemma takesNode_left {A} (child0 : option (DhtGraphNode A)) node p level :
  takesNode peers child0 node p level = true ->
  isLeaf node = true /\ exists c0, child0 = Some c0 /\ isLeaf c0 = true.
Proof.
  unfold takesNode. destruct level; [done|]. destruct child0 as [[? [q|]|?|?]|]; rewrite ?andb_false_r; try done.
  intros H. js_simpl. destruct H as (_ & ((_ & Hleaf) & _) & _). eauto.
Qed.

(** The earlier of two peers below the same node does not take it. *)
Lemma takesNode_earlier {A} (child0 : option (DhtGraphNode A)) node d q d2 p rest pre c :
  peers = d ++ q :: d2 ++ p :: rest -> has (pre ++ [c]) q -> has (pre ++ [c]) p ->
  takesNode peers child0 node q (length (pre ++ [c])) = false.
Proof.
  intros Heq [Hq Hqc]%has_snoc [Hp _]%has_snoc. rewrite length_app, Nat.add_1_r. cbn [takesNode].
  apply andb_false_iff. destruct child0 as [[? [x|]|?|?]|]; try (right; done). right.
  apply andb_false_iff. right. rewrite (peersAfter_split d q (d2 ++ p :: rest)) by done.
  apply not_true_iff_false. rewrite forallb_forall. intros Hall. specialize (Hall p).
  rewrite <- list_elem_of_In in Hall. specialize (Hall ltac:(set_solver)).
  unfold has in Hp, Hq. rewrite Hp, Hq in Hall. by rewrite bool_decide_true in Hall.
Qed.

(** The last peer with its digits takes the empty node next to its sibling when
    no digit is left. *)
Lemma takesNode_last {A} (a : A) d p rest q pre node :
  peers = d ++ p :: rest -> q ∈ d -> isLeaf node = true -> length pre + 1 = L ->
  has (pre ++ ["0"%char]) q -> has (pre ++ ["1"%char]) p ->
  takesNode peers (Some (Leaf a (Some q))) node p (S (length pre)) = true.
Proof.
  intros Heq Hq Hleaf HL Hhq Hhp. destruct (peers_split d p rest Heq) as (Hp & Hd & Hrest).
  pose proof Hhp as [Hp0 Hp1]%has_snoc. pose proof Hhq as [Hq0 _]%has_snoc. unfold takesNode.
  rewrite bool_decide_true by done. rewrite (peer_not_dash q) by (by apply Hd).
  rewrite Hleaf. unfold has in Hp0, Hq0. rewrite (bool_decide_true (take _ _ = _)) by congruence. cbn.
  rewrite (peersAfter_split d p rest) by done. apply forallb_forall. intros r Hr%list_elem_of_In.
  destruct (Hrest r Hr) as [Hrp Hpr]. apply negb_true_iff, bool_decide_eq_false. intros E.
  assert (has pre r) as Hr0 by (unfold has; congruence).
  pose proof (direction_digit r pre Hrp Hr0 ltac:(lia)) as Hdir. destruct (direction r (length pre)).
  - pose proof (has_two _ _ _ Hp Hrp Hpr Hhp Hdir) as Hlt. rewrite length_app in Hlt. cbn in Hlt. lia.
  - by apply (before_sides pre p r).
Qed.

(** A peer that does not take the empty node next to a peer waits for a later one. *)
Lemma takesNode_waits (c : Tree) p q pre : q ∈ peers -> isLeaf c = true -> has pre q -> has (pre ++ ["1"%char]) p ->
  takesNode peers (Some (Leaf () (Some q))) c p (S (length pre)) = false ->
  exists r, r ∈ peersAfter peers p /\ has pre r.
Proof.
  intros Hq Hc Hhq [Hhp Hp1]%has_snoc. unfold takesNode. rewrite bool_decide_true by done.
  rewrite (peer_not_dash q Hq), Hc. unfold has in Hhq, Hhp.
  rewrite (bool_decide_true (take _ (digits q) = _)) by congruence. cbn [andb negb]. intros Hf.
  apply not_true_iff_false in Hf. rewrite forallb_forall in Hf.
  destruct (decide (Exists (has pre) (peersAfter peers p))) as [He|Hn].
  { apply Exists_exists in He as (r & Hr & Hh). eauto. }
  destruct Hf. intros r Hr%list_elem_of_In. apply negb_true_iff, bool_decide_eq_false. intros E. apply Hn.
  apply Exists_exists. exists r. split; [done|]. unfold has. congruence.
Qed.

(** What an insertion gives: the tree with the peer added behind the others; the
    peer itself becomes the node only when it takes an empty one. *)
Definition inserted (pre : list ascii) (child0 : option Tree) (t : Tree) (ps : list GraphPeer)
  (p : GraphPeer) (r : exec Tree) : Prop :=
  exists t', r = Ret t' /\ trie pre t' (ps ++ [p]) /\
             peerLeaf t' = takesNode peers child0 t p (length pre).

Definition goesOn (pre : list ascii) (child0 : option Tree) (t : Tree) (p : GraphPeer) : Prop :=
  length pre < L \/ takesNode peers child0 t p (length pre) = true.

Lemma insert_leaf fuel pre child0 p d rest :
  L + 2 <= fuel + length pre -> peers = d ++ p :: rest -> has pre p ->
  goesOn pre child0 empty p ->
  inserted pre child0 empty [] p (insertPeer fuel peers child0 empty p (length pre)).
Proof.
  intros Hf Heq Hh Hgo. destruct (peers_split d p rest Heq) as (Hp & _ & _).
  pose proof (has_length pre p Hp Hh) as HL. destruct fuel as [|fuel]; [lia|]. cbn [insertPeer].
  rewrite (Hlen p Hp). destruct (Nat.ltb_spec L (length pre)) as [|_]; [lia|].
  replace (child empty (direction p (length pre))) with (@None Tree)
    by (by destruct (direction p (length pre))).
  unfold inserted. destruct (takesNode peers child0 empty p (length pre)) eqn:Ht.
  { eexists. split; [done|]. done. }
  destruct Hgo as [Hlt|?]; [|congruence].
  pose proof (direction_digit p pre Hp Hh Hlt) as Hdir.
  eexists. split; [done|].
  destruct (direction p (length pre)); cbn; split; try done; (split; [done|]); (split; [done|]);
    (split; [done|]); (split; [auto|]).
  - exists [], [p]. by rewrite Forall_singleton.
  - exists [p], []. by rewrite Forall_singleton.
Qed.

Definition insertSpec (fuel : nat) : Prop := forall pre child0 t ps p d rest,
  L + 2 <= fuel + length pre -> peers = d ++ p :: rest -> Forall (fun q => q ∈ d) ps ->
  Forall (has pre) ps -> has pre p -> trie pre t ps -> peerLeaf t = false -> goesOn pre child0 t p ->
  inserted pre child0 t ps p (insertPeer fuel peers child0 t p (length pre)).

(** The insertion into a child: a peer that is there already is pushed down. *)
Definition intoChild (fuel : nat) (left : Tree -> option Tree) (c : Tree) (p : GraphPeer) (level : nat)
  : exec Tree :=
  if isDash (peer c) then insertPeer fuel peers (left c) c p level
  else
    existing ← findPeer peers (peer c);
    c ← insertPeer fuel peers (left empty) empty existing level;
    insertPeer fuel peers (left c) c p level.

Lemma insert_child fuel left pre ch c ps p d rest :
  insertSpec fuel -> L + 2 <= fuel + length (pre ++ [ch]) -> peers = d ++ p :: rest ->
  Forall (fun q => q ∈ d) ps -> Forall (has (pre ++ [ch])) ps -> has (pre ++ [ch]) p ->
  trie (pre ++ [ch]) c ps -> (peerLeaf c = false -> goesOn (pre ++ [ch]) (left c) c p) ->
  exists c', intoChild fuel left c p (length (pre ++ [ch])) = Ret c' /\ trie (pre ++ [ch]) c' (ps ++ [p]) /\
    (peerLeaf c' = true -> exists c0, left c = Some c0 /\ isLeaf c0 = true) /\
    (peerLeaf c = false -> peerLeaf c' = takesNode peers (left c) c p (length (pre ++ [ch]))).
Proof.
  intros IH Hf Heq Hps Hhas Hp Ht Hgo. destruct (peers_split d p rest Heq) as (Hpin & Hd & _).
  unfold intoChild. destruct (peerLeaf c) eqn:Hc.
  - destruct c as [? [q|]|?|?]; try done. cbn in Ht. subst ps. rewrite Forall_singleton in Hps, Hhas.
    destruct (Hd q Hps) as [Hqin Hqp]. cbn [peer]. rewrite (peer_not_dash q Hqin), (findPeer_self q Hqin).
    cbn [mbind exec_bind]. pose proof (has_two _ _ _ Hqin Hpin Hqp Hhas Hp) as Hlt.
    apply list_elem_of_split in Hps as (d1 & d2 & ->).
    rewrite <- app_assoc, <- app_comm_cons in Heq.
    destruct (IH (pre ++ [ch]) (left empty) empty [] q d1 (d2 ++ p :: rest))
      as (c1 & -> & Ht1 & Hp1); try done; [by left|].
    cbn [mbind exec_bind app] in *. rewrite (takesNode_earlier _ _ d1 q d2 p rest) in Hp1 by done.
    destruct (IH (pre ++ [ch]) (left c1) c1 [q] p (d1 ++ q :: d2) rest) as (c2 & -> & Ht2 & Hp2); try done.
    { by rewrite <- app_assoc. } { apply Forall_singleton. set_solver. } { by apply Forall_singleton. } { by left. }
    eexists. split; [done|]. split; [done|]. split; [|done]. rewrite Hp2. intros [Hl _]%takesNode_left.
    by destruct (trie_leaf _ _ _ Ht1 Hl Hp1).
  - assert (isDash (peer c) = true) as ->.
    { destruct c as [? [|]|?|?]; try done. by destruct Ht as [-> _]. }
    destruct (IH (pre ++ [ch]) (left c) c ps p d rest) as (c1 & -> & Ht1 & Hp1); try done; [by apply Hgo|].
    eexists. split; [done|]. split; [done|]. split; [|done]. rewrite Hp1. by intros [_ H]%takesNode_left.
Qed.

(** Below the last digit there is a single peer. *)
Lemma trie_full {A} pre (t : DhtGraphNode A) ps :
  length pre = L -> ps <> [] -> Forall (fun q => q ∈ peers) ps -> trie pre t ps ->
  exists a q, t = Leaf a (Some q) /\ ps = [q].
Proof.
  intros HL Hne Hin. destruct t as [a [q|]|?|a x c0 c1]; cbn; try (by intros ->; eauto); [done|].
  intros (_ & _ & _ & _ & ps0 & ps1 & -> & H0 & H1 & _). exfalso.
  destruct ps0 as [|q ps0]; [destruct ps1 as [|q ps1]; [done|]|].
  - apply Forall_cons in H1 as [Hq _]. apply Forall_cons in Hin as [Hin _].
    pose proof (has_length _ _ Hin Hq) as H. rewrite length_app in H. cbn in H. lia.
  - apply Forall_cons in H0 as [Hq _]. apply Forall_cons in Hin as [Hin _].
    pose proof (has_length _ _ Hin Hq) as H. rewrite length_app in H. cbn in H. lia.
Qed.

Lemma insert_two fuel a pre child0 c0 c1 ps p d rest :
  insertSpec fuel -> L + 2 <= S fuel + length pre -> peers = d ++ p :: rest ->
  Forall (fun q => q ∈ d) ps -> Forall (has pre) ps -> has pre p -> trie pre (Two () a c0 c1) ps -> length pre < L ->
  inserted pre child0 (Two () a c0 c1) ps p
    (insertPeer (S fuel) peers child0 (Two () a c0 c1) p (length pre)).
Proof.
  intros IH Hf Heq Hps Hhas Hp Ht Hlt. destruct (peers_split d p rest Heq) as (Hpin & Hd & _).
  destruct Ht as (-> & Hne & Hpl & Hone & ps0 & ps1 & -> & H0 & H1 & T0 & T1 & Sn).
  pose proof (direction_digit p pre Hpin Hp Hlt) as Hdir.
  apply Forall_app in Hps as [Hps0 Hps1].
  assert (takesNode peers child0 (Two () None c0 c1) p (length pre) = false) as Htake.
  { apply not_true_iff_false. by intros [? _]%takesNode_left. }
  unfold inserted. rewrite Htake. cbn [insertPeer]. rewrite (Hlen p Hpin).
  destruct (Nat.ltb_spec L (length pre)) as [|_]; [lia|].
  assert (forall ch, S (length pre) = length (pre ++ [ch])) as Hl by (intros; rewrite length_app; cbn; lia).
  destruct (direction p (length pre)); cbn [child].
  - destruct (insert_child fuel (fun _ => Some c0) pre "1"%char c1 ps1 p d rest) as (c' & Hc & Tc & Lc & Kc);
      try done; [rewrite <- Hl; lia| |].
    { intros Hnl. unfold goesOn. rewrite <- Hl. destruct (decide (S (length pre) < L)) as [?|Hge]; [by left|].
      right. assert (ps1 = []) as ->.
      { destruct ps1 as [|q ps1]; [done|]. apply Forall_cons in Hps1 as [Hq _]. apply Forall_cons in H1 as [Hhq _].
        destruct (Hd q Hq) as [Hqin Hqp]. pose proof (has_two _ _ _ Hqin Hpin Hqp Hhq Hdir) as Hx.
        rewrite <- Hl in Hx. lia. }
      rewrite app_nil_r in Hne. apply trie_nil in T1 as [Hleaf _].
      destruct (trie_full _ _ _ ltac:(rewrite <- Hl; lia) Hne
        ltac:(eapply Forall_impl; [exact Hps0|]; intros q Hq; by apply Hd) T0) as ([] & q & -> & ->).
      rewrite Forall_singleton in Hps0, H0. eapply takesNode_last; eauto. lia. }
    exists (Two () None c0 c'). split; [|split; [|done]].
    + rewrite (Hl "1"%char). unfold intoChild in Hc. destruct (isDash (peer c1)); [by rewrite Hc|].
      apply exec_bind_Ret in Hc as (ex & -> & Hc). cbn [mbind exec_bind].
      apply exec_bind_Ret in Hc as (c2 & -> & Hc). cbn [mbind exec_bind]. by rewrite Hc.
    + cbn. split; [done|]. split; [by destruct (ps0 ++ ps1)|]. split.
      { intros Hpl'. by destruct (Lc Hpl') as (? & [= <-] & ?). }
      split; [rewrite length_app; cbn; destruct (ps0 ++ ps1); [done|cbn; lia]|].
      exists ps0, (ps1 ++ [p]). rewrite app_assoc, Forall_app, Forall_singleton. split_and!; try done.
      split; [apply Sn|]. intros Hnl Hpl0 q Eq. assert (ps1 = [] /\ q = p) as [-> ->] by (by destruct ps1 as [|? []]; simplify_eq/=).
      destruct c0 as [[] [q0|]|?|?]; try done. cbn in T0. subst ps0. destruct (trie_nil _ _ T1) as [Hlf Hno].
      assert (peerLeaf c1 = false) as Hpc by (by destruct c1 as [? []|?|?]).
      apply takesNode_waits with (c := c1) (q := q0); try done.
      { apply Hd. by rewrite Forall_singleton in Hps0. } { rewrite Forall_singleton in H0. by apply has_snoc in H0 as [? _]. }
      rewrite (Hl "1"%char), <- Kc by done. by destruct c'.
  - assert (ps1 = []) as ->.
    { destruct ps1 as [|q ps1]; [done|]. exfalso. apply Forall_cons in Hps1 as [Hq _].
      apply Forall_cons in H1 as [Hhq _]. destruct (Hd q Hq) as [_ Hqp]. by eapply before_sides. }
    rewrite app_nil_r in *.
    destruct (insert_child fuel Some pre "0"%char c0 ps0 p d rest) as (c' & Hc & Tc & Lc & Kc); try done;
      [rewrite <- Hl; lia| |].
    { intros _. left. destruct ps0 as [|q ps0]; [done|]. apply Forall_cons in Hps0 as [Hq _].
      apply Forall_cons in H0 as [Hhq _]. destruct (Hd q Hq) as [Hqin Hqp]. exact (has_two _ _ _ Hqin Hpin Hqp Hhq Hdir). }
    exists (Two () None c' c1). split; [|split; [|done]].
    + rewrite (Hl "0"%char). unfold intoChild in Hc. destruct (isDash (peer c0)); [by rewrite Hc|].
      apply exec_bind_Ret in Hc as (ex & -> & Hc). cbn [mbind exec_bind].
      apply exec_bind_Ret in Hc as (c2 & -> & Hc). cbn [mbind exec_bind]. by rewrite Hc.
    + cbn. split; [done|]. split; [by destruct ps0|]. split.
      { destruct (trie_nil _ _ T1) as [H2 H3]. destruct c1 as [? []|?|?]; done. }
      split; [rewrite length_app; cbn; destruct ps0; [done|cbn; lia]|].
      exists (ps0 ++ [p]), []. rewrite app_nil_r, Forall_app, Forall_singleton. split_and!; try done.
      split; [|done]. intros _. rewrite length_app. destruct ps0; [done|cbn; lia].
Qed.

Lemma insert_spec fuel : insertSpec fuel.
Proof.
  induction fuel as [|fuel IH]; intros pre child0 t ps p d rest Hf Heq Hps Hhas Hp Ht Hl Hgo.
  - destruct (peers_split d p rest Heq) as (Hpin & _ & _). pose proof (has_length pre p Hpin Hp). lia.
  - destruct t as [[] [q|]|?|[] x c0 c1]; try done.
    + cbn in Ht. subst ps. by eapply (insert_leaf (S fuel) pre child0).
    + eapply insert_two; eauto. destruct Hgo as [?|Hgo]; [done|].
      by apply takesNode_left in Hgo as [? _].
Qed.

(** * The root *)

Lemma max_list_with_le {A} (f : A -> nat) l x : x ∈ l -> f x <= max_list_with f l.
Proof.
  induction l as [|y l IH]; [by intros ?%not_elem_of_nil|]. cbn.
  intros [->|Hx]%elem_of_cons; [lia|]. specialize (IH Hx). lia.
Qed.

(** The root keeps its own peer. *)
Definition rootTrie (o : GraphPeer) (t : Tree) (ps : list GraphPeer) : Prop :=
  match t with
  | Leaf _ x => x = Some o /\ ps = []
  | One _ _ _ => False
  | Two _ x c0 c1 => x = Some o /\ trie [] (Two () None c0 c1) ps
  end.

Definition setPeer (x : NodePeer) (t : Tree) : Tree :=
  match t with Leaf a _ => Leaf a x | One a _ c => One a x c | Two a _ c0 c1 => Two a x c0 c1 end.

(** Nothing at the first level looks at the peer of the root. *)
Lemma insert_setPeer fuel x t p :
  insertPeer (S fuel) peers None (setPeer x t) p 0 = setPeer x <$> insertPeer (S fuel) peers None t p 0.
Proof.
  cbn [insertPeer]. destruct (length (digits p) <? 0) eqn:E; [done|]. cbn [takesNode].
  destruct t as [[] y|[] y c|[] y c0 c1], (direction p 0); cbn [setPeer child negb]; try done.
  - destruct (isDash (peer c)).
    + by destruct (insertPeer _ _ _ _ _ _).
    + destruct (findPeer _ _); [|done]. cbn [mbind exec_bind]. destruct (insertPeer _ _ _ _ _ _); [|done].
      cbn [mbind exec_bind]. by destruct (insertPeer _ _ _ _ _ _).
  - destruct (isDash (peer c1)).
    + by destruct (insertPeer _ _ _ _ _ _).
    + destruct (findPeer _ _); [|done]. cbn [mbind exec_bind]. destruct (insertPeer _ _ _ _ _ _); [|done].
      cbn [mbind exec_bind]. by destruct (insertPeer _ _ _ _ _ _).
  - destruct (isDash (peer c0)).
    + by destruct (insertPeer _ _ _ _ _ _).
    + destruct (findPeer _ _); [|done]. cbn [mbind exec_bind]. destruct (insertPeer _ _ _ _ _ _); [|done].
      cbn [mbind exec_bind]. by destruct (insertPeer _ _ _ _ _ _).
Qed.

Lemma insert_root o t ps p rest :
  peers = (o :: ps) ++ p :: rest -> rootTrie o t ps ->
  exists t', insertPeer (insertFuel peers) peers None t p 0 = Ret t' /\ rootTrie o t' (ps ++ [p]).
Proof.
  intros Heq Hroot. destruct (peers_split (o :: ps) p rest Heq) as (Hp & Hd & _).
  assert (o ∈ o :: ps) as Ho by set_solver. destruct (Hd o Ho) as [Hoin Hop].
  assert (0 < L) as HL by (by eapply (has_two [] o p)).
  assert (exists t0, t = setPeer (Some o) t0 /\ trie [] t0 ps /\ peerLeaf t0 = false) as (t0 & -> & Ht & Hl).
  { destruct t as [[] x|?|[] x c0 c1]; cbn in Hroot; [|done|].
    - destruct Hroot as [-> ->]. by exists empty.
    - destruct Hroot as [-> Ht]. by exists (Two () None c0 c1). }
  assert (insertFuel peers = S (S (max_list_with (fun p => length (digits p)) peers))) as Hfuel by done.
  assert (L <= max_list_with (fun p => length (digits p)) peers) as Hmax.
  { rewrite <- (Hlen p Hp). by apply (max_list_with_le (fun p => length (digits p))). }
  rewrite Hfuel, insert_setPeer, <- Hfuel.
  destruct (insert_spec (insertFuel peers) [] None t0 ps p (o :: ps) rest) as (t' & H1 & H2 & H3); try done.
  - rewrite Hfuel. cbn. lia.
  - apply Forall_forall. set_solver.
  - apply Forall_forall. done.
  - by left.
  - cbn [length] in H1, H3. rewrite H1. exists (setPeer (Some o) t'). split; [done|].
    destruct t' as [[] [q|]|?|[] x c0 c1]; cbn in H3; try done.
    cbn. split; [done|]. by destruct H2 as (-> & ?).
Qed.

Lemma insertAll_spec o : forall todo done t,
  peers = (o :: done) ++ todo -> rootTrie o t done ->
  exists t', insertAll peers t todo = Ret t' /\ rootTrie o t' (done ++ todo).
Proof.
  induction todo as [|p todo IH]; intros done t Heq Ht; cbn [insertAll].
  - exists t. by rewrite app_nil_r.
  - destruct (insert_root o t done p todo Heq Ht) as (t1 & -> & Ht1). cbn [mbind exec_bind].
    destruct (IH (done ++ [p]) t1) as (t2 & H2 & Ht2).
    { by rewrite app_comm_cons, <- app_assoc. } { done. }
    exists t2. by rewrite <- app_assoc in Ht2.
Qed.

(** * Cleaning up *)

(** The tree below the digits [pre] holds the peers [ps], each below the digits
    it starts with, and no inner node is empty. *)
Fixpoint holds {A} (pre : list ascii) (t : DhtGraphNode A) (ps : list GraphPeer) : Prop :=
  match t with
  | Leaf _ None => ps = []
  | Leaf _ (Some p) => ps = [p] /\ has pre p
  | One _ _ _ => False
  | Two _ x c0 c1 => x = None /\ ps <> [] /\ exists ps0 ps1, ps = ps0 ++ ps1 /\
      holds (pre ++ ["0"%char]) c0 ps0 /\ holds (pre ++ ["1"%char]) c1 ps1
  end.

Lemma cleanUp_holds pre : forall (t : Tree) ps,
  trie pre t ps -> Forall (fun q => q ∈ peers) ps -> Forall (has pre) ps -> holds pre (cleanUpTree t) ps.
Proof.
  intros t. revert pre. induction t as [? [p|]|?|[] x c0 IH0 c1 IH1]; intros pre ps Ht Hin Hhas; cbn in *;
    [|done|done|].
  - subst ps. by rewrite Forall_singleton in Hhas.
  - destruct Ht as (-> & Hne & Hpl & Hone & ps0 & ps1 & -> & H0 & H1 & T0 & T1 & Sn).
    apply Forall_app in Hin as [Hin0 Hin1]. apply Forall_app in Hhas as [Hh0 Hh1].
    destruct (isDash (peer c0) && negb (isDash (peer c1))) eqn:E.
    + js_simpl. destruct E as [E0 E1]. destruct c1 as [? [q|]|?|? y ? ?]; try done.
      2: { by destruct T1 as [-> _]. }
      specialize (Hpl eq_refl). destruct c0 as [? [q0|]|?|?]; try done.
      { cbn in T0. subst ps0. rewrite Forall_singleton in Hin0. 
        change (isDash (Some q0) = true) in E0. by rewrite (peer_not_dash q0) in E0. }
      cbn in T0, T1. subst ps0 ps1. by rewrite Forall_singleton in Hh1.
    + cbn. split; [done|]. split; [done|]. exists ps0, ps1. eauto.
Qed.

(** The far half: the only other peer differs in the first digit. *)
Definition farPair (ps : list GraphPeer) : bool :=
  match ps with [q] => direction q 0 | _ => false end.

Lemma cleanUp_root o t ps :
  peers = o :: ps -> rootTrie o t ps ->
  if farPair ps then exists q, ps = [q] /\ cleanUpTree t = Leaf () (Some q)
  else peer (cleanUpTree t) = Some o /\ (isLeaf (cleanUpTree t) = bool_decide (ps = [])) /\
       (ps <> [] -> holds [] (setPeer None (cleanUpTree t)) ps).
Proof.
  intros Heq Ht. assert (Forall (fun q => q ∈ peers) ps) as Hin by (apply Forall_forall; intros q Hq; rewrite Heq; apply elem_of_cons; by right).
  destruct t as [[] x|?|[] x c0 c1]; cbn in Ht; [|done|].
  - destruct Ht as [-> ->]. by split_and!.
  - destruct Ht as (-> & Ht). pose proof (cleanUp_holds [] (Two () None c0 c1) ps Ht Hin
      ltac:(apply Forall_forall; done)) as Hc.
    destruct Ht as (_ & Hne & Hpl & Hone & ps0 & ps1 & -> & H0 & H1 & T0 & T1 & Sn). cbn [cleanUpTree] in *.
    apply Forall_app in Hin as [Hin0 Hin1].
    destruct (isDash (peer c0) && negb (isDash (peer c1))) eqn:E.
    + js_simpl. destruct E as [E0 E1]. destruct c1 as [? [q|]|?|? y ? ?]; try done.
      2: { by destruct T1 as [-> _]. }
      specialize (Hpl eq_refl). destruct c0 as [? [q0|]|?|?]; try done.
      { cbn in T0. subst ps0. rewrite Forall_singleton in Hin0. 
        change (isDash (Some q0) = true) in E0. by rewrite (peer_not_dash q0) in E0. }
      cbn in T0, T1. subst ps0 ps1. cbn. rewrite Forall_singleton in H1.
      apply (has_snoc []) in H1 as [_ H1]. unfold direction. cbn in H1. rewrite H1.
      rewrite bool_decide_false by done. cbn. eauto.
    + assert (farPair (ps0 ++ ps1) = false) as ->.
      { destruct ps0 as [|q ps0].
        - destruct ps1 as [|q [|]]; try done. exfalso. destruct (trie_nil _ _ T0) as [L0 P0].
          rewrite P0 in E. cbn in E. apply negb_false_iff in E. destruct (Hone eq_refl) as [Hp|Hp].
          + by destruct c0 as [? []|?|?].
          + destruct c1 as [? [q1|]|?|?]; try done. cbn in T1. injection T1 as <-. rewrite Forall_singleton in Hin1.
            change (isDash (Some q) = true) in E. by rewrite (peer_not_dash q) in E.
        - destruct ps0, ps1; try done. cbn. rewrite Forall_singleton in H0.
          apply (has_snoc []) in H0 as [_ H0]. cbn in H0. unfold direction. by rewrite H0. }
      cbn [peer isLeaf setPeer]. split; [done|]. split; [by rewrite bool_decide_false|]. intros _. exact Hc.
Qed.

(** * The depth of the tree *)

Fixpoint height {A} (t : DhtGraphNode A) : nat :=
  match t with
  | Leaf _ _ => 0
  | One _ _ c => S (height c)
  | Two _ _ c0 c1 => S (max (height c0) (height c1))
  end.

Lemma after_before p r : p ∈ peers -> r ∈ peersAfter peers p -> r ∈ peers /\ before p r.
Proof.
  intros Hp. apply list_elem_of_split in Hp as (d & rest & Heq). rewrite (peersAfter_split d p rest Heq).
  apply (peers_split d p rest Heq).
Qed.

(** Cleaning up replaces only the placeholder of a single peer. *)
Lemma cleanUp_two pre (c0 c1 : Tree) ps : trie pre (Two () None c0 c1) ps -> Forall (fun q => q ∈ peers) ps ->
  cleanUpTree (Two () None c0 c1) = Two () None (cleanUpTree c0) (cleanUpTree c1) \/
  length ps = 1 /\ height (cleanUpTree (Two () None c0 c1)) = 0.
Proof.
  intros (_ & Hne & Hpl & _ & ps0 & ps1 & -> & _ & _ & T0 & T1 & _) Hin. cbn [cleanUpTree].
  destruct (isDash (peer c0) && negb (isDash (peer c1))) eqn:E; [right; split; [|done]|by left].
  js_simpl. destruct E as [E0 E1]. apply Forall_app in Hin as [Hin0 _].
  destruct c1 as [? [q|]|?|? y ? ?]; try done; [|by destruct T1 as [-> _]].
  specialize (Hpl eq_refl). cbn in T1. subst ps1. destruct c0 as [? [q0|]|?|?]; try done; cbn in T0; subst ps0; [|done].
  rewrite Forall_singleton in Hin0. change (isDash (Some q0) = true) in E0. by rewrite (peer_not_dash q0) in E0.
Qed.

Lemma leaf_height (t : Tree) : isLeaf t = true -> height (cleanUpTree t) = 0.
Proof. by destruct t. Qed.

Lemma single_height pre (t : Tree) x : trie pre t [x] -> x ∈ peers -> height (cleanUpTree t) <= 1.
Proof.
  intros Ht Hx. destruct t as [|?|[] y c0 c1]; [cbn; lia|done|]. pose proof Ht as (-> & _ & Hpl & Hone & ps0 & ps1 & E & _ & _ & T0 & T1 & _).
  destruct (cleanUp_two pre c0 c1 [x] Ht) as [->|[_ ->]]; [by apply Forall_singleton| |lia]. cbn [height].
  assert (isLeaf c0 = true /\ isLeaf c1 = true) as [H0 H1]; [|by rewrite !leaf_height].
  destruct (Hone eq_refl) as [Hp|Hp].
  - destruct c0 as [? [q|]|?|?]; try done. cbn in T0. subst ps0. injection E as <- <-. by apply trie_nil in T1 as [? _].
  - split; [auto|]. by destruct c1.
Qed.

(** Of the peers of a node with several, two share their digits up to the level
    above its deepest leaf. *)
Definition tight (n : nat) (ps : list GraphPeer) : Prop :=
  exists p q, p ∈ ps /\ q ∈ ps /\ p <> q /\ take n (digits p) = take n (digits q).

Lemma tight_mono n ps ps' : tight n ps -> (forall p, p ∈ ps -> p ∈ ps') -> tight n ps'.
Proof. intros (p & q & Hp & Hq & Hpq) Hs. exists p, q. auto. Qed.

(** Every later peer with the digits of the node is below it. *)
Definition closed (pre : list ascii) (ps : list GraphPeer) : Prop :=
  forall p r, p ∈ ps -> r ∈ peersAfter peers p -> has pre r -> r ∈ ps.

Lemma closed_side pre c0 c1 ps0 ps1 ps : c0 <> c1 ->
  Forall (has (pre ++ [c1])) ps1 -> (forall p, p ∈ ps <-> p ∈ ps0 \/ p ∈ ps1) ->
  closed pre ps -> closed (pre ++ [c0]) ps0.
Proof.
  intros Hc H1 Hps Hcl p r Hp Hr Hh. pose proof Hh as [Hh0 Hd]%has_snoc.
  specialize (Hcl p r ltac:(apply Hps; by left) Hr Hh0). apply Hps in Hcl as [?|Hr1]; [done|].
  rewrite Forall_forall in H1. specialize (H1 r Hr1). apply has_snoc in H1 as [_ ?]. congruence.
Qed.

(** A peer alone on the right of a leaf is a leaf. *)
Lemma alone_on_right pre (c0 c1 : Tree) ps0 x :
  trie (pre ++ ["0"%char]) c0 ps0 -> snug pre c0 c1 ps0 [x] -> Forall (fun q => q ∈ peers) (ps0 ++ [x]) ->
  Forall (has (pre ++ ["0"%char])) ps0 -> has (pre ++ ["1"%char]) x -> closed pre (ps0 ++ [x]) ->
  length ps0 = 1 -> isLeaf c1 = true.
Proof.
  intros T0 [S0 S1] Hin H0 H1 Hcl Hl. destruct (isLeaf c1) eqn:E; [done|]. exfalso.
  destruct ps0 as [|q [|]]; try done. assert (peerLeaf c0 = true) as Hp.
  { destruct (isLeaf c0) eqn:E0; [|by destruct (S0 eq_refl)]. by destruct c0 as [? []|?|?]. }
  destruct (S1 eq_refl Hp x eq_refl) as (r & Hr & Hh). apply Forall_app in Hin as [Hq Hx].
  rewrite Forall_singleton in Hq, Hx, H0. destruct (after_before x r Hx Hr) as [_ Hb].
  specialize (Hcl x r ltac:(apply elem_of_app; right; by apply list_elem_of_singleton) Hr Hh).
  apply elem_of_app in Hcl as [->%list_elem_of_singleton| ->%list_elem_of_singleton].
  - by apply (before_sides pre x q).
  - by apply before_digits in Hb.
Qed.

Lemma height_tight : forall (t : Tree) pre ps, trie pre t ps -> Forall (fun q => q ∈ peers) ps ->
  Forall (has pre) ps -> NoDup ps -> closed pre ps -> 2 <= length ps ->
  1 <= height (cleanUpTree t) /\ tight (length pre + height (cleanUpTree t) - 1) ps.
Proof.
  induction t as [? [p|]|?|[] x c0 IH0 c1 IH1]; intros pre ps Ht Hin Hhas Hnd Hcl H2; cbn in Ht;
    [subst ps; cbn in H2; lia|subst ps; cbn in H2; lia|done|].
  pose proof Ht as (-> & _ & _ & _ & ps0 & ps1 & -> & H0 & H1 & T0 & T1 & Sn).
  destruct (cleanUp_two pre c0 c1 (ps0 ++ ps1) Ht Hin) as [-> |[H _]]; [|lia]. cbn [height]. split; [lia|].
  set (h0 := height (cleanUpTree c0)). set (h1 := height (cleanUpTree c1)).
  replace (length pre + S (max h0 h1) - 1) with (length pre + max h0 h1) by lia.
  pose proof Hin as Hall. apply Forall_app in Hin as [I0 I1]. apply NoDup_app in Hnd as (N0 & Hdis & N1).
  assert (2 <= length ps0 -> 1 <= h0 /\ tight (length pre + h0) (ps0 ++ ps1)) as B0.
  { intros Hl. destruct (IH0 (pre ++ ["0"%char]) ps0) as [Hh Ht0]; try done.
    - by apply (closed_side pre "0"%char "1"%char ps0 ps1 (ps0 ++ ps1)); [| |intros; apply elem_of_app|].
    - split; [done|]. rewrite length_app in Ht0. cbn in Ht0. fold h0 in Hh, Ht0.
      replace (length pre + 1 + h0 - 1) with (length pre + h0) in Ht0 by lia.
      eapply tight_mono; [exact Ht0|]. intros q Hq. apply elem_of_app. by left. }
  assert (2 <= length ps1 -> tight (length pre + h1) (ps0 ++ ps1)) as B1.
  { intros Hl. destruct (IH1 (pre ++ ["1"%char]) ps1) as [Hh Ht1]; try done.
    - apply (closed_side pre "1"%char "0"%char ps1 ps0 (ps0 ++ ps1)); try done. intros. rewrite elem_of_app. tauto.
    - rewrite length_app in Ht1. cbn in Ht1. fold h1 in Ht1.
      replace (length pre + 1 + h1 - 1) with (length pre + h1) in Ht1 by lia.
      eapply tight_mono; [exact Ht1|]. intros q Hq. apply elem_of_app. by right. }
  assert (length ps0 <= 1 -> h0 = 0) as A0.
  { intros Hl. destruct ps0 as [|q [|]]; [..|cbn in Hl; lia].
    - apply leaf_height. by apply trie_nil in T0 as [? _].
    - destruct (isLeaf c0) eqn:E; [by apply leaf_height|]. by destruct (proj1 Sn E). }
  assert (length ps1 <= 1 -> h1 <= 1 /\ (length ps0 <= 1 -> h1 = 0)) as A1.
  { intros Hl. destruct ps1 as [|q [|]]; [..|cbn in Hl; lia].
    - subst h1. rewrite leaf_height; [lia|]. by apply trie_nil in T1 as [? _].
    - rewrite Forall_singleton in I1, H1. split; [by apply (single_height (pre ++ ["1"%char]) c1 q)|].
      intros Hl0. apply leaf_height. apply (alone_on_right pre c0 c1 ps0 q); try done.
      rewrite length_app in H2. cbn in H2. lia. }
  destruct (decide (2 <= length ps0)) as [E0|E0], (decide (2 <= length ps1)) as [E1|E1].
  - destruct (Nat.max_dec h0 h1) as [-> | ->]; [by apply B0|by apply B1].
  - destruct (B0 E0) as [Hh Hb]. destruct A1 as [A1 _]; [lia|]. by replace (max h0 h1) with h0 by lia.
  - rewrite A0 by lia. by apply B1.
  - rewrite A0, (proj2 (A1 ltac:(lia))) by lia. rewrite Nat.max_0_r, Nat.add_0_r.
    rewrite length_app in H2. destruct ps0 as [|p [|]], ps1 as [|q [|]]; cbn in *; try lia.
    exists p, q. rewrite Forall_cons, Forall_singleton in Hhas. destruct Hhas as [Hp Hq]. unfold has in Hp, Hq.
    split_and!; [set_solver|set_solver| |congruence]. intros ->. apply (Hdis q); set_solver.
Qed.

(** The first [n] digits tell the peers apart. *)
Definition separates (n : nat) (ps : list GraphPeer) : Prop := NoDup ((fun p => take n (digits p)) <$> ps).

Lemma tight_separates n m ps : tight n ps -> separates m ps -> n < m.
Proof.
  intros (p & q & Hp & Hq & Hne & Heq) Hs. destruct (Nat.lt_ge_cases n m) as [|Hmn]; [done|]. exfalso. apply Hne.
  apply list_elem_of_lookup in Hp as [i Hi]. apply list_elem_of_lookup in Hq as [j Hj].
  assert (i = j); [|congruence]. eapply (NoDup_lookup _ _ _ (take m (digits p)) Hs); rewrite list_lookup_fmap.
  - by rewrite Hi.
  - rewrite Hj. cbn. f_equal. rewrite <- (Nat.min_l m n Hmn), <- !firstn_firstn. by rewrite Heq.
Qed.

(** The depth of the tree: the least number of digits that tells several peers
    apart; a single one is below the root, or replaces it. *)
Lemma root_height o t ps : peers = o :: ps -> rootTrie o t ps ->
  (2 <= length ps -> forall m, separates m ps -> height (cleanUpTree t) <= m) /\
  (length ps < 2 -> height (cleanUpTree t) = if bool_decide (ps = []) || farPair ps then 0 else 1).
Proof.
  intros Heq Ht. assert (forall q, q ∈ ps -> q ∈ peers) as Hin by (rewrite Heq; intros; apply elem_of_cons; by right).
  assert (Forall (fun q => q ∈ peers) ps) as Hall by (by apply Forall_forall).
  pose proof (cleanUp_root o t ps Heq Ht) as Hc.
  destruct t as [[] x|?|[] x c0 c1]; cbn in Ht; [|done|].
  { destruct Ht as [-> ->]. cbn. split; [lia|done]. }
  destruct Ht as [-> Ht].
  assert (height (cleanUpTree (Two () (Some o) c0 c1)) = height (cleanUpTree (Two () None c0 c1))) as E.
  { cbn [cleanUpTree]. by destruct (_ && _). }
  split; intros Hl.
  - intros m Hm. rewrite E. destruct (height_tight (Two () None c0 c1) [] ps Ht Hall) as [Hh Hti]; try done.
    + by apply Forall_forall.
    + rewrite Heq in Hpos. cbn in Hpos. apply NoDup_cons in Hpos as [_ Hpos']. by eapply NoDup_fmap_1.
    + intros p r Hp Hr _. destruct (after_before p r (Hin p Hp) Hr) as [Hr1 Hb]. rewrite Heq in Hr1.
      apply elem_of_cons in Hr1 as [->|?]; [|done]. exfalso.
      apply list_elem_of_split in Hp as (d1 & d2 & Hps).
      destruct (peers_split (o :: d1) p d2) as (_ & Hd & _); [by rewrite Heq, Hps|].
      destruct (Hd o ltac:(apply elem_of_cons; by left)) as [_ Hop]. by apply (before_asym o p).
    + apply (tight_separates _ m) in Hti; [|done]. cbn [length] in Hti. lia.
  - destruct ps as [|q [|]]; cbn in Hl; [by destruct Ht as (_ & ? & _)| |lia].
    rewrite bool_decide_false by done. cbn [orb]. destruct (farPair [q]).
    + by destruct Hc as (q' & _ & ->).
    + destruct Hc as (_ & Hleaf & _). rewrite bool_decide_false in Hleaf by done.
      pose proof (single_height [] (Two () None c0 c1) q Ht ltac:(apply Hin; by apply list_elem_of_singleton)) as Hs. rewrite <- E in Hs.
      destruct (cleanUpTree (Two () (Some o) c0 c1)); cbn in *; try done; lia.
Qed.

(** The peers of the leaves with the positions on the way to them. *)
Fixpoint placed {A} (path : list ascii) (t : DhtGraphNode A) : list (list ascii * GraphPeer) :=
  match t with
  | Leaf _ None => []
  | Leaf _ (Some p) => [(path, p)]
  | One _ _ c => placed (path ++ ["0"%char]) c
  | Two _ _ c0 c1 => placed (path ++ ["0"%char]) c0 ++ placed (path ++ ["1"%char]) c1
  end.

Lemma holds_placed {A} : forall (t : DhtGraphNode A) pre ps, holds pre t ps ->
  snd <$> placed pre t = ps /\ Forall (fun '(path, p) => has path p) (placed pre t).
Proof.
  induction t as [? [p|]|?|a x c0 IH0 c1 IH1]; intros pre ps H; cbn in *; try done.
  - destruct H as [-> H]. by rewrite Forall_singleton.
  - destruct H as (_ & _ & ps0 & ps1 & -> & H0 & H1). destruct (IH0 _ _ H0) as [<- F0].
    destruct (IH1 _ _ H1) as [<- F1]. by rewrite fmap_app, Forall_app.
Qed.

(** For sorted peers with different distances the tree lists every peer but
    the first exactly once, in order, at the end of a path of its own digits,
    and the first peer, the node itself, is the root; no insertion throws.  When
    there is only one other peer and it differs in the first digit, it replaces
    the root and the node itself is missing from the tree. *)
Theorem dht_tree_complete o ps :
  peers = o :: ps ->
  exists t, createBinaryTree peers = Ret (Some t) /\
    if farPair ps then placed [] t = [([], default o (head ps))] /\ peer t = head ps
    else peer t = Some o /\
         (ps <> [] -> snd <$> placed [] t = ps /\ Forall (fun '(path, p) => has path p) (placed [] t)).
Proof.
  intros Heq. destruct (insertAll_spec o ps [] (Leaf () (Some o))) as (t & Ht & Hr); [done|done|].
  assert (createBinaryTree peers = Ret (Some (cleanUpTree t))) as ->.
  { rewrite Heq in Ht |- *. cbn [createBinaryTree]. by rewrite Ht. }
  eexists. split; [done|]. pose proof (cleanUp_root o t ps Heq Hr) as Hc. destruct (farPair ps).
  - destruct Hc as (q & -> & ->). done.
  - destruct Hc as (H1 & _ & H2). split; [done|]. intros Hne. specialize (H2 Hne).
    apply holds_placed in H2. destruct (cleanUpTree t) as [? []|?|?]; cbn in *; try done.
    by destruct H2 as [H2 _].
Qed.

End Sorted.

(** * Examples *)

Definition demoPeer (distance : string) : NodeDht.NetworkNodeDhtPeer :=
  NodeDht.mkPeer "" "" 0 [] "" "" "" distance NodeDht.Dash "" 0.
Definition demoPeers : list GraphPeer :=
  [mkGraphPeer (demoPeer "000") 0; mkGraphPeer (demoPeer "011") 1; mkGraphPeer (demoPeer "101") 2;
   mkGraphPeer (demoPeer "110") 3].

(** Concrete binary digits. *)
Ltac binary_digits := repeat first [apply Forall_nil_2 | apply Forall_cons_2; [first [by left | by right]|]].

Lemma dht_tree_complete_witness :
  exists t, createBinaryTree demoPeers = Ret (Some t) /\
    peer t = Some (mkGraphPeer (demoPeer "000") 0) /\ snd <$> placed [] t = tail demoPeers.
Proof.
  destruct (dht_tree_complete demoPeers 3) with (o := mkGraphPeer (demoPeer "000") 0) (ps := tail demoPeers)
    as (t & H & Hp & Hq).
  - intros p Hp. repeat (apply elem_of_cons in Hp as [->|Hp]; [reflexivity|]). by apply not_elem_of_nil in Hp.
  - intros p Hp. repeat (apply elem_of_cons in Hp as [->|Hp]; [binary_digits|]). by apply not_elem_of_nil in Hp.
  - repeat constructor; first [exists 0; split; [intros i Hi; lia|by split]
      | exists 1; split; [intros [|i] Hi; [reflexivity|lia]|by split]].
  - repeat constructor; set_solver.
  - reflexivity.
  - exists t. split; [exact H|]. split; [exact Hp|]. apply Hq. discriminate.
Defined.

End DhtGraph.
