(* ===== verification/DhtEqual.v ===== *)
(** DHT graph (frontend/src/app/features/network/dht-graph): the algorithm the
    page uses, equal-distance-algorithm.ts, which draws all peers of the tree of
    DhtGraph.v at the same depth, and the component that feeds it. *)

From Stdlib Require Import Ascii.
From stdpp Require Import sorting.
From S2P Require Import Prelude JsRuntime TableSort NodeDht DhtGraph.

Module DhtEqual.
Import DhtGraph.

(** The fields [id] and [prevBranch]; the label of the root is [null]. *)
Record Fields := mkFields { id : option nat; prevBranch : option bool }.

Notation Tree := (DhtGraphNode Fields).

(** The static counter [id] is threaded through. *)
Definition empty (next : nat) (d : bool) : Tree := Leaf (mkFields (Some next) (Some d)) None.

(** [branch] is the index of the node in its parent. *)
Fixpoint insertPeer (fuel : nat) (peers : list GraphPeer) (child0 : option Tree) (branch : bool)
  (node : Tree) (p : GraphPeer) (level : nat) (next : nat) : exec (Tree * nat) :=
  match fuel with
  | 0 => Ret (node, next)
  | S fuel =>
      if length (digits p) <? level then Ret (node, next) else
      let d := direction p level in
      match child node d with
      | None =>
          if takesNode peers child0 node p level
          then Ret (Leaf (mkFields (Some next) (Some branch)) (Some p), S next) else
          let new := Leaf (mkFields (Some next) (Some d)) (Some p) in
          let '(other, next) := match child node (negb d) with
                                | Some c => (c, S next)
                                | None => (empty (S next) (negb d), S (S next))
                                end in
          Ret (if d then Two (fields node) (peer node) other new
               else Two (fields node) (peer node) new other, next)
      | Some c =>
          let left c := if d then child node false else Some c in
          if isDash (peer c) then
            '(c, next) ← insertPeer fuel peers (left c) d c p (S level) next;
            Ret (setChild node d c, next)
          else
            existing ← findPeer peers (peer c);
            let c := empty next d in
            '(c, next) ← insertPeer fuel peers (left c) d c existing (S level) (S next);
            '(c, next) ← insertPeer fuel peers (left c) d c p (S level) next;
            Ret (setChild node d c, next)
      end
  end.

Fixpoint cleanUpTree (node : Tree) : Tree :=
  match node with
  | Two a p c0 c1 =>
      if isDash (peer c0) && negb (isDash (peer c1)) then Leaf a (peer c1)
      else Two a p (cleanUpTree c0) (cleanUpTree c1)
  | _ => node
  end.

(** The greatest depth of a leaf, and of the value kept from earlier trees. *)
Fixpoint findMaxDistance (node : Tree) (distance maxDistance : nat) : nat :=
  match node with
  | Leaf _ _ => max maxDistance distance
  | One _ _ c => findMaxDistance c (S distance) maxDistance
  | Two _ _ c0 c1 => findMaxDistance c1 (S distance) (findMaxDistance c0 (S distance) maxDistance)
  end.

(** A leaf above the greatest depth becomes a chain of its next digits. *)
Fixpoint extendLeaf (n : nat) (a : Fields) (p : GraphPeer) (distance : nat) : Tree :=
  match n with
  | 0 => Leaf a (Some p)
  | S n =>
      let next b := One a None (extendLeaf n (mkFields None (Some b)) p (S distance)) in
      match digits p !! distance with
      | Some "0"%char => next false
      | Some "1"%char => next true
      | _ => Leaf a (Some p)
      end
  end.

(** [n] is the number of levels up to the greatest depth. *)
Fixpoint makeEqualDistancesForAllNodes (node : Tree) (branch : option bool) (distance n : nat) : Tree :=
  match n with
  | 0 => node
  | S m =>
      let relabel a := mkFields (id a) branch in
      match node with
      | Leaf a None => node
      | Leaf a (Some p) => if isDash (Some p) then node else extendLeaf n a p distance
      | One a p c => One (relabel a) p (makeEqualDistancesForAllNodes c (Some false) (S distance) m)
      | Two a p c0 c1 =>
          Two (relabel a) p (makeEqualDistancesForAllNodes c0 (Some false) (S distance) m)
            (makeEqualDistancesForAllNodes c1 (Some true) (S distance) m)
      end
  end.

(** An empty leaf is taken out of its parent's children; the child behind it
    moves to its place. *)
Definition isEmptyLeaf (t : Tree) : bool := isLeaf t && isDash (peer t).

Fixpoint removeEmptyNodes (node : Tree) : Tree :=
  match node with
  | Leaf _ _ => node
  | One a p c => if isEmptyLeaf c then Leaf a p else One a p (removeEmptyNodes c)
  | Two a p c0 c1 =>
      match isEmptyLeaf c0, isEmptyLeaf c1 with
      | true, true => Leaf a p
      | true, false => One a p (removeEmptyNodes c1)
      | false, true => One a p (removeEmptyNodes c0)
      | false, false => Two a p (removeEmptyNodes c0) (removeEmptyNodes c1)
      end
  end.

Fixpoint insertAll (peers : list GraphPeer) (root : Tree) (ps : list GraphPeer) (next : nat)
  : exec (Tree * nat) :=
  match ps with
  | [] => Ret (root, next)
  | p :: ps =>
      '(root, next) ← insertPeer (insertFuel peers) peers None false root p 0 next;
      insertAll peers root ps next
  end.

(** The static fields of the class, which survive the page. *)
Record Statics := mkStatics { nextId : nat; maxDistance : nat }.

(** The steps after cleaning up: the tree and the greatest depth. *)
Definition equalise (maxDistance : nat) (root : Tree) : exec (Tree * nat) :=
  let maxDistance := findMaxDistance root 0 maxDistance in
  let root := makeEqualDistancesForAllNodes root None 0 maxDistance in
  if isEmptyLeaf root then Throw (TypeError "Cannot read properties of null (reading 'children')")
  else Ret (removeEmptyNodes root, maxDistance).

Definition createBinaryTree (st : Statics) (peers : list GraphPeer) : exec (option Tree * Statics) :=
  match peers with
  | [] => Ret (None, st)
  | first :: ps =>
      '(root, next) ← insertAll peers (Leaf (mkFields None None) (Some first)) ps (nextId st);
      '(root, maxDistance) ← equalise (maxDistance st) (cleanUpTree root);
      Ret (Some root, mkStatics next maxDistance)
  end.

(** The component after the answer of the routing table. *)
Definition drawPeers (st : Statics) (ps : list NodeDht.NetworkNodeDhtPeer) : exec (option Tree * Statics) :=
  createBinaryTree st (sortPeers ps).

(** * The minimum tree behind it *)

Fixpoint erase (t : Tree) : DhtGraph.Tree :=
  match t with
  | Leaf _ p => Leaf () p
  | One _ p c => One () p (erase c)
  | Two _ p c0 c1 => Two () p (erase c0) (erase c1)
  end.

Lemma erase_peer t : DhtGraph.peer (erase t) = DhtGraph.peer t.
Proof. by destruct t. Qed.
Lemma erase_isLeaf t : isLeaf (erase t) = isLeaf t.
Proof. by destruct t. Qed.
Lemma erase_child t d : child (erase t) d = erase <$> child t d.
Proof. by destruct t, d. Qed.
Lemma erase_setChild t d c : erase (setChild t d c) = setChild (erase t) d (erase c).
Proof. by destruct t, d. Qed.
Lemma erase_height t : height (erase t) = height t.
Proof. induction t; cbn; congruence. Qed.
Lemma erase_takesNode peers c0 node p level :
  takesNode peers (erase <$> c0) (erase node) p level = takesNode peers c0 node p level.
Proof.
  unfold takesNode. destruct level as [|n]; [done|]. rewrite erase_isLeaf.
  by destruct c0 as [[? []|?|?]|].
Qed.

Notation erased r := ((fun x => erase x.1) <$> r).

Lemma insert_erase peers fuel : forall child0 branch node p level next,
  erased (insertPeer fuel peers child0 branch node p level next) =
  DhtGraph.insertPeer fuel peers (erase <$> child0) (erase node) p level.
Proof.
  induction fuel as [|fuel IH]; intros child0 branch node p level next; [done|].
  cbn [insertPeer DhtGraph.insertPeer]. destruct (length (digits p) <? level); [done|].
  rewrite erase_child. set (d := direction p level). destruct (child node d) as [c|] eqn:Hc; cbn [fmap option_fmap option_map].
  - rewrite erase_peer. destruct (isDash (DhtGraph.peer c)).
    + rewrite erase_child. specialize (IH (if d then child node false else Some c) d c p (S level) next).
      replace (if d then erase <$> child node false else Some (erase c))
        with (erase <$> (if d then child node false else Some c)) by (by destruct d).
      rewrite <- IH. destruct (insertPeer _ _ _ _ _ _ _ _) as [[c' next']|]; [|done].
      cbn. by rewrite erase_setChild.
    + destruct (findPeer _ _) as [ex|]; [|done]. cbn [mbind exec_bind]. rewrite erase_child.
      pose proof (IH (if d then child node false else Some (empty next d)) d (empty next d) ex (S level) (S next)) as IH1.
      replace (if d then erase <$> child node false else Some DhtGraph.empty)
        with (erase <$> (if d then child node false else Some (empty next d))) by (by destruct d).
      change DhtGraph.empty with (erase (empty next d)). rewrite <- IH1.
      destruct (insertPeer _ _ _ _ _ _ _ _) as [[c1 next1]|]; [|done]. cbn [fmap exec_fmap mbind exec_bind fst].
      specialize (IH (if d then child node false else Some c1) d c1 p (S level) next1).
      replace (if d then erase <$> child node false else Some (erase c1))
        with (erase <$> (if d then child node false else Some c1)) by (by destruct d).
      rewrite <- IH. destruct (insertPeer _ _ _ _ _ _ _ _) as [[c' next']|]; [|done].
      cbn. by rewrite erase_setChild.
  - rewrite erase_takesNode. destruct (takesNode _ _ _ _ _); [done|]. rewrite erase_child, erase_peer.
    destruct (child node (negb d)) as [c'|]; cbn; by destruct d.
Qed.

Lemma insertAll_erase peers ps : forall root next,
  erased (insertAll peers root ps next) = DhtGraph.insertAll peers (erase root) ps.
Proof.
  induction ps as [|p ps IH]; intros root next; [done|]. cbn [insertAll DhtGraph.insertAll].
  pose proof (insert_erase peers (insertFuel peers) None false root p 0 next) as H.
  change (erase <$> None) with (@None DhtGraph.Tree) in H. rewrite <- H.
  destruct (insertPeer _ _ _ _ _ _ _ _) as [[r n]|]; [|done]. cbn [mbind exec_bind fmap exec_fmap fst]. apply IH.
Qed.

Lemma cleanUp_erase t : erase (cleanUpTree t) = DhtGraph.cleanUpTree (erase t).
Proof.
  induction t as [|?|a x c0 IH0 c1 IH1]; [done|done|]. cbn. rewrite !erase_peer.
  destruct (_ && _); cbn; [done|]. by rewrite IH0, IH1.
Qed.

Lemma erase_holds : forall t pre ps, holds pre (erase t) ps <-> holds pre t ps.
Proof.
  induction t as [? []|?|a x c0 IH0 c1 IH1]; intros pre ps; cbn; try done.
  setoid_rewrite IH0. setoid_rewrite IH1. done.
Qed.

(** * Labels *)

(** Every child is labelled with its index. *)
Fixpoint labelled (t : Tree) : Prop :=
  match t with
  | Leaf _ _ => True
  | One _ _ c => prevBranch (fields c) = Some false /\ labelled c
  | Two _ _ c0 c1 => prevBranch (fields c0) = Some false /\ prevBranch (fields c1) = Some true /\
                     labelled c0 /\ labelled c1
  end.

Lemma labelled_child t d c : labelled t -> child t d = Some c -> prevBranch (fields c) = Some d /\ labelled c.
Proof. destruct t, d; cbn; naive_solver. Qed.

Lemma labelled_setChild t d c : labelled t -> labelled c -> prevBranch (fields c) = Some d ->
  labelled (setChild t d c) /\ fields (setChild t d c) = fields t.
Proof. destruct t, d; cbn; naive_solver. Qed.

Lemma insert_labelled peers fuel : forall child0 branch node p level next t' next',
  labelled node -> level = 0 \/ prevBranch (fields node) = Some branch ->
  insertPeer fuel peers child0 branch node p level next = Ret (t', next') ->
  labelled t' /\ prevBranch (fields t') = prevBranch (fields node).
Proof.
  induction fuel as [|fuel IH]; intros child0 branch node p level next t' next' Hl Hb H; cbn [insertPeer] in H;
    [by simplify_eq|].
  destruct (length (digits p) <? level); [by simplify_eq|]. set (d := direction p level) in *.
  destruct (child node d) as [c|] eqn:Hc.
  - destruct (labelled_child _ _ _ Hl Hc) as [Hpc Hlc]. destruct (isDash (DhtGraph.peer c)).
    + apply exec_bind_Ret in H as ([c' n'] & H1 & H). simplify_eq.
      apply IH in H1 as [H1 H2]; [|done|by right].
      destruct (labelled_setChild node d c' Hl H1) as [H3 ->]; [congruence|done].
    + apply exec_bind_Ret in H as (ex & _ & H). apply exec_bind_Ret in H as ([c1 n1] & H1 & H).
      apply exec_bind_Ret in H as ([c2 n2] & H2 & H). simplify_eq.
      apply IH in H1 as [L1 P1]; [|done|by right]. cbn in P1.
      apply IH in H2 as [L2 P2]; [|done|right; congruence].
      destruct (labelled_setChild node d c2 Hl L2) as [H3 ->]; [congruence|done].
  - destruct (takesNode peers child0 node p level) eqn:Ht.
    + simplify_eq. split; [done|]. destruct Hb as [->|Hb]; [done|]. by cbn.
    + destruct (child node (negb d)) as [c'|] eqn:Hc'; simplify_eq.
      * destruct (labelled_child _ _ _ Hl Hc') as [Hp' Hl'].
        destruct d; cbn in *; done.
      * destruct d; done.
Qed.

Lemma insertAll_labelled peers ps : forall root next t' next',
  labelled root -> insertAll peers root ps next = Ret (t', next') ->
  labelled t' /\ prevBranch (fields t') = prevBranch (fields root).
Proof.
  induction ps as [|p ps IH]; intros root next t' next' Hl H; cbn [insertAll] in H; [by simplify_eq|].
  apply exec_bind_Ret in H as ([r n] & H1 & H). apply insert_labelled in H1 as [H1 E1]; [|done|by left].
  rewrite <- E1. eauto.
Qed.

Lemma cleanUp_labelled t : labelled t -> labelled (cleanUpTree t) /\ fields (cleanUpTree t) = fields t.
Proof.
  induction t as [|?|a x c0 IH0 c1 IH1]; [done|done|]. cbn. intros (P0 & P1 & L0 & L1).
  destruct (IH0 L0) as [A0 B0], (IH1 L1) as [A1 B1]. destruct (_ && _); cbn; [done|].
  by rewrite B0, B1.
Qed.

(** * Equal depths *)

Lemma findMaxDistance_height t : forall d m, findMaxDistance t d m = max m (d + height t).
Proof.
  induction t as [|? ? ? IH|? ? ? IH0 ? IH1]; intros d m; cbn; [lia|rewrite IH; lia|].
  rewrite IH0, IH1. lia.
Qed.

Definition digitOf (label : option bool) : ascii :=
  match label with Some false => "0" | Some true => "1" | None => "?" end%char.

(** The peers of the leaves with the labels drawn on the way to them. *)
Fixpoint branches (t : Tree) : list (list ascii * GraphPeer) :=
  let behind c := (fun '(path, p) => (digitOf (prevBranch (fields c)) :: path, p)) <$> branches c in
  match t with
  | Leaf _ None => []
  | Leaf _ (Some p) => [([], p)]
  | One _ _ c => behind c
  | Two _ _ c0 c1 => behind c0 ++ behind c1
  end.

(** Inner nodes carry no peer, the peers of the leaves are no placeholders. *)
Fixpoint proper (t : Tree) : Prop :=
  match t with
  | Leaf _ x => match x with Some p => isDash (Some p) = false | None => True end
  | One _ x c => x = None /\ branches c <> [] /\ proper c
  | Two _ x c0 c1 => x = None /\ branches c0 ++ branches c1 <> [] /\ proper c0 /\ proper c1
  end.

(** Every leaf has a peer. *)
Fixpoint noEmptyLeaf (t : Tree) : Prop :=
  match t with
  | Leaf _ x => x <> None
  | One _ _ c => noEmptyLeaf c
  | Two _ _ c0 c1 => noEmptyLeaf c0 /\ noEmptyLeaf c1
  end.

Lemma drop_digit (l : list ascii) k c : l !! k = Some c -> drop k l = c :: drop (S k) l.
Proof. apply drop_S. Qed.

Section Sorted.
Context (peers : list GraphPeer) (L : nat).
Hypothesis Hlen : forall p, p ∈ peers -> length (digits p) = L.
Hypothesis Hbin : forall p, p ∈ peers -> Forall (fun c => c = "0"%char \/ c = "1"%char) (digits p).

Lemma extendLeaf_spec p : p ∈ peers -> forall n a k, k + n <= L ->
  branches (extendLeaf n a p k) = [(take n (drop k (digits p)), p)] /\
  fields (extendLeaf n a p k) = a /\ proper (extendLeaf n a p k).
Proof.
  intros Hp. induction n as [|n IH]; intros a k Hk.
  { cbn. split; [done|]. split; [done|]. by apply (peer_not_dash peers). }
  cbn [extendLeaf].
  destruct (lookup_lt_is_Some_2 (digits p) k) as [c Hc]; [rewrite Hlen by done; lia|].
  specialize (Hbin p Hp). rewrite Forall_forall in Hbin.
  rewrite (drop_digit _ _ _ Hc), Hc. cbn [take].
  destruct (Hbin c) as [->| ->]; [by eapply list_elem_of_lookup_2|..]; cbn.
  - destruct (IH (mkFields None (Some false)) (S k)) as (-> & Hf & Hpr); [lia|]. rewrite Hf. done.
  - destruct (IH (mkFields None (Some true)) (S k)) as (-> & Hf & Hpr); [lia|]. rewrite Hf. done.
Qed.

Lemma has_app pre c p : has (pre ++ [c]) p -> has pre p.
Proof. by intros [? _]%has_snoc. Qed.

Lemma holds_has : forall (t : Tree) pre ps, holds pre t ps -> Forall (has pre) ps.
Proof.
  induction t as [? []|?|a x c0 IH0 c1 IH1]; intros pre ps H; cbn in H; [|by subst|done|].
  - destruct H as [-> ?]. by apply Forall_singleton.
  - destruct H as (_ & _ & ps0 & ps1 & -> & H0 & H1). apply Forall_app.
    split; (eapply Forall_impl; [eauto|]); intros q; apply has_app.
Qed.

(** A tree of at most this depth tells its peers apart. *)
Lemma holds_separates : forall (t : Tree) pre ps n, holds pre t ps -> height t <= n -> separates (length pre + n) ps.
Proof.
  unfold separates. induction t as [? []|?|a x c0 IH0 c1 IH1]; intros pre ps n H Hh; cbn in H, Hh; [| |done|].
  - destruct H as [-> _]. apply NoDup_singleton.
  - subst ps. constructor.
  - destruct H as (_ & _ & ps0 & ps1 & -> & H0 & H1). destruct n as [|n]; [lia|].
    pose proof (IH0 _ _ n H0 ltac:(lia)) as N0. pose proof (IH1 _ _ n H1 ltac:(lia)) as N1.
    rewrite length_app in N0, N1. cbn in N0, N1. replace (length pre + S n) with (length pre + 1 + n) by lia.
    rewrite fmap_app. apply NoDup_app. split_and!; [done| |done].
    intros l (p & -> & Hp)%list_elem_of_fmap (q & Hpq & Hq)%list_elem_of_fmap.
    apply holds_has in H0, H1. rewrite Forall_forall in H0, H1.
    specialize (H0 p Hp). specialize (H1 q Hq). apply has_snoc in H0 as [_ H0], H1 as [_ H1].
    apply (f_equal (fun l => l !! length pre)) in Hpq. rewrite !lookup_take_lt in Hpq by lia. congruence.
Qed.

Lemma holds_height : forall (t : Tree) pre ps,
  holds pre t ps -> Forall (fun q => q ∈ peers) ps -> length pre <= L -> length pre + height t <= L.
Proof.
  induction t as [? []|?|a x c0 IH0 c1 IH1]; intros pre ps H Hin Hl; cbn in *; try lia.
  destruct H as (_ & Hne & ps0 & ps1 & -> & H0 & H1). apply Forall_app in Hin as [I0 I1].
  assert (length pre + 1 <= L) as Hl1.
  { destruct ps0 as [|q ps0]; [destruct ps1 as [|q ps1]; [done|]|].
    - apply holds_has in H1. apply Forall_cons in H1 as [Hq _]. apply Forall_cons in I1 as [Hi _].
      pose proof (has_length peers L Hlen _ _ Hi Hq) as Hx. rewrite length_app in Hx. done.
    - apply holds_has in H0. apply Forall_cons in H0 as [Hq _]. apply Forall_cons in I0 as [Hi _].
      pose proof (has_length peers L Hlen _ _ Hi Hq) as Hx. rewrite length_app in Hx. done. }
  specialize (IH0 _ _ H0 I0). specialize (IH1 _ _ H1 I1). rewrite length_app in IH0, IH1. cbn in IH0, IH1. lia.
Qed.

(** The paths of the peers below the first [k] digits. *)
Definition paths (k n : nat) (ps : list GraphPeer) : list (list ascii * GraphPeer) :=
  (fun p => (take n (drop k (digits p)), p)) <$> ps.

Lemma paths_behind label c k n ps :
  digitOf label = c -> Forall (fun p => digits p !! k = Some c) ps ->
  (fun '(path, p) => (digitOf label :: path, p)) <$> paths (S k) n ps = paths k (S n) ps.
Proof.
  intros <- Hps. unfold paths. rewrite <- list_fmap_compose. apply list_fmap_ext. intros i p Hp.
  rewrite Forall_forall in Hps. specialize (Hps p ltac:(by eapply list_elem_of_lookup_2)).
  cbn. by rewrite (drop_digit _ _ _ Hps).
Qed.

Lemma makeEqual_spec : forall (t : Tree) pre ps br n,
  holds pre t ps -> Forall (fun q => q ∈ peers) ps -> labelled t -> prevBranch (fields t) = br ->
  height t <= n -> length pre + n <= L ->
  let t' := makeEqualDistancesForAllNodes t br (length pre) n in
  branches t' = paths (length pre) n ps /\ prevBranch (fields t') = br /\ proper t'.
Proof.
  induction t as [a [p|]|?|a x c0 IH0 c1 IH1]; intros pre ps br n H Hin Hl Hbr Hh Hn; cbn in H.
  - destruct H as [-> Hp]. rewrite Forall_singleton in Hin. destruct n as [|n]; cbn zeta.
    + cbn. split; [done|]. split; [done|]. by apply (peer_not_dash peers).
    + cbn [makeEqualDistancesForAllNodes]. rewrite (peer_not_dash peers Hbin p Hin).
      destruct (extendLeaf_spec p Hin (S n) a (length pre) Hn) as (-> & -> & ?). done.
  - subst ps. by destruct n.
  - done.
  - destruct H as (-> & Hne & ps0 & ps1 & -> & H0 & H1). apply Forall_app in Hin as [I0 I1].
    destruct Hl as (P0 & P1 & L0 & L1). cbn [height] in Hh. destruct n as [|n]; [lia|].
    destruct (IH0 _ _ (Some false) n H0 I0 L0 P0) as (B0 & F0 & R0); [lia|rewrite length_app; cbn; lia|].
    destruct (IH1 _ _ (Some true) n H1 I1 L1 P1) as (B1 & F1 & R1); [lia|rewrite length_app; cbn; lia|].
    rewrite length_app, Nat.add_1_r in B0, F0, R0, B1, F1, R1.
    cbn [makeEqualDistancesForAllNodes branches fields prevBranch proper].
    rewrite F0, F1, B0, B1. split.
    + rewrite (paths_behind (Some false) "0"%char), (paths_behind (Some true) "1"%char); try done.
      { unfold paths. by rewrite fmap_app. }
      { apply holds_has in H1. eapply Forall_impl; [exact H1|]. by intros q [_ ?]%has_snoc. }
      { apply holds_has in H0. eapply Forall_impl; [exact H0|]. by intros q [_ ?]%has_snoc. }
    + split; [done|]. split; [done|]. split; [|done]. unfold paths. rewrite <- fmap_app. by destruct (ps0 ++ ps1).
Qed.

End Sorted.

Lemma isEmptyLeaf_branches t : proper t -> isEmptyLeaf t = true -> branches t = [].
Proof. destruct t as [? []|?|?]; try done. cbn. by intros ->. Qed.

Lemma removeEmpty_spec : forall t, proper t ->
  branches (removeEmptyNodes t) = branches t /\ fields (removeEmptyNodes t) = fields t /\
  (isEmptyLeaf t = false -> noEmptyLeaf (removeEmptyNodes t)).
Proof.
  induction t as [? [p|]|a x c IH|a x c0 IH0 c1 IH1]; intros H; cbn in H.
  - done.
  - done.
  - destruct H as (-> & Hne & Hc). destruct (IH Hc) as (B & F & N). cbn.
    destruct (isEmptyLeaf c) eqn:E; [by apply isEmptyLeaf_branches in E|]. cbn. rewrite B, F. auto.
  - destruct H as (-> & Hne & H0 & H1). destruct (IH0 H0) as (B0 & F0 & N0), (IH1 H1) as (B1 & F1 & N1). cbn.
    destruct (isEmptyLeaf c0) eqn:E0, (isEmptyLeaf c1) eqn:E1; cbn; rewrite ?B0, ?B1, ?F0, ?F1.
    + by rewrite !isEmptyLeaf_branches in Hne.
    + rewrite (isEmptyLeaf_branches c0) by done. auto.
    + rewrite (isEmptyLeaf_branches c1) by done. rewrite app_nil_r. auto.
    + auto.
Qed.

(** * Sorting *)

Definition binary (l : list ascii) : Prop := Forall (fun c => c = "0"%char \/ c = "1"%char) l.

Lemma compareDigits_cons x a y b : compareDigits (x :: a) (y :: b) =
  if bool_decide (x = y) then compareDigits a b else if bool_decide (x = "1"%char) then Gt else Lt.
Proof.
  cbn. destruct (decide (x = y)) as [->|Hne]; [by rewrite !bool_decide_true|].
  by rewrite !(bool_decide_false (_ = y)), !bool_decide_false by congruence.
Qed.

(** The first digit that differs is smaller. *)
Definition smaller (a b : list ascii) : Prop :=
  exists k, (forall i, i < k -> a !! i = b !! i) /\ a !! k = Some "0"%char /\ b !! k = Some "1"%char.

Lemma smaller_asym a b : smaller a b -> smaller b a -> False.
Proof.
  intros (k & A1 & B1 & C1) (l & A2 & B2 & C2).
  destruct (Nat.lt_trichotomy k l) as [Hk|[->|Hk]]; [specialize (A2 _ Hk)| |specialize (A1 _ Hk)]; congruence.
Qed.

Lemma smaller_trans a b c : smaller a b -> smaller b c -> smaller a c.
Proof.
  intros (k & A1 & B1 & C1) (l & A2 & B2 & C2).
  destruct (Nat.lt_trichotomy k l) as [Hk|[->|Hk]]; [|congruence|].
  - exists k. split; [|split; [done|rewrite <- A2 by done; done]]. intros i Hi. rewrite A1, A2 by lia. done.
  - exists l. split; [|split; [rewrite A1 by done; done|done]]. intros i Hi. rewrite A1, A2 by lia. done.
Qed.

(** On binary digits of equal length the comparator is the lexicographic order. *)
Lemma compareDigits_spec a : forall b, binary a -> binary b -> length a = length b ->
  match compareDigits a b with Eq => a = b | Lt => smaller a b | Gt => smaller b a end.
Proof.
  induction a as [|x a IH]; intros [|y b] Ha Hb Hlen; try done.
  apply Forall_cons in Ha as [Hx Ha]. apply Forall_cons in Hb as [Hy Hb]. injection Hlen as Hlen.
  rewrite compareDigits_cons. destruct (bool_decide (x = y)) eqn:E.
  - apply bool_decide_eq_true in E as ->. specialize (IH b Ha Hb Hlen).
    destruct (compareDigits a b); [by subst|..]; destruct IH as (k & H1 & H2 & H3); exists (S k);
      (split; [|done]); intros [|i] Hi; try done; apply H1; lia.
  - apply bool_decide_eq_false in E. destruct Hx as [->| ->], Hy as [->| ->]; try done;
      [rewrite bool_decide_false by done|rewrite bool_decide_true by done]; exists 0; split; try done; lia.
Qed.

(** A peer of a routing table: [L] binary digits. *)
Definition wellFormed (L : nat) (p : NodeDht.NetworkNodeDhtPeer) : Prop :=
  binary (peerDigits p) /\ length (peerDigits p) = L.

Definition comparePeers (a b : NodeDht.NetworkNodeDhtPeer) : comparison :=
  compareDigits (peerDigits a) (peerDigits b).

Lemma comparePeers_spec L a b : wellFormed L a -> wellFormed L b ->
  match comparePeers a b with
  | Eq => peerDigits a = peerDigits b
  | Lt => smaller (peerDigits a) (peerDigits b)
  | Gt => smaller (peerDigits b) (peerDigits a)
  end.
Proof. intros [Ba La] [Bb Lb]. apply compareDigits_spec; congruence. Qed.

(** The comparator of the page is consistent on a routing table. *)
#[export] Instance comparePeers_consistent L : ConsistentOn comparePeers (wellFormed L).
Proof.
  split.
  - intros x y Hx Hy. pose proof (comparePeers_spec L x y Hx Hy) as H1.
    pose proof (comparePeers_spec L y x Hy Hx) as H2.
    destruct (comparePeers x y), (comparePeers y x); try done; exfalso;
      rewrite ?H1, ?H2 in *; eauto using smaller_asym.
  - unfold cle. intros x y z Hx Hy Hz H1 H2 H3.
    pose proof (comparePeers_spec L x y Hx Hy) as S1. pose proof (comparePeers_spec L y z Hy Hz) as S2.
    pose proof (comparePeers_spec L x z Hx Hz) as S3. rewrite H3 in S3.
    destruct (comparePeers x y), (comparePeers y z); try done; rewrite ?S1, ?S2 in *;
      eauto using smaller_asym, smaller_trans.
Qed.

(** Numbering keeps the peers and their order. *)
Lemma imap_sorted (l : list NodeDht.NetworkNodeDhtPeer) : forall (f : nat -> NodeDht.NetworkNodeDhtPeer -> GraphPeer),
  (forall i p, dhtPeer (f i p) = p) ->
  StronglySorted (fun a b => smaller (peerDigits a) (peerDigits b)) l -> StronglySorted before (imap f l).
Proof.
  induction l as [|x l IH]; intros f Hf Hs; [constructor|]. cbn [imap].
  apply StronglySorted_inv in Hs as [Hs Hx]. constructor; [by apply IH; [intros; apply Hf|]|].
  apply Forall_forall. intros q (i & y & -> & Hy)%elem_of_lookup_imap. rewrite Forall_forall in Hx.
  specialize (Hx y ltac:(by eapply list_elem_of_lookup_2)). 
  change (smaller (peerDigits (dhtPeer (f 0 x))) (peerDigits (dhtPeer (f (S i) y)))). by rewrite !Hf.
Qed.

Lemma sorted_smaller L l :
  Forall (wellFormed L) l -> NoDup (peerDigits <$> l) -> StronglySorted (cle comparePeers) l ->
  StronglySorted (fun a b => smaller (peerDigits a) (peerDigits b)) l.
Proof.
  induction l as [|x l IH]; intros Hwf Hnd Hs; [constructor|]. apply Forall_cons in Hwf as [Hx Hwf].
  cbn in Hnd. apply NoDup_cons in Hnd as [Hnin Hnd]. apply StronglySorted_inv in Hs as [Hs Hle].
  constructor; [auto|]. rewrite Forall_forall in Hwf, Hle |- *. intros y Hy.
  pose proof (comparePeers_spec L x y Hx (Hwf y Hy)) as Hc. specialize (Hle y Hy). unfold cle in Hle.
  destruct (comparePeers x y); [|done|done]. exfalso. apply Hnin. rewrite Hc. by apply list_elem_of_fmap_2.
Qed.

Lemma sortPeers_spec L ps :
  Forall (wellFormed L) ps -> NoDup (peerDigits <$> ps) ->
  Permutation (dhtPeer <$> sortPeers ps) ps /\ StronglySorted before (sortPeers ps) /\
  NoDup (position <$> sortPeers ps) /\
  (forall p, p ∈ sortPeers ps -> length (digits p) = L) /\
  (forall p, p ∈ sortPeers ps -> binary (digits p)).
Proof.
  intros Hwf Hnd. unfold sortPeers, mapi. fold comparePeers.
  pose proof (arraySort_perm comparePeers ps) as Hp.
  pose proof (arraySort_sorted comparePeers (P := wellFormed L) ps Hwf) as Hs.
  set (l := arraySort comparePeers ps) in *. rewrite Hp in Hwf, Hnd.
  assert (dhtPeer <$> imap (fun i p => mkGraphPeer p i) l = l) as Hl.
  { apply list_eq. intros i. rewrite list_lookup_fmap, list_lookup_imap. by destruct (l !! i). }
  assert (forall p, p ∈ imap (fun i p => mkGraphPeer p i) l -> wellFormed L (dhtPeer p)) as Hin.
  { intros p (i & x & -> & Hx)%elem_of_lookup_imap. rewrite Forall_forall in Hwf. cbn. apply Hwf.
    by eapply list_elem_of_lookup_2. }
  split; [by rewrite Hl|]. split; [apply imap_sorted; [done|by eapply sorted_smaller]|]. split.
  - apply NoDup_alt. intros i j x Hi Hj. rewrite list_lookup_fmap, list_lookup_imap in Hi, Hj.
    destruct (l !! i), (l !! j); cbn in *; congruence.
  - split; intros p Hpin; by apply Hin.
Qed.

(** * The drawn tree *)

Definition withPeer (x : NodePeer) (t : Tree) : Tree :=
  match t with Leaf a _ => Leaf a x | One a _ c => One a x c | Two a _ c0 c1 => Two a x c0 c1 end.

(** The depth a routing table needs: the least number of digits that tells several
    peers apart; a single other peer is drawn below the root, or replaces it when it
    differs in the first digit. *)
Definition neededDepth (n : nat) (rest : list GraphPeer) : Prop :=
  if bool_decide (2 <= length rest) then separates n rest /\ forall m, separates m rest -> n <= m
  else n = if bool_decide (rest = []) || farPair rest then 0 else 1.

Section Drawn.
Context (peers : list GraphPeer) (L : nat).
Hypothesis Hlen : forall p, p ∈ peers -> length (digits p) = L.
Hypothesis Hbin : forall p, p ∈ peers -> binary (digits p).
Hypothesis Hsorted : StronglySorted before peers.
Hypothesis Hpos : NoDup (position <$> peers).

Lemma insertAll_root o ps next : peers = o :: ps ->
  exists t next', insertAll peers (Leaf (mkFields None None) (Some o)) ps next = Ret (t, next') /\
    labelled t /\ prevBranch (fields t) = None /\ rootTrie peers o (erase t) ps.
Proof.
  intros Heq.
  destruct (insertAll_spec peers L Hlen Hbin Hsorted Hpos o ps [] (Leaf () (Some o))) as (tm & Htm & Hr); [done|done|].
  pose proof (insertAll_erase peers ps (Leaf (mkFields None None) (Some o)) next) as He. cbn [erase] in He.
  rewrite Htm in He. destruct (insertAll _ _ _ _) as [[t next']|] eqn:Hi; [|done]. cbn in He. injection He as <-.
  exists t, next'. split; [done|]. apply insertAll_labelled in Hi as [Hl Hb]; [|done]. done.
Qed.

(** What is drawn below the root: the peers in order at depth [n]. *)
Definition drawn (old : nat) (ps : list GraphPeer) (t1 : Tree) : Prop :=
  exists t n, equalise old t1 = Ret (t, n) /\ n = max old (height t1) /\ n <= L /\ noEmptyLeaf t /\ branches t = paths 0 n ps /\
    (isLeaf t1 = false -> DhtGraph.peer t = DhtGraph.peer t1).

(** The tree of one peer is a chain of its digits. *)
Lemma draw_one a p old : p ∈ peers -> old <= L -> drawn old [p] (Leaf a (Some p)).
Proof.
  intros Hp Hn. pose proof (peer_not_dash peers Hbin p Hp) as Hd. unfold drawn, equalise.
  rewrite findMaxDistance_height. cbn [height plus]. rewrite Nat.max_0_r.
  assert (makeEqualDistancesForAllNodes (Leaf a (Some p)) None 0 old = extendLeaf old a p 0) as ->.
  { destruct old; [done|]. cbn [makeEqualDistancesForAllNodes]. by rewrite Hd. }
  destruct (extendLeaf_spec peers L Hlen Hbin p Hp old a 0) as (B & F & R); [lia|].
  destruct (removeEmpty_spec _ R) as (B' & _ & N).
  assert (isEmptyLeaf (extendLeaf old a p 0) = false) as E.
  { destruct (isEmptyLeaf _) eqn:E; [|done]. apply isEmptyLeaf_branches in E; [|done]. by rewrite B in E. }
  rewrite E. eexists _, _. split; [done|]. rewrite B', B. cbn. split; [lia|]. split; [lia|]. split; [auto|]. done.
Qed.

(** The tree of several peers. *)
Lemma draw_two a o c0 c1 ps old : holds [] (Two a None c0 c1) ps -> Forall (fun q => q ∈ peers) ps ->
  labelled (Two a (Some o) c0 c1) -> prevBranch a = None -> old <= L -> drawn old ps (Two a (Some o) c0 c1).
Proof.
  intros Hh Hin Hl Hb Hold. unfold drawn, equalise. rewrite findMaxDistance_height. cbn [plus].
  set (n := max old (height (Two a (Some o) c0 c1))).
  assert (n <= L) as HnL.
  { pose proof (holds_height peers L Hlen _ _ _ Hh Hin ltac:(cbn; lia)) as Hx. subst n. cbn in *. lia. }
  assert (height (Two a None c0 c1) <= n) as Hhn by (subst n; cbn; lia).
  assert (n = max old (height (Two a (Some o) c0 c1))) as Hon by done. clearbody n. destruct n as [|n]; [cbn in Hhn; lia|].
  destruct (makeEqual_spec peers L Hlen Hbin (Two a None c0 c1) [] ps None (S n)) as (B & _ & R); try done.
  cbn [length] in B, R. destruct (removeEmpty_spec _ R) as (B' & _ & N).
  cbn [makeEqualDistancesForAllNodes] in *. specialize (N eq_refl). destruct R as (_ & Hne & R0 & R1).
  set (t0 := makeEqualDistancesForAllNodes c0 _ _ _) in *. set (t1 := makeEqualDistancesForAllNodes c1 _ _ _) in *.
  eexists _, _. split; [done|]. split; [done|]. split; [done|]. rewrite <- B, <- B'. cbn in *.
  destruct (isEmptyLeaf t0) eqn:E0, (isEmptyLeaf t1) eqn:E1; cbn in *; try done.
Qed.

(** The tree of the peers after the first, which is the root. *)
Lemma drawn_root o rest t0 old : peers = o :: rest -> rootTrie peers o (erase t0) rest -> labelled t0 ->
  prevBranch (fields t0) = None -> old <= L ->
  drawn old (if bool_decide (rest = []) then [o] else rest) (cleanUpTree t0) /\
  neededDepth (height (cleanUpTree t0)) rest /\
  (rest <> [] -> farPair rest = false -> isLeaf (cleanUpTree t0) = false /\ DhtGraph.peer (cleanUpTree t0) = Some o).
Proof.
  intros Hpeers Hr Hl Hb Hold. assert (forall p, p ∈ o :: rest -> p ∈ peers) as Hin by (by rewrite Hpeers).
  pose proof (cleanUp_root peers Hbin o (erase t0) rest Hpeers Hr) as Hc.
  destruct (root_height peers L Hlen Hbin Hsorted Hpos o (erase t0) rest Hpeers Hr) as [Hmany Hfew].
  rewrite <- cleanUp_erase in Hc, Hmany, Hfew. rewrite erase_height in Hmany, Hfew.
  destruct (cleanUp_labelled t0 Hl) as [Hl' Hf']. unfold neededDepth. destruct (farPair rest) eqn:Hfar.
  - destruct Hc as (q & -> & Ht). destruct (cleanUpTree t0) as [a x|?|?]; try done. cbn in Ht. injection Ht as ->.
    split; [|split; [|done]].
    + cbn. apply draw_one; auto. apply Hin. set_solver.
    + rewrite bool_decide_false by (cbn; lia). by rewrite orb_true_r.
  - destruct Hc as (Hp & Hleaf & Hh). rewrite erase_peer in Hp. rewrite erase_isLeaf in Hleaf.
    destruct (cleanUpTree t0) as [a x|a x c|a x c0 c1]; cbn in Hp, Hleaf.
    + symmetry in Hleaf. apply bool_decide_eq_true in Hleaf as ->. cbn. subst x.
      split; [apply draw_one; auto; apply Hin; set_solver|done].
    + symmetry in Hleaf. apply bool_decide_eq_false in Hleaf. by destruct (Hh Hleaf).
    + symmetry in Hleaf. apply bool_decide_eq_false in Hleaf. rewrite (bool_decide_false (rest = [])) by done. subst x.
      specialize (Hh Hleaf). apply (erase_holds (Two a None c0 c1)) in Hh. split; [|split; [|done]].
      * apply draw_two; auto; [|cbn in Hf'; congruence]. apply Forall_forall. intros q Hq. apply Hin. set_solver.
      * destruct (decide (2 <= length rest)) as [E2|E2]; [rewrite bool_decide_true by done|].
        2: { rewrite bool_decide_false by done. rewrite Hfew by lia. by rewrite bool_decide_false. }
        split; [|by apply Hmany]. by apply (holds_separates (Two a None c0 c1) [] rest).
Qed.

End Drawn.

(** C36: for a routing table whose peers have binary distances of one length, all
    different, drawing the graph never throws.  All peers but the node itself, the root, appear once, in the
    order of their distances, at the same depth, at the end of a path labelled
    with the first digits of their distance, and no leaf is empty.  With several
    other peers that depth is the least number of digits that tells them apart,
    with one it is 1, or the greatest depth of an earlier drawing if that is greater; it
    is at most the number of digits when the earlier depth was.  With a single other peer
    that differs in the first digit only this peer is drawn. *)
Theorem dht_graph_drawn st L ps :
  Forall (wellFormed L) ps -> NoDup (peerDigits <$> ps) -> maxDistance st <= L -> ps <> [] ->
  exists o rest t st' n, sortPeers ps = o :: rest /\ Permutation (dhtPeer <$> sortPeers ps) ps /\
    drawPeers st ps = Ret (Some t, st') /\
    maxDistance st' = max (maxDistance st) n /\ neededDepth n rest /\ maxDistance st' <= L /\
    noEmptyLeaf t /\
    branches t = (fun p => (take (maxDistance st') (digits p), p)) <$>
                   (if bool_decide (rest = []) then [o] else rest) /\
    (rest <> [] -> farPair rest = false -> DhtGraph.peer t = Some o).
Proof.
  intros Hwf Hnd Hst Hne. destruct (sortPeers_spec L ps Hwf Hnd) as (Hperm & Hs & Hpos & Hlen & Hbin).
  destruct (sortPeers ps) as [|o rest] eqn:Hsort.
  { cbn in Hperm. by apply Permutation_nil in Hperm. }
  unfold drawPeers. rewrite Hsort. remember (o :: rest) as peers eqn:Hpeers.
  destruct (insertAll_root peers L Hlen Hbin Hs Hpos o rest (nextId st) Hpeers) as (t0 & next & Hi & Hl & Hb & Hr).
  destruct (drawn_root peers L Hlen Hbin Hs Hpos o rest t0 (maxDistance st) Hpeers Hr Hl Hb Hst)
    as (Hd & Hn & Hpeer).
  destruct Hd as (t & n & He & En & HnL & Hno & Hbr & Hpt).
  exists o, rest, t, (mkStatics next n), (height (cleanUpTree t0)).
  split; [done|]. split; [done|]. split.
  { rewrite Hpeers. cbn [createBinaryTree]. rewrite <- Hpeers, Hi. cbn [mbind exec_bind]. by rewrite He. }
  split_and!; try done. intros H1 H2. destruct (Hpeer H1 H2) as [H3 H4]. rewrite Hpt by done. done.
Qed.

(** * Examples *)

Definition demoTable : list NodeDht.NetworkNodeDhtPeer := [demoPeer "101"; demoPeer "000"; demoPeer "011"; demoPeer "110"].

Lemma dht_graph_drawn_witness :
  exists t st, drawPeers (mkStatics 0 0) demoTable = Ret (Some t, st) /\ maxDistance st = 2 /\ noEmptyLeaf t /\
    (fun '(path, p) => (path, position p)) <$> branches t =
      [(["0"; "1"], 1); (["1"; "0"], 2); (["1"; "1"], 3)]%char.
Proof.
  destruct (dht_graph_drawn (mkStatics 0 0) 3 demoTable) as (o & rest & t & st & n & Hs & _ & H & Hd & _ & _ & Hn & _).
  - repeat (apply Forall_cons_2; [split; [unfold binary; cbn; binary_digits|reflexivity]|]). constructor.
  - repeat constructor; set_solver.
  - cbn. lia.
  - discriminate.
  - exists t, st. split; [exact H|]. vm_compute in H. injection H as <- <-. vm_compute. auto.
Defined.

End DhtEqual.
