(* ===== verification/WorkPool.v ===== *)
(** SNARK work pool (frontend/src/app/features/snarks/work-pool): the jobs of
    the SNARK pool with their commitments and proofs, filtered by origin. *)

From S2P Require Import Prelude JsRuntime TableSort.

Module WorkPools.

(** * Data *)

Inductive Origin := Local | Remote.

#[export] Instance Origin_eq_dec : EqDecision Origin.
Proof. solve_decision. Defined.

Definition originText (o : Origin) : string :=
  match o with Local => "Local" | Remote => "Remote" end.

Record CommitmentBody := mkBody {
  c_timestamp : Z;
  c_snarker : string;
  c_fee : string;
  c_job_id : string
}.

Record WorkPoolCommitment := mkCommitment {
  sender : string;
  received_t : Z;
  date : string;
  commitmentBody : CommitmentBody
}.

Record WorkPoolSnark := mkSnark {
  snarker : string;
  fee : string;
  snarkReceived_t : Z;
  snarkSender : string
}.

Record WorkPool := mkWorkPool {
  datetime : string;
  timestamp : Z;
  id : string;
  commitment : option WorkPoolCommitment;
  snark : option WorkPoolSnark;
  snarkRecLatency : option Q;
  snarkOrigin : option Origin;
  commitmentRecLatency : option Q;
  commitmentOrigin : option Origin;
  commitmentCreatedLatency : option Q;
  notSameCommitter : option bool
}.

Inductive WorkPoolField :=
| fDatetime | fTimestamp | fId | fCommitment | fSnark | fSnarkRecLatency | fSnarkOrigin
| fCommitmentRecLatency | fCommitmentOrigin | fCommitmentCreatedLatency | fNotSameCommitter.

#[export] Instance WorkPoolField_eq_dec : EqDecision WorkPoolField.
Proof. solve_decision. Defined.

#[export] Instance WorkPool_row : Row WorkPool WorkPoolField := fun f w =>
  match f with
  | fDatetime => VStr (datetime w)
  | fTimestamp => vZ (timestamp w)
  | fId => VStr (id w)
  | fCommitment => ofOption (fun _ => VObject) (commitment w)
  | fSnark => ofOption (fun _ => VObject) (snark w)
  | fSnarkRecLatency => ofOption VNum (snarkRecLatency w)
  | fSnarkOrigin => ofOption (fun o => VStr (originText o)) (snarkOrigin w)
  | fCommitmentRecLatency => ofOption VNum (commitmentRecLatency w)
  | fCommitmentOrigin => ofOption (fun o => VStr (originText o)) (commitmentOrigin w)
  | fCommitmentCreatedLatency => ofOption VNum (commitmentCreatedLatency w)
  | fNotSameCommitter => ofOption VBool (notSameCommitter w)
  end.

Record SnarksWorkPoolState := mkState {
  workPools : list WorkPool;
  filteredWorkPools : list WorkPool;
  activeWorkPool : option WorkPool;
  openSidePanel : bool;
  tableSort : TableSort WorkPoolField;
  filters : list string;
  activeWorkPoolSpecs : option Json;
  activeWorkPoolDetail : option Json
}.

#[export] Instance SnarksWorkPoolState_copy : RecordCopy SnarksWorkPoolState := {|
  record_copy s := mkState (workPools s) (filteredWorkPools s) (activeWorkPool s) (openSidePanel s)
    (tableSort s) (filters s) (activeWorkPoolSpecs s) (activeWorkPoolDetail s);
  record_copy_id := fun '(mkState _ _ _ _ _ _ _ _) => eq_refl |}.

Inductive SnarksWorkPoolActions :=
| SnarksWorkPoolInit
| SnarksWorkPoolGetWorkPool (force : option bool)
| SnarksWorkPoolGetWorkPoolSuccess (payload : list WorkPool)
| SnarksWorkPoolSortWorkPool (payload : TableSort WorkPoolField)
| SnarksWorkPoolSetActiveWorkPool (id : string)
| SnarksWorkPoolGetWorkPoolDetail (id : string)
| SnarksWorkPoolGetWorkPoolDetailSuccess (specs detail : option Json)
| SnarksWorkPoolToggleSidePanel
| SnarksWorkPoolToggleFilter (payload : string)
| SnarksWorkPoolClose.

Definition actionType (a : SnarksWorkPoolActions) : string :=
  match a with
  | SnarksWorkPoolInit => "SNARKS_WORK_POOL_INIT"
  | SnarksWorkPoolGetWorkPool _ => "SNARKS_WORK_POOL_GET_WORK_POOL"
  | SnarksWorkPoolGetWorkPoolSuccess _ => "SNARKS_WORK_POOL_GET_WORK_POOL_SUCCESS"
  | SnarksWorkPoolSortWorkPool _ => "SNARKS_WORK_POOL_SORT_WORK_POOL"
  | SnarksWorkPoolSetActiveWorkPool _ => "SNARKS_WORK_POOL_SET_ACTIVE_WORK_POOL"
  | SnarksWorkPoolGetWorkPoolDetail _ => "SNARKS_WORK_POOL_GET_WORK_POOL_DETAIL"
  | SnarksWorkPoolGetWorkPoolDetailSuccess _ _ => "SNARKS_WORK_POOL_GET_WORK_POOL_DETAIL_SUCCESS"
  | SnarksWorkPoolToggleSidePanel => "SNARKS_WORK_POOL_TOGGLE_SIDE_PANEL"
  | SnarksWorkPoolToggleFilter _ => "SNARKS_WORK_POOL_TOGGLE_FILTER"
  | SnarksWorkPoolClose => "SNARKS_WORK_POOL_CLOSE"
  end.

(** * Reducer *)

Definition hasOrigin (o : Origin) (w : WorkPool) : bool :=
  bool_decide (snarkOrigin w = Some o) || bool_decide (commitmentOrigin w = Some o).

Definition filterWorkPools (ws : list WorkPool) (fs : list string) : exec (list WorkPool) :=
  if length fs =? 0 then Ret ws
  else if includes fs "local" then Ret (List.filter (hasOrigin Local) ws)
  else if includes fs "remote" then Ret (List.filter (hasOrigin Remote) ws)
  else Throw (ErrorMsg "Unknown filter").

Section Reducer.
Context {LC : LocaleCompare} (desktop : bool).

Definition initialState : SnarksWorkPoolState := {|
  workPools := [];
  filteredWorkPools := [];
  activeWorkPool := None;
  openSidePanel := desktop;
  tableSort := mkTableSort fTimestamp DSC;
  filters := [];
  activeWorkPoolSpecs := None;
  activeWorkPoolDetail := None
|}.

Definition sortWorkPools (ws : list WorkPool) (ts : TableSort WorkPoolField) : list WorkPool :=
  sort ws ts [fId; fSnarkOrigin; fCommitmentOrigin] false.

Definition reducer (state : SnarksWorkPoolState) (action : SnarksWorkPoolActions)
  : exec SnarksWorkPoolState :=
  match action with
  | SnarksWorkPoolGetWorkPoolSuccess payload =>
      let ws := sortWorkPools payload (tableSort state) in
      Ret (state <| workPools := ws |> <| filteredWorkPools := ws |>)
  | SnarksWorkPoolSetActiveWorkPool wid =>
      Ret (state <| openSidePanel := true |>
                 <| activeWorkPool := List.find (fun w => bool_decide (id w = wid)) (workPools state) |>
                 <| activeWorkPoolSpecs := None |>)
  | SnarksWorkPoolSortWorkPool payload =>
      filtered ← filterWorkPools (sortWorkPools (workPools state) payload) (filters state);
      Ret (state <| tableSort := payload |> <| filteredWorkPools := filtered |>)
  | SnarksWorkPoolToggleSidePanel =>
      Ret (state <| openSidePanel := negb (openSidePanel state) |> <| activeWorkPool := None |>)
  | SnarksWorkPoolToggleFilter payload =>
      let fs := toggle (filters state) payload in
      filtered ← filterWorkPools (workPools state) fs;
      Ret (state <| filters := fs |> <| filteredWorkPools := filtered |>)
  | SnarksWorkPoolGetWorkPoolDetailSuccess specs detail =>
      Ret (state <| activeWorkPoolSpecs := specs |> <| activeWorkPoolDetail := detail |>)
  | SnarksWorkPoolClose => Ret initialState
  | SnarksWorkPoolInit | SnarksWorkPoolGetWorkPool _ | SnarksWorkPoolGetWorkPoolDetail _ => Ret state
  end.

End Reducer.

(** * Service *)

Record RawCommitment := mkRawCommitment {
  rc_sender : string;
  rc_received_t : Z;
  rc_commitment : CommitmentBody
}.

Record RawItem := mkItem {
  i_id : string;
  i_time : Z;
  i_snark : option WorkPoolSnark;
  i_commitment : option RawCommitment
}.

Section Service.
Context {DF : DateFormat} (snarkerHash : option string).

(** [[a, b].includes(this.snarkerHash) ? 'Local' : 'Remote'] *)
Definition originOf (a b : string) : Origin :=
  if includes [Some a; Some b] snarkerHash then Local else Remote.

Definition seconds (ns : Z) : Q := (inject_Z ns / inject_Z ONE_BILLION)%Q.

Definition mapItem (item : RawItem) : WorkPool := {|
  id := i_id item;
  datetime := toReadableDate (inject_Z (i_time item) / inject_Z ONE_MILLION) None;
  timestamp := i_time item;
  snark := i_snark item;
  commitment := (fun c => mkCommitment (rc_sender c) (rc_received_t c)
    (toReadableDate (inject_Z (c_timestamp (rc_commitment c))) None) (rc_commitment c)) <$> i_commitment item;
  commitmentRecLatency := (fun c => seconds (rc_received_t c - i_time item)) <$> i_commitment item;
  commitmentCreatedLatency := (fun c =>
    inject_Z (c_timestamp (rc_commitment c)) / inject_Z ONE_THOUSAND
    - inject_Z (i_time item) / inject_Z ONE_BILLION)%Q <$> i_commitment item;
  commitmentOrigin := (fun c => originOf (c_snarker (rc_commitment c)) (rc_sender c)) <$> i_commitment item;
  snarkRecLatency := (fun s => seconds (snarkReceived_t s - i_time item)) <$> i_snark item;
  snarkOrigin := (fun s => originOf (snarker s) (snarkSender s)) <$> i_snark item;
  notSameCommitter :=
    match i_commitment item, i_snark item with
    | Some c, Some s => Some (negb (bool_decide (c_snarker (rc_commitment c) = snarker s)))
    | _, _ => None
    end
|}.

Definition mapWorkPoolResponse (response : list RawItem) : list WorkPool := mapItem <$> response.

End Service.

(** * Filters *)

Section Theorems.
Context {LC : LocaleCompare} (desktop : bool).

(** The two filters the page offers. *)
Definition offered (f : string) : Prop := f = "local" \/ f = "remote".

(** What a set of active filters shows: [local] wins over [remote]. *)
Definition shows (fs : list string) (w : WorkPool) : bool :=
  if includes fs "local" then hasOrigin Local w
  else if includes fs "remote" then hasOrigin Remote w
  else true.

Definition wellFiltered (fs : list string) : Prop := NoDup fs /\ forall f, f ∈ fs -> offered f.

Lemma filterWorkPools_shows ws fs :
  wellFiltered fs -> filterWorkPools ws fs = Ret (List.filter (shows fs) ws).
Proof.
  intros [_ Hfs]. unfold filterWorkPools, shows. destruct fs as [|f fs]; cbn [length Nat.eqb].
  - cbn. f_equal. symmetry. by apply filter_true_id.
  - destruct (includes (f :: fs) "local") eqn:E1; [done|].
    destruct (includes (f :: fs) "remote") eqn:E2; [done|]. js_simpl.
    destruct (Hfs f) as [->| ->]; set_solver.
Qed.

Lemma toggle_wellFiltered fs f : wellFiltered fs -> offered f -> wellFiltered (toggle fs f).
Proof.
  intros [Hnd Hall] Hf. split; [by apply toggle_NoDup|]. intros g Hg.
  destruct (decide (g = f)) as [->|Hne]; [done|]. apply Hall. by apply (toggle_other fs f g Hne).
Qed.

Definition offeredAction (_ : SnarksWorkPoolState) (a : SnarksWorkPoolActions) : Prop :=
  match a with SnarksWorkPoolToggleFilter f => offered f | _ => True end.

Lemma wellFiltered_step s a s' :
  wellFiltered (filters s) -> offeredAction s a -> reducer desktop s a = Ret s' ->
  wellFiltered (filters s').
Proof.
  intros Hw Hok Hs. destruct a; cbn in Hs; simplify_eq; try done.
  - rewrite filterWorkPools_shows in Hs by done. cbn in Hs. by simplify_eq.
  - rewrite filterWorkPools_shows in Hs by by apply toggle_wellFiltered. cbn in Hs. simplify_eq.
    by apply toggle_wellFiltered.
  - split; [constructor|set_solver].
Qed.

(** As long as only the offered filters are toggled, the reducer never
    throws; a sort shows exactly the jobs that match the active filters; a
    toggle flips the filter and shows the matching jobs in the order of the
    last load; a refresh shows every received job, whatever the filters. *)
Theorem workpool_filters s a :
  reachable_exec (reducer desktop) (initialState desktop) offeredAction s -> offeredAction s a ->
  exists s', reducer desktop s a = Ret s' /\
    match a with
    | SnarksWorkPoolSortWorkPool _ =>
        filters s' = filters s /\
        Permutation (filteredWorkPools s') (List.filter (shows (filters s)) (workPools s))
    | SnarksWorkPoolToggleFilter f =>
        (f ∈ filters s' <-> f ∉ filters s) /\
        filteredWorkPools s' = List.filter (shows (filters s')) (workPools s)
    | SnarksWorkPoolGetWorkPoolSuccess payload =>
        filters s' = filters s /\ Permutation payload (filteredWorkPools s')
    | _ => True
    end.
Proof.
  intros Hs Hok.
  assert (wellFiltered (filters s)) as Hw.
  { revert s Hs Hok. intros s Hs _. revert s Hs. apply reachable_exec_inv.
    - split; [constructor|set_solver].
    - apply wellFiltered_step. }
  destruct a; cbn; try by eauto.
  - eexists. split; [done|]. split; [done|]. apply sort_perm.
  - rewrite filterWorkPools_shows by done. cbn. eexists. split; [done|]. split; [done|]. cbn.
    apply list_filter_perm. symmetry. apply sort_perm.
  - rewrite filterWorkPools_shows by by apply toggle_wellFiltered. cbn.
    eexists. split; [done|]. cbn. split; [|done]. apply toggle_member, Hw.
Qed.

(** A refresh while the [local] filter is on brings back the jobs the
    filter hides: every received job without a local origin is shown. *)
Theorem workpool_refresh_drops_filter s payload w :
  "local" ∈ filters s -> w ∈ payload -> hasOrigin Local w = false ->
  exists s', reducer desktop s (SnarksWorkPoolGetWorkPoolSuccess payload) = Ret s' /\
    "local" ∈ filters s' /\ w ∈ filteredWorkPools s' /\ shows (filters s') w = false.
Proof.
  intros Hf Hw Ho. eexists. split; [done|]. cbn. split_and!; [done|by apply sort_elem|].
  unfold shows. by rewrite (proj2 (includes_true _ _) Hf).
Qed.

(** Toggling a filter forgets the chosen sort: after sorting by any column
    the toggled list is the same as without that sort, although the header
    still names the column. *)
Theorem workpool_toggle_forgets_sort s ts f s1 s2 s3 :
  reducer desktop s (SnarksWorkPoolSortWorkPool ts) = Ret s1 ->
  reducer desktop s1 (SnarksWorkPoolToggleFilter f) = Ret s2 ->
  reducer desktop s (SnarksWorkPoolToggleFilter f) = Ret s3 ->
  filteredWorkPools s2 = filteredWorkPools s3 /\ tableSort s2 = ts.
Proof.
  cbn. intros (l1 & _ & H1)%exec_bind_Ret (l2 & Hl2 & H2)%exec_bind_Ret (l3 & Hl3 & H3)%exec_bind_Ret.
  simplify_eq. cbn in Hl2. rewrite Hl3 in Hl2. by simplify_eq.
Qed.

(** A job of the node's answer is listed under [local] exactly when the
    configured SNARK worker committed to it, proved it, or forwarded either;
    under [remote] exactly when a commitment or a proof of it involves
    another worker only.  Without a configured worker nothing is local. *)
Theorem workpool_origin_of_jobs {DF : DateFormat} (snarkerHash : option string) (item : RawItem) :
  let mine a b := snarkerHash = Some a \/ snarkerHash = Some b in
  let w := mapItem snarkerHash item in
  (hasOrigin Local w = true <->
    (exists c, i_commitment item = Some c /\ mine (c_snarker (rc_commitment c)) (rc_sender c)) \/
    (exists s, i_snark item = Some s /\ mine (snarker s) (snarkSender s))) /\
  (hasOrigin Remote w = true <->
    (exists c, i_commitment item = Some c /\ ~ mine (c_snarker (rc_commitment c)) (rc_sender c)) \/
    (exists s, i_snark item = Some s /\ ~ mine (snarker s) (snarkSender s))) /\
  (snarkerHash = None -> hasOrigin Local w = false).
Proof.
  intros mine w.
  assert (forall a b, originOf snarkerHash a b = Local <-> mine a b) as Horigin.
  { intros a b. unfold originOf, mine. destruct (includes _ _) eqn:E; js_simpl; set_solver. }
  assert (forall a b, originOf snarkerHash a b = Remote <-> ~ mine a b) as Hremote.
  { intros a b. rewrite <- Horigin. destruct (originOf snarkerHash a b); naive_solver. }
  assert (forall o, hasOrigin o w = true <->
    (exists c, i_commitment item = Some c /\ originOf snarkerHash (c_snarker (rc_commitment c)) (rc_sender c) = o) \/
    (exists s, i_snark item = Some s /\ originOf snarkerHash (snarker s) (snarkSender s) = o)) as Hany.
  { intros o. unfold hasOrigin, w. cbn. rewrite orb_true_iff, !bool_decide_eq_true, !fmap_Some. naive_solver. }
  split_and!.
  - rewrite Hany. setoid_rewrite Horigin. done.
  - rewrite Hany. setoid_rewrite Hremote. done.
  - intros ->. apply not_true_iff_false. rewrite Hany. setoid_rewrite Horigin. unfold mine. naive_solver.
Qed.

(** The two status columns are sorted by objects: in both directions the jobs with a
    commitment, or a proof, keep the order of the answer, and the others follow. *)
Theorem workpool_status_unsorted ws d :
  sortWorkPools ws (mkTableSort fCommitment d)
    = List.filter (fun w => bool_decide (is_Some (commitment w))) ws
      ++ List.filter (fun w => negb (bool_decide (is_Some (commitment w)))) ws /\
  sortWorkPools ws (mkTableSort fSnark d)
    = List.filter (fun w => bool_decide (is_Some (snark w))) ws
      ++ List.filter (fun w => negb (bool_decide (is_Some (snark w)))) ws.
Proof.
  split; unfold sortWorkPools, sort; cbn [negb isStringSorting sortBy].
  1: set (p := fun e : WorkPool => hasValue (get fCommitment e)).
  2: set (p := fun e : WorkPool => hasValue (get fSnark e)).
  all: rewrite nan_arraySort; [|reflexivity|].
  1, 3: f_equal; apply List.filter_ext; intros w; unfold p, get, WorkPool_row; by destruct (commitment w), (snark w).
  all: apply Forall_forall; intros w [_ Hp]%elem_of_list_filter; revert Hp; unfold p, get, WorkPool_row, sortBy;
    by destruct (commitment w), (snark w).
Qed.

End Theorems.

Definition demoItem (i : string) (s : string) : RawItem :=
  mkItem i 5 (Some (mkSnark s "0" 7 s)) None.
Definition demoPools : list WorkPool :=
  mapWorkPoolResponse (DF := fun _ _ => "t") (Some "me") [demoItem "j1" "me"; demoItem "j2" "you"].

Definition demoLocal : SnarksWorkPoolState := (initialState true) <| filters := ["local"] |>.

Lemma workpool_filters_witness :
  exists s', reducer (LC := codeUnitCompare) true (initialState true) (SnarksWorkPoolToggleFilter "local") = Ret s' /\
    "local" ∈ filters s'.
Proof.
  destruct (workpool_filters (LC := codeUnitCompare) true (initialState true)
    (SnarksWorkPoolToggleFilter "local")) as (s' & H & Hf & _).
  - apply reachable_exec_init.
  - left. reflexivity.
  - exists s'. split; [exact H|]. apply Hf. set_solver.
Defined.

Lemma workpool_refresh_drops_filter_witness :
  exists w s', reducer (LC := codeUnitCompare) true demoLocal (SnarksWorkPoolGetWorkPoolSuccess demoPools) = Ret s' /\
    w ∈ filteredWorkPools s' /\ id w = "j2".
Proof.
  exists (mapItem (DF := fun _ _ => "t") (Some "me") (demoItem "j2" "you")).
  destruct (workpool_refresh_drops_filter (LC := codeUnitCompare) true demoLocal demoPools
    (mapItem (DF := fun _ _ => "t") (Some "me") (demoItem "j2" "you"))) as (s' & H & _ & Hw & _).
  - cbn. left.
  - cbn. right. left.
  - vm_compute. reflexivity.
  - exists s'. split; [exact H|split; [exact Hw|reflexivity]].
Defined.

Lemma workpool_toggle_forgets_sort_witness :
  exists s1 s2 s3,
    reducer (LC := codeUnitCompare) true demoLocal (SnarksWorkPoolSortWorkPool (mkTableSort fId ASC)) = Ret s1 /\
    reducer (LC := codeUnitCompare) true s1 (SnarksWorkPoolToggleFilter "remote") = Ret s2 /\
    reducer (LC := codeUnitCompare) true demoLocal (SnarksWorkPoolToggleFilter "remote") = Ret s3 /\
    filteredWorkPools s2 = filteredWorkPools s3.
Proof.
  eexists _, _, _. split; [reflexivity|split; [reflexivity|split; [reflexivity|]]].
  eapply (workpool_toggle_forgets_sort (LC := codeUnitCompare) true demoLocal (mkTableSort fId ASC) "remote");
    reflexivity.
Defined.

End WorkPools.
