(* ===== verification/ScanState.v ===== *)
(** SNARK scan state (frontend/src/app/features/snarks/scan-state): the trees of
    pending SNARK jobs of a block and the workers busy with them. *)

From S2P Require Import Prelude JsRuntime.

Module ScanState.

(** * Data *)

Inductive ScanStateLeafStatus := Empty | Pending | Done | Todo.

#[export] Instance ScanStateLeafStatus_eq_dec : EqDecision ScanStateLeafStatus.
Proof. solve_decision. Defined.

(** The part of a commitment the page reads. *)
Record LeafCommitment := mkCommitment { commitmentSnarker : string; commitmentBody : string }.

Record LeafSnark := mkSnark { snarker : string; fee : string }.

(** Every field is optional: an object spread of [undefined] has none. *)
Record ScanStateLeaf := mkLeaf {
  status : option ScanStateLeafStatus;
  job_id : option string;
  bundle_job_id : option string;
  jobKind : option string;
  seq_no : option Z;
  commitment : option LeafCommitment;
  snark : option LeafSnark;
  jobIndex : option nat;
  treeIndex : option nat;
  scrolling : option bool
}.

#[export] Instance ScanStateLeaf_copy : RecordCopy ScanStateLeaf := {|
  record_copy l := mkLeaf (status l) (job_id l) (bundle_job_id l) (jobKind l) (seq_no l)
    (commitment l) (snark l) (jobIndex l) (treeIndex l) (scrolling l);
  record_copy_id := fun '(mkLeaf _ _ _ _ _ _ _ _ _ _) => eq_refl |}.

Definition noLeaf : ScanStateLeaf := mkLeaf None None None None None None None None None None.

Record ScanStateTree := mkTree {
  leafs : list ScanStateLeaf;
  availableJobs : nat;
  ongoing : nat;
  notIncludedSnarks : nat;
  completedSnarks : nat;
  empty : nat;
  coinbase : nat;
  payment : nat;
  zkApp : nat;
  feeTransfer : nat;
  merge : nat
}.

Record ScanStateWorkingSnarker := mkSnarker {
  hash : string;
  name : string;
  local : bool;
  url : string;
  snarkerLeafs : list ScanStateLeaf;
  error : option string
}.

#[export] Instance ScanStateWorkingSnarker_copy : RecordCopy ScanStateWorkingSnarker := {|
  record_copy s := mkSnarker (hash s) (name s) (local s) (url s) (snarkerLeafs s) (error s);
  record_copy_id := fun '(mkSnarker _ _ _ _ _ _) => eq_refl |}.

(** The properties that the block shown after a failed request lacks are options. *)
Record ScanStateBlock := mkBlock {
  blockHash : option string;
  height : option Z;
  globalSlot : option Z;
  transactions : option (list Json);
  completedWorks : option (list Json);
  workingSnarkers : list ScanStateWorkingSnarker;
  trees : list ScanStateTree
}.

Record ScanStateState := mkState {
  block : option ScanStateBlock;
  activeJobId : option string;
  activeLeaf : option ScanStateLeaf;
  openSidePanel : bool;
  sideBarResized : nat;
  stream : bool;
  treeView : bool;
  highlightSnarkPool : bool
}.

#[export] Instance ScanStateState_copy : RecordCopy ScanStateState := {|
  record_copy s := mkState (block s) (activeJobId s) (activeLeaf s) (openSidePanel s)
    (sideBarResized s) (stream s) (treeView s) (highlightSnarkPool s);
  record_copy_id := fun '(mkState _ _ _ _ _ _ _ _) => eq_refl |}.

(** [heightOrHash] of a request: absent, [null], a text of the address or of the
    search, or a number of the arrows of the toolbar, NaN without a block. *)
Inductive Height := HUndefined | HNull | HText (text : string) | HNumber (n : Z) | HNaN.

#[export] Instance Height_eq_dec : EqDecision Height.
Proof. solve_decision. Defined.

(** [===]: a number is not equal to its text, NaN to nothing. *)
Definition sameHeight (a b : Height) : bool :=
  match a with HNaN => false | _ => bool_decide (a = b) end.

Definition truthyHeight (h : Height) : bool :=
  match h with
  | HText s => negb (bool_decide (s = ""))
  | HNumber n => negb (n =? 0)%Z
  | HUndefined | HNull | HNaN => false
  end.

Inductive ScanStateActions :=
| ScanStateInit
| ScanStateInitSuccess
| ScanStateClose
| ScanStateGetBlock (heightOrHash : Height)
| ScanStateGetBlockSuccess (payload : ScanStateBlock)
| ScanStateSetActiveJobId (payload : option string)
| ScanStateSetActiveLeaf (payload : option ScanStateLeaf)
| ScanStateToggleSidePanel
| ScanStateSidebarResized
| ScanStateStart
| ScanStatePause
| ScanStateToggleTreeView
| ScanStateHighlightSnarkPool.

Definition actionType (a : ScanStateActions) : string :=
  match a with
  | ScanStateInit => "SCAN_STATE_INIT"
  | ScanStateInitSuccess => "SCAN_STATE_INIT_SUCCESS"
  | ScanStateClose => "SCAN_STATE_CLOSE"
  | ScanStateGetBlock _ => "SCAN_STATE_GET_BLOCK"
  | ScanStateGetBlockSuccess _ => "SCAN_STATE_GET_BLOCK_SUCCESS"
  | ScanStateSetActiveJobId _ => "SCAN_STATE_SET_ACTIVE_JOB_ID"
  | ScanStateSetActiveLeaf _ => "SCAN_STATE_SET_ACTIVE_LEAF"
  | ScanStateToggleSidePanel => "SCAN_STATE_TOGGLE_SIDE_PANEL"
  | ScanStateSidebarResized => "SCAN_STATE_SIDEBAR_RESIZED"
  | ScanStateStart => "SCAN_STATE_START"
  | ScanStatePause => "SCAN_STATE_PAUSE"
  | ScanStateToggleTreeView => "SCAN_STATE_TOGGLE_TREE_VIEW"
  | ScanStateHighlightSnarkPool => "SCAN_STATE_HIGHLIGHT_SNARK_POOL"
  end.

(** * Reducer

    The reducer also writes the key [scan_state_tree_view] of the local
    storage; the storage cell is threaded beside the state. *)

Definition Storage : Type := option string.

(** [JSON.parse(stored ?? 'false') || false], of the texts the page writes. *)
Definition storedTreeView (stored : Storage) : bool := bool_decide (stored = Some "true").

(** [JSON.stringify(b)] *)
Definition stringifyBool (b : bool) : string := if b then "true" else "false".

Section Reducer.
(** [isDesktop()] and the storage when the application was loaded: the initial
    state is a constant of the module. *)
Context (desktop : bool) (atLoad : Storage).

Definition initialState : ScanStateState := {|
  block := None;
  activeJobId := None;
  activeLeaf := None;
  openSidePanel := desktop;
  sideBarResized := 0;
  stream := true;
  treeView := storedTreeView atLoad;
  highlightSnarkPool := true
|}.

(** The leaf of a job: the first one of all trees, in order. *)
Definition leafsOfJob (trees : list ScanStateTree) (job : string) : list ScanStateLeaf :=
  fold_left (fun acc t => acc ++ List.filter (fun l => bool_decide (bundle_job_id l = Some job)) (leafs t))
    trees [].

Definition reducer (state : ScanStateState) (storage : Storage) (action : ScanStateActions)
  : ScanStateState * Storage :=
  match action with
  | ScanStateGetBlockSuccess payload =>
      (state <| block := Some payload |>
             <| activeLeaf :=
                  if truthyStr (activeJobId state) then
                    Some ((default noLeaf (head (leafsOfJob (trees payload) (default "" (activeJobId state)))))
                            <| scrolling := Some (negb (bool_decide (is_Some (activeLeaf state)))) |>)
                  else None |>, storage)
  | ScanStateSetActiveJobId payload =>
      (state <| activeJobId := payload |> <| stream := false |>, storage)
  | ScanStateToggleSidePanel =>
      (state <| openSidePanel := negb (openSidePanel state) |> <| activeJobId := None |>
             <| activeLeaf := None |>, storage)
  | ScanStateSetActiveLeaf payload =>
      (state <| openSidePanel := match payload with Some _ => true | None => openSidePanel state end |>
             <| activeLeaf := payload |>
             <| activeJobId := match payload with Some l => bundle_job_id l | None => None end |>
             <| stream := match payload with Some _ => false | None => stream state end |>, storage)
  | ScanStateSidebarResized => (state <| sideBarResized := sideBarResized state + 1 |>, storage)
  | ScanStateStart => (state <| stream := true |>, storage)
  | ScanStatePause => (state <| stream := false |>, storage)
  | ScanStateToggleTreeView =>
      (state <| treeView := negb (treeView state) |>, Some (stringifyBool (negb (treeView state))))
  | ScanStateHighlightSnarkPool =>
      (state <| highlightSnarkPool := negb (highlightSnarkPool state) |>, storage)
  | ScanStateClose => (initialState, storage)
  | ScanStateInit | ScanStateInitSuccess | ScanStateGetBlock _ => (state, storage)
  end.

End Reducer.

(** * Service *)

Record RawBlock := mkRawBlock {
  r_hash : string;
  r_height : Z;
  r_global_slot : Z;
  r_completed_works : list Json;
  r_transactions : list Json
}.

Record RawScanState := mkRaw { r_block : RawBlock; r_scan_state : list (list ScanStateLeaf) }.

Definition isWorking (l : ScanStateLeaf) : bool :=
  bool_decide (is_Some (commitment l)) && negb (bool_decide (is_Some (snark l))).

Definition hasStatus (s : ScanStateLeafStatus) (l : ScanStateLeaf) : bool := bool_decide (status l = Some s).
Definition hasSnark (l : ScanStateLeaf) : bool := bool_decide (is_Some (snark l)).
Definition hasKind (k : string) (l : ScanStateLeaf) : bool := bool_decide (jobKind l = Some k).

Definition mapTree (index : nat) (tree : list ScanStateLeaf) : ScanStateTree := {|
  availableJobs := countIf (hasStatus Todo) tree;
  ongoing := countIf isWorking tree;
  notIncludedSnarks := countIf (fun l => hasSnark l && hasStatus Pending l) tree;
  completedSnarks := countIf (fun l => hasSnark l && hasStatus Done l) tree;
  leafs := mapi (fun j l => l <| treeIndex := Some index |> <| jobIndex := Some j |>) tree;
  empty := countIf (fun l => negb (truthyStr (jobKind l))) tree;
  coinbase := countIf (hasKind "Coinbase") tree;
  feeTransfer := countIf (hasKind "FeeTransfer") tree;
  payment := countIf (hasKind "Payment") tree;
  zkApp := countIf (hasKind "Zkapp") tree;
  merge := countIf (hasKind "Merge") tree
|}.

(** [const snarker = snarkers.find(...); if (snarker) snarker.leafs.push(leaf)] *)
Fixpoint pushLeaf (leaf : ScanStateLeaf) (h : string) (ss : list ScanStateWorkingSnarker)
  : list ScanStateWorkingSnarker :=
  match ss with
  | [] => []
  | s :: ss =>
      if bool_decide (hash s = h) then s <| snarkerLeafs := snarkerLeafs s ++ [leaf] |> :: ss
      else s :: pushLeaf leaf h ss
  end.

Definition assignLeaf (ss : list ScanStateWorkingSnarker) (leaf : ScanStateLeaf)
  : list ScanStateWorkingSnarker :=
  match commitment leaf with
  | Some c => pushLeaf leaf (commitmentSnarker c) ss
  | None => ss
  end.

Definition resetSnarker (rustUrl : string) (s : ScanStateWorkingSnarker) : ScanStateWorkingSnarker :=
  s <| local := bool_decide (url s = rustUrl) |> <| snarkerLeafs := [] |>.

(** The answer and the new [this.snarkers]. *)
Definition mapScanState (rustUrl : string) (snarkers : list ScanStateWorkingSnarker)
  (response : option RawScanState) : exec (ScanStateBlock * list ScanStateWorkingSnarker) :=
  match response with
  | None => Throw (ErrorMsg "Scan state not ready!")
  | Some response =>
      let ts := mapi mapTree (rev (r_scan_state response)) in
      let workingLeafs := concat ((fun t => List.filter isWorking (leafs t)) <$> ts) in
      let ss := fold_left assignLeaf workingLeafs (resetSnarker rustUrl <$> snarkers) in
      Ret ({| blockHash := Some (r_hash (r_block response));
              height := Some (r_height (r_block response));
              globalSlot := Some (r_global_slot (r_block response));
              completedWorks := Some (r_completed_works (r_block response));
              transactions := Some (r_transactions (r_block response));
              workingSnarkers := ss;
              trees := ts |}, ss)
  end.

(** [catchError] of [getScanState]: [errorBody] is [err.error], which only an
    HTTP error has; [new Error(undefined)] has an empty message. *)
Definition recoverScanState (snarkers : list ScanStateWorkingSnarker) (errorBody : option string)
  : exec (ScanStateBlock * list ScanStateWorkingSnarker) :=
  if bool_decide (errorBody = Some "target block not found")
  then Ret (mkBlock (Some "") (Some 0%Z) (Some 0%Z) (Some []) (Some []) [] [], snarkers)
  else Throw (ErrorMsg (default "" errorBody)).

(** The answer of the summary request: its body, or the body of an HTTP error. *)
Definition getScanState (rustUrl : string) (snarkers : list ScanStateWorkingSnarker)
  (answer : option RawScanState + string) : exec (ScanStateBlock * list ScanStateWorkingSnarker) :=
  match answer with
  | inl response =>
      match mapScanState rustUrl snarkers response with
      | Ret r => Ret r
      | Throw _ => recoverScanState snarkers None
      end
  | inr body => recoverScanState snarkers (Some body)
  end.

(** [this.snarkers] of the first load: the configuration of every node of the
    application, answered with a key or nothing, or failing with a message and,
    for errors that have one, a [statusCode]. *)
Definition snarkerOf (rustUrl nodeName nodeUrl : string) (answer : option string + string * option Z)
  : option ScanStateWorkingSnarker :=
  match answer with
  | inl None => None
  | inl (Some key) => Some (mkSnarker key nodeName (bool_decide (nodeUrl = rustUrl)) nodeUrl [] None)
  | inr (message, statusCode) =>
      let parsing := match statusCode with Some c => (c <? 400)%Z | None => false end in
      Some (mkSnarker "" nodeName (bool_decide (nodeUrl = rustUrl)) nodeUrl []
              (Some (if negb (strIncludes message "Http failure") && parsing
                     then "Frontend parsing error" else message)))
  end.

(** [forkJoin] of the nodes with their answers, then [filter(Boolean)]. *)
Definition loadSnarkers (rustUrl : string) (nodes : list (string * string * (option string + string * option Z)))
  : list ScanStateWorkingSnarker :=
  omap (fun '(n, u, answer) => snarkerOf rustUrl n u answer) nodes.

(** The workers are asked for once, behind the first answer: the result of a load
    and the new [this.snarkers].  Without nodes [forkJoin] completes without a
    value, and so does the load ([None]). *)
Definition loadScanState (rustUrl : string) (known : option (list ScanStateWorkingSnarker))
  (nodes : list (string * string * (option string + string * option Z))) (answer : option RawScanState + string)
  : option (exec ScanStateBlock) * option (list ScanStateWorkingSnarker) :=
  let load ss :=
    let r := getScanState rustUrl ss answer in
    (Some (fst <$> r), Some (match r with Ret (_, ss') => ss' | Throw _ => ss end)) in
  match known, answer, nodes with
  | Some ss, _, _ => load ss
  | None, inr _, _ => (Some (fst <$> getScanState rustUrl [] answer), None)
  | None, inl _, [] => (None, None)
  | None, inl _, _ => load (loadSnarkers rustUrl nodes)
  end.

(** [{ trees: [], workingSnarkers: [] }], shown after a failed request. *)
Definition failedBlock : ScanStateBlock := mkBlock None None None None None [] [].

(** * The trees *)

Definition knownKinds : list string := ["Coinbase"; "FeeTransfer"; "Payment"; "Zkapp"; "Merge"].

Definition knownKind (l : ScanStateLeaf) : Prop :=
  match jobKind l with None => True | Some k => k = "" \/ k ∈ knownKinds end.

Lemma tree_census index tree :
  Forall knownKind tree ->
  let t := mapTree index tree in
  length tree = empty t + coinbase t + feeTransfer t + payment t + zkApp t + merge t.
Proof.
  intros Hk. cbn. induction Hk as [|l tree Hl _ IH]; [done|]. rewrite !countIf_cons. cbn [length].
  unfold knownKind, knownKinds, hasKind, truthyStr in *.
  assert (jobKind l = None \/ jobKind l = Some "" \/ jobKind l = Some "Coinbase" \/
    jobKind l = Some "FeeTransfer" \/ jobKind l = Some "Payment" \/ jobKind l = Some "Zkapp" \/
    jobKind l = Some "Merge") as Hcases.
  { destruct (jobKind l); [|auto]. destruct Hl as [->|Hl]; [auto|]. set_solver. }
  destruct Hcases as [->|[->|[->|[->|[->|[->| ->]]]]]];
    repeat (case_bool_decide; simplify_eq); cbn; lia.
Qed.

(** Tagging a leaf with its position does not change its work. *)
Lemma imap_working (f : nat -> ScanStateLeaf -> ScanStateLeaf) :
  (forall j l, isWorking (f j l) = isWorking l) -> forall tree,
  length (List.filter isWorking (imap f tree)) = countIf isWorking tree.
Proof.
  intros Hf tree. revert f Hf. induction tree as [|l tree IH]; intros f Hf; [done|].
  rewrite countIf_cons. cbn. rewrite Hf. specialize (IH (f ∘ S)). cbn in IH.
  rewrite <- IH by auto. by destruct (isWorking l).
Qed.

Definition workingLeafs (b : ScanStateBlock) : list ScanStateLeaf :=
  concat ((fun t => List.filter isWorking (leafs t)) <$> trees b).

Lemma concat_length {A} (ls : list (list A)) : length (concat ls) = sum_list (length <$> ls).
Proof. induction ls as [|l ls IH]; [done|]. cbn. by rewrite length_app, IH. Qed.

(** The shown trees are the scan state newest first; every leaf carries the
    index of its tree and its own index in it, the six kind counters of a tree
    add up to its size (for the five job kinds and empty leaves), and the
    [ongoing] counters add up to the leaves being worked on. *)
Theorem scanstate_census rustUrl snarkers response b ss :
  mapScanState rustUrl snarkers (Some response) = Ret (b, ss) ->
  length (trees b) = length (r_scan_state response) /\
  sum_list (ongoing <$> trees b) = length (workingLeafs b) /\
  forall i t, trees b !! i = Some t ->
    exists raw, rev (r_scan_state response) !! i = Some raw /\ length (leafs t) = length raw /\
      (forall j l, leafs t !! j = Some l -> treeIndex l = Some i /\ jobIndex l = Some j) /\
      (Forall knownKind raw ->
        length raw = empty t + coinbase t + feeTransfer t + payment t + zkApp t + merge t).
Proof.
  intros H. cbn in H. simplify_eq. unfold workingLeafs. cbn [trees]. split_and!.
  - unfold mapi. by rewrite length_imap, length_rev.
  - rewrite concat_length, <- list_fmap_compose. f_equal. apply list_eq. intros i.
    rewrite !list_lookup_fmap. unfold mapi. rewrite !list_lookup_imap.
    destruct (rev (r_scan_state response) !! i) as [raw|]; [|done]. cbn. f_equal.
    symmetry. by apply imap_working.
  - intros i t Hi. unfold mapi in Hi. rewrite list_lookup_imap in Hi.
    apply fmap_Some in Hi as (raw & Hraw & ->). exists raw. split_and!; [done| | |].
    + cbn. unfold mapi. apply length_imap.
    + intros j l Hj. cbn in Hj. unfold mapi in Hj. rewrite list_lookup_imap in Hj.
      apply fmap_Some in Hj as (l0 & _ & ->). done.
    + apply tree_census.
Qed.

(** * The workers *)

Definition committedBy (h : string) (l : ScanStateLeaf) : bool :=
  bool_decide (commitmentSnarker <$> commitment l = Some h).

Definition firstWith (h : string) (ss : list ScanStateWorkingSnarker) : option nat :=
  findIndex (fun s => bool_decide (hash s = h)) ss.

Definition addLeafs (ls : list ScanStateLeaf) (s : ScanStateWorkingSnarker) : ScanStateWorkingSnarker :=
  s <| snarkerLeafs := snarkerLeafs s ++ ls |>.

Lemma addLeafs_nil s : addLeafs [] s = s.
Proof. unfold addLeafs. destruct s. cbn. by rewrite app_nil_r. Qed.

Lemma pushLeaf_lookup leaf h ss : forall k,
  pushLeaf leaf h ss !! k =
  (fun s => if bool_decide (firstWith h ss = Some k) then addLeafs [leaf] s else s) <$> ss !! k.
Proof.
  unfold firstWith. induction ss as [|s ss IH]; intros k; [done|]. cbn [pushLeaf findIndex].
  destruct (bool_decide (hash s = h)) eqn:E.
  - destruct k as [|k]; [done|]. cbn. rewrite bool_decide_false by done. by destruct (ss !! k).
  - destruct k as [|k].
    + cbn. rewrite bool_decide_false; [done|]. intros Hk%fmap_Some. naive_solver.
    + cbn. rewrite IH. destruct (ss !! k) as [s'|]; [|done]. cbn. f_equal.
      destruct (findIndex _ ss) as [i|]; cbn; repeat case_bool_decide; naive_solver.
Qed.

Lemma pushLeaf_proj {B} (f : ScanStateWorkingSnarker -> B) leaf h ss :
  (forall s ls, f (s <| snarkerLeafs := ls |>) = f s) -> f <$> pushLeaf leaf h ss = f <$> ss.
Proof.
  intros Hf. induction ss as [|s ss IH]; [done|]. cbn.
  case_bool_decide; rewrite !fmap_cons; [by rewrite Hf|by rewrite IH].
Qed.

Lemma pushLeaf_hashes leaf h ss : hash <$> pushLeaf leaf h ss = hash <$> ss.
Proof. by apply pushLeaf_proj. Qed.

(** The first load that answers keeps one worker for every node that reported a
    key or failed, in the order of the nodes, and shows them with the block. *)
Theorem scanstate_first_load rustUrl nodes response :
  nodes <> [] ->
  let worker s := (hash s, name s, url s) in
  exists b ss, loadScanState rustUrl None nodes (inl (Some response)) = (Some (Ret b), Some ss) /\
    workingSnarkers b = ss /\ worker <$> ss = worker <$> loadSnarkers rustUrl nodes.
Proof.
  intros Hn. destruct nodes as [|n nodes]; [done|]. cbn zeta.
  eexists _, (fold_left assignLeaf _ (resetSnarker rustUrl <$> loadSnarkers rustUrl (n :: nodes))).
  split; [reflexivity|]. split; [reflexivity|].
  generalize (loadSnarkers rustUrl (n :: nodes)). intros ws.
  match goal with |- context [fold_left assignLeaf ?ls _] => generalize ls end. intros ls.
  transitivity ((fun s => (hash s, name s, url s)) <$> (resetSnarker rustUrl <$> ws)).
  - generalize (resetSnarker rustUrl <$> ws). induction ls as [|l ls IH]; intros ss; [done|].
    cbn. rewrite IH. unfold assignLeaf. destruct (commitment l); [by apply pushLeaf_proj|done].
  - rewrite <- list_fmap_compose. done.
Qed.

Lemma firstWith_hashes h ss ss' : hash <$> ss = hash <$> ss' -> firstWith h ss = firstWith h ss'.
Proof.
  unfold firstWith. revert ss'. induction ss as [|s ss IH]; intros [|s' ss'] H; try done.
  cbn in *. injection H as Hs Hrest. rewrite Hs. case_bool_decide; [done|]. by rewrite (IH ss').
Qed.

Lemma assign_lookup ls : forall ss k,
  fold_left assignLeaf ls ss !! k =
  (fun s => if bool_decide (firstWith (hash s) ss = Some k)
            then addLeafs (List.filter (committedBy (hash s)) ls) s else s) <$> ss !! k.
Proof.
  induction ls as [|l ls IH]; intros ss k; cbn [fold_left].
  - destruct (ss !! k) as [s|]; [|done]. cbn. by rewrite addLeafs_nil, Tauto.if_same.
  - rewrite IH. unfold assignLeaf. destruct (commitment l) as [c|] eqn:Hc.
    + rewrite pushLeaf_lookup. destruct (ss !! k) as [s|] eqn:Hk; [|done]. cbn.
      assert (hash (if bool_decide (firstWith (commitmentSnarker c) ss = Some k)
                    then addLeafs [l] s else s) = hash s) as Hh by (by case_bool_decide).
      rewrite Hh, (firstWith_hashes _ _ _ (pushLeaf_hashes l _ ss)). unfold committedBy at 2.
      rewrite Hc. cbn. destruct (decide (commitmentSnarker c = hash s)) as [->|Hne].
      * rewrite (bool_decide_true (Some (hash s) = Some (hash s))) by done.
        destruct (bool_decide (firstWith (hash s) ss = Some k)); [|done]. f_equal. unfold addLeafs. destruct s. cbn. by rewrite <- app_assoc.
      * rewrite (bool_decide_false (Some (commitmentSnarker c) = Some (hash s))) by congruence.
        destruct (bool_decide (firstWith (commitmentSnarker c) ss = Some k)) eqn:Hfirst; [|done].
        apply bool_decide_eq_true in Hfirst. apply findIndex_Some in Hfirst as [(s' & Hs' & Heq) _]. js_simpl. naive_solver.
    + destruct (ss !! k) as [s|]; [|done]. cbn. unfold committedBy at 2. by rewrite Hc.
Qed.

(** After a load the first worker with a given key lists exactly the leaves
    it committed to and that have no proof yet, in the order of the trees; a
    later entry with the same key lists nothing, leaves of unknown keys are
    nowhere; nothing remains of the previous load, and a worker is local
    exactly when its url is the selected node's. *)
Theorem scanstate_workers rustUrl snarkers response b ss :
  mapScanState rustUrl snarkers (Some response) = Ret (b, ss) ->
  workingSnarkers b = ss /\ length ss = length snarkers /\
  forall k s, ss !! k = Some s -> exists s0, snarkers !! k = Some s0 /\
    hash s = hash s0 /\ name s = name s0 /\ url s = url s0 /\
    local s = bool_decide (url s = rustUrl) /\
    snarkerLeafs s = if bool_decide (firstWith (hash s) snarkers = Some k)
                     then List.filter (committedBy (hash s)) (workingLeafs b) else [].
Proof.
  intros H. cbn in H. simplify_eq. unfold workingLeafs. cbn [trees workingSnarkers].
  set (ls := concat _). split; [done|].
  assert (forall k, fold_left assignLeaf ls (resetSnarker rustUrl <$> snarkers) !! k = _) as Hlook
    by apply assign_lookup.
  assert (forall h, firstWith h (resetSnarker rustUrl <$> snarkers) = firstWith h snarkers) as Hfw.
  { intros h. apply firstWith_hashes. by rewrite <- list_fmap_compose. }
  split.
  - generalize (resetSnarker rustUrl <$> snarkers), (length_fmap (resetSnarker rustUrl) snarkers).
    clear. intros l <-. revert l. induction ls as [|x ls IH]; intros l; [done|]. cbn. rewrite IH.
    unfold assignLeaf. destruct (commitment x); [|done].
    by rewrite <- (length_fmap hash), pushLeaf_hashes, length_fmap.
  - intros k s Hk. rewrite Hlook, list_lookup_fmap in Hk.
    destruct (snarkers !! k) as [s0|]; [|done]. cbn in Hk. exists s0. rewrite Hfw in Hk.
    destruct (bool_decide (firstWith (hash s0) snarkers = Some k)) eqn:Hc; simplify_eq; cbn;
      rewrite Hc; done.
Qed.

(** * Selection and preferences *)

Lemma leafsOfJob_spec ts job :
  leafsOfJob ts job =
  concat ((fun t => List.filter (fun l => bool_decide (bundle_job_id l = Some job)) (leafs t)) <$> ts).
Proof.
  unfold leafsOfJob. rewrite <- (app_nil_l (concat _)). generalize (@nil ScanStateLeaf).
  induction ts as [|t ts IH]; intros acc; cbn; [by rewrite app_nil_r|]. by rewrite IH, app_assoc.
Qed.

(** While a job is selected, each new block selects the first leaf of that
    job in the trees, and asks to scroll to it only if no leaf was selected.
    When the job is gone from the block, the selection is not cleared: an
    object without job id, status or index stays selected. *)
Theorem scanstate_follow_job desktop atLoad state storage job payload :
  activeJobId state = Some job -> job <> "" ->
  let '(state', _) := reducer desktop atLoad state storage (ScanStateGetBlockSuccess payload) in
  block state' = Some payload /\ activeJobId state' = Some job /\
  exists leaf, activeLeaf state' = Some leaf /\
    scrolling leaf = Some (bool_decide (activeLeaf state = None)) /\
    ((exists t l, t ∈ trees payload /\ l ∈ leafs t /\ bundle_job_id l = Some job /\
        bundle_job_id leaf = Some job /\ status leaf = status l /\ job_id leaf = job_id l /\
        treeIndex leaf = treeIndex l /\ jobIndex leaf = jobIndex l) \/
     ((forall t l, t ∈ trees payload -> l ∈ leafs t -> bundle_job_id l <> Some job) /\
        bundle_job_id leaf = None /\ status leaf = None /\ treeIndex leaf = None)).
Proof.
  intros Hjob Hne. cbn. rewrite Hjob. split; [done|]. split; [done|].
  assert (truthyStr (Some job) = true) as -> by (by destruct job).
  eexists. split; [done|]. cbn [scrolling]. split.
  { f_equal. destruct (activeLeaf state); by repeat case_bool_decide; try (exfalso; naive_solver). }
  cbn [default]. rewrite leafsOfJob_spec.
  destruct (concat _) as [|l rest] eqn:Hl.
  - right. split; [|done]. intros t l Ht Hin Heq.
    assert (l ∈ @nil ScanStateLeaf) as Hn; [|by apply elem_of_nil in Hn].
    rewrite <- Hl, list_elem_of_In, in_concat. setoid_rewrite <- list_elem_of_In.
    eexists. split; [by apply (list_elem_of_fmap_2 _ _ t)|]. apply elem_of_list_filter.
    split; [done|]. by js_simpl.
  - left. assert (l ∈ l :: rest) as Hin by left.
    rewrite <- Hl, list_elem_of_In, in_concat in Hin. setoid_rewrite <- list_elem_of_In in Hin.
    destruct Hin as (ls & (t & -> & Ht)%list_elem_of_fmap & Hin).
    apply elem_of_list_filter in Hin as [Hin Hb]. js_simpl. exists t, l. done.
Qed.

(** A load shows the mapped block for a body, the empty block when the node
    does not know the requested one, and fails otherwise; when the node's scan
    state is not ready the failure has an empty message, the text of the
    mapping error being dropped. *)
Theorem scanstate_load_outcomes rustUrl snarkers answer :
  match answer with
  | inl (Some response) => exists b ss,
      getScanState rustUrl snarkers answer = Ret (b, ss) /\ blockHash b = Some (r_hash (r_block response))
  | inl None => getScanState rustUrl snarkers answer = Throw (ErrorMsg "") /\
      mapScanState rustUrl snarkers None = Throw (ErrorMsg "Scan state not ready!")
  | inr body =>
      if bool_decide (body = "target block not found")
      then exists b, getScanState rustUrl snarkers answer = Ret (b, snarkers) /\ trees b = [] /\ height b = Some 0%Z
      else getScanState rustUrl snarkers answer = Throw (ErrorMsg body)
  end.
Proof.
  destruct answer as [[response|]|body]; [cbn; eauto|done|].
  cbn. unfold recoverScanState. case_bool_decide as Hb.
  - rewrite bool_decide_true by congruence. eauto.
  - by rewrite bool_decide_false by congruence.
Qed.

(** Switching the tree view stores the new choice, but leaving the page
    returns to the choice stored when the application was loaded, so the page
    then shows the opposite of the stored preference. *)
Theorem scanstate_close_forgets_tree_view desktop atLoad :
  let '(s1, st1) := reducer desktop atLoad (initialState desktop atLoad) atLoad ScanStateToggleTreeView in
  let '(s2, st2) := reducer desktop atLoad s1 st1 ScanStateClose in
  treeView s1 = storedTreeView st1 /\ treeView s2 = negb (storedTreeView st2).
Proof. cbn. unfold storedTreeView. by case_bool_decide. Qed.

Definition demoLeaf (job : string) (who : option string) : ScanStateLeaf :=
  noLeaf <| bundle_job_id := Some job |> <| jobKind := Some "Merge" |> <| status := Some Todo |>
         <| commitment := (fun w => mkCommitment w "") <$> who |>.

Definition demoRaw : RawScanState :=
  mkRaw (mkRawBlock "h" 1 2 [] []) [[demoLeaf "j1" (Some "k2")]; [demoLeaf "j2" (Some "k1"); demoLeaf "j3" None]].
Definition demoSnarkers : list ScanStateWorkingSnarker :=
  [mkSnarker "k1" "n1" false "u1" [] None; mkSnarker "k2" "n2" false "u2" [noLeaf] None].

Lemma scanstate_census_witness :
  exists b ss, mapScanState "u1" demoSnarkers (Some demoRaw) = Ret (b, ss) /\
    sum_list (ongoing <$> trees b) = length (workingLeafs b) /\ length (trees b) = 2.
Proof.
  eexists _, _. split; [reflexivity|].
  destruct (scanstate_census "u1" demoSnarkers demoRaw _ _ eq_refl) as (H1 & H2 & _).
  split; [exact H2|exact H1].
Defined.

Lemma scanstate_first_load_witness : exists b ss,
  loadScanState "u1" None [("n1", "u1", inl (Some "k1")); ("n2", "u2", inl None); ("n3", "u3", inr ("Http failure", None))]
    (inl (Some demoRaw)) = (Some (Ret b), Some ss) /\ hash <$> ss = ["k1"; ""].
Proof.
  destruct (scanstate_first_load "u1"
    [("n1", "u1", inl (Some "k1")); ("n2", "u2", inl None); ("n3", "u3", inr ("Http failure", None))] demoRaw)
    as (b & ss & H & _); [discriminate|].
  exists b, ss. split; [exact H|]. injection H as _ <-. reflexivity.
Defined.

Lemma scanstate_workers_witness :
  exists b ss, mapScanState "u1" demoSnarkers (Some demoRaw) = Ret (b, ss) /\ length ss = 2 /\
    (fun s => (local s, bundle_job_id <$> snarkerLeafs s)) <$> ss = [(true, [Some "j2"]); (false, [Some "j1"])].
Proof.
  eexists _, _. split; [reflexivity|].
  destruct (scanstate_workers "u1" demoSnarkers demoRaw _ _ eq_refl) as (_ & H2 & _).
  split; [exact H2|reflexivity].
Defined.

Definition demoBlock : ScanStateBlock := mkBlock (Some "h") (Some 1%Z) (Some 2%Z) (Some []) (Some []) [] [mapTree 0 [demoLeaf "j1" None]].

Lemma scanstate_follow_job_witness :
  exists state' st leaf,
    reducer true None ((initialState true None) <| activeJobId := Some "gone" |>) None
      (ScanStateGetBlockSuccess demoBlock) = (state', st) /\
    activeLeaf state' = Some leaf /\ bundle_job_id leaf = None.
Proof.
  pose proof (scanstate_follow_job true None ((initialState true None) <| activeJobId := Some "gone" |>)
    None "gone" demoBlock eq_refl ltac:(discriminate)) as (_ & _ & leaf & H & _).
  eexists _, _, leaf. split; [reflexivity|]. split; [exact H|]. injection H as <-. reflexivity.
Defined.

End ScanState.
