(* ===== verification/ScanStateChart.v ===== *)
(** The tree chart of the scan state
    (frontend/src/app/features/snarks/scan-state/scan-state-tree-chart): the
    array of jobs of a tree is turned into a binary tree, laid out by d3, and
    drawn with the jobs of the last row below it and the active leaf
    highlighted. *)

From Stdlib Require Import Qminmax.
From S2P Require Import Prelude JsRuntime ScanState.
Import ScanState.ScanState.

Module ScanStateChart.

(** * The tree of the jobs

    [buildTree] allocates its nodes and mutates the [children] of a node that is
    already on the stack, so the nodes live in a heap and refer to each other by
    address.  The end of the JavaScript array [stack] is the head of the list. *)

Inductive SSTree := mkSSTree (leaf : option ScanStateLeaf) (children : list SSTree) (size : option nat).

Definition treeLeaf (t : SSTree) : option ScanStateLeaf := let '(mkSSTree l _ _) := t in l.
Definition treeChildren (t : SSTree) : list SSTree := let '(mkSSTree _ cs _) := t in cs.
Definition treeSize (t : SSTree) : option nat := let '(mkSSTree _ _ s) := t in s.

Record HNode := mkNode {
  h_leaf : option ScanStateLeaf;
  h_children : list nat;
  h_size : option nat
}.

#[export] Instance HNode_copy : RecordCopy HNode := {|
  record_copy n := mkNode (h_leaf n) (h_children n) (h_size n);
  record_copy_id := fun '(mkNode _ _ _) => eq_refl |}.

Section Build.
Context (leafs : list ScanStateLeaf).

Definition newNode (i : nat) : HNode := mkNode (leafs !! i) [] None.

(** A new object for the job [i], pushed to the children of [r]; its address. *)
Definition pushChild (h : list HNode) (r i : nat) : list HNode * nat :=
  (alter (fun n => n <| h_children := h_children n ++ [length h] |>) r h ++ [newNode i], length h).

(** The body of the loop: the heap after it and the entries it pushed. *)
Definition visit (h : list HNode) (currentNode currentIndex : nat) : list HNode * list (nat * nat) :=
  let leftChildIndex := 2 * currentIndex + 1 in
  let rightChildIndex := 2 * currentIndex + 2 in
  let '(h, stack) :=
    if leftChildIndex <? length leafs then
      let '(h, leftChild) := pushChild h currentNode leftChildIndex in (h, [(leftChild, leftChildIndex)])
    else (h, []) in
  let '(h, stack) :=
    if rightChildIndex <? length leafs then
      let '(h, rightChild) := pushChild h currentNode rightChildIndex in
      (h, (rightChild, rightChildIndex) :: stack)
    else (h, stack) in
  if (length leafs <=? leftChildIndex) && (length leafs <=? rightChildIndex)
  then (alter (fun n => n <| h_size := Some 1 |>) currentNode h, stack)
  else (h, stack).

(** [while (stack.length > 0)]; [None] when the fuel is used up. *)
Fixpoint buildLoop (fuel : nat) (h : list HNode) (stack : list (nat * nat)) : option (list HNode) :=
  match stack with
  | [] => Some h
  | (node, index) :: stack =>
      match fuel with
      | O => None
      | S fuel => let '(h, pushed) := visit h node index in buildLoop fuel h (pushed ++ stack)
      end
  end.

(** The object graph under an address, as a tree. *)
Fixpoint readTree (fuel : nat) (h : list HNode) (r : nat) : option SSTree :=
  match fuel with
  | O => None
  | S fuel =>
      n ← h !! r; cs ← mapM (readTree fuel h) (h_children n); Some (mkSSTree (h_leaf n) cs (h_size n))
  end.

Definition buildTree : option SSTree :=
  h ← buildLoop (S (length leafs)) [newNode 0] [(0, 0)];
  readTree (S (length leafs)) h 0.

End Build.

(** * Drawing

    d3 is third-party: [descendants] lists the nodes of a hierarchy with their
    depths and [partition] the rectangles it lays them out in. *)

Record Cell := mkCell { x0 : Q; x1 : Q; y0 : Q; y1 : Q }.

Definition numOfRows : nat := 8.
Definition padding : Q := 1.

(** [2 ** n] *)
Definition pow2 (n : nat) : Q := inject_Z (2 ^ Z.of_nat n).

(** Where the rectangle of a node is moved to. *)
Definition cellTransform (treeView : bool) (leafWidth : Q) (depth : nat) (c : Cell) : Q * Q :=
  if negb treeView then (x0 c, y0 c)
  else
    let rowWidth := if depth <? numOfRows - 2 then (leafWidth / pow2 (numOfRows - depth))%Q else (x1 c - x0 c)%Q in
    let x := if depth <? numOfRows - 2
             then ((x0 c + x1 c) / 2 - rowWidth / 2 - leafWidth / 2)%Q else x0 c in
    (x, y0 c).

Definition cellWidth (treeView : bool) (leafWidth : Q) (depth : nat) (c : Cell) : Q :=
  if treeView && (depth <? numOfRows - 1) then leafWidth else (x1 c - x0 c)%Q.

Definition rectsFill (leaf : option ScanStateLeaf) (highlight : bool) : string :=
  match leaf with
  | None => "var(--base-container)"
  | Some l =>
      match status l with
      | Some Done => "var(--special-selected-alt-2-tertiary)"
      | Some Todo => "var(--base-tertiary)"
      | Some Pending => if highlight then "var(--aware-tertiary)" else "var(--base-tertiary)"
      | _ => "var(--base-container)"
      end
  end.

(** Reading [d.data.leaf.status] throws when the tree has no jobs at all. *)
Definition hasPulseEffect (highlightSnarks : bool) (leaf : option ScanStateLeaf) : exec bool :=
  if highlightSnarks then
    match leaf with
    | Some l => Ret (hasStatus Pending l && negb (hasSnark l))
    | None => Throw (TypeError "Cannot read properties of undefined (reading 'status')")
    end
  else Ret false.

Definition getColorByStatus (s : option ScanStateLeafStatus) (highlight : bool) : string :=
  match s with
  | Some Done => "var(--special-selected-alt-2-primary)"
  | Some Todo => "var(--base-primary)"
  | Some Pending => if highlight then "var(--aware-primary)" else "var(--base-primary)"
  | _ => "var(--base-tertiary)"
  end.

Definition getClassByKind (kind : option string) : string :=
  if bool_decide (kind = Some "Coinbase") then "code-teal"
  else if bool_decide (kind = Some "FeeTransfer") then "code-purple"
  else if bool_decide (kind = Some "Zkapp") then "code-magenta"
  else if bool_decide (kind = Some "Payment") then "primary"
  else "tertiary".

(** The status the tooltip shows: a job somebody committed to is ongoing. *)
Definition statusText (s : option ScanStateLeafStatus) : string :=
  match s with
  | Some Empty => "Empty" | Some Pending => "Pending" | Some Done => "Done" | Some Todo => "Todo"
  | None => "undefined"
  end.
Definition tooltipStatus (l : ScanStateLeaf) : string :=
  if hasStatus Pending l && bool_decide (is_Some (commitment l)) && negb (hasSnark l)
  then "Ongoing" else statusText (status l).

(** [mouseOverHandle] keeps the tooltip inside the chart. *)
Definition tooltipLeft (nodeLeft nodeWidth tooltipWidth chartLeft width : Q) : Q :=
  Qmax
    (Qmin (nodeLeft + nodeWidth / 2 - tooltipWidth / 2)%Q (chartLeft + width - tooltipWidth)%Q)
    chartLeft.

(** The jobs of the last row: the shape, its horizontal centre and its colour. *)
Inductive Shape := Circle | Star | Square | Triangle | Line.

Definition jobShape (l : ScanStateLeaf) : Shape :=
  if bool_decide (jobKind l = Some "Payment") then Circle
  else if bool_decide (jobKind l = Some "Zkapp") then Star
  else if bool_decide (jobKind l = Some "Coinbase") then Square
  else if bool_decide (jobKind l = Some "FeeTransfer") then Triangle
  else Line.

Definition jobFill (l : ScanStateLeaf) : string :=
  match jobKind l with
  | None => "var(--base-tertiary)"
  | Some k =>
      if bool_decide (k = "Coinbase") then "var(--code-teal)"
      else if bool_decide (k = "FeeTransfer") then "var(--code-purple)"
      else if bool_decide (k = "Payment") then "var(--base-primary)"
      else if bool_decide (k = "Zkapp") then "var(--code-magenta)"
      else "var(--base-container)"
  end.

Record BaseJob := mkJob { job_shape : Shape; job_fill : string; job_leaf : ScanStateLeaf }.

(** [this.tree.leafs.slice(-128)] *)
Definition baseJobs (leafs : list ScanStateLeaf) : list BaseJob :=
  (fun l => mkJob (jobShape l) (jobFill l) l) <$> drop (length leafs - 128) leafs.

Record Rect := mkRect {
  rect_at : Q * Q;
  rect_width : Q;
  rect_height : Q;
  rect_fill : string;
  rect_pulse : bool;
  rect_leaf : option ScanStateLeaf
}.

Record Highlight := mkHighlight { hl_at : Q * Q; hl_width : Q; hl_height : Q }.

Record ChartLine := mkLine {
  line_x1 : Q;
  line_x2 : Q;
  line_y1 : Q;
  line_y2 : Q;
  line_stroke : string;
  line_width : string
}.

Record Drawing := mkDrawing {
  cells : list Rect;
  lines : list ChartLine;
  jobs : list BaseJob;
  highlighted : option Highlight
}.

Section Draw.
Context (descendants : SSTree -> list (SSTree * nat)) (partition : Q -> Q -> SSTree -> list Cell).
(** [root.links()]: the positions in [descendants] of the two ends of every link. *)
Context (links : SSTree -> list (nat * nat)).
Context (width height : Q) (treeView highlightSnarks : bool).

Definition updateLeafs (leafWidth : Q) (nodes : list (SSTree * nat * Cell)) : exec (list Rect) :=
  exec_map (fun '(t, depth, c) =>
    pulse ← hasPulseEffect highlightSnarks (treeLeaf t);
    Ret (mkRect (cellTransform treeView leafWidth depth c) (cellWidth treeView leafWidth depth c)
           (y1 c - y0 c)%Q (rectsFill (treeLeaf t) highlightSnarks) pulse (treeLeaf t))) nodes.

Definition isEmptyNode (t : SSTree) : bool :=
  match treeLeaf t with Some l => hasStatus Empty l | None => false end.

(** The line from a node to a child of it, in the tree view. *)
Definition linkLine (leafWidth : Q) (source target : SSTree * nat * Cell) : ChartLine :=
  let '(s, sd, sc) := source in
  let '(t, td, tc) := target in
  let offset := (leafWidth / 2 *
    (if Qle_bool (x0 sc + fst (cellTransform treeView leafWidth sd sc))
                 (x0 tc + fst (cellTransform treeView leafWidth td tc)) then 1 else -1))%Q in
  let faint := isEmptyNode s || isEmptyNode t in
  mkLine ((x0 sc + x1 sc) / 2 + offset)%Q ((x0 tc + x1 tc) / 2)%Q ((y0 sc + y1 sc) / 2)%Q (y0 tc + (1 # 2))%Q
    (if faint then "var(--base-divider)" else "var(--base-tertiary)")
    (if faint then "1px" else "0.7px").

Definition upperRows (p : SSTree * nat * Cell) : bool := let '(_, depth, _) := p in depth <=? numOfRows - 3.

Definition updateLines (leafWidth : Q) (nodes : list (SSTree * nat * Cell)) (ends : list (nat * nat))
  : list ChartLine :=
  if negb treeView then []
  else
    omap (fun '(i, j) =>
      source ← nodes !! i; target ← nodes !! j;
      if upperRows source && upperRows target then Some (linkLine leafWidth source target) else None) ends.

Definition updateHighlightRect (leafWidth : Q) (activeLeaf : option ScanStateLeaf)
  (nodes : list (SSTree * nat * Cell)) : option Highlight :=
  overlayIndex ← activeLeaf ≫= jobIndex;
  '(_, depth, c) ← nodes !! overlayIndex;
  Some (mkHighlight (cellTransform treeView leafWidth depth c)
          (if treeView && (depth <? numOfRows - 1) then leafWidth else (x1 c - x0 c - padding)%Q)
          (y1 c - y0 c - padding)%Q).

(** The fuel of [buildTree] is shown to be enough, so the last case is not met. *)
Definition drawTree (activeLeaf : option ScanStateLeaf) (leafs : list ScanStateLeaf) : exec Drawing :=
  match buildTree leafs with
  | None => Throw (RangeError "no tree")
  | Some tree =>
      let nodes := zip (descendants tree) (partition width (height - 10)%Q tree) in
      match List.find (fun '(_, depth, _) => depth =? numOfRows - 2) nodes with
      | None => Throw (TypeError "Cannot read properties of undefined (reading 'x1')")
      | Some (_, _, c) =>
          let leafWidth := (x1 c - x0 c)%Q in
          rects ← updateLeafs leafWidth nodes;
          Ret (mkDrawing rects (updateLines leafWidth nodes (links tree)) (baseJobs leafs)
                 (updateHighlightRect leafWidth activeLeaf nodes))
      end
  end.

End Draw.

(** The active leaf a tree of the list is given. *)
Definition leafOfTree (activeLeaf : option ScanStateLeaf) (i : nat) : option ScanStateLeaf :=
  if bool_decide ((activeLeaf ≫= treeIndex) = Some i) then activeLeaf else None.

(** * The tree is the heap order of the array

    The reference: the node of job [i] has the jobs [2i + 1] and [2i + 2] below
    it, as far as they exist. *)

Section Reference.
Context (leafs : list ScanStateLeaf).
Notation n := (length leafs).

Fixpoint heapTree (fuel i : nat) : SSTree :=
  match fuel with
  | O => mkSSTree (leafs !! i) [] None
  | S fuel =>
      mkSSTree (leafs !! i)
        ((if 2 * i + 1 <? n then [heapTree fuel (2 * i + 1)] else [])
         ++ (if 2 * i + 2 <? n then [heapTree fuel (2 * i + 2)] else []))
        (if n <=? 2 * i + 1 then Some 1 else None)
  end.

(** The number of nodes below and at [i]. *)
Fixpoint nodesFrom (fuel i : nat) : nat :=
  match fuel with
  | O => 1
  | S fuel =>
      S ((if 2 * i + 1 <? n then nodesFrom fuel (2 * i + 1) else 0)
         + (if 2 * i + 2 <? n then nodesFrom fuel (2 * i + 2) else 0))
  end.

(** [h'] keeps what [h] holds at every address but [r]. *)
Definition keeps (r : nat) (h h' : list HNode) : Prop :=
  length h <= length h' /\ forall x, x < length h -> x <> r -> h' !! x = h !! x.

(** A heap that agrees with [h'] on [r] and on what was allocated since [h]
    holds the tree [t] at [r]. *)
Definition holdsTree (fuel r : nat) (h h' : list HNode) (t : SSTree) : Prop :=
  forall h2, (forall x, x = r \/ length h <= x < length h' -> h2 !! x = h' !! x) ->
    readTree fuel h2 r = Some t.

Lemma keeps_trans r1 r2 h1 h2 h3 :
  keeps r1 h1 h2 -> keeps r2 h2 h3 ->
  length h1 <= length h3 /\ forall x, x < length h1 -> x <> r1 -> x <> r2 -> h3 !! x = h1 !! x.
Proof. intros [L1 K1] [L2 K2]. split; [lia|]. intros x Hx H1 H2. rewrite K2, K1; [done|lia..]. Qed.

Lemma pushChild_spec h r i nd :
  h !! r = Some nd ->
  let '(h', c) := pushChild leafs h r i in
  c = length h /\ length h' = S (length h) /\ h' !! c = Some (newNode leafs i)
  /\ h' !! r = Some (nd <| h_children := h_children nd ++ [c] |>)
  /\ forall x, x < length h -> x <> r -> h' !! x = h !! x.
Proof.
  intros Hr. unfold pushChild. assert (r < length h) as Hlt by (by apply lookup_lt_Some in Hr).
  split; [done|]. rewrite length_app, length_alter. split; [cbn; lia|].
  split_and!.
  - rewrite lookup_app_r; rewrite length_alter; [|lia]. by rewrite Nat.sub_diag.
  - rewrite lookup_app_l by (by rewrite length_alter). by rewrite list_lookup_alter_eq, Hr.
  - intros x Hx Hne. rewrite lookup_app_l by (by rewrite length_alter).
    by rewrite list_lookup_alter_ne.
Qed.

Lemma readTree_node fuel h r nd ts :
  h !! r = Some nd -> Forall2 (fun c t => readTree fuel h c = Some t) (h_children nd) ts ->
  readTree (S fuel) h r = Some (mkSSTree (h_leaf nd) ts (h_size nd)).
Proof.
  intros Hr Hcs. cbn. rewrite Hr. cbn.
  assert (mapM (readTree fuel h) (h_children nd) = Some ts) as -> by (by apply mapM_Some).
  done.
Qed.

Lemma visit_leaf h r i :
  n <= 2 * i + 1 -> visit leafs h r i = (alter (fun nd => nd <| h_size := Some 1 |>) r h, []).
Proof.
  intros Hi. unfold visit.
  rewrite (proj2 (Nat.ltb_ge (2 * i + 1) n)), (proj2 (Nat.ltb_ge (2 * i + 2) n)) by lia.
  by rewrite !(proj2 (Nat.leb_le _ _)) by lia.
Qed.

Lemma visit_left h r i :
  2 * i + 1 < n -> n <= 2 * i + 2 ->
  visit leafs h r i = (fst (pushChild leafs h r (2 * i + 1)), [(length h, 2 * i + 1)]).
Proof.
  intros H1 H2. unfold visit. rewrite (proj2 (Nat.ltb_lt (2 * i + 1) n) H1).
  rewrite (proj2 (Nat.ltb_ge (2 * i + 2) n)) by lia.
  rewrite (proj2 (Nat.leb_gt n (2 * i + 1))) by lia. done.
Qed.

Lemma visit_both h r i :
  2 * i + 2 < n ->
  visit leafs h r i =
    (let h1 := fst (pushChild leafs h r (2 * i + 1)) in
     (fst (pushChild leafs h1 r (2 * i + 2)), [(length h1, 2 * i + 2); (length h, 2 * i + 1)])).
Proof.
  intros H. unfold visit. rewrite (proj2 (Nat.ltb_lt (2 * i + 1) n)) by lia.
  rewrite (proj2 (Nat.ltb_lt (2 * i + 2) n)) by lia.
  rewrite (proj2 (Nat.leb_gt n (2 * i + 1))) by lia. done.
Qed.

(** Working off the entry of [i] at the top of the stack takes one turn of the
    loop per node below it, builds the reference tree at its address, and
    touches nothing else that was allocated before. *)
Definition worksOff (fuel i : nat) : Prop :=
  forall r h stack k, h !! r = Some (newNode leafs i) ->
  exists h', buildLoop leafs (nodesFrom fuel i + k) h ((r, i) :: stack) = buildLoop leafs k h' stack
    /\ keeps r h h' /\ holdsTree fuel r h h' (heapTree fuel i).

Lemma worksOff_leaf fuel i : n <= 2 * i + 1 -> worksOff (S fuel) i.
Proof.
  intros Hi r h stack k Hr. eexists. cbn [nodesFrom heapTree].
  rewrite (proj2 (Nat.ltb_ge (2 * i + 1) n)), (proj2 (Nat.ltb_ge (2 * i + 2) n)) by lia.
  rewrite (proj2 (Nat.leb_le n (2 * i + 1))) by lia.
  cbn [buildLoop Nat.add]. rewrite visit_leaf by done. split; [done|]. split.
  - split; [by rewrite length_alter|]. intros x _ Hx. by rewrite list_lookup_alter_ne.
  - intros h2 H2. refine (readTree_node _ _ _ (mkNode (leafs !! i) [] (Some 1)) [] _ _).
    + rewrite H2 by auto. by rewrite list_lookup_alter_eq, Hr.
    + constructor.
Qed.

Lemma worksOff_left fuel i :
  2 * i + 1 < n -> n <= 2 * i + 2 -> worksOff fuel (2 * i + 1) -> worksOff (S fuel) i.
Proof.
  intros H1 H2 IH r h stack k Hr. cbn [nodesFrom heapTree].
  rewrite (proj2 (Nat.ltb_lt (2 * i + 1) n) H1), (proj2 (Nat.ltb_ge (2 * i + 2) n)) by lia.
  rewrite (proj2 (Nat.leb_gt n (2 * i + 1))) by lia.
  cbn [buildLoop Nat.add]. rewrite visit_left by done.
  pose proof (pushChild_spec h r (2 * i + 1) _ Hr) as Hp.
  destruct (pushChild leafs h r (2 * i + 1)) as [h1 c]. destruct Hp as (-> & L1 & Hc & Hr1 & K1).
  assert (r < length h) as Hlt by (by apply lookup_lt_Some in Hr).
  destruct (IH _ _ stack k Hc) as (h' & E & [L2 K2] & T). exists h'. cbn [fst app].
  rewrite Nat.add_0_r. split; [exact E|]. split.
  - split; [lia|]. intros x Hx Hne. rewrite K2, K1; [done|lia..].
  - intros h2 Hh2. refine (readTree_node _ _ _ (mkNode (leafs !! i) [length h] None) [_] _ _).
    + rewrite Hh2 by auto. rewrite K2 by lia. exact Hr1.
    + constructor; [|constructor]. apply T. intros x Hx. apply Hh2. lia.
Qed.

Lemma worksOff_both fuel i :
  2 * i + 2 < n -> worksOff fuel (2 * i + 1) -> worksOff fuel (2 * i + 2) -> worksOff (S fuel) i.
Proof.
  intros H2 IHl IHr r h stack k Hr. cbn [nodesFrom heapTree].
  rewrite (proj2 (Nat.ltb_lt (2 * i + 1) n)), (proj2 (Nat.ltb_lt (2 * i + 2) n)) by lia.
  rewrite (proj2 (Nat.leb_gt n (2 * i + 1))) by lia.
  cbn [buildLoop Nat.add]. rewrite visit_both by done. cbv zeta.
  assert (r < length h) as Hlt by (by apply lookup_lt_Some in Hr).
  pose proof (pushChild_spec h r (2 * i + 1) _ Hr) as Hp.
  destruct (pushChild leafs h r (2 * i + 1)) as [h1 c]. destruct Hp as (-> & L1 & Hc1 & Hr1 & K1).
  cbn [fst].
  pose proof (pushChild_spec h1 r (2 * i + 2) _ Hr1) as Hp.
  destruct (pushChild leafs h1 r (2 * i + 2)) as [h2 c]. destruct Hp as (-> & L2 & Hc2 & Hr2 & K2).
  cbn [fst app].
  rewrite (Nat.add_comm (nodesFrom fuel (2 * i + 1))), <- Nat.add_assoc.
  destruct (IHr _ _ ((length h, 2 * i + 1) :: stack) (nodesFrom fuel (2 * i + 1) + k) Hc2)
    as (h3 & E3 & [L3 K3] & T3).
  assert (h3 !! length h = Some (newNode leafs (2 * i + 1))) as Hc3.
  { rewrite K3 by lia. by rewrite K2 by lia. }
  destruct (IHl _ _ stack k Hc3) as (h4 & E4 & [L4 K4] & T4).
  exists h4. rewrite E3, E4. split; [done|]. split.
  - split; [lia|]. intros x Hx Hne. rewrite K4, K3, K2, K1; [done|lia..].
  - intros h5 Hh5. refine (readTree_node _ _ _ (mkNode (leafs !! i) [length h; length h1] None) [_; _] _ _).
    + rewrite Hh5 by auto. rewrite K4, K3 by lia. exact Hr2.
    + constructor; [|constructor; [|constructor]].
      * apply T4. intros x Hx. apply Hh5. lia.
      * apply T3. intros x Hx. rewrite Hh5 by lia. apply K4; lia.
Qed.

Lemma worksOff_all fuel i : n - i < fuel -> worksOff fuel i.
Proof.
  revert i; induction fuel as [|fuel IH]; intros i Hf; [lia|].
  destruct (decide (n <= 2 * i + 1)) as [Ha|Ha]; [by apply worksOff_leaf|].
  destruct (decide (n <= 2 * i + 2)) as [Hb|Hb].
  - apply worksOff_left; [lia..|]. apply IH. lia.
  - apply worksOff_both; [lia| |]; apply IH; lia.
Qed.

End Reference.

(** * Breadth first

    [node.descendants()] of d3 gives the node, then its children, then theirs. *)

Fixpoint level (d : nat) (t : SSTree) : list SSTree :=
  match d with
  | O => [t]
  | S d => concat (level d <$> treeChildren t)
  end.

Class BreadthFirst (descendants : SSTree -> list (SSTree * nat)) : Prop :=
  breadth_first : forall t, exists m,
    level m t = [] /\ descendants t = concat ((fun d => (fun u => (u, d)) <$> level d t) <$> seq 0 m).

Section Levels.
Context (leafs : list ScanStateLeaf).
Notation n := (length leafs).

(** The jobs [d] levels below the job [i]. *)
Definition below (d i : nat) : list nat :=
  List.filter (fun j => j <? n) (seq (2 ^ d * (i + 1) - 1) (2 ^ d)).

Lemma below_elem d i j : j ∈ below d i <-> 2 ^ d * (i + 1) - 1 <= j < 2 ^ d * (i + 1) - 1 + 2 ^ d /\ j < n.
Proof. unfold below. rewrite elem_of_list_filter, elem_of_seq, Nat.ltb_lt. done. Qed.

Lemma below_nil d i : n <= i -> below d i = [].
Proof.
  intros Hi. apply filter_false_nil. intros j Hj%elem_of_seq. apply Nat.ltb_ge.
  pose proof (Nat.pow_nonzero 2 d ltac:(done)). nia.
Qed.

Lemma below_0 i : i < n -> below 0 i = [i].
Proof.
  intros Hi. unfold below. cbn [Nat.pow seq List.filter]. replace (1 * (i + 1) - 1) with i by lia.
  by rewrite (proj2 (Nat.ltb_lt _ _) Hi).
Qed.

Lemma below_S d i : below (S d) i = below d (2 * i + 1) ++ below d (2 * i + 2).
Proof.
  unfold below. rewrite <- List.filter_app. f_equal. cbn [Nat.pow].
  pose proof (Nat.pow_nonzero 2 d ltac:(done)).
  replace (2 * 2 ^ d) with (2 ^ d + 2 ^ d) by lia. rewrite seq_app. f_equal; f_equal; nia.
Qed.

Lemma level_heapTree d : forall fuel i, i < n -> n - i < fuel ->
  level d (heapTree leafs fuel i) = heapTree leafs (fuel - d) <$> below d i.
Proof.
  induction d as [|d IH]; intros fuel i Hi Hd.
  - cbn [level]. rewrite below_0 by done. by rewrite Nat.sub_0_r.
  - destruct fuel as [|fuel]; [lia|]. rewrite below_S, fmap_app.
    cbn [level heapTree treeChildren Nat.sub]. rewrite fmap_app, concat_app.
    f_equal.
    + destruct (2 * i + 1 <? n) eqn:E; [apply Nat.ltb_lt in E|apply Nat.ltb_ge in E].
      * cbn. rewrite app_nil_r. apply IH; lia.
      * by rewrite below_nil.
    + destruct (2 * i + 2 <? n) eqn:E; [apply Nat.ltb_lt in E|apply Nat.ltb_ge in E].
      * cbn. rewrite app_nil_r. apply IH; lia.
      * by rewrite below_nil.
Qed.

(** All jobs of the first [m] levels, in the order of the array. *)
Lemma below_concat m : concat (flip below 0 <$> seq 0 m) = List.filter (fun j => j <? n) (seq 0 (2 ^ m - 1)).
Proof.
  induction m as [|m IH]; [done|].
  rewrite seq_S, fmap_app, concat_app, IH. cbn [fmap list_fmap concat flip]. rewrite app_nil_r.
  unfold below. rewrite <- List.filter_app. f_equal. cbn [Nat.pow].
  pose proof (Nat.pow_nonzero 2 m ltac:(done)).
  replace (2 * 2 ^ m - 1) with (2 ^ m - 1 + 2 ^ m) by lia. rewrite seq_app.
  change (0 + m) with m. by replace (2 ^ m * (0 + 1) - 1) with (0 + (2 ^ m - 1)) by lia.
Qed.

Lemma below_depth d j : j ∈ below d 0 -> Nat.log2 (j + 1) = d.
Proof.
  intros [Hj _]%below_elem. pose proof (Nat.pow_nonzero 2 d ltac:(done)).
  apply (Nat.log2_unique' _ _ (j - (2 ^ d - 1))); lia.
Qed.

Lemma filter_seq_all m : n <= m -> List.filter (fun j => j <? n) (seq 0 m) = seq 0 n.
Proof.
  intros Hm. replace m with (n + (m - n)) by lia. rewrite seq_app, List.filter_app.
  rewrite filter_true_id, filter_false_nil, app_nil_r; [done| |].
  - intros j Hj%elem_of_seq. apply Nat.ltb_ge. lia.
  - intros j Hj%elem_of_seq. apply Nat.ltb_lt. lia.
Qed.

Lemma sum_list_app_length {A} (f g h : nat -> list A) l :
  (forall d, f d = g d ++ h d) ->
  sum_list (length <$> (f <$> l)) = sum_list (length <$> (g <$> l)) + sum_list (length <$> (h <$> l)).
Proof.
  intros Hf. induction l as [|d l IH]; [done|]. cbn in *. rewrite Hf, length_app, IH. lia.
Qed.

Lemma sum_list_nil {A} (f : nat -> list A) l :
  (forall d, f d = []) -> sum_list (length <$> (f <$> l)) = 0.
Proof. intros Hf. induction l as [|d l IH]; [done|]. cbn in *. by rewrite Hf, IH. Qed.

Lemma nodesFrom_below fuel : forall i, i < n ->
  nodesFrom leafs fuel i = sum_list (length <$> (flip below i <$> seq 0 (S fuel))).
Proof.
  induction fuel as [|fuel IH]; intros i Hi.
  - cbn [seq]. unfold flip. rewrite fmap_cons, below_0 by done. done.
  - change (seq 0 (S (S fuel))) with (0 :: seq 1 (S fuel)). rewrite <- fmap_S_seq.
    rewrite !fmap_cons, <- (list_fmap_compose S (flip below i)). cbn [sum_list fold_right].
    unfold flip at 1. rewrite below_0 by done. cbn [length].
    rewrite (sum_list_app_length _ (flip below (2 * i + 1)) (flip below (2 * i + 2))).
    2:{ intros d. apply below_S. }
    cbn [nodesFrom]. f_equal. f_equal.
    + destruct (2 * i + 1 <? n) eqn:E; [apply Nat.ltb_lt in E; by apply IH|].
      apply Nat.ltb_ge in E. rewrite sum_list_nil; [done|]. intros d. by apply below_nil.
    + destruct (2 * i + 2 <? n) eqn:E; [apply Nat.ltb_lt in E; by apply IH|].
      apply Nat.ltb_ge in E. rewrite sum_list_nil; [done|]. intros d. by apply below_nil.
Qed.

Lemma pow_covers m : n <= m -> n <= 2 ^ m - 1.
Proof. intros Hm. pose proof (Nat.pow_gt_lin_r 2 m ltac:(lia)). lia. Qed.

Lemma nodesFrom_root : nodesFrom leafs (S n) 0 <= S n.
Proof.
  destruct (decide (n = 0)) as [E|E].
  - rewrite E. cbn. rewrite E. done.
  - rewrite nodesFrom_below by lia. rewrite <- concat_length, below_concat.
    rewrite filter_seq_all by (apply pow_covers; lia). rewrite length_seq. lia.
Qed.

(** The loop ends within its fuel, and the tree is the reference. *)
Lemma buildTree_heap : buildTree leafs = Some (heapTree leafs (S n) 0).
Proof.
  unfold buildTree. pose proof nodesFrom_root as Hk.
  destruct (worksOff_all leafs (S n) 0 ltac:(lia) 0 [newNode leafs 0] [] (S n - nodesFrom leafs (S n) 0) eq_refl)
    as (h' & E & _ & T).
  replace (nodesFrom leafs (S n) 0 + (S n - nodesFrom leafs (S n) 0)) with (S n) in E by lia.
  rewrite E. destruct (S n - nodesFrom leafs (S n) 0); cbn [buildLoop mbind option_bind]; by apply T.
Qed.

Lemma concat_fmap_fmap {A B} (f : A -> B) (ls : list (list A)) :
  concat (fmap (M := list) f <$> ls) = fmap (M := list) f (concat ls).
Proof. induction ls as [|l ls IH]; [done|]. cbn. by rewrite fmap_app, IH. Qed.

(** The node of the job [j] with its depth, as d3 lists it. *)
Definition nodeOf (j : nat) : SSTree * nat :=
  (heapTree leafs (S n - Nat.log2 (j + 1)) j, Nat.log2 (j + 1)).

Lemma descendants_heap descendants `{!BreadthFirst descendants} :
  0 < n -> descendants (heapTree leafs (S n) 0) = nodeOf <$> seq 0 n.
Proof.
  intros Hn. destruct (breadth_first (heapTree leafs (S n) 0)) as (m & Hm & ->).
  rewrite level_heapTree in Hm by lia.
  assert (n <= 2 ^ m - 1) as Hcov.
  { destruct (decide (n <= 2 ^ m - 1)) as [|Hlt]; [done|].
    assert (2 ^ m - 1 ∈ below m 0) as Hin; [|destruct (below m 0); [by apply elem_of_nil in Hin|done]].
    apply below_elem. pose proof (Nat.pow_nonzero 2 m ltac:(done)). lia. }
  rewrite <- (filter_seq_all _ Hcov), <- below_concat, <- concat_fmap_fmap. f_equal.
  rewrite <- list_fmap_compose. apply list_fmap_ext. intros _ d _. unfold compose, flip.
  rewrite level_heapTree by lia. rewrite <- list_fmap_compose.
  apply list_fmap_ext. intros k j Hj. unfold compose, nodeOf.
  rewrite (below_depth d j); [done|]. by apply list_elem_of_lookup_2 in Hj.
Qed.

Lemma heapTree_leaf fuel j : treeLeaf (heapTree leafs fuel j) = leafs !! j.
Proof. by destruct fuel. Qed.

Lemma log2_lt_index j : j < n -> Nat.log2 (j + 1) <= n.
Proof. intros Hj. pose proof (Nat.log2_lt_lin (j + 1) ltac:(lia)). lia. Qed.

(** The jobs just below [j]. *)
Definition childJobs (j : nat) : list nat := List.filter (fun k => k <? n) [2 * j + 1; 2 * j + 2].

Lemma heapTree_children fuel j :
  treeLeaf <$> treeChildren (heapTree leafs (S fuel) j) = (fun k => leafs !! k) <$> childJobs j.
Proof.
  unfold childJobs. cbn [heapTree treeChildren List.filter].
  destruct (2 * j + 1 <? n), (2 * j + 2 <? n); cbn; by rewrite ?heapTree_leaf.
Qed.

End Levels.

(** * The drawing *)

Section Drawn.
Context (descendants : SSTree -> list (SSTree * nat)) (partition : Q -> Q -> SSTree -> list Cell).
Context {HB : BreadthFirst descendants}.
(** [d3.partition] places every node of the hierarchy. *)
Context (one_cell_each : forall w h t, length (partition w h t) = length (descendants t)).
Context (leafs : list ScanStateLeaf) (width height : Q).
Notation n := (length leafs).
Notation tree := (heapTree leafs (S n) 0).

Definition placed : list (SSTree * nat * Cell) :=
  zip (descendants tree) (partition width (height - 10)%Q tree).

Lemma placed_lookup j :
  j < n -> exists c, placed !! j = Some (nodeOf leafs j, c).
Proof.
  intros Hj. unfold placed.
  destruct (partition width (height - 10)%Q tree !! j) as [c|] eqn:E.
  2:{ apply lookup_ge_None in E. rewrite one_cell_each, descendants_heap in E by (done || lia).
      rewrite length_fmap, length_seq in E. lia. }
  exists c. apply lookup_zip_Some. split; [|done]. rewrite descendants_heap by (done || lia).
  rewrite list_lookup_fmap, lookup_seq_lt by done. done.
Qed.

Lemma placed_length : 0 < n -> length placed = n.
Proof.
  intros Hn. unfold placed. rewrite length_zip_with_l_eq by (by rewrite one_cell_each).
  rewrite descendants_heap by done. by rewrite length_fmap, length_seq.
Qed.

Lemma placed_elem j p : placed !! j = Some p -> 0 < n -> j < n /\ fst p = nodeOf leafs j.
Proof.
  intros E Hn. assert (j < n) as Hj. { rewrite <- placed_length by done. by apply lookup_lt_Some in E. }
  destruct (placed_lookup j Hj) as [c Hc]. rewrite Hc in E. by injection E as <-.
Qed.

(** A tree without jobs has its root only. *)
Lemma placed_empty u d c : n = 0 -> (u, d, c) ∈ placed -> d = 0.
Proof.
  intros Hn Hin. apply elem_of_zip_l in Hin.
  destruct (breadth_first tree) as (m & _ & E). rewrite E in Hin.
  apply list_elem_of_In, List.in_concat in Hin as (l & Hl & Hin).
  apply list_elem_of_In, list_elem_of_fmap in Hl as (k & -> & _).
  apply list_elem_of_In, list_elem_of_fmap in Hin as (v & [= -> ->] & Hv).
  destruct k as [|k]; [done|]. exfalso. cbn [level heapTree treeChildren] in Hv.
  rewrite Hn in Hv. by apply elem_of_nil in Hv.
Qed.

Definition isSeventhRow (p : SSTree * nat * Cell) : bool :=
  let '(_, depth, _) := p in depth =? numOfRows - 2.

Lemma seventh_row : is_Some (List.find isSeventhRow placed) <-> 64 <= n.
Proof.
  split.
  - intros [[[u d] c] [Hin Hd]%find_Some_iff]. cbn in Hd. apply Nat.eqb_eq in Hd.
    destruct (decide (n = 0)) as [E|E]; [apply placed_empty in Hin; [|done]; subst; done|].
    apply list_elem_of_lookup in Hin as [j Hj].
    apply placed_elem in Hj as [Hj E']; [|lia]. cbn in E'. injection E' as _ E'.
    destruct (decide (64 <= n)) as [|Hlt]; [done|].
    assert (Nat.log2 (j + 1) < 6) by (apply Nat.log2_lt_pow2; [|cbn]; lia). subst. cbn in Hd. lia.
  - intros Hn. destruct (List.find _ _) eqn:E; [done|]. exfalso.
    rewrite find_None_iff in E. destruct (placed_lookup 63 ltac:(lia)) as [c Hc].
    apply list_elem_of_lookup_2 in Hc. specialize (E _ Hc). done.
Qed.

Definition drawnRect (treeView highlightSnarks : bool) (leafWidth : Q) (p : SSTree * nat * Cell) : Rect :=
  let '(t, depth, c) := p in
  mkRect (cellTransform treeView leafWidth depth c) (cellWidth treeView leafWidth depth c)
    (y1 c - y0 c)%Q (rectsFill (treeLeaf t) highlightSnarks)
    (match treeLeaf t with Some l => highlightSnarks && (hasStatus Pending l && negb (hasSnark l)) | None => false end)
    (treeLeaf t).

Lemma updateLeafs_total treeView highlightSnarks leafWidth :
  0 < n ->
  updateLeafs treeView highlightSnarks leafWidth placed = Ret (drawnRect treeView highlightSnarks leafWidth <$> placed).
Proof.
  intros Hn. apply exec_map_Ret. intros [[t d] c] Hin.
  apply list_elem_of_lookup in Hin as [j Hj]. apply placed_elem in Hj as [Hj E]; [|done].
  cbn in E. injection E as -> ->. unfold drawnRect. rewrite heapTree_leaf.
  destruct (leafs !! j) eqn:E; [|apply lookup_ge_None in E; lia].
  by destruct highlightSnarks.
Qed.

(** [drawTree] throws for fewer than 64 jobs and otherwise draws all parts. *)
Lemma drawTree_spec links treeView highlightSnarks activeLeaf :
  let r := drawTree descendants partition links width height treeView highlightSnarks activeLeaf leafs in
  (n < 64 -> exec_ok r = false) /\
  (64 <= n -> exists leafWidth,
    r = Ret (mkDrawing (drawnRect treeView highlightSnarks leafWidth <$> placed)
              (updateLines treeView leafWidth placed (links tree)) (baseJobs leafs)
              (updateHighlightRect treeView leafWidth activeLeaf placed))).
Proof.
  unfold drawTree. rewrite buildTree_heap. fold placed. fold isSeventhRow.
  pose proof seventh_row as H7. split; intros Hn.
  - destruct (List.find _ placed); [|done]. exfalso.
    assert (64 <= n) by (apply H7; done). lia.
  - apply H7 in Hn as Hs. destruct Hs as [[[u d] c] Hs]. rewrite Hs.
    exists (x1 c - x0 c)%Q. by rewrite updateLeafs_total by lia.
Qed.

End Drawn.

(** * The theorems *)

(** C13: [buildTree] ends and gives the binary heap of the array: d3 lists its nodes
    in the order of the jobs, the children of the job [j] are the jobs [2j + 1]
    and [2j + 2] that exist, its depth is the logarithm of [j + 1], and the nodes
    that count for the layout are those without children. *)
Theorem scan_tree_heap_order descendants leafs :
  BreadthFirst descendants -> leafs <> [] ->
  exists t, buildTree leafs = Some t
  /\ (fun p => treeLeaf (fst p)) <$> descendants t = Some <$> leafs
  /\ forall j u d, descendants t !! j = Some (u, d) ->
       d = Nat.log2 (j + 1)
       /\ treeLeaf <$> treeChildren u = (fun k => leafs !! k) <$> childJobs leafs j
       /\ treeSize u = (if decide (treeChildren u = []) then Some 1 else None).
Proof.
  intros HB Hne. assert (0 < length leafs) as Hn by (destruct leafs; [done|cbn; lia]).
  exists (heapTree leafs (S (length leafs)) 0). rewrite buildTree_heap, descendants_heap by done.
  split; [done|]. split.
  - rewrite <- list_fmap_compose. apply list_eq. intros j. rewrite !list_lookup_fmap.
    destruct (decide (j < length leafs)) as [Hj|Hj].
    + rewrite lookup_seq_lt by done. cbn. rewrite heapTree_leaf.
      by destruct (leafs !! j) eqn:E; [|apply lookup_ge_None in E; lia].
    + rewrite lookup_seq_ge by lia. by rewrite lookup_ge_None_2 by lia.
  - intros j u d H. rewrite list_lookup_fmap in H. apply fmap_Some in H as (k & Hk & E).
    apply lookup_seq in Hk as [-> Hk]. cbn in E. injection E as -> ->. split; [done|].
    pose proof (log2_lt_index leafs j Hk).
    replace (S (length leafs) - Nat.log2 (j + 1)) with (S (length leafs - Nat.log2 (j + 1))) by lia.
    split; [apply heapTree_children|]. cbn [heapTree treeChildren treeSize].
    destruct (Nat.ltb_spec (2 * j + 1) (length leafs)), (Nat.leb_spec (length leafs) (2 * j + 1)); try lia.
    + by rewrite decide_False.
    + by rewrite (proj2 (Nat.ltb_ge (2 * j + 2) (length leafs))) by lia.
Qed.

Lemma mapTree_position i raw j l :
  leafs (mapTree i raw) !! j = Some l -> treeIndex l = Some i /\ jobIndex l = Some j.
Proof. cbn. unfold mapi. rewrite list_lookup_imap. intros (l0 & _ & ->)%fmap_Some. done. Qed.

Lemma lookup_present {A} (l : list A) j : j < length l -> Some (l !! j) = Some <$> l !! j.
Proof. intros Hj. by destruct (l !! j) eqn:E; [|apply lookup_ge_None in E; lia]. Qed.

(** The [i]-th tree of a loaded block is drawn exactly when it has at least 64
    jobs, else drawing throws.  A drawn tree shows its jobs in order; an active
    leaf of it is highlighted at the place of its own rectangle and nothing is
    highlighted in the other trees; and below a full tree of 255 jobs stand
    exactly the jobs without children. *)
Theorem scan_chart_shows_active_leaf descendants partition links width height treeView highlightSnarks active i raw :
  BreadthFirst descendants ->
  (forall w h t, length (partition w h t) = length (descendants t)) ->
  let leafs := leafs (mapTree i raw) in
  let r := drawTree descendants partition links width height treeView highlightSnarks (leafOfTree active i) leafs in
  (exec_ok r = true <-> 64 <= length raw) /\
  forall d, r = Ret d ->
    rect_leaf <$> cells d = Some <$> leafs
    /\ (forall j l, leafs !! j = Some l -> active = Some l ->
          exists rect hl, cells d !! j = Some rect /\ highlighted d = Some hl /\ hl_at hl = rect_at rect)
    /\ (active ≫= treeIndex <> Some i -> highlighted d = None)
    /\ (length raw = 255 ->
          Some <$> (job_leaf <$> jobs d) = (fun j => leafs !! j) <$> List.filter (fun j => bool_decide (childJobs leafs j = [])) (seq 0 255)).
Proof.
  intros HB Hcells leafs r. assert (length leafs = length raw) as Hlen by apply length_imap.
  assert (forall j l, leafs !! j = Some l -> treeIndex l = Some i /\ jobIndex l = Some j) as Hpos.
  { intros j l Hl. apply mapTree_position in Hl. done. }
  clearbody leafs.
  destruct (drawTree_spec descendants partition Hcells leafs width height links treeView highlightSnarks (leafOfTree active i))
    as [Hsmall Hbig]. fold r in Hsmall, Hbig.
  destruct (decide (64 <= length raw)) as [Hn|Hn].
  2:{ rewrite Hsmall by lia. split; [split; [done|lia]|]. intros d E. rewrite E in Hsmall.
      discriminate Hsmall. lia. }
  destruct Hbig as [leafWidth E]; [lia|]. rewrite E. split; [done|]. intros d [= <-]. cbn [cells jobs highlighted].
  split; [|split; [|split]].
  - apply list_eq. intros j. rewrite !list_lookup_fmap.
    destruct (decide (j < length leafs)) as [Hj|Hj].
    + destruct (placed_lookup descendants partition Hcells leafs width height j Hj) as [c ->]. cbn.
      rewrite heapTree_leaf. by apply lookup_present.
    + rewrite (lookup_ge_None_2 (placed _ _ _ _ _)) by (rewrite placed_length by (done || lia); lia).
      by rewrite lookup_ge_None_2 by lia.
  - intros j l Hl ->. assert (j < length leafs) as Hj by (by apply lookup_lt_Some in Hl).
    destruct (placed_lookup descendants partition Hcells leafs width height j Hj) as [c Hc].
    destruct (Hpos j l Hl) as [Ht Hji]. unfold leafOfTree. rewrite bool_decide_true by done.
    rewrite list_lookup_fmap, Hc. unfold updateHighlightRect. cbn [mbind option_bind].
    rewrite Hji. cbn [mbind option_bind]. rewrite Hc. cbn. eauto.
  - intros Hne. unfold leafOfTree. by rewrite bool_decide_false.
  - intros H255. unfold baseJobs. rewrite Hlen, H255. rewrite <- !list_fmap_compose.
    transitivity ((fun j => leafs !! j) <$> seq 127 128).
    + apply list_eq. intros j. rewrite !list_lookup_fmap, lookup_drop.
      destruct (decide (j < 128)) as [Hj|Hj].
      * rewrite lookup_seq_lt by done. cbn [fmap option_fmap option_map]. symmetry.
        rewrite lookup_present by lia. done.
      * rewrite lookup_seq_ge by lia. by rewrite lookup_ge_None_2 by lia.
    + f_equal. unfold childJobs. rewrite Hlen, H255. vm_compute. done.
Qed.

(** * A concrete hierarchy *)

Fixpoint treeHeight (t : SSTree) : nat :=
  match t with mkSSTree _ cs _ => S (list_max (List.map treeHeight cs)) end.

(** The iterator of d3: one level after the other. *)
Definition breadthFirst (t : SSTree) : list (SSTree * nat) :=
  concat ((fun d => (fun u => (u, d)) <$> level d t) <$> seq 0 (treeHeight t)).

Lemma level_height d : forall t, treeHeight t <= d -> level d t = [].
Proof.
  induction d as [|d IH]; intros [l cs sz] Ht; cbn in *; [lia|].
  assert (Forall (fun c => treeHeight c <= d) cs) as Hcs.
  { assert (list_max (List.map treeHeight cs) <= d) as Hm by lia.
    apply list_max_le in Hm. by rewrite Forall_map in Hm. }
  clear Ht. induction Hcs as [|c cs Hc Hcs IHcs]; [done|]. cbn in *. by rewrite IH, IHcs.
Qed.

#[export] Instance breadthFirst_ok : BreadthFirst breadthFirst.
Proof. intros t. exists (treeHeight t). by split; [apply level_height|]. Qed.

Definition demoPartition (w h : Q) (t : SSTree) : list Cell :=
  imap (fun i _ => mkCell (inject_Z (Z.of_nat i)) (inject_Z (Z.of_nat i) + 1) 0 1) (breadthFirst t).

Definition demoLeaf (i : nat) : ScanStateLeaf :=
  mkLeaf (Some Pending) (Some (showNat i)) (Some (showNat i)) (Some "Payment") None None None None None None.

Lemma scan_tree_heap_order_witness :
  exists t, buildTree (demoLeaf <$> seq 0 5) = Some t
  /\ (fun p => treeLeaf (fst p)) <$> breadthFirst t = Some <$> (demoLeaf <$> seq 0 5).
Proof.
  destruct (scan_tree_heap_order breadthFirst (demoLeaf <$> seq 0 5) breadthFirst_ok) as (t & Ht & Ho & _);
    [done|]. exists t. split; [exact Ht|exact Ho].
Defined.

Lemma scan_chart_shows_active_leaf_witness :
  exec_ok (drawTree breadthFirst demoPartition (fun _ => [(0, 1)]) 100 100 true true
    (leafOfTree None 0) (leafs (mapTree 0 (demoLeaf <$> seq 0 64)))) = true.
Proof.
  apply (scan_chart_shows_active_leaf breadthFirst demoPartition (fun _ => [(0, 1)]) 100 100 true true None 0
           (demoLeaf <$> seq 0 64) breadthFirst_ok); [|cbn; lia].
  intros w h t. unfold demoPartition. by rewrite length_imap.
Defined.

End ScanStateChart.
