(* ===== verification/StateActions.v ===== *)
(** State actions page (frontend/src/app/features/state/actions): the call
    statistics of the node's state machine actions, grouped by the words their
    names start with. *)

From S2P Require Import Prelude JsRuntime TableSort.
From Stdlib Require Import Ascii.

Module StateActions.

(** * Data *)

Record StateActionColumn := mkColumn {
  count : Z;
  maxTime : Q;
  meanTime : Q;
  totalTime : Q;
  squareCount : nat
}.

Record StateActionGroupAction := mkAction {
  display : bool;
  title : string;
  fullTitle : string;
  actionTotalTime : Q;
  actionMeanTime : Q;
  totalCount : Z;
  columns : list StateActionColumn
}.

#[export] Instance StateActionGroupAction_copy : RecordCopy StateActionGroupAction := {|
  record_copy a := mkAction (display a) (title a) (fullTitle a) (actionTotalTime a)
    (actionMeanTime a) (totalCount a) (columns a);
  record_copy_id := fun '(mkAction _ _ _ _ _ _ _) => eq_refl |}.

Record StateActionGroup := mkGroup {
  groupName : string;
  groupCount : Z;
  groupTotalTime : Q;
  groupMeanTime : Q;
  actions : list StateActionGroupAction;
  groupDisplay : bool
}.

#[export] Instance StateActionGroup_copy : RecordCopy StateActionGroup := {|
  record_copy g := mkGroup (groupName g) (groupCount g) (groupTotalTime g) (groupMeanTime g)
    (actions g) (groupDisplay g);
  record_copy_id := fun '(mkGroup _ _ _ _ _ _) => eq_refl |}.

Inductive GroupField := fGroupName | fCount | fTotalTime | fMeanTime | fDisplay.

#[export] Instance GroupField_eq_dec : EqDecision GroupField.
Proof. solve_decision. Defined.

#[export] Instance StateActionGroup_row : Row StateActionGroup GroupField := fun f g =>
  match f with
  | fGroupName => VStr (groupName g)
  | fCount => vZ (groupCount g)
  | fTotalTime => VNum (groupTotalTime g)
  | fMeanTime => VNum (groupMeanTime g)
  | fDisplay => VBool (groupDisplay g)
  end.

Record StateActionsStats := mkStats {
  time : string;
  level : Z;
  hash : string;
  cpuIdle : Q;
  cpuBusy : Q
}.

(** [None] is the initial [{}]. *)
Record StateActionsState := mkState {
  groups : list StateActionGroup;
  filteredGroups : list StateActionGroup;
  openSidePanel : bool;
  earliestSlot : option Z;
  activeSlot : option Z;
  currentSort : TableSort GroupField;
  activeSearch : string;
  stats : option StateActionsStats
}.

#[export] Instance StateActionsState_copy : RecordCopy StateActionsState := {|
  record_copy s := mkState (groups s) (filteredGroups s) (openSidePanel s) (earliestSlot s)
    (activeSlot s) (currentSort s) (activeSearch s) (stats s);
  record_copy_id := fun '(mkState _ _ _ _ _ _ _ _) => eq_refl |}.

Inductive StateActionsActions :=
| StateActionsGetEarliestSlot (force : bool)
| StateActionsGetEarliestSlotSuccess (payload : option Z)
| StateActionsGetActions (slot : option Z)
| StateActionsGetActionsSuccess (stats : option StateActionsStats) (groups : list StateActionGroup)
| StateActionsClose
| StateActionsToggleSidePanel
| StateActionsSort (payload : TableSort GroupField)
| StateActionsSearch (payload : string).

Definition actionType (a : StateActionsActions) : string :=
  match a with
  | StateActionsGetEarliestSlot _ => "STATE_ACTIONS_GET_EARLIEST_SLOT"
  | StateActionsGetEarliestSlotSuccess _ => "STATE_ACTIONS_GET_EARLIEST_SLOT_SUCCESS"
  | StateActionsGetActions _ => "STATE_ACTIONS_GET_ACTIONS"
  | StateActionsGetActionsSuccess _ _ => "STATE_ACTIONS_GET_ACTIONS_SUCCESS"
  | StateActionsClose => "STATE_ACTIONS_CLOSE"
  | StateActionsToggleSidePanel => "STATE_ACTIONS_TOGGLE_SIDE_PANEL"
  | StateActionsSort _ => "STATE_ACTIONS_SORT"
  | StateActionsSearch _ => "STATE_ACTIONS_SEARCH"
  end.

(** * Reducer *)

Definition matchesSearch (toSearch : string) (a : StateActionGroupAction) : bool :=
  strIncludes (toLowerCase (fullTitle a)) (toLowerCase toSearch).

Definition searchGroup (toSearch : string) (g : StateActionGroup) : StateActionGroup :=
  let found := (fun a => a <| display := matchesSearch toSearch a |>) <$> actions g in
  g <| actions := found |> <| groupDisplay := existsb display found |>.

Definition searchActionsInGroups (toSearch : string) (gs : list StateActionGroup)
  : list StateActionGroup :=
  if bool_decide (toSearch = "") then (fun g => g <| groupDisplay := true |>) <$> gs
  else searchGroup toSearch <$> gs.

Section Reducer.
Context {LC : LocaleCompare} (mobile : bool).

Definition initialState : StateActionsState := {|
  groups := [];
  filteredGroups := [];
  stats := None;
  openSidePanel := negb mobile;
  activeSlot := None;
  earliestSlot := None;
  activeSearch := "";
  currentSort := mkTableSort fTotalTime DSC
|}.

Definition sortGroups (gs : list StateActionGroup) (ts : TableSort GroupField) : list StateActionGroup :=
  sort gs ts [] false.

Definition reducer (state : StateActionsState) (action : StateActionsActions) : StateActionsState :=
  match action with
  | StateActionsGetActions slot => state <| activeSlot := slot |>
  | StateActionsGetActionsSuccess newStats payload =>
      let gs := sortGroups payload (currentSort state) in
      state <| groups := gs |>
            <| filteredGroups := searchActionsInGroups (activeSearch state) gs |>
            <| stats := newStats |>
  | StateActionsToggleSidePanel => state <| openSidePanel := negb (openSidePanel state) |>
  | StateActionsGetEarliestSlotSuccess payload => state <| earliestSlot := payload |>
  | StateActionsSort payload =>
      state <| currentSort := payload |>
            <| filteredGroups := sortGroups (filteredGroups state) payload |>
  | StateActionsSearch payload =>
      let gs := searchActionsInGroups payload (groups state) in
      state <| activeSearch := payload |> <| filteredGroups := sortGroups gs (currentSort state) |>
  | StateActionsClose => initialState
  | StateActionsGetEarliestSlot _ => state
  end.

End Reducer.

(** * Service

    A JavaScript object used as a dictionary is the list of its properties in
    insertion order; action names are not array indices and not names of
    [Object.prototype]. *)

Record RawRange := mkRange { total_calls : Z; total_duration : Q; max_duration : Q }.

Notation RawActions := (list (string * list (string * RawRange))).

Definition NANOSEC_IN_1_SEC : Z := 1000000000.

Definition rangeToSeconds (r : RawRange) : RawRange :=
  mkRange (total_calls r) (total_duration r / inject_Z NANOSEC_IN_1_SEC)
    (max_duration r / inject_Z NANOSEC_IN_1_SEC).

Definition convertTimesToSeconds (response : RawActions) : RawActions :=
  map (fun '(name, ranges) => (name, map (fun '(k, r) => (k, rangeToSeconds r)) ranges)) response.

Definition getMeanTime (duration : Q) (calls : Z) : Q :=
  if negb (Qeq_bool duration 0) && negb (calls =? 0)%Z then (duration / inject_Z calls)%Q else 0%Q.

(** The loop [while (calls >= 1) { calls /= 10; squareCount++ }]. *)
Fixpoint countDigits (fuel : nat) (calls : Q) : nat :=
  match fuel with
  | 0 => 0
  | S fuel => if Qle_bool 1 calls then S (countDigits fuel (calls / 10)%Q) else 0
  end.

Definition getSquareCount (calls : Z) : nat :=
  min (countDigits (S (S (Z.to_nat (Z.log2 calls)))) (inject_Z calls)) 8.

(** ** Grouping by name prefixes *)

Definition isCapital (c : ascii) : bool :=
  let n := N_of_ascii c in ((65 <=? n) && (n <=? 90))%N.

(** [split(/(?=[A-Z])/)]: cut before every capital but the first character. *)
Fixpoint splitFrom (current : string) (s : string) : list string :=
  match s with
  | EmptyString => [current]
  | String c s =>
      if isCapital c && negb (bool_decide (current = "")) then current :: splitFrom (String c "") s
      else splitFrom (current +:+ String c "") s
  end.
Definition nameSlices (s : string) : list string := splitFrom "" s.

(** The successive values of [sliceBuildup]. *)
Fixpoint buildups (acc : string) (slices : list string) : list string :=
  match slices with
  | [] => []
  | slice :: slices => (acc +:+ slice) :: buildups (acc +:+ slice) slices
  end.

Definition prefixes (name : string) : list string := buildups "" (nameSlices name).

Notation Groups := (list (string * list string)).

(** [groups[k] = groups[k] || []; groups[k].push(name)] *)
Fixpoint pushTo (k : string) (name : string) (gs : Groups) : Groups :=
  match gs with
  | [] => [(k, [name])]
  | (k', names) :: gs =>
      if bool_decide (k' = k) then (k', names ++ [name]) :: gs else (k', names) :: pushTo k name gs
  end.

Definition prefixGroups (names : list string) : Groups :=
  fold_left (fun gs name => fold_left (fun gs k => pushTo k name gs) (prefixes name) gs) names [].

(** [obj[k] = v] *)
Fixpoint setKey (k : string) (v : list string) (gs : Groups) : Groups :=
  match gs with
  | [] => [(k, v)]
  | (k', v') :: gs => if bool_decide (k' = k) then (k', v) :: gs else (k', v') :: setKey k v gs
  end.

(** [{ ...a, ...b }] *)
Definition spread (a b : Groups) : Groups := fold_left (fun gs g => setKey g.1 g.2 gs) b a.

Definition byLength (a b : string * list string) : comparison :=
  Nat.compare (String.length b.1) (String.length a.1).

(** One step of the second [reduce]: the groups kept and the used actions. *)
Definition takeGroup (acc : Groups * list string) (g : string * list string) : Groups * list string :=
  let '(kept, used) := acc in
  let free := List.filter (fun a => negb (includes used a)) g.2 in
  if 1 <? length free then (setKey g.1 free kept, used ++ free) else (kept, used).

Definition getGroupNames (names : list string) : Groups :=
  let sortedGroups := arraySort byLength (prefixGroups names) in
  let '(finalGroups, usedActions) :=
    fold_left takeGroup (List.filter (fun g => 1 <? length g.2) sortedGroups) ([], []) in
  let ungroupedActions := List.filter (fun a => negb (includes usedActions a)) names in
  let ungrouped := spread [] ((fun name => (name, [name])) <$> ungroupedActions) in
  spread finalGroups ungrouped.

(** [actionName.replace(groupName, '')]: the first occurrence. *)
Fixpoint removeFirst (p s : string) : string :=
  if isPrefixOf p s then String.substring (String.length p) (String.length s - String.length p) s
  else match s with
       | EmptyString => EmptyString
       | String c s => String c (removeFirst p s)
       end.

Definition sumZ (l : list Z) : Z := fold_left Z.add l 0%Z.
Definition sumQ (l : list Q) : Q := fold_left Qplus l 0%Q.

Definition mapColumn (r : RawRange) : StateActionColumn := {|
  count := total_calls r;
  totalTime := total_duration r;
  maxTime := max_duration r;
  meanTime := getMeanTime (total_duration r) (total_calls r);
  squareCount := getSquareCount (total_calls r)
|}.

Definition mapAction (group : string) (entry : string * list (string * RawRange)) : StateActionGroupAction :=
  let cols := map (fun '(_, r) => mapColumn r) entry.2 in
  let total := sumZ (count <$> cols) in
  let totalT := sumQ (totalTime <$> cols) in
  {| title := if bool_decide (entry.1 = group) then "" else removeFirst group entry.1;
     fullTitle := entry.1;
     totalCount := total;
     actionTotalTime := totalT;
     actionMeanTime := getMeanTime totalT total;
     columns := cols;
     display := true |}.

Definition mapGroup (response : RawActions) (g : string * list string) : StateActionGroup :=
  let acts := mapAction g.1 <$> List.filter (fun e => includes g.2 e.1) response in
  let total := sumZ (totalCount <$> acts) in
  let totalT := sumQ (actionTotalTime <$> acts) in
  {| groupName := g.1;
     actions := acts;
     groupCount := total;
     groupTotalTime := totalT;
     groupMeanTime := getMeanTime totalT total;
     groupDisplay := true |}.

Definition mapActions (response : RawActions) : list StateActionGroup :=
  let response := convertTimesToSeconds response in
  mapGroup response <$> getGroupNames (map fst response).

Section Service.
Context {DF : DateFormat}.

(** [response.time ? ... : '-'] *)
Definition mapActionStats (blockHash : string) (blockLevel : Z) (blockTime : option Z) (busy idle : Q)
  : StateActionsStats := {|
  hash := blockHash;
  level := blockLevel;
  time := if truthyNum blockTime
          then toReadableDate (inject_Z (default 0%Z blockTime) / inject_Z ONE_MILLION) None else "-";
  cpuBusy := busy;
  cpuIdle := idle
|}.
End Service.

Example groups_demo :
  getGroupNames ["P2pInit"; "P2pInitDone"; "P2pClose"; "RpcFinish"; "Sync"] =
  [("P2pInit", ["P2pInit"; "P2pInitDone"]); ("P2pClose", ["P2pClose"]);
   ("RpcFinish", ["RpcFinish"]); ("Sync", ["Sync"])].
Proof. vm_compute. reflexivity. Qed.

(** * Word prefixes of a name *)

Definition concatAll (l : list string) : string := fold_right String.append "" l.

Lemma append_assoc (a b c : string) : (a +:+ b) +:+ c = a +:+ (b +:+ c).
Proof. induction a as [|x a IH]; [done|]. exact (f_equal (String x) IH). Qed.

Lemma append_nil (a : string) : a +:+ "" = a.
Proof. induction a as [|x a IH]; [done|]. exact (f_equal (String x) IH). Qed.

Lemma append_length (a b : string) : String.length (a +:+ b) = String.length a + String.length b.
Proof. induction a as [|x a IH]; [done|]. exact (f_equal S IH). Qed.

Lemma splitFrom_concat s : forall cur, concatAll (splitFrom cur s) = cur +:+ s.
Proof.
  induction s as [|c s IH]; intros cur; [done|]. cbn [splitFrom].
  destruct (isCapital c && negb (bool_decide (cur = ""))).
  - cbn [concatAll fold_right]. f_equal. exact (IH (String c "")).
  - rewrite IH, append_assoc. done.
Qed.

Lemma splitFrom_nonempty s : forall cur,
  (cur <> "" \/ s <> "") -> Forall (fun x => x <> "") (splitFrom cur s).
Proof.
  induction s as [|c s IH]; intros cur Hne; cbn [splitFrom].
  - constructor; [naive_solver|constructor].
  - destruct (isCapital c && negb (bool_decide (cur = ""))) eqn:E.
    + apply andb_true_iff in E as [_ E]. apply negb_true_iff, bool_decide_eq_false in E.
      constructor; [done|]. apply IH. by left.
    + apply IH. left. by destruct cur.
Qed.

Lemma buildups_spec slices : forall acc k,
  k ∈ buildups acc slices -> exists t, acc +:+ concatAll slices = k +:+ t.
Proof.
  induction slices as [|x slices IH]; intros acc k Hk; [by apply elem_of_nil in Hk|].
  cbn [buildups] in Hk. cbn [concatAll fold_right]. rewrite <- append_assoc.
  apply elem_of_cons in Hk as [->|Hk]; [by eexists|]. by apply IH.
Qed.

Lemma buildups_last slices : forall acc,
  slices <> [] -> acc +:+ concatAll slices ∈ buildups acc slices.
Proof.
  induction slices as [|x slices IH]; intros acc Hne; [done|]. cbn [buildups concatAll fold_right].
  rewrite <- append_assoc. destruct slices as [|y slices].
  - cbn. rewrite append_nil. left.
  - right. by apply IH.
Qed.

Lemma buildups_longer slices : forall acc k,
  Forall (fun x => x <> "") slices -> k ∈ buildups acc slices -> String.length acc < String.length k.
Proof.
  induction slices as [|x slices IH]; intros acc k Hne Hk; [by apply elem_of_nil in Hk|].
  apply Forall_cons in Hne as [Hx Hne]. cbn [buildups] in Hk.
  assert (String.length acc < String.length (acc +:+ x)).
  { rewrite append_length. destruct x; [done|cbn; lia]. }
  apply elem_of_cons in Hk as [->|Hk]; [done|]. apply IH in Hk; [lia|done].
Qed.

Lemma buildups_NoDup slices : forall acc,
  Forall (fun x => x <> "") slices -> NoDup (buildups acc slices).
Proof.
  induction slices as [|x slices IH]; intros acc Hne; [constructor|].
  apply Forall_cons in Hne as [Hx Hne]. cbn [buildups]. constructor; [|by apply IH].
  intros Hin. apply buildups_longer in Hin; [lia|done].
Qed.

Lemma prefixes_self name : name ∈ prefixes name.
Proof.
  unfold prefixes. pose proof (splitFrom_concat name "") as Hc. cbn in Hc.
  rewrite <- Hc at 1. apply (buildups_last (nameSlices name) "").
  unfold nameSlices. destruct name; [done|]. intros Hnil. rewrite Hnil in Hc. done.
Qed.

Lemma prefixes_prefix name k : k ∈ prefixes name -> exists t, name = k +:+ t.
Proof.
  unfold prefixes. intros Hk. apply buildups_spec in Hk as [t Ht].
  exists t. rewrite <- Ht. unfold nameSlices. by rewrite splitFrom_concat.
Qed.

Lemma prefixes_NoDup name : NoDup (prefixes name).
Proof.
  unfold prefixes, nameSlices. destruct (decide (name = "")) as [->|Hne].
  - cbn. apply NoDup_singleton.
  - apply buildups_NoDup, splitFrom_nonempty. auto.
Qed.

(** A prefix as long as the name is the name. *)
Lemma prefixes_longest name k :
  k ∈ prefixes name -> String.length name <= String.length k -> k = name.
Proof.
  intros [t ->]%prefixes_prefix Hlen. rewrite append_length in Hlen.
  destruct t; [by rewrite append_nil|cbn in Hlen; lia].
Qed.

(** * Objects as property lists *)

Definition keys (gs : Groups) : list string := fst <$> gs.

Lemma setKey_absent k v gs : k ∉ keys gs -> setKey k v gs = gs ++ [(k, v)].
Proof.
  induction gs as [|[k' v'] gs IH]; intros Hk; [done|]. cbn in *.
  rewrite bool_decide_false by set_solver. rewrite IH by set_solver. done.
Qed.

Lemma spread_disjoint b : forall a, NoDup (keys b) -> (forall k, k ∈ keys b -> k ∉ keys a) ->
  spread a b = a ++ b.
Proof.
  unfold spread. induction b as [|[k v] b IH]; intros a Hnd Hdis; cbn [fold_left].
  - by rewrite app_nil_r.
  - cbn in Hnd. apply NoDup_cons in Hnd as [Hk Hnd]. cbn [fst snd].
    rewrite setKey_absent by (apply Hdis; left).
    rewrite IH; [by rewrite <- app_assoc|done|].
    intros k' Hk'. unfold keys. rewrite fmap_app. cbn. rewrite elem_of_app, list_elem_of_singleton.
    intros [Hin| ->]; [|done]. apply (Hdis k'); [by right|done].
Qed.

(** The actions recorded under a prefix. *)
Fixpoint members (k : string) (gs : Groups) : list string :=
  match gs with
  | [] => []
  | (k', v) :: gs => if bool_decide (k' = k) then v else members k gs
  end.

Lemma members_entry k v gs : NoDup (keys gs) -> (k, v) ∈ gs -> members k gs = v.
Proof.
  induction gs as [|[k' v'] gs IH]; intros Hnd Hin; [by apply elem_of_nil in Hin|].
  cbn in *. apply NoDup_cons in Hnd as [Hk Hnd]. apply elem_of_cons in Hin as [[= <- <-]|Hin].
  - by rewrite bool_decide_true.
  - rewrite bool_decide_false; [auto|]. intros ->. apply Hk. by apply (list_elem_of_fmap_2 fst gs (k, v)).
Qed.

Lemma members_pushTo k k' n gs :
  members k (pushTo k' n gs) = if bool_decide (k' = k) then members k gs ++ [n] else members k gs.
Proof.
  induction gs as [|[k0 v0] gs IH]; cbn; [by case_bool_decide|].
  destruct (decide (k0 = k')) as [->|Hne].
  - rewrite (bool_decide_true (k' = k')) by done. cbn. by case_bool_decide.
  - rewrite (bool_decide_false (k0 = k')) by done. cbn. rewrite IH.
    repeat case_bool_decide; congruence.
Qed.

Lemma keys_pushTo k n gs x : x ∈ keys (pushTo k n gs) <-> x ∈ keys gs \/ x = k.
Proof.
  induction gs as [|[k0 v0] gs IH]; cbn; [set_solver|].
  case_bool_decide; cbn; rewrite ?elem_of_cons; [naive_solver|]. unfold keys in IH. rewrite IH. tauto.
Qed.

Lemma keys_pushTo_NoDup k n gs : NoDup (keys gs) -> NoDup (keys (pushTo k n gs)).
Proof.
  induction gs as [|[k0 v0] gs IH]; intros Hnd; cbn; [apply NoDup_singleton|].
  cbn in Hnd. apply NoDup_cons in Hnd as [Hk Hnd]. case_bool_decide; cbn; constructor; auto.
  intros [?| ->]%keys_pushTo; done.
Qed.

Lemma pushAll_spec n ps : forall gs, NoDup ps ->
  let gs' := fold_left (fun gs k => pushTo k n gs) ps gs in
  (NoDup (keys gs) -> NoDup (keys gs')) /\
  forall k, members k gs' = members k gs ++ if bool_decide (k ∈ ps) then [n] else [].
Proof.
  induction ps as [|p ps IH]; intros gs Hnd; cbn.
  - split; [done|]. intros k. by rewrite app_nil_r.
  - apply NoDup_cons in Hnd as [Hp Hnd]. destruct (IH (pushTo p n gs) Hnd) as [IH1 IH2]. split.
    + intros H. apply IH1. by apply keys_pushTo_NoDup.
    + intros k. rewrite IH2, members_pushTo. destruct (decide (p = k)) as [->|Hne].
      * rewrite (bool_decide_true (k = k)), (bool_decide_false (k ∈ ps)) by done.
        rewrite bool_decide_true by set_solver. by rewrite app_nil_r.
      * rewrite (bool_decide_false (p = k)) by done. f_equal.
        destruct (decide (k ∈ ps)); [rewrite !bool_decide_true by set_solver; done|].
        rewrite !bool_decide_false by set_solver. done.
Qed.

Lemma prefixGroups_spec names : 
  NoDup (keys (prefixGroups names)) /\
  forall k, members k (prefixGroups names) = List.filter (fun n => bool_decide (k ∈ prefixes n)) names.
Proof.
  unfold prefixGroups.
  assert (forall gs, NoDup (keys gs) ->
    let gs' := fold_left (fun gs n => fold_left (fun gs k => pushTo k n gs) (prefixes n) gs) names gs in
    NoDup (keys gs') /\ forall k, members k gs' =
      members k gs ++ List.filter (fun n => bool_decide (k ∈ prefixes n)) names) as Hgen.
  { induction names as [|n names IH]; intros gs Hnd; cbn.
    - split; [done|]. intros k. by rewrite app_nil_r.
    - destruct (pushAll_spec n (prefixes n) gs (prefixes_NoDup n)) as [H1 H2].
      destruct (IH _ (H1 Hnd)) as [H3 H4]. split; [done|]. intros k. rewrite H4, H2, <- app_assoc.
      f_equal. by case_bool_decide. }
  destruct (Hgen [] (NoDup_nil_2)) as [H1 H2]. split; [done|]. intros k. by rewrite H2.
Qed.

Lemma prefixGroups_entry names k v :
  (k, v) ∈ prefixGroups names -> v = List.filter (fun n => bool_decide (k ∈ prefixes n)) names.
Proof.
  intros Hin. destruct (prefixGroups_spec names) as [Hnd Hm]. rewrite <- Hm.
  symmetry. by apply members_entry.
Qed.

(** * Choosing the groups *)

Section Grouping.
Context (names : list string) (Hnames : NoDup names).

Definition entryOf (g : string * list string) : Prop :=
  g.2 = List.filter (fun n => bool_decide (g.1 ∈ prefixes n)) names.

(** What holds after the candidates [seen] were considered. *)
Record TakeInv (seen : Groups) (acc : Groups * list string) : Prop := {
  take_used : acc.2 = concat (snd <$> acc.1);
  take_NoDup : NoDup acc.2;
  take_keys : forall k, k ∈ keys acc.1 -> k ∈ keys seen;
  take_keys_NoDup : NoDup (keys acc.1);
  take_groups : forall k v, (k, v) ∈ acc.1 ->
    2 <= length v /\ forall n, n ∈ v -> n ∈ names /\ k ∈ prefixes n;
  take_self : forall k, k ∈ keys acc.1 -> k ∈ names -> k ∈ acc.2
}.

Lemma take_owner seen acc n :
  TakeInv seen acc -> n ∈ acc.2 -> n ∈ names /\ exists k, k ∈ keys seen /\ k ∈ prefixes n.
Proof.
  intros HI Hn. rewrite (take_used _ _ HI), list_elem_of_In, in_concat in Hn.
  setoid_rewrite <- list_elem_of_In in Hn. destruct Hn as (v & ([k v'] & -> & Hin)%list_elem_of_fmap & Hn).
  destruct (take_groups _ _ HI k v' Hin) as [_ Hall]. destruct (Hall n Hn) as [? ?].
  split; [done|]. exists k. split; [|done]. apply (take_keys _ _ HI).
  by apply (list_elem_of_fmap_2 fst acc.1 (k, v')).
Qed.

Lemma takeGroup_inv seen acc g :
  TakeInv seen acc -> entryOf g -> g.1 ∉ keys seen ->
  (forall k, k ∈ keys seen -> String.length g.1 <= String.length k) ->
  TakeInv (seen ++ [g]) (takeGroup acc g).
Proof.
  intros HI Hg Hfresh Hlong. pose proof (take_owner seen acc) as Howner. destruct acc as [kept used].
  destruct g as [k v]. unfold entryOf in Hg. cbn [fst snd takeGroup] in *.
  set (free := List.filter (fun a => negb (includes used a)) v).
  assert (forall n, n ∈ free <-> n ∈ names /\ k ∈ prefixes n /\ n ∉ used) as Hfree.
  { intros n. unfold free. rewrite elem_of_list_filter, Hg, elem_of_list_filter. js_simpl. tauto. }
  assert (forall x, x ∈ keys (seen ++ [(k, v)]) <-> x ∈ keys seen \/ x = k) as Hkeys.
  { intros x. unfold keys. rewrite fmap_app. cbn. by rewrite elem_of_app, list_elem_of_singleton. }
  destruct (Nat.ltb_spec 1 (length free)) as [Hlen|Hlen].
  2:{ destruct HI as [T1 T2 T3 T4 T5 T6]. split; cbn in *; try done; [].
      intros x Hx. apply Hkeys. auto. }
  assert (k ∉ keys kept) as Hkk by (intros Hin; by apply Hfresh, (take_keys _ _ HI)).
  rewrite setKey_absent by done.
  assert (NoDup free) as Hnd.
  { unfold free. rewrite Hg. apply NoDup_ListNoDup.
    do 2 apply List.NoDup_filter. by apply NoDup_ListNoDup. }
  assert (forall x, x ∈ keys (kept ++ [(k, free)]) <-> x ∈ keys kept \/ x = k) as Hkeys2.
  { intros x. unfold keys. rewrite fmap_app. cbn. by rewrite elem_of_app, list_elem_of_singleton. }
  pose proof HI as [T1 T2 T3 T4 T5 T6]. cbn in *. split; cbn.
  - rewrite fmap_app, concat_app, <- T1. cbn. by rewrite app_nil_r.
  - apply NoDup_app. split_and!; [done| |done]. intros n Hn Hin. apply Hfree in Hin. tauto.
  - intros x Hx. apply Hkeys. apply Hkeys2 in Hx as [Hx| ->]; auto.
  - unfold keys in *. rewrite fmap_app. apply NoDup_app.
    split_and!; [done|cbn; intros x Hx Hxk; set_solver|apply NoDup_singleton].
  - intros k' v' [Hin|Hin]%elem_of_app; [auto|]. apply list_elem_of_singleton in Hin as [= -> ->].
    split; [lia|]. intros n Hn. apply Hfree in Hn. tauto.
  - intros x [Hx| ->]%Hkeys2 Hxn; [apply elem_of_app; left; auto|].
    apply elem_of_app. right. apply Hfree. split_and!; [done|apply prefixes_self|].
    intros Hused. destruct (Howner k HI Hused) as (_ & k' & Hk' & Hpre).
    apply prefixes_longest in Hpre; [by subst|by apply Hlong].
Qed.

Lemma takeAll_inv todo : forall seen acc,
  TakeInv seen acc -> Forall entryOf todo -> NoDup (keys (seen ++ todo)) ->
  StronglySorted (cle byLength) (seen ++ todo) ->
  TakeInv (seen ++ todo) (fold_left takeGroup todo acc).
Proof.
  induction todo as [|g todo IH]; intros seen acc HI HF Hnd Hs; cbn [fold_left].
  - by rewrite app_nil_r.
  - apply Forall_cons in HF as [Hg HF].
    replace (seen ++ g :: todo) with ((seen ++ [g]) ++ todo) in * by (by rewrite <- app_assoc).
    apply IH; try done. apply takeGroup_inv; try done.
    + unfold keys in Hnd. rewrite !fmap_app in Hnd. apply NoDup_app in Hnd as (Hnd & _ & _).
      apply NoDup_app in Hnd as (_ & Hdis & _). intros Hin. apply (Hdis _ Hin). cbn. left.
    + intros k (g' & -> & Hg')%list_elem_of_fmap.
      apply list_elem_of_split in Hg' as (d1 & d2 & ->).
      rewrite <- !app_assoc in Hs. cbn in Hs.
      assert (cle byLength g' g) as Hc.
      { clear -Hs. induction d1 as [|x d1 IH]; cbn in Hs; inversion Hs as [|? ? Hs' HF']; subst; [|by apply IH].
        rewrite Forall_forall in HF'. apply HF'. rewrite elem_of_app, elem_of_cons. auto. }
      unfold cle, byLength in Hc. by apply Nat.compare_le_iff in Hc.
Qed.

Definition byLengthAlways (_ : string * list string) : Prop := True.

Lemma byLength_consistent : ConsistentOn byLength byLengthAlways.
Proof.
  unfold byLength. split.
  - intros x y _ _. by rewrite Nat.compare_antisym.
  - intros x y z _ _ _ H1 H2. unfold cle in *. rewrite !Nat.compare_ngt_iff in *. lia.
Qed.

(** The candidates: the prefixes of several actions, longest first. *)
Definition candidates : Groups :=
  List.filter (fun g => 1 <? length g.2) (arraySort byLength (prefixGroups names)).

Lemma StronglySorted_filter {A} (R : A -> A -> Prop) p l :
  StronglySorted R l -> StronglySorted R (List.filter p l).
Proof.
  induction 1 as [|x l Hs IH HF]; [constructor|]. cbn. destruct (p x); [|done]. constructor; [done|].
  rewrite Forall_forall in *. intros y [Hy _]%elem_of_list_filter. auto.
Qed.

Lemma NoDup_keys_filter p gs : NoDup (keys gs) -> NoDup (keys (List.filter p gs)).
Proof.
  induction gs as [|g gs IH]; intros Hnd; [done|]. cbn in *. apply NoDup_cons in Hnd as [Hg Hnd].
  destruct (p g); [|auto]. cbn. constructor; [|by apply IH].
  intros (g' & Heq & [Hin _]%elem_of_list_filter)%list_elem_of_fmap. apply Hg. rewrite Heq.
  by apply list_elem_of_fmap_2.
Qed.

Lemma candidates_inv : TakeInv candidates (fold_left takeGroup candidates ([], [])).
Proof.
  destruct (prefixGroups_spec names) as [Hnd _].
  apply (takeAll_inv candidates [] ([], [])).
  - split; cbn; try done; try constructor; set_solver.
  - apply Forall_forall. intros [k v] [Hin _]%elem_of_list_filter.
    apply arraySort_elem in Hin. by apply prefixGroups_entry.
  - cbn. apply NoDup_keys_filter. unfold keys. by rewrite <- (arraySort_perm byLength).
  - cbn. apply StronglySorted_filter. apply (arraySort_sorted _ (HC := byLength_consistent)).
    by apply Forall_true.
Qed.

Lemma actions_groups_partition :
  let gs := getGroupNames names in
  Permutation (concat (snd <$> gs)) names /\ NoDup (fst <$> gs) /\
  forall k v, (k, v) ∈ gs ->
    v = [k] \/ (2 <= length v /\ forall n, n ∈ v -> k ∈ prefixes n).
Proof.
  cbn. unfold getGroupNames. fold candidates. pose proof candidates_inv as HI.
  pose proof (take_owner candidates (fold_left takeGroup candidates ([], []))) as Howner.
  destruct (fold_left takeGroup candidates ([], [])) as [kept used].
  pose proof HI as [T1 T2 T3 T4 T5 T6]. cbn in T1, T2, T4, T5, T6.
  set (un := List.filter (fun a => negb (includes used a)) names).
  assert (NoDup un) as Hun by (apply NoDup_ListNoDup, List.NoDup_filter; by apply NoDup_ListNoDup).
  assert (keys ((fun n => (n, [n])) <$> un) = un) as Hkeys.
  { unfold keys. rewrite <- list_fmap_compose. apply list_fmap_id. }
  rewrite (spread_disjoint ((fun n => (n, [n])) <$> un) []); [|by rewrite Hkeys|set_solver].
  rewrite app_nil_l, spread_disjoint.
  2:{ by rewrite Hkeys. }
  2:{ rewrite Hkeys. intros k Hk Hin. apply elem_of_list_filter in Hk as [Hkn Hku]. js_simpl. auto. }
  split_and!.
  - rewrite fmap_app, concat_app, <- T1.
    replace (concat (snd <$> ((fun n => (n, [n])) <$> un))) with un.
    2:{ clear. induction un as [|n un IH]; [done|]. cbn. by rewrite <- IH. }
    rewrite (filter_partition (includes used) names). apply Permutation_app; [|done].
    apply NoDup_Permutation; [done| |].
    + apply NoDup_ListNoDup, List.NoDup_filter. by apply NoDup_ListNoDup.
    + intros n. rewrite elem_of_list_filter, includes_true. split; [|tauto].
      intros Hn. split; [|done]. by apply (Howner n HI).
  - unfold keys in *. rewrite fmap_app, Hkeys. apply NoDup_app. split_and!; [done| |done].
    intros k Hk Hin. apply elem_of_list_filter in Hin as [Hkn Hku]. js_simpl. auto.
  - intros k v [Hin|Hin]%elem_of_app.
    + right. destruct (T5 k v Hin) as [? Hall]. split; [done|]. intros n Hn. by apply Hall.
    + left. apply list_elem_of_fmap in Hin as (n & [= -> ->] & _). done.
Qed.

(** C35: the actions of the node are split into groups without loss or overlap:
    every action name is in exactly one group, group names are distinct, a
    group is either a single action under its own name or at least two actions
    that share the group's name as leading words. *)
Theorem actions_grouped_once :
  let gs := getGroupNames names in
  Permutation (concat (snd <$> gs)) names /\ NoDup (fst <$> gs) /\
  forall k v, (k, v) ∈ gs ->
    v = [k] \/ (2 <= length v /\ forall n, n ∈ v -> k ∈ prefixes n).
Proof. apply actions_groups_partition. Qed.

End Grouping.

(** * Totals *)

Lemma sumZ_acc l : forall a, fold_left Z.add l a = (a + sumZ l)%Z.
Proof.
  unfold sumZ. induction l as [|x l IH]; intros a; cbn [fold_left]; [lia|].
  rewrite IH, (IH (0 + x)%Z). lia.
Qed.

Lemma sumZ_cons x l : sumZ (x :: l) = (x + sumZ l)%Z.
Proof. unfold sumZ at 1. cbn [fold_left]. by rewrite sumZ_acc. Qed.

Lemma sumZ_app l1 l2 : sumZ (l1 ++ l2) = (sumZ l1 + sumZ l2)%Z.
Proof.
  induction l1 as [|x l1 IH]; [done|].
  change ((x :: l1) ++ l2) with (x :: (l1 ++ l2)). rewrite !sumZ_cons, IH. lia.
Qed.

Lemma sumZ_concat ls : sumZ (concat ls) = sumZ (sumZ <$> ls).
Proof.
  induction ls as [|l ls IH]; [done|]. cbn [concat]. rewrite sumZ_app, IH, fmap_cons, sumZ_cons. done.
Qed.

#[export] Instance sumZ_proper : Proper (Permutation ==> eq) sumZ.
Proof.
  intros l1 l2 H. induction H; rewrite ?sumZ_cons; try lia; congruence.
Qed.

(** Picking the entries of each group picks every entry once. *)
Lemma entries_by_group {B} (response : list (string * B)) (gs : Groups) :
  NoDup (response.*1) -> Permutation (concat (gs.*2)) (response.*1) ->
  Permutation (concat ((fun g => List.filter (fun e => includes g.2 e.1) response) <$> gs)) response.
Proof.
  intros Hnd Hperm. assert (NoDup response) as Hr by (by eapply NoDup_fmap_1).
  assert (NoDup (concat gs.*2)) as Hgs by (by rewrite Hperm).
  assert (forall e, e ∈ concat ((fun g => List.filter (fun e => includes g.2 e.1) response) <$> gs) <->
    e ∈ response /\ e.1 ∈ concat gs.*2) as Hin.
  { clear. intros e. induction gs as [|[k v] gs IH]; cbn; [set_solver|].
    rewrite !elem_of_app, IH, elem_of_list_filter. js_simpl. tauto. }
  apply NoDup_Permutation; [|done|].
  - clear Hperm. induction gs as [|[k v] gs IH]; cbn in *; [constructor|].
    apply NoDup_app in Hgs as (Hv & Hdis & Hgs). apply NoDup_app. split_and!.
    + apply NoDup_ListNoDup, List.NoDup_filter. by apply NoDup_ListNoDup.
    + intros e [_ He]%elem_of_list_filter Hrest. js_simpl. apply (Hdis _ He).
      clear -Hrest. induction gs as [|[k' v'] gs IH]; cbn in *; [by apply elem_of_nil in Hrest|].
      apply elem_of_app in Hrest as [Hrest|Hrest]; apply elem_of_app; [left|right; auto].
      apply elem_of_list_filter in Hrest as [_ Hrest]. by js_simpl.
    + apply IH; [done|]. intros e. clear. induction gs as [|[k' v'] gs IH']; cbn; [set_solver|].
      rewrite !elem_of_app, IH', elem_of_list_filter. js_simpl. tauto.
  - intros e. rewrite Hin, Hperm. split; [tauto|]. intros He. split; [done|].
    by apply list_elem_of_fmap_2.
Qed.

Definition callsOf (entry : string * list (string * RawRange)) : Z :=
  sumZ (map (fun '(_, r) => total_calls r) entry.2).

Lemma mapAction_count group entry : totalCount (mapAction group entry) = callsOf entry.
Proof.
  unfold mapAction, callsOf. cbn. f_equal. destruct entry as [name ranges]. cbn.
  induction ranges as [|[k r] ranges IH]; [done|]. cbn. by rewrite IH.
Qed.

Lemma convert_names response : map fst (convertTimesToSeconds response) = response.*1.
Proof. induction response as [|[n rs] response IH]; [done|]. exact (f_equal (cons n) IH). Qed.

Lemma convert_calls response : callsOf <$> convertTimesToSeconds response = callsOf <$> response.
Proof.
  induction response as [|[n rs] response IH]; [done|]. cbn. f_equal; [|exact IH].
  unfold callsOf. cbn. f_equal. induction rs as [|[k r] rs IHr]; [done|]. cbn. by rewrite IHr.
Qed.

(** The page accounts for every call the node reports: each action of the
    answer is shown once, and the call counts of the groups add up to the
    total number of calls over all actions and time ranges. *)
Theorem actions_calls_conserved (response : RawActions) :
  NoDup (response.*1) ->
  Permutation (concat ((fun g => fullTitle <$> actions g) <$> mapActions response)) (response.*1) /\
  sumZ (groupCount <$> mapActions response) = sumZ (callsOf <$> response).
Proof.
  intros Hnd. pose (R := convertTimesToSeconds response).
  change (mapActions response) with (mapGroup R <$> getGroupNames (R.*1)).
  assert (R.*1 = response.*1) as HR by apply convert_names. rewrite <- HR in Hnd |- *.
  destruct (actions_groups_partition (R.*1) Hnd) as [Hperm _].
  pose proof (entries_by_group R _ Hnd Hperm) as HE. split.
  - etrans; [|apply (fmap_Permutation fst); exact HE]. clear.
    induction (getGroupNames R.*1) as [|g gs IH]; [done|]. rewrite !fmap_cons. cbn [concat].
    rewrite fmap_app, <- IH. apply Permutation_app; [|done].
    cbn. rewrite <- list_fmap_compose. done.
  - rewrite <- (convert_calls response). fold R.
    assert (sumZ (callsOf <$> R) = sumZ (callsOf <$> concat
      ((fun g => List.filter (fun e => includes g.2 e.1) R) <$> getGroupNames R.*1))) as ->
      by (apply sumZ_proper, fmap_Permutation; by symmetry).
    clear. induction (getGroupNames R.*1) as [|g gs IH]; [done|].
    rewrite !fmap_cons. cbn [concat]. rewrite fmap_app, sumZ_app, sumZ_cons, IH. f_equal.
    cbn. rewrite <- list_fmap_compose. f_equal. apply list_fmap_ext. intros i e _. apply mapAction_count.
Qed.

(** * Orders of magnitude *)

Lemma countDigits_spec k : forall fuel q,
  k <= fuel -> (q < inject_Z (10 ^ Z.of_nat k))%Q ->
  (k <> 0 -> (inject_Z (10 ^ (Z.of_nat k - 1)) <= q)%Q) -> countDigits fuel q = k.
Proof.
  induction k as [|k IH]; intros fuel q Hf Hhi Hlo.
  - destruct fuel; [done|]. cbn [countDigits]. destruct (Qle_bool 1 q) eqn:E; [|done].
    apply Qle_bool_iff in E. change (inject_Z (10 ^ Z.of_nat 0)) with 1%Q in Hhi. lra.
  - destruct fuel as [|fuel]; [lia|]. cbn [countDigits].
    assert (inject_Z (10 ^ Z.of_nat k) <= q)%Q as Hlo'.
    { replace (Z.of_nat k) with (Z.of_nat (S k) - 1)%Z by lia. by apply Hlo. }
    assert (1 <= q)%Q as H1.
    { eapply Qle_trans; [|exact Hlo']. change 1%Q with (inject_Z 1). rewrite <- Zle_Qle.
      pose proof (Z.pow_pos_nonneg 10 (Z.of_nat k)). lia. }
    rewrite (proj2 (Qle_bool_iff 1 q)) by done. f_equal. apply IH; [lia| |].
    + apply Qlt_shift_div_r; [done|]. change 10%Q with (inject_Z 10). rewrite <- inject_Z_mult.
      replace (10 ^ Z.of_nat k * 10)%Z with (10 ^ Z.of_nat (S k))%Z; [done|].
      rewrite Nat2Z.inj_succ, Z.pow_succ_r by lia. lia.
    + intros Hk. apply Qle_shift_div_l; [done|]. change 10%Q with (inject_Z 10).
      rewrite <- inject_Z_mult.
      replace (10 ^ (Z.of_nat k - 1) * 10)%Z with (10 ^ Z.of_nat k)%Z; [done|].
      replace (Z.of_nat k) with (Z.succ (Z.of_nat k - 1)) at 1 by lia. rewrite Z.pow_succ_r by lia. lia.
Qed.

(** The number of squares of a column is the number of decimal digits of
    its call count, at most eight, and zero for no calls; the loop that counts
    them ends. *)
Theorem square_count_is_digits (calls : Z) (digits : nat) :
  (10 ^ (Z.of_nat digits - 1) <= calls < 10 ^ Z.of_nat digits)%Z -> (0 <= calls)%Z ->
  getSquareCount calls = min digits 8.
Proof.
  intros [Hlo Hhi] Hpos. unfold getSquareCount. f_equal. apply countDigits_spec.
  - destruct digits as [|k]; [lia|].
    assert (10 ^ Z.of_nat k <= calls)%Z as Hk.
    { replace (Z.of_nat k) with (Z.of_nat (S k) - 1)%Z by lia. done. }
    assert (2 ^ Z.of_nat k <= calls)%Z as H2.
    { etrans; [|exact Hk]. apply Z.pow_le_mono_l. lia. }
    assert (0 < calls)%Z as Hc by (pose proof (Z.pow_pos_nonneg 2 (Z.of_nat k)); lia).
    apply Z.log2_le_pow2 in H2; lia.
  - by rewrite <- Zlt_Qlt.
  - intros _. by rewrite <- Zle_Qle.
Qed.

(** * Searching *)

Section Search.
Context {LC : LocaleCompare} (mobile : bool).

(** Whatever sequence of loads, searches and sorts, the page lists every
    loaded group once with the current search applied: an action is
    highlighted exactly when its full title contains the search text (letter
    case ignored), a group exactly when one of its actions is. *)
Theorem actions_search_applied s :
  reachable_by (reducer mobile) (initialState mobile) (fun _ _ => True) s ->
  Permutation (filteredGroups s) (searchActionsInGroups (activeSearch s) (groups s)) /\
  (activeSearch s <> "" -> forall g, g ∈ filteredGroups s ->
    (forall a, a ∈ actions g -> display a = matchesSearch (activeSearch s) a) /\
    (groupDisplay g = true <-> exists a, a ∈ actions g /\ matchesSearch (activeSearch s) a = true)).
Proof.
  intros Hs. assert (Permutation (filteredGroups s) (searchActionsInGroups (activeSearch s) (groups s))) as Hp.
  { revert s Hs. apply reachable_by_inv; [done|]. intros s a Hs _. destruct a; cbn; try done.
    - rewrite <- Hs. symmetry. apply sort_perm.
    - symmetry. apply sort_perm. }
  split; [done|]. intros Hne g Hg. rewrite Hp in Hg. unfold searchActionsInGroups in Hg.
  rewrite bool_decide_false in Hg by done. apply list_elem_of_fmap in Hg as (g0 & -> & _).
  unfold searchGroup. cbn. split.
  - intros a (a0 & -> & _)%list_elem_of_fmap. done.
  - rewrite existsb_exists. setoid_rewrite <- list_elem_of_In. split.
    + intros (a & Ha & Hd). exists a. split; [done|].
      apply list_elem_of_fmap in Ha as (a0 & -> & _). done.
    + intros (a & Ha & Hd). exists a. split; [done|].
      apply list_elem_of_fmap in Ha as (a0 & -> & _). done.
Qed.

End Search.

Definition demoNames : list string := ["P2pInit"; "P2pInitDone"; "RpcFinish"].
Definition demoStats : RawActions :=
  map (fun n => (n, [("0", mkRange 5 (inject_Z 10) 1%Q); ("1", mkRange 7 1%Q 1%Q)])) demoNames.

Lemma demoNames_NoDup : NoDup demoNames.
Proof. apply (bool_decide_unpack _). vm_compute. exact I. Qed.

Lemma actions_grouped_once_witness :
  Permutation (concat (snd <$> getGroupNames demoNames)) demoNames.
Proof. apply (actions_grouped_once demoNames demoNames_NoDup). Defined.

Lemma actions_calls_conserved_witness :
  sumZ (groupCount <$> mapActions demoStats) = 36%Z.
Proof. exact (proj2 (actions_calls_conserved demoStats demoNames_NoDup)). Defined.

Lemma square_count_is_digits_witness : getSquareCount 1234 = 4.
Proof. apply (square_count_is_digits 1234 4); cbn; lia. Defined.

Lemma actions_search_applied_witness :
  let s := reducer (LC := codeUnitCompare) true (initialState true) (StateActionsSearch "p2p") in
  Permutation (filteredGroups s) (searchActionsInGroups "p2p" (groups s)).
Proof.
  apply (actions_search_applied (LC := codeUnitCompare) true).
  apply (reachable_step _ _ _ _ (StateActionsSearch "p2p")); [apply reachable_init|exact I].
Defined.

End StateActions.
