(* ===== verification/Polling.v ===== *)
(** The effects that request the data of a page and keep a second request away
    while one is pending (the effects.ts files of frontend/src/app/features and
    app.effects.ts).  Ten of them are instances of one flow with different policies
    for its flag, for which it is decided when the page asks again; the flag of the
    scan state is the block being requested.  The eleventh, of the nodes overview,
    requests nothing itself: it dispatches one action per node and clears its flag
    in the same turn. *)

From S2P Require Import Prelude JsRuntime TableSort NetworkBlocks StateActions ScanState.

Module Polling.

(** * One request at a time *)

(** What an effect receives: a request for the data of a node, which may be
    forced; the page being left; the answer and the failure of the request
    under way. *)
Inductive Signal :=
| Ask (node : string) (force : bool)
| Leave
| Answered
| Failed.

(** The flag of the effect, the node of the request under way, the node whose
    answer the page shows, and all requests sent. *)
Record Flow := mkFlow {
  pending : bool;
  flight : option string;
  shown : option string;
  asked : list string
}.

#[export] Instance Flow_copy : RecordCopy Flow := {|
  record_copy f := mkFlow (pending f) (flight f) (shown f) (asked f);
  record_copy_id := fun '(mkFlow _ _ _ _) => eq_refl |}.

Definition initialFlow : Flow := mkFlow false None None [].

(** [admits] is the [filter], [noted] the flag after the [tap] before [switchMap],
    and [errorClears] says whether the [tap] that clears the flag stands behind
    [catchErrorAndRepeat] or before it. *)
Record Policy := mkPolicy {
  admits : bool -> Signal -> bool;
  noted : bool -> Signal -> bool;
  errorClears : bool
}.

Definition isAsk (s : Signal) : bool := match s with Ask _ _ => true | _ => false end.

Definition isLeave (s : Signal) : bool := match s with Leave => true | _ => false end.

Section Flow.
Context (p : Policy).

(** An admitted signal replaces the request under way ([switchMap]): by another
    request, or when the page is left by none.  Leaving also resets the slice. *)
Definition flowStep (f : Flow) (s : Signal) : Flow :=
  match s with
  | Ask node _ =>
      if admits p (pending f) s
      then mkFlow (noted p (pending f) s) (Some node) (shown f) (asked f ++ [node]) else f
  | Leave =>
      if admits p (pending f) s
      then mkFlow (noted p (pending f) s) None None (asked f)
      else f <| shown := None |>
  | Answered =>
      match flight f with
      | Some node => mkFlow false None (Some node) (asked f)
      | None => f
      end
  | Failed =>
      match flight f with
      | Some _ => mkFlow (if errorClears p then false else pending f) None None (asked f)
      | None => f
      end
  end.

Notation reachable := (reachable_by flowStep initialFlow (fun _ _ => True)).

(** A policy that keeps a second request away. *)
Class Guarded : Prop := {
  ask_admitted : forall b node, admits p b (Ask node false) = negb b;
  ask_noted : forall b node force, noted p b (Ask node force) = true;
  leave_noted : noted p false Leave = false
}.

(** The flag can stay set when no request is under way. *)
Definition leaks : bool := negb (errorClears p) || (admits p true Leave && noted p true Leave).

Context {G : Guarded}.

Lemma flight_pending f : reachable f -> flight f <> None -> pending f = true.
Proof.
  revert f. apply (reachable_by_inv _ _ _ (fun f => flight f <> None -> pending f = true)); [done|].
  intros f [node force| | |] IH _; cbn.
  - destruct (admits _ _ _); [|exact IH]. intros _. apply ask_noted.
  - destruct (admits _ _ _); [by intros []|exact IH].
  - destruct (flight f) eqn:E; [by intros []|]. by rewrite E.
  - destruct (flight f) eqn:E; [by intros []|]. by rewrite E.
Qed.

(** The flag set and nothing under way. *)
Definition stuck (f : Flow) : Prop := pending f = true /\ flight f = None.

(** A signal that cannot free a stuck flow. *)
Definition keepsStuck (s : Signal) : bool :=
  match s with
  | Ask _ _ => negb (admits p true s)
  | Leave => negb (admits p true Leave) || noted p true Leave
  | Answered | Failed => true
  end.

Lemma flow_stuck_step f s : stuck f -> keepsStuck s = true -> stuck (flowStep f s) /\ asked (flowStep f s) = asked f.
Proof.
  intros [Hp Hf] Hs. destruct s as [node force| | |]; cbn; rewrite ?Hp, ?Hf.
  - cbn in Hs. apply negb_true_iff in Hs. by rewrite Hs.
  - cbn in Hs. destruct (admits p true Leave); cbn in Hs; [by rewrite Hs|done].
  - done.
  - done.
Qed.

Lemma flow_stuck_run f ss :
  stuck f -> forallb keepsStuck ss = true -> asked (run flowStep f ss) = asked f.
Proof.
  revert f. induction ss as [|s ss IH]; intros f Hf Hss; [done|]. cbn in Hss.
  apply andb_true_iff in Hss as [Hs Hss]. destruct (flow_stuck_step f s Hf Hs) as [Hstuck Hasked].
  change (run flowStep f (s :: ss)) with (run flowStep (flowStep f s) ss). by rewrite IH.
Qed.

Lemma no_leak_free f : leaks = false -> reachable f -> flight f = None -> pending f = false.
Proof.
  intros Hl. apply orb_false_iff in Hl as [He Hc]. apply negb_false_iff in He. revert f.
  apply (reachable_by_inv _ _ _ (fun f => flight f = None -> pending f = false)); [done|].
  intros f [node force| | |] IH _; cbn.
  - destruct (admits p (pending f) (Ask node force)); [done|exact IH].
  - destruct (pending f) eqn:Hp.
    + destruct (admits p true Leave); cbn in Hc; [by rewrite Hc|]. cbn. by rewrite Hp.
    + destruct (admits p false Leave); [intros _; apply leave_noted|]. cbn. by rewrite Hp.
  - destruct (flight f) eqn:E; [done|]. by rewrite E.
  - rewrite He. destruct (flight f) eqn:E; [done|]. by rewrite E.
Qed.

End Flow.

(** * The pages *)

(** snarks-work-pool.effects.ts: leaving is admitted but does not clear the flag. *)
Definition workPoolPolicy : Policy :=
  mkPolicy (fun b s => (isAsk s && negb b) || isLeave s) (fun b s => if isAsk s then true else b) true.

(** network-node-dht.effects.ts: the flag is cleared before errors are caught. *)
Definition nodeDhtPolicy : Policy :=
  mkPolicy (fun b s => isLeave s || negb b) (fun b s => isAsk s) false.

(** nodes-bootstrap.effects.ts: a forced request is always admitted; leaving is
    not admitted while a request is pending, so that it is not cancelled. *)
Definition nodesBootstrapPolicy : Policy :=
  mkPolicy (fun b s => match s with Ask _ force => force | _ => false end || negb b)
    (fun b s => if isAsk s then true else b) true.

(** network-bootstrap-stats.effects.ts *)
Definition bootstrapStatsPolicy : Policy :=
  mkPolicy (fun b s => isLeave s || negb b) (fun b s => isAsk s) false.

(** nodes-live.effects.ts *)
Definition nodesLivePolicy : Policy :=
  mkPolicy (fun b s => match s with Ask _ force => force | _ => false end || negb b)
    (fun b s => if isAsk s then true else b) true.

(** dashboard.effects.ts *)
Definition dashboardPolicy : Policy :=
  mkPolicy (fun b s => match s with Ask _ force => force | _ => false end || negb b)
    (fun b s => if isAsk s then true else b) true.

(** app.effects.ts, [getNodeDetails$]: it does not react to pages being left. *)
Definition nodeDetailsPolicy : Policy :=
  mkPolicy (fun b s => isAsk s && negb b) (fun b s => isAsk s || b) true.

(** network-blocks.effects.ts: [waitingForServer] holds back the ticks of the
    timer; a block chosen by the user is always requested (a forced request); the
    flag is cleared before errors are caught; leaving stops the timer only. *)
Definition networkBlocksPolicy : Policy :=
  mkPolicy (fun b s => match s with Ask _ force => force || negb b | _ => false end) (fun b s => isAsk s || b) false.

(** network-messages.effects.ts: as the blocks; the ticks are those while the
    stream is active, and filters, pages, intervals and going live are forced. *)
Definition networkMessagesPolicy : Policy :=
  mkPolicy (fun b s => match s with Ask _ force => force || negb b | _ => false end) (fun b s => isAsk s || b) false.

(** network-connections.effects.ts: as the messages; going live is forced. *)
Definition networkConnectionsPolicy : Policy :=
  mkPolicy (fun b s => match s with Ask _ force => force || negb b | _ => false end) (fun b s => isAsk s || b) false.

Inductive Poller :=
| WorkPool | NodeDht | BootstrapStats | NodesBootstrap | NodesLive | DashboardData | NodeDetails
| BlocksOfNetwork | MessagesOfNetwork | ConnectionsOfNetwork.

#[export] Instance Poller_eq_dec : EqDecision Poller.
Proof. solve_decision. Defined.

Definition policyOf (x : Poller) : Policy :=
  match x with
  | WorkPool => workPoolPolicy
  | NodeDht => nodeDhtPolicy
  | BootstrapStats => bootstrapStatsPolicy
  | NodesBootstrap => nodesBootstrapPolicy
  | NodesLive => nodesLivePolicy
  | DashboardData => dashboardPolicy
  | NodeDetails => nodeDetailsPolicy
  | BlocksOfNetwork => networkBlocksPolicy
  | MessagesOfNetwork => networkMessagesPolicy
  | ConnectionsOfNetwork => networkConnectionsPolicy
  end.

#[export] Instance policyOf_guarded x : Guarded (policyOf x).
Proof. destruct x; split; try done; intros []; done. Qed.

(** ** The block of the scan state *)

(** scan-state.effects.ts: [inProgressGettingHeight], and the request under way.
    A block is asked for by its height or hash, the latest one by [undefined]. *)
Record ScanFlow := mkScan {
  inProgress : ScanState.Height;
  scanFlight : option ScanState.Height;
  scanAsked : list ScanState.Height;
  (** [SCAN_STATE_INIT] was dispatched for it *)
  inits : nat
}.

Inductive ScanSignal :=
| GetBlock (heightOrHash : ScanState.Height) (streaming : bool)
| Close
| Ended.

(** The flag is cleared behind [catchErrorAndRepeat], so an answer and a failure
    end a request alike. *)
Definition scanStep (f : ScanFlow) (s : ScanSignal) : ScanFlow :=
  match s with
  | GetBlock h streaming =>
      if ScanState.sameHeight h (inProgress f) then f
      else mkScan h (Some h) (scanAsked f ++ [h]) (if streaming then inits f else S (inits f))
  | Close => mkScan ScanState.HNull None (scanAsked f) (inits f)
  | Ended => match scanFlight f with
             | Some _ => mkScan ScanState.HNull None (scanAsked f) (inits f)
             | None => f
             end
  end.

Definition initialScan : ScanFlow := mkScan ScanState.HNull None [] 0.

(** Whether the answer moves the page to the height of its block.  [None]:
    [payload.height.toString()] throws, as the answer has no height. *)
Definition scanNavigates (url : string) (b : ScanState.ScanStateBlock) : option bool :=
  h ← ScanState.height b;
  Some (negb (strIncludes url (showZ h)) && negb (strIncludes url (default "undefined" (ScanState.blockHash b)))).

(** ** The actions after the earliest block and slot *)

Definition earliestBlockActions (activeBlock height : option Z) : list Blocks.NetworkBlocksActions :=
  Blocks.NetworkBlocksSetEarliestBlock height ::
  if truthyNum activeBlock then []
  else [Blocks.NetworkBlocksSetActiveBlock height false; Blocks.NetworkBlocksInit].

Definition setActiveBlockActions (height : option Z) (fetchNew : bool) : list Blocks.NetworkBlocksActions :=
  if fetchNew then [Blocks.NetworkBlocksGetBlocks height] else [].

(** [action.payload?.height || state.network.blocks.activeBlock] *)
Definition requestedHeight (payload activeBlock : option Z) : option Z :=
  if truthyNum payload then payload else activeBlock.

(** [slot] is the answer, [activeSlot] that of the state in which it was asked. *)
Definition earliestSlotActions (activeSlot slot : option Z) (force : bool)
  : list StateActions.StateActionsActions :=
  StateActions.StateActionsGetEarliestSlotSuccess slot ::
  if bool_decide (activeSlot = None) || gtUndef activeSlot slot || force
  then [StateActions.StateActionsGetActions slot] else [].

(** * The theorems *)

(** A request sent in the state [f]. *)
Definition asks (p : Policy) (f : Flow) (s : Signal) : Prop := asked (flowStep p f s) <> asked f.

Lemma asks_admitted p f node force : asks p f (Ask node force) <-> admits p (pending f) (Ask node force) = true.
Proof.
  unfold asks. cbn. destruct (admits _ _ _); cbn; [|by split; [intros []|]].
  split; [done|]. intros _ E. apply (f_equal length) in E. rewrite length_app in E. cbn in E. lia.
Qed.

Notation reachable p := (reachable_by (flowStep p) initialFlow (fun _ _ => True)).

(** A guarded effect asks whenever nothing is under way exactly if its flag does not
    leak. *)
Lemma recovers_no_leak p :
  Guarded p ->
  (forall f node, reachable p f -> flight f = None -> asks p f (Ask node false)) <-> leaks p = false.
Proof.
  intros G. split.
  - intros Hall. apply not_true_is_false. intros Hl.
    assert (forall s, stuck (run (flowStep p) initialFlow [Ask "" false; s]) -> False) as Hno.
    { intros s [Hp Hfl]. apply (Hall _ "") in Hfl.
      - apply asks_admitted in Hfl. by rewrite Hp, (ask_admitted p) in Hfl.
      - unfold run. cbn [fold_left]. do 2 (apply reachable_step; [|done]). apply reachable_init. }
    unfold stuck, run in Hno. cbn [fold_left] in Hno.
    assert (flowStep p initialFlow (Ask "" false) = mkFlow true (Some "") None [""]) as Hask.
    { cbn. by rewrite (ask_admitted p), (ask_noted p). }
    rewrite Hask in Hno. apply orb_true_iff in Hl as [He%negb_true_iff|[Ha Hn]%andb_true_iff].
    + apply (Hno Failed). cbn. by rewrite He.
    + apply (Hno Leave). cbn. by rewrite Ha, Hn.
  - intros Hl f node Hf Hfl. rewrite asks_admitted, (ask_admitted p).
    by rewrite (no_leak_free p f Hl Hf Hfl).
Qed.

Lemma failed_stuck p f : reachable p f -> Guarded p -> flight f <> None -> errorClears p = false ->
  stuck (flowStep p f Failed) /\ asked (flowStep p f Failed) = asked f.
Proof.
  intros Hf G Hfl He. pose proof (flight_pending p f Hf Hfl) as Hp. cbn.
  destruct (flight f); [|done]. by rewrite He.
Qed.

(** After a failure, whatever follows that cannot free the flag, nothing is sent. *)
Lemma failed_silent p f ss :
  Guarded p -> reachable p f -> flight f <> None -> errorClears p = false -> forallb (keepsStuck p) ss = true ->
  asked (run (flowStep p) f (Failed :: ss)) = asked f.
Proof.
  intros G Hf Hfl He Hss. destruct (failed_stuck p f Hf G Hfl He) as [Hs Ha].
  change (asked (run (flowStep p) (flowStep p f Failed) ss) = asked f). by rewrite flow_stuck_run.
Qed.

Lemma forallb_imp {X} (p q : X -> bool) l :
  (forall x, p x = true -> q x = true) -> forallb p l = true -> forallb q l = true.
Proof. intros H. rewrite !forallb_forall. auto. Qed.

Definition unforced (s : Signal) : bool := match s with Ask _ force => negb force | _ => true end.

(** How an effect stalls: a request of the work pool cancelled by leaving the page is
    its last, whatever follows; after a failure the node DHT and the bootstrap
    statistics ask nothing until the page is left; after a failure the blocks, the
    messages and the connections ask nothing until the user forces a request, also
    when the page is left and opened again. *)
Definition stalls (x : Poller) : Prop :=
  let p := policyOf x in
  forall f, reachable p f -> flight f <> None ->
  match x with
  | WorkPool => forall ss, asked (run (flowStep p) f (Leave :: ss)) = asked f
  | NodeDht | BootstrapStats =>
      forall ss, forallb (fun s => negb (isLeave s)) ss = true ->
        asked (run (flowStep p) f (Failed :: ss)) = asked f
        /\ forall node, asks p (run (flowStep p) f (Failed :: ss ++ [Leave])) (Ask node false)
  | BlocksOfNetwork | MessagesOfNetwork | ConnectionsOfNetwork =>
      forall ss, forallb unforced ss = true ->
        asked (run (flowStep p) f (Failed :: ss)) = asked f
        /\ forall node, asks p (run (flowStep p) f (Failed :: ss)) (Ask node true)
  | NodesBootstrap | NodesLive | DashboardData | NodeDetails => False
  end.

Lemma work_pool_stalls : stalls WorkPool.
Proof.
  intros f Hf Hfl ss. pose proof (flight_pending (policyOf WorkPool) f Hf Hfl) as Hp.
  change (asked (run (flowStep workPoolPolicy) (flowStep workPoolPolicy f Leave) ss) = asked f).
  rewrite flow_stuck_run; [done|by split|]. apply forallb_forall. by intros [] _.
Qed.

Lemma left_frees_stalls x : x = NodeDht \/ x = BootstrapStats -> stalls x.
Proof.
  intros Hx f Hf Hfl. destruct Hx as [-> | ->]; intros ss Hss; (split; [|intros node; rewrite app_comm_cons, run_app;
    by apply asks_admitted]); apply failed_silent; try done; try apply policyOf_guarded;
    (revert Hss; apply forallb_imp; by intros []).
Qed.

Lemma force_frees_stalls x : x = BlocksOfNetwork \/ x = MessagesOfNetwork \/ x = ConnectionsOfNetwork -> stalls x.
Proof.
  intros Hx f Hf Hfl. destruct Hx as [-> |[-> | ->]]; intros ss Hss; (split; [|intros node; by apply asks_admitted]);
    apply failed_silent; try done; try apply policyOf_guarded; (revert Hss; apply forallb_imp; by intros [node []| | |]).
Qed.

(** C8: of the ten effects that poll one request at a time, none sends an unforced
    request while another one is under way.  The effects of the bootstrap page, the
    live page, the dashboard and the node details send one whenever none is under
    way, in all states they can reach, and only these: the other six stall, the work
    pool for good after a request cancelled by leaving its page, the node DHT and the
    bootstrap statistics from a failure until their page is left, and the network
    blocks, messages and connections from a failure until the user forces a request. *)
Theorem poll_recovers_iff x :
  let p := policyOf x in
  (forall f node, reachable p f -> flight f <> None -> ~ asks p f (Ask node false)) /\
  ((forall f node, reachable p f -> flight f = None -> asks p f (Ask node false)) <->
   x ∈ [NodesBootstrap; NodesLive; DashboardData; NodeDetails]) /\
  (x ∉ [NodesBootstrap; NodesLive; DashboardData; NodeDetails] -> stalls x).
Proof.
  intros p. pose proof (policyOf_guarded x) as G. split_and!.
  - intros f node Hf Hfl. rewrite asks_admitted, (ask_admitted p), (flight_pending p f Hf Hfl). done.
  - rewrite (recovers_no_leak p G), !elem_of_cons, elem_of_nil. subst p. clear G.
    destruct x; cbn; split; intros Hx; try done; try tauto; naive_solver.
  - intros Hx. destruct x; try (destruct Hx; set_solver); try apply work_pool_stalls;
      try (apply left_frees_stalls; tauto); apply force_frees_stalls; tauto.
Qed.

Definition underWay : Flow := mkFlow true (Some "node") None ["node"].

Lemma underWay_reachable p : Guarded p -> reachable p underWay.
Proof.
  intros G. replace underWay with (flowStep p initialFlow (Ask "node" false)).
  - apply reachable_step; [apply reachable_init|done].
  - cbn. by rewrite (ask_admitted p), (ask_noted p).
Qed.

Example work_pool_silent :
  asked (run (flowStep workPoolPolicy) underWay [Leave; Ask "node" false; Ask "other" true]) = ["node"].
Proof. reflexivity. Qed.

(** A request for another node while one is under way: the bootstrap page forces
    it and shows the answer of the new node; the work pool drops it and shows the
    old node's answer. *)
Theorem polling_node_change f old node :
  reachable workPoolPolicy f -> flight f = Some old ->
  shown (run (flowStep nodesBootstrapPolicy) f [Ask node true; Answered]) = Some node /\
  shown (run (flowStep workPoolPolicy) f [Ask node true; Answered]) = Some old /\
  flight (run (flowStep workPoolPolicy) f [Ask node true; Answered]) = None.
Proof.
  intros Hr Hf. assert (pending f = true) as Hp by (apply (flight_pending (policyOf WorkPool) f Hr); by rewrite Hf).
  unfold run. cbn [fold_left]. split; [done|].
  replace (flowStep workPoolPolicy f (Ask node true)) with f by (cbn; by rewrite Hp).
  cbn. by rewrite Hf.
Qed.

Lemma polling_node_change_witness :
  shown (run (flowStep workPoolPolicy) underWay [Ask "other" true; Answered]) = Some "node".
Proof.
  destruct (polling_node_change underWay "node" "other") as (_ & H & _); [|reflexivity|exact H].
  apply underWay_reachable. exact (policyOf_guarded WorkPool).
Defined.

(** The request under way is the one of the flag and the last one asked for. *)
Definition scanSound (f : ScanFlow) : Prop :=
  match scanFlight f with
  | Some k => inProgress f = k /\ last (scanAsked f) = Some k
  | None => inProgress f = ScanState.HNull
  end.

Lemma scanStep_sound f s : scanSound f -> scanSound (scanStep f s).
Proof.
  intros Hs. destruct s as [h b| |]; cbn; [|done|].
  - destruct (ScanState.sameHeight _ _); [done|]. split; [done|]. apply last_snoc.
  - destruct (scanFlight f) eqn:E; [done|exact Hs].
Qed.

Lemma sameHeight_true a b : ScanState.sameHeight a b = true <-> a = b /\ a <> ScanState.HNaN.
Proof. unfold ScanState.sameHeight. destruct a; rewrite ?bool_decide_eq_true; naive_solver. Qed.

(** A block of the scan state is asked for unless the very same one is being
    requested, or [null] is asked for while there is no request; the request under
    way is the last one asked for, and none stalls the next. *)
Theorem scan_state_requests f h streaming :
  reachable_by scanStep initialScan (fun _ _ => True) f ->
  scanSound f /\
  (scanAsked (scanStep f (GetBlock h streaming)) = scanAsked f <->
   h <> ScanState.HNaN /\ (scanFlight f = Some h \/ scanFlight f = None /\ h = ScanState.HNull)).
Proof.
  intros Hf. assert (scanSound f) as Hs.
  { revert f Hf. apply reachable_by_inv; [done|]. intros f s Hs _. by apply scanStep_sound. }
  split; [done|]. cbn. unfold scanSound in Hs. destruct (ScanState.sameHeight _ _) eqn:E.
  - apply sameHeight_true in E as [-> E]. destruct (scanFlight f); naive_solver.
  - split.
    + cbn. intros Hl. apply (f_equal length) in Hl. rewrite length_app in Hl. cbn in Hl. lia.
    + intros [Hn Hc]. assert (ScanState.sameHeight h (inProgress f) = true); [|congruence].
      apply sameHeight_true. destruct (scanFlight f); naive_solver.
Qed.

Lemma scan_state_requests_witness :
  scanSound (run scanStep initialScan
    [GetBlock (ScanState.HText "5") true; GetBlock ScanState.HUndefined true]).
Proof.
  refine (proj1 (scan_state_requests _ ScanState.HNull true _)).
  unfold run. cbn [fold_left]. do 2 (apply reachable_step; [|exact I]). apply reachable_init.
Defined.

(** The answer of the earliest slot leaves no later slot active. *)
Lemma earliest_slot_bounds {LC : LocaleCompare} mobile s slot force :
  let s' := run (StateActions.reducer mobile) s (earliestSlotActions (StateActions.activeSlot s) (Some slot) force) in
  exists a, StateActions.activeSlot s' = Some a /\ (a <= slot)%Z.
Proof.
  unfold earliestSlotActions, run. cbn [fold_left StateActions.reducer].
  destruct (StateActions.activeSlot s) as [a|] eqn:E; cbn.
  - destruct (slot <? a)%Z eqn:Hlt; cbn; [by exists slot; split; [|lia]|].
    apply Z.ltb_ge in Hlt. destruct force; cbn; [by exists slot; split; [|lia]|]. by exists a.
  - exists slot. split; [done|lia].
Qed.

End Polling.
