(* ===== verification/BenchmarksWallets.v ===== *)
(** Benchmarks page (frontend/src/app/features/benchmarks/wallets): the stress
    tool that sends batches of payments and zkApp commands from test wallets. *)

From S2P Require Import Prelude JsRuntime TableSort.
From Stdlib Require Import Ascii.

Module Wallets.

(** * Data *)

Inductive BenchmarksWalletTransactionStatus := SENDING | GENERATED | ERROR | REJECTED | INCLUDED.

Definition statusText (s : BenchmarksWalletTransactionStatus) : string :=
  match s with
  | SENDING => "sending"
  | GENERATED => "generated"
  | ERROR => "error"
  | REJECTED => "rejected"
  | INCLUDED => "included"
  end.

Record BenchmarksWallet := mkWallet {
  publicKey : string;
  privateKey : option string;
  minaTokens : Q;
  nonce : Z;
  lastTxCount : option string;
  lastTxTime : option string;
  lastTxMemo : option string;
  lastTxStatus : option string;
  successTx : nat;
  failedTx : nat;
  errorReason : option string
}.

#[export] Instance BenchmarksWallet_copy : RecordCopy BenchmarksWallet := {|
  record_copy w := mkWallet (publicKey w) (privateKey w) (minaTokens w) (nonce w) (lastTxCount w)
    (lastTxTime w) (lastTxMemo w) (lastTxStatus w) (successTx w) (failedTx w) (errorReason w);
  record_copy_id := fun '(mkWallet _ _ _ _ _ _ _ _ _ _ _) => eq_refl |}.

(** The part of a wallet an account request returns. *)
Record Account := mkAccount {
  a_publicKey : string;
  a_privateKey : option string;
  a_minaTokens : Q;
  a_nonce : Z
}.

(** Numeric texts ([fee], [amount], [nonce]) are kept as their numbers. *)
Record BenchmarksWalletTransaction := mkTx {
  amount : Q;
  fee : Q;
  memo : string;
  validUntil : string;
  from : string;
  to : string;
  txNonce : Z;
  txPrivateKey : option string;
  dateTime : option string
}.

#[export] Instance BenchmarksWalletTransaction_copy : RecordCopy BenchmarksWalletTransaction := {|
  record_copy t := mkTx (amount t) (fee t) (memo t) (validUntil t) (from t) (to t) (txNonce t)
    (txPrivateKey t) (dateTime t);
  record_copy_id := fun '(mkTx _ _ _ _ _ _ _ _ _) => eq_refl |}.

Record BenchmarksZkapp := mkZkapp {
  payerPublicKey : string;
  payerPrivateKey : option string;
  zkFee : Q;
  zkNonce : Z;
  zkMemo : string;
  accountUpdates : nat
}.

Record SentTransactionsStats := mkSent { success : nat; fail : nat }.

Record MempoolTransaction := mkMempoolTx { sender : string; mempoolMemo : string }.

Record JsErrorValue := mkError { errorName : option string; errorMessage : string }.

Record BenchmarksWalletsState := mkState {
  wallets : list BenchmarksWallet;
  blockSending : bool;
  txSendingBatch : option Z;
  sentTransactions : SentTransactionsStats;
  sentTxCount : nat;
  txsToSend : list BenchmarksWalletTransaction;
  randomWallet : bool;
  activeWallet : option BenchmarksWallet;
  sendingFee : Q;
  sendingAmount : Q;
  zkAppsSendingBatch : option Z;
  zkAppsToSend : list BenchmarksZkapp;
  sendingFeeZkapps : Q
}.

#[export] Instance BenchmarksWalletsState_copy : RecordCopy BenchmarksWalletsState := {|
  record_copy s := mkState (wallets s) (blockSending s) (txSendingBatch s) (sentTransactions s)
    (sentTxCount s) (txsToSend s) (randomWallet s) (activeWallet s) (sendingFee s) (sendingAmount s)
    (zkAppsSendingBatch s) (zkAppsToSend s) (sendingFeeZkapps s);
  record_copy_id := fun '(mkState _ _ _ _ _ _ _ _ _ _ _ _ _) => eq_refl |}.

Inductive BenchmarksWalletsActions :=
| BenchmarksWalletsClose
| BenchmarksWalletsGetWallets (initialRequest : bool)
| BenchmarksWalletsGetWalletsSuccess (payload : list Account)
| BenchmarksWalletsUpdateWalletsSuccess (payload : list BenchmarksWallet)
| BenchmarksWalletsChangeTransactionBatch (payload : option Z)
| BenchmarksWalletsChangeZkAppsBatch (payload : option Z)
| BenchmarksWalletsSendTxs
| BenchmarksWalletsSendTxSuccess (transactions : list BenchmarksWalletTransaction) (error : option JsErrorValue)
| BenchmarksWalletsSendZkApps
| BenchmarksWalletsSendZkAppsSuccess (zkApps : list BenchmarksZkapp) (error : option JsErrorValue)
| BenchmarksWalletsToggleRandomWallet
| BenchmarksWalletsSelectWallet (payload : option BenchmarksWallet)
| BenchmarksWalletsChangeAmount (payload : Q)
| BenchmarksWalletsChangeFee (payload : Q)
| BenchmarksWalletsChangeFeeZkApps (payload : Q)
| BenchmarksWalletsGetAllTxs
| BenchmarksWalletsGetAllTxsSuccess (mempoolTxs includedTxs : option (list MempoolTransaction)).

Definition actionType (a : BenchmarksWalletsActions) : string :=
  match a with
  | BenchmarksWalletsClose => "BENCHMARKS_WALLETS_CLOSE"
  | BenchmarksWalletsGetWallets _ => "BENCHMARKS_WALLETS_GET_WALLETS"
  | BenchmarksWalletsGetWalletsSuccess _ => "BENCHMARKS_WALLETS_GET_WALLETS_SUCCESS"
  | BenchmarksWalletsUpdateWalletsSuccess _ => "BENCHMARKS_WALLETS_UPDATE_WALLETS_SUCCESS"
  | BenchmarksWalletsChangeTransactionBatch _ => "BENCHMARKS_WALLETS_CHANGE_TRANSACTION_BATCH"
  | BenchmarksWalletsChangeZkAppsBatch _ => "BENCHMARKS_WALLETS_CHANGE_ZKAPPS_BATCH"
  | BenchmarksWalletsSendTxs => "BENCHMARKS_WALLETS_SEND_TXS"
  | BenchmarksWalletsSendTxSuccess _ _ => "BENCHMARKS_WALLETS_SEND_TX_SUCCESS"
  | BenchmarksWalletsSendZkApps => "BENCHMARKS_WALLETS_SEND_ZKAPPS"
  | BenchmarksWalletsSendZkAppsSuccess _ _ => "BENCHMARKS_WALLETS_SEND_ZKAPPS_SUCCESS"
  | BenchmarksWalletsToggleRandomWallet => "BENCHMARKS_WALLETS_TOGGLE_RANDOM_WALLET"
  | BenchmarksWalletsSelectWallet _ => "BENCHMARKS_WALLETS_SELECT_WALLET"
  | BenchmarksWalletsChangeAmount _ => "BENCHMARKS_WALLETS_CHANGE_AMOUNT"
  | BenchmarksWalletsChangeFee _ => "BENCHMARKS_WALLETS_CHANGE_FEE"
  | BenchmarksWalletsChangeFeeZkApps _ => "BENCHMARKS_WALLETS_CHANGE_FEE_ZKAPPS"
  | BenchmarksWalletsGetAllTxs => "BENCHMARKS_WALLETS_GET_ALL_TXS"
  | BenchmarksWalletsGetAllTxsSuccess _ _ => "BENCHMARKS_GET_ALL_TXS_SUCCESS"
  end.

(** * Memos *)

(** [s.split(',')[0]] *)
Fixpoint beforeComma (s : string) : string :=
  match s with
  | EmptyString => ""
  | String "," _ => ""
  | String c s => String c (beforeComma s)
  end.

(** What follows the first comma, if there is one. *)
Fixpoint afterComma (s : string) : option string :=
  match s with
  | EmptyString => None
  | String "," s => Some s
  | String _ s => afterComma s
  end.

(** [memo.split(',')[1]] *)
Definition memoCounter (memo : string) : option string := beforeComma <$> afterComma memo.

(** [memo.replace('S.T.', '')] *)
Fixpoint removeTag (s : string) : string :=
  match s with
  | String "S" (String "." (String "T" (String "." rest))) => rest
  | String c rest => String c (removeTag rest)
  | EmptyString => ""
  end.

(** [parseInt(text, 10)] of a text without sign or blanks; [None] is NaN. *)
Fixpoint leadingDigits (acc : option Z) (s : string) : option Z :=
  match s with
  | EmptyString => acc
  | String c s =>
      let n := N_of_ascii c in
      if ((48 <=? n) && (n <=? 57))%N
      then leadingDigits (Some (default 0%Z acc * 10 + Z.of_N (n - 48))%Z) s else acc
  end.
Definition parseInt (s : option string) : option Z := s ≫= leadingDigits None.

(** [a > b] with NaN *)
Definition gtNum (a b : option Z) : bool :=
  match a, b with Some x, Some y => (y <? x)%Z | _, _ => false end.

(** Angular's [formatDate] of a numeric text. *)
Class TextDate := formatTextDate : string -> string.

Section Memo.
Context {TD : TextDate}.

Definition getTimeFromMemo (memo : string) : option string :=
  if strIncludes memo "," then Some (formatTextDate (removeTag (beforeComma memo))) else None.
End Memo.

(** * Reducer *)

(** What the reducer reads from the browser: the i-th [Date.now()] and
    [Math.random()], the stored browser id, and the depth of the call stack. *)
Record Browser := mkBrowser {
  now : nat -> Z;
  random : nat -> Q;
  browserId : string;
  stackLimit : nat
}.

Definition initialState : BenchmarksWalletsState := {|
  wallets := [];
  txsToSend := [];
  blockSending := false;
  txSendingBatch := None;
  sentTransactions := mkSent 0 0;
  sentTxCount := 0;
  randomWallet := true;
  activeWallet := None;
  sendingFee := (1 # 1000);
  sendingAmount := 1;
  zkAppsToSend := [];
  sendingFeeZkapps := (1 # 1000);
  zkAppsSendingBatch := Some 1%Z
|}.

Definition getNonceForWallet (wallet : BenchmarksWallet) : Z := Z.max (nonce wallet) 0.

(** [arr.slice(0, n)], also for an undefined or negative [n]. *)
Definition sliceFirst {A} (n : option Z) (l : list A) : list A :=
  match n with
  | None => l
  | Some n => if (n <? 0)%Z then take (Z.to_nat (Z.of_nat (length l) + n)) l else take (Z.to_nat n) l
  end.

(** The length of [Array(n)]. *)
Definition arrayLength (n : option Z) : exec nat :=
  match n with
  | None => Ret 1
  | Some n => if (n <? 0)%Z then Throw (RangeError "Invalid array length") else Ret (Z.to_nat n)
  end.

Definition noProperty {A} : exec A := Throw (TypeError "Cannot read properties of undefined").

Section Sending.
Context (env : Browser).

Definition txMemo (i counter : nat) : string :=
  "S.T." +:+ showZ (now env i) +:+ "," +:+ showNat (counter + 1) +:+ "," +:+ browserId env.

(** The receiver and the number of random numbers used so far. *)
Fixpoint getRandomReceiver (stack used : nat) (currentWallet : BenchmarksWallet)
  (ws : list BenchmarksWallet) : exec (string * nat) :=
  match stack with
  | 0 => Throw (RangeError "Maximum call stack size exceeded")
  | S stack =>
      match ws !! Z.to_nat (Qfloor (random env used * inject_Z (Z.of_nat (length ws)))) with
      | None => noProperty
      | Some w =>
          if bool_decide (publicKey w = publicKey currentWallet)
          then getRandomReceiver stack (S used) currentWallet ws
          else Ret (publicKey w, S used)
      end
  end.

Definition mkPayment (state : BenchmarksWalletsState) (wallet : BenchmarksWallet) (i : nat) (n : Z)
  (receiver : string) : BenchmarksWalletTransaction := {|
  from := publicKey wallet;
  txNonce := n;
  to := receiver;
  fee := (sendingFee state * inject_Z ONE_BILLION)%Q;
  amount := (sendingAmount state * inject_Z ONE_BILLION)%Q;
  memo := txMemo i (sentTxCount state + i);
  validUntil := "4294967295";
  txPrivateKey := privateKey wallet;
  dateTime := None
|}.

(** One payment per wallet to a random other one. *)
Fixpoint randomPayments (state : BenchmarksWalletsState) (i used : nat) (ws : list BenchmarksWallet)
  : exec (list BenchmarksWalletTransaction) :=
  match ws with
  | [] => Ret []
  | wallet :: ws =>
      '(receiver, used) ← getRandomReceiver (stackLimit env) used wallet (wallets state);
      others ← randomPayments state (S i) used ws;
      Ret (mkPayment state wallet i (getNonceForWallet wallet) receiver :: others)
  end.

(** Payments of one wallet to the first wallets of the list.  The flag
    [blockSending] the source also puts on these objects is outside their type
    and read nowhere. *)
Definition activePayments (state : BenchmarksWalletsState) : exec (list BenchmarksWalletTransaction) :=
  match activeWallet state with
  | None => noProperty
  | Some wallet =>
      n ← arrayLength (txSendingBatch state);
      exec_map (fun i =>
        match wallets state !! i with
        | None => noProperty
        | Some receiver =>
            Ret (mkPayment state wallet i (getNonceForWallet wallet + Z.of_nat i) (publicKey receiver))
        end) (seq 0 n)
  end.

Definition mkZkappCommand (state : BenchmarksWalletsState) (wallet : BenchmarksWallet) (i : nat) (n : Z)
  : BenchmarksZkapp := {|
  payerPublicKey := publicKey wallet;
  payerPrivateKey := privateKey wallet;
  zkFee := sendingFeeZkapps state;
  zkNonce := n;
  zkMemo := txMemo i (sentTxCount state + i);
  accountUpdates := 2
|}.

Definition zkappCommands (state : BenchmarksWalletsState) : exec (list BenchmarksZkapp) :=
  if randomWallet state then
    Ret (imap (fun i wallet => mkZkappCommand state wallet i (getNonceForWallet wallet))
      (sliceFirst (zkAppsSendingBatch state) (wallets state)))
  else match activeWallet state with
       | None => noProperty
       | Some wallet =>
           n ← arrayLength (zkAppsSendingBatch state);
           Ret ((fun i => mkZkappCommand state wallet i (getNonceForWallet wallet + Z.of_nat i))
                  <$> seq 0 n)
       end.

Context {TD : TextDate}.

(** A wallet whose transaction is on its way. *)
Definition markSending (memo : option string) (w : BenchmarksWallet) : BenchmarksWallet :=
  match memo with
  | None => w
  | Some memo =>
      w <| lastTxTime := getTimeFromMemo memo |> <| lastTxMemo := Some memo |>
        <| lastTxStatus := Some (statusText SENDING) |>
  end.

(** A wallet after its transactions were answered. *)
Definition recordSent (txs : list BenchmarksWalletTransaction) (error : option JsErrorValue)
  (w : BenchmarksWallet) : BenchmarksWallet :=
  let mine := List.filter (fun tx => bool_decide (from tx = publicKey w)) txs in
  match lastItem mine with
  | None => w
  | Some tx =>
      w <| lastTxCount := memoCounter (memo tx) |>
        <| lastTxStatus := Some (statusText (if error then ERROR else GENERATED)) |>
        <| lastTxTime := dateTime tx |>
        <| lastTxMemo := Some (removeTag (memo tx)) |>
        <| successTx := successTx w + (if error then 0 else length mine) |>
        <| failedTx := failedTx w + (if error then length mine else 0) |>
        <| errorReason := errorMessage <$> error |>
  end.

Definition recordZkapps (zks : list BenchmarksZkapp) (error : option JsErrorValue)
  (w : BenchmarksWallet) : BenchmarksWallet :=
  let mine := List.filter (fun tx => bool_decide (payerPublicKey tx = publicKey w)) zks in
  match lastItem mine with
  | None => w
  | Some tx =>
      w <| lastTxCount := memoCounter (zkMemo tx) |>
        <| lastTxStatus := Some (default (statusText GENERATED) (error ≫= errorName)) |>
        <| lastTxTime := getTimeFromMemo (zkMemo tx) |>
        <| lastTxMemo := Some (zkMemo tx) |>
        <| successTx := successTx w + (if error then 0 else length mine) |>
        <| failedTx := failedTx w + (if error then length mine else 0) |>
        <| errorReason := errorMessage <$> error |>
  end.

(** The later of two transactions by the counter in their memos. *)
Definition laterTx (acc tx : bool * MempoolTransaction) : bool * MempoolTransaction :=
  if gtNum (parseInt (memoCounter (mempoolMemo tx.2))) (parseInt (memoCounter (mempoolMemo acc.2)))
  then tx else acc.

(** [txs] are all transactions, each with whether it is still in the mempool. *)
Definition recordKnown (txs : list (bool * MempoolTransaction)) (w : BenchmarksWallet) : BenchmarksWallet :=
  match List.filter (fun tx => bool_decide (sender tx.2 = publicKey w)) txs with
  | [] => w
  | first :: others =>
      let lastTransaction := fold_left laterTx others first in
      let memo := mempoolMemo lastTransaction.2 in
      w <| lastTxMemo := Some (removeTag memo) |>
        <| lastTxStatus := Some (statusText (if lastTransaction.1 then GENERATED else INCLUDED)) |>
        <| lastTxCount := memoCounter memo |>
        <| lastTxTime := getTimeFromMemo memo |>
        <| successTx := countIf (fun tx => bool_decide (sender tx.2 = publicKey w)
                                        && strIncludes (mempoolMemo tx.2) "S.T.") txs |>
  end.

(** [{ successTx: 0, failedTx: 0, ...state.wallets[i], ...wallet }] *)
Definition mergeAccount (old : option BenchmarksWallet) (a : Account) : BenchmarksWallet :=
  match old with
  | Some w => w <| publicKey := a_publicKey a |> <| privateKey := a_privateKey a |>
                <| minaTokens := a_minaTokens a |> <| nonce := a_nonce a |>
  | None => mkWallet (a_publicKey a) (a_privateKey a) (a_minaTokens a) (a_nonce a)
              None None None None 0 0 None
  end.

Definition notIterable {A} : exec A := Throw (TypeError "undefined is not iterable").

Definition reducer (state : BenchmarksWalletsState) (action : BenchmarksWalletsActions)
  : exec BenchmarksWalletsState :=
  match action with
  | BenchmarksWalletsGetWalletsSuccess payload =>
      let ws := imap (fun i a => mergeAccount (wallets state !! i) a) payload in
      Ret (state <| wallets := ws |> <| blockSending := false |>
                 <| txSendingBatch := match txSendingBatch state with
                                      | None => Some (Z.of_nat (length payload))
                                      | Some n => Some n end |>
                 <| activeWallet := match activeWallet state with
                                    | Some w => Some w | None => head ws end |>)
  | BenchmarksWalletsUpdateWalletsSuccess payload =>
      Ret (state <| wallets := imap (fun i w => default w (payload !! i)) (wallets state) |>)
  | BenchmarksWalletsChangeTransactionBatch payload => Ret (state <| txSendingBatch := payload |>)
  | BenchmarksWalletsChangeZkAppsBatch payload => Ret (state <| zkAppsSendingBatch := payload |>)
  | BenchmarksWalletsGetWallets _ => Ret (state <| blockSending := true |>)
  | BenchmarksWalletsToggleRandomWallet => Ret (state <| randomWallet := negb (randomWallet state) |>)
  | BenchmarksWalletsSendTxs =>
      txs ← if randomWallet state
            then randomPayments state 0 0 (sliceFirst (txSendingBatch state) (wallets state))
            else activePayments state;
      let mine w := memo <$> List.find (fun tx => bool_decide (from tx = publicKey w)) txs in
      Ret (state <| txsToSend := txs |>
                 <| wallets := (fun w => markSending (mine w) w) <$> wallets state |>)
  | BenchmarksWalletsSendTxSuccess txs error =>
      let sent := sentTransactions state in
      Ret (state <| txsToSend := [] |>
                 <| wallets := recordSent txs error <$> wallets state |>
                 <| sentTransactions := mkSent (success sent + (if error then 0 else length txs))
                                               (fail sent + (if error then length txs else 0)) |>)
  | BenchmarksWalletsSendZkAppsSuccess zks error =>
      let sent := sentTransactions state in
      Ret (state <| zkAppsToSend := [] |>
                 <| wallets := recordZkapps zks error <$> wallets state |>
                 <| sentTransactions := mkSent (success sent + (if error then 0 else length zks))
                                               (fail sent + (if error then length zks else 0)) |>)
  | BenchmarksWalletsGetAllTxsSuccess mempoolTxs includedTxs =>
      match mempoolTxs, includedTxs with
      | Some mempool, Some included =>
          let allTxs := (pair true <$> mempool) ++ (pair false <$> included) in
          Ret (state <| wallets := recordKnown allTxs <$> wallets state |>
                     <| sentTransactions :=
                          mkSent (countIf (fun tx => strIncludes (mempoolMemo tx.2) "S.T.") allTxs)
                                 (fail (sentTransactions state)) |>)
      | _, _ => notIterable
      end
  | BenchmarksWalletsSelectWallet payload => Ret (state <| activeWallet := payload |>)
  | BenchmarksWalletsChangeFee payload => Ret (state <| sendingFee := payload |>)
  | BenchmarksWalletsChangeAmount payload => Ret (state <| sendingAmount := payload |>)
  | BenchmarksWalletsChangeFeeZkApps payload => Ret (state <| sendingFeeZkapps := payload |>)
  | BenchmarksWalletsClose => Ret (initialState <| sentTxCount := sentTxCount state |>)
  | BenchmarksWalletsSendZkApps =>
      zks ← zkappCommands state;
      let mine w := zkMemo <$> List.find (fun tx => bool_decide (payerPublicKey tx = publicKey w)) zks in
      Ret (state <| zkAppsToSend := zks |>
                 <| wallets := (fun w => markSending (mine w) w) <$> wallets state |>
                 <| blockSending := true |>)
  | BenchmarksWalletsGetAllTxs => Ret state
  end.

(** * Service and effects *)

(** What is posted for a payment: the signature and the payment; [Number] of a
    text that is not a decimal number is NaN, [None]. *)
Record SignedTx := mkSigned {
  signature_field : string;
  signature_scalar : string;
  valid_until : option Z;
  signedAmount : Q;
  signedFee : Q;
  signedFrom : string;
  signedTo : string;
  signedNonce : Z;
  signedMemo : string
}.

Definition signedTxs (signPayment : BenchmarksWalletTransaction -> option string -> string * string)
  (transactions : list BenchmarksWalletTransaction) : list SignedTx :=
  (fun t => let '(field, scalar) := signPayment t (txPrivateKey t) in
            mkSigned field scalar (digitsValue 0 (validUntil t)) (amount t) (fee t) (from t) (to t) (txNonce t) (memo t))
    <$> transactions.

(** The signing client and the node are parameters: [post] is the message of
    the error with which the request fails, if it does.  The result is the
    action the effect dispatches with the answer. *)
Definition sendTransactions (signPayment : BenchmarksWalletTransaction -> option string -> string * string)
  (post : list SignedTx -> option string) (transactions : list BenchmarksWalletTransaction)
  : BenchmarksWalletsActions :=
  match post (signedTxs signPayment transactions) with
  | None => BenchmarksWalletsSendTxSuccess
              ((fun tx => tx <| dateTime := getTimeFromMemo (memo tx) |>) <$> transactions) None
  | Some message => BenchmarksWalletsSendTxSuccess [] (Some (mkError (Some "Error") message))
  end.

(** The action of [getAllTxs$]: the fallback payload of its [catchErrorAndRepeat]
    names [memPoolTxs], so [mempoolTxs] is undefined. *)
Definition getAllTxsAction (answers : option (list MempoolTransaction * list MempoolTransaction))
  : BenchmarksWalletsActions :=
  match answers with
  | Some (mempool, included) => BenchmarksWalletsGetAllTxsSuccess (Some mempool) (Some included)
  | None => BenchmarksWalletsGetAllTxsSuccess None (Some [])
  end.

(** [getAccounts]: the accounts whose keys the tool knows. *)
Definition getAccounts (known : list (string * string)) (answer : list (string * Z * Z)) : list Account :=
  List.filter (fun a => includes (snd <$> known) (a_publicKey a))
    ((fun '(pk, n, balance) =>
        mkAccount pk (fst <$> List.find (fun k => bool_decide (snd k = pk)) known)
          (inject_Z balance / inject_Z ONE_BILLION)%Q n) <$> answer).

End Sending.

(** * Batches *)

Section Batches.
Context (env : Browser) {TD : TextDate}.

Definition account (tx : BenchmarksWalletTransaction) : string * Z := (from tx, txNonce tx).

Lemma getRandomReceiver_other stack : forall used w ws r used',
  getRandomReceiver env stack used w ws = Ret (r, used') -> r ∈ (publicKey <$> ws) /\ r <> publicKey w.
Proof.
  induction stack as [|stack IH]; intros used w ws r used' H; cbn in H; [done|].
  destruct (ws !! _) as [w'|] eqn:Hw; [|done]. case_bool_decide; [by eapply IH|]. simplify_eq.
  split; [|done]. apply list_elem_of_fmap_2. by eapply list_elem_of_lookup_2.
Qed.

Lemma randomPayments_spec state ws : forall i used txs,
  randomPayments env state i used ws = Ret txs ->
  account <$> txs = (fun w => (publicKey w, getNonceForWallet w)) <$> ws /\
  (forall tx, tx ∈ txs -> to tx ∈ (publicKey <$> wallets state) /\ to tx <> from tx) /\
  (forall k tx, txs !! k = Some tx -> memo tx = txMemo env (i + k) (sentTxCount state + (i + k))).
Proof.
  induction ws as [|w ws IH]; intros i used txs H; cbn in H; simplify_eq.
  { split_and!; [done|set_solver|done]. }
  apply exec_bind_Ret in H as ([r used'] & Hr & H).
  apply exec_bind_Ret in H as (others & Ho & H). simplify_eq.
  apply getRandomReceiver_other in Hr as [Hin Hne].
  destruct (IH _ _ _ Ho) as (H1 & H2 & H3). split_and!.
  - cbn. by rewrite H1.
  - intros tx [->|Htx]%elem_of_cons; [done|auto].
  - intros [|k] tx Hk; cbn in Hk.
    + simplify_eq. cbn. by rewrite !Nat.add_0_r.
    + apply H3 in Hk. by replace (i + S k) with (S i + k) by lia.
Qed.

Lemma exec_map_lookup {A B} (f : A -> exec B) l ys i y :
  exec_map f l = Ret ys -> ys !! i = Some y -> exists x, l !! i = Some x /\ f x = Ret y.
Proof.
  revert ys i. induction l as [|x l IH]; intros ys i H Hi; cbn in H; [by simplify_eq|].
  apply exec_bind_Ret in H as (y0 & Hy & H). apply exec_bind_Ret in H as (ys' & Hys & H). simplify_eq.
  destruct i as [|i]; cbn in Hi; [simplify_eq; eauto|]. by eapply IH.
Qed.

Lemma activePayments_spec state txs :
  activePayments env state = Ret txs ->
  exists wallet, activeWallet state = Some wallet /\
  forall k tx, txs !! k = Some tx ->
    account tx = (publicKey wallet, (getNonceForWallet wallet + Z.of_nat k)%Z) /\
    memo tx = txMemo env k (sentTxCount state + k).
Proof.
  unfold activePayments. destruct (activeWallet state) as [w|]; [|done]. intros H. exists w. split; [done|].
  apply exec_bind_Ret in H as (n & _ & H). intros k tx Hk.
  destruct (exec_map_lookup _ _ _ _ _ H Hk) as (i & Hi & Hf).
  apply lookup_seq in Hi as [-> _]. cbn in Hf. destruct (wallets state !! k); [|done]. by simplify_eq.
Qed.

(** C37: in a batch of payments no sender uses a nonce twice.  With random
    wallets every wallet of the batch sends one payment with its own nonce to
    another wallet of the list, never to itself; with a selected wallet the
    nonces count up from the wallet's nonce.  A negative nonce counts as zero. *)
Theorem wallets_batch_nonces state state' :
  NoDup (publicKey <$> wallets state) ->
  reducer env state BenchmarksWalletsSendTxs = Ret state' ->
  NoDup (account <$> txsToSend state') /\
  (randomWallet state = true ->
    account <$> txsToSend state' =
      (fun w => (publicKey w, Z.max (nonce w) 0)) <$> sliceFirst (txSendingBatch state) (wallets state) /\
    forall tx, tx ∈ txsToSend state' -> to tx ∈ (publicKey <$> wallets state) /\ to tx <> from tx) /\
  (randomWallet state = false -> exists wallet, activeWallet state = Some wallet /\
    forall k tx, txsToSend state' !! k = Some tx ->
      account tx = (publicKey wallet, (Z.max (nonce wallet) 0 + Z.of_nat k)%Z)).
Proof.
  intros Hnd H. cbn [reducer] in H. apply exec_bind_Ret in H as (txs & Htxs & H). simplify_eq.
  cbn [txsToSend field_update record_copy]. destruct (randomWallet state).
  - destruct (randomPayments_spec _ _ _ _ _ Htxs) as (H1 & H2 & _). split_and!; [|done..].
    rewrite H1. apply (NoDup_fmap_1 fst). rewrite <- list_fmap_compose.
    assert (forall l : list BenchmarksWallet, NoDup (publicKey <$> l) ->
      NoDup (publicKey <$> sliceFirst (txSendingBatch state) l)) as Hs; [|by apply Hs].
    intros l Hl. unfold sliceFirst. repeat case_match; try done;
      rewrite fmap_take; (eapply sublist_NoDup; [exact Hl|apply sublist_take]).
  - destruct (activePayments_spec _ _ Htxs) as (w & Hw & Hk). split_and!; [|done|].
    + apply NoDup_alt. intros i j a Hi Hj. rewrite list_lookup_fmap in Hi, Hj.
      apply fmap_Some in Hi as (t1 & H1 & ->). apply fmap_Some in Hj as (t2 & H2 & Heq).
      apply Hk in H1 as [H1 _]. apply Hk in H2 as [H2 _]. rewrite H1, H2 in Heq. simplify_eq. lia.
    + intros _. exists w. split; [done|]. intros k tx Htx. by apply Hk.
Qed.

Lemma getRandomReceiver_alone w stack :
  (forall i, (0 <= random env i)%Q /\ (random env i < 1)%Q) ->
  forall used, getRandomReceiver env stack used w [w] =
    Throw (RangeError "Maximum call stack size exceeded").
Proof.
  intros Hr. induction stack as [|stack IH]; intros used; [done|]. cbn [getRandomReceiver].
  assert (Z.to_nat (Qfloor (random env used * inject_Z (Z.of_nat (length [w])))) = 0) as ->.
  { destruct (Hr used) as [H0 H1]. change (inject_Z (Z.of_nat (length [w]))) with 1%Q.
    assert (Qfloor (random env used * 1) < 1)%Z; [|lia].
    rewrite Zlt_Qlt. eapply Qle_lt_trans; [apply Qfloor_le|]. change (inject_Z 1) with 1%Q. lra. }
  cbn. rewrite bool_decide_true by done. apply IH.
Qed.

(** With a single wallet the search for another receiver never ends: a
    batch of random payments overflows the call stack, whatever the random
    numbers and the size of the stack. *)
Theorem wallets_single_wallet_overflows state w :
  (forall i, (0 <= random env i)%Q /\ (random env i < 1)%Q) ->
  wallets state = [w] -> randomWallet state = true -> txSendingBatch state = Some 1%Z ->
  reducer env state BenchmarksWalletsSendTxs = Throw (RangeError "Maximum call stack size exceeded").
Proof.
  intros Hr Hw Hrand Hb. cbn [reducer]. rewrite Hrand, Hw, Hb.
  change (sliceFirst (Some 1%Z) [w]) with [w]. cbn [randomPayments]. rewrite Hw.
  by rewrite getRandomReceiver_alone.
Qed.

(** * Counters *)

Definition step (s : BenchmarksWalletsState) (a : BenchmarksWalletsActions) := reducer env s a.

Lemma sentTxCount_const s a s' : step s a = Ret s' -> sentTxCount s' = sentTxCount s.
Proof.
  unfold step. destruct a; cbn [reducer]; intros H;
    repeat (apply exec_bind_Ret in H as (? & _ & H)); repeat case_match; by simplify_eq.
Qed.

(** The counter of sent transactions is never increased: in every state the
    page can reach it is zero, so the k-th payment of every batch carries the
    number k + 1 in its memo and batches reuse each other's numbers. *)
Theorem wallets_counter_restarts s s' :
  reachable_exec step initialState (fun _ _ => True) s ->
  step s BenchmarksWalletsSendTxs = Ret s' ->
  forall k tx, txsToSend s' !! k = Some tx -> memo tx = txMemo env k k.
Proof.
  intros Hs H.
  assert (sentTxCount s = 0) as H0.
  { revert s Hs H. intros s Hs _. revert s Hs. apply reachable_exec_inv; [done|].
    intros s a s1 Hs _ Hstep. by rewrite (sentTxCount_const _ _ _ Hstep). }
  unfold step in H. cbn [reducer] in H. apply exec_bind_Ret in H as (txs & Htxs & H). simplify_eq.
  cbn [txsToSend field_update record_copy]. intros k tx Hk. destruct (randomWallet s).
  - apply randomPayments_spec in Htxs as (_ & _ & Hm). apply Hm in Hk. by rewrite H0 in Hk.
  - apply activePayments_spec in Htxs as (w & _ & Hm). apply Hm in Hk as [_ Hk]. by rewrite H0 in Hk.
Qed.

(** Dating the transactions keeps how many a sender has. *)
Lemma sent_count_dated (pk : string) (txs : list BenchmarksWalletTransaction) :
  length (List.filter (fun tx => bool_decide (from tx = pk))
    ((fun tx => tx <| dateTime := getTimeFromMemo (memo tx) |>) <$> txs)) =
  length (List.filter (fun tx => bool_decide (from tx = pk)) txs).
Proof. induction txs as [|tx txs IH]; [done|]. cbn. case_bool_decide; cbn; by rewrite IH. Qed.

Lemma recordSent_nil error w : recordSent [] error w = w.
Proof. done. Qed.

(** A successful batch adds its size to the success counter and, wallet by
    wallet, the number of the wallet's own transactions.  A failed batch counts
    nothing: the service reports it without its transactions, so neither the
    failure counter nor any wallet changes and the wallets stay in the sending
    status. *)
Theorem wallets_failed_batch_not_counted s signPayment post txs :
  exists s', step s (sendTransactions signPayment post txs) = Ret s' /\ txsToSend s' = [] /\
  match post (signedTxs signPayment txs) with
  | None =>
      success (sentTransactions s') = success (sentTransactions s) + length txs /\
      fail (sentTransactions s') = fail (sentTransactions s) /\
      Forall2 (fun w w' => successTx w' = successTx w + countIf (fun tx => bool_decide (from tx = publicKey w)) txs /\
                           failedTx w' = failedTx w) (wallets s) (wallets s')
  | Some _ => sentTransactions s' = sentTransactions s /\ wallets s' = wallets s
  end.
Proof.
  unfold step, sendTransactions. destruct (post _) as [message|]; eexists; (split; [done|]); (split; [done|]); cbn.
  2: { rewrite length_fmap, Nat.add_0_r. split_and!; [done..|].
    apply Forall2_fmap_r, Forall_Forall2_diag, Forall_forall. intros w _. unfold recordSent, countIf.
    pose proof (sent_count_dated (publicKey w) txs) as Hlen.
    unfold compose. cbv beta. rewrite lastItem_last. destruct (last _) as [tx|] eqn:Hlast.
    + cbn. rewrite Hlen. lia.
    + apply last_None in Hlast. rewrite <- Hlen. rewrite (f_equal length Hlast : length _ = 0). cbn. lia. }
  rewrite !Nat.add_0_r. split; [by destruct (sentTransactions s)|].
  rewrite <- (list_fmap_id (wallets s)) at 2. apply list_fmap_ext. intros i w _. apply recordSent_nil.
Qed.

(** After successful requests the transactions of the mempool and of the
    chain are counted; when one of the requests fails, the fallback payload
    lacks the field the reducer spreads, and the reducer throws. *)
Theorem wallets_failed_history_throws s mempool included :
  (exists s', step s (getAllTxsAction (Some (mempool, included))) = Ret s' /\
    success (sentTransactions s') =
      countIf (fun tx => strIncludes (mempoolMemo tx) "S.T.") (mempool ++ included)) /\
  step s (getAllTxsAction None) = Throw (TypeError "undefined is not iterable").
Proof.
  split; [|done]. eexists. split; [done|]. cbn. unfold countIf.
  rewrite !List.filter_app, !length_app. f_equal; [generalize mempool as l|generalize included as l]; clear;
    induction l as [|tx l IH]; cbn; try done; destruct (strIncludes _ _); cbn; by rewrite ?IH.
Qed.

End Batches.

Definition demoWallet (k : string) (n : Z) : BenchmarksWallet :=
  mkWallet k None 1%Q n None None None None 0 0 None.
Definition demoBrowser : Browser := mkBrowser (fun _ => 1700000000000%Z) (fun _ => 0%Q) "77" 10.

(** Always the first wallet, which is another one for the second. *)
Definition demoState : BenchmarksWalletsState :=
  initialState <| wallets := [demoWallet "A" 4; demoWallet "B" 7] |> <| txSendingBatch := Some 2%Z |>
    <| randomWallet := false |> <| activeWallet := Some (demoWallet "A" 4) |>.

Lemma demoState_NoDup : NoDup (publicKey <$> wallets demoState).
Proof. apply (bool_decide_unpack _). vm_compute. exact I. Qed.

Lemma wallets_batch_nonces_witness :
  exists s', reducer demoBrowser (TD := fun t => t) demoState BenchmarksWalletsSendTxs = Ret s' /\
    account <$> txsToSend s' = [("A", 4%Z); ("A", 5%Z)] /\ NoDup (account <$> txsToSend s').
Proof.
  eexists. split; [reflexivity|]. split; [reflexivity|].
  apply (wallets_batch_nonces demoBrowser (TD := fun t => t) demoState _ demoState_NoDup eq_refl).
Defined.

Lemma wallets_single_wallet_overflows_witness :
  reducer demoBrowser (TD := fun t => t)
    (initialState <| wallets := [demoWallet "A" 4] |> <| txSendingBatch := Some 1%Z |>)
    BenchmarksWalletsSendTxs = Throw (RangeError "Maximum call stack size exceeded").
Proof.
  apply (wallets_single_wallet_overflows demoBrowser (TD := fun t => t) _ (demoWallet "A" 4)).
  - intros i. split; [apply Qle_refl|reflexivity].
  - reflexivity.
  - reflexivity.
  - reflexivity.
Defined.

Lemma wallets_counter_restarts_witness :
  exists s s' tx, reducer demoBrowser (TD := fun t => t) s BenchmarksWalletsSendTxs = Ret s' /\
    txsToSend s' !! 0 = Some tx /\ memo tx = "S.T.1700000000000,1,77".
Proof.
  pose (a1 := BenchmarksWalletsGetWalletsSuccess [mkAccount "A" None 1%Q 3]).
  destruct (reducer demoBrowser (TD := fun t => t) initialState a1) as [s1|] eqn:E1; [|vm_compute in E1; discriminate E1].
  destruct (reducer demoBrowser (TD := fun t => t) s1 BenchmarksWalletsToggleRandomWallet) as [s2|] eqn:E2;
    [|vm_compute in E1; injection E1 as <-; vm_compute in E2; discriminate E2].
  destruct (reducer demoBrowser (TD := fun t => t) s2 BenchmarksWalletsSendTxs) as [s3|] eqn:E3;
    [|vm_compute in E1; injection E1 as <-; vm_compute in E2; injection E2 as <-; vm_compute in E3; discriminate E3].
  destruct (txsToSend s3 !! 0) as [tx|] eqn:E4;
    [|vm_compute in E1; injection E1 as <-; vm_compute in E2; injection E2 as <-; vm_compute in E3;
      injection E3 as <-; vm_compute in E4; discriminate E4].
  exists s2, s3, tx. split; [exact E3|]. split; [exact E4|].
  rewrite (wallets_counter_restarts demoBrowser (TD := fun t => t) s2 s3) with (k := 0) (tx := tx).
  - vm_compute. reflexivity.
  - eapply (reachable_exec_step _ _ _ s1 BenchmarksWalletsToggleRandomWallet); [|exact I|exact E2].
    eapply (reachable_exec_step _ _ _ initialState a1); [apply reachable_exec_init|exact I|exact E1].
  - exact E3.
  - exact E4.
Defined.

End Wallets.
