(* ===== verification/WalletsToolbar.v ===== *)
(** The toolbars of the wallets page
    (frontend/src/app/features/benchmarks/wallets): the forms for payments and for
    zkApp commands.  The handlers of a field write the field they listen to, and the
    store writes it too, so that a value typed by the user passes through the
    handler more than once ([setBatch], [setFee] with fuel for these rounds). *)

From S2P Require Import Prelude JsRuntime TableSort BenchmarksWallets.

Module WalletsToolbar.
Import Wallets.

(** What distinguishes the two toolbars: the field of the state they show, and the
    actions they dispatch. *)
Record Kind := mkKind {
  batchOf : BenchmarksWalletsState -> option Z;
  changeBatch : option Z -> BenchmarksWalletsActions;
  feeOf : BenchmarksWalletsState -> Q;
  changeFee : Q -> BenchmarksWalletsActions;
  sendAction : BenchmarksWalletsActions
}.

Definition paymentBar : Kind :=
  mkKind txSendingBatch BenchmarksWalletsChangeTransactionBatch sendingFee BenchmarksWalletsChangeFee BenchmarksWalletsSendTxs.
Definition zkappBar : Kind :=
  mkKind zkAppsSendingBatch BenchmarksWalletsChangeZkAppsBatch sendingFeeZkapps BenchmarksWalletsChangeFeeZkApps
    BenchmarksWalletsSendZkApps.

(** The field of the amount works as that of the fee. *)
Definition amountField : Kind :=
  mkKind txSendingBatch BenchmarksWalletsChangeTransactionBatch sendingAmount BenchmarksWalletsChangeAmount BenchmarksWalletsSendTxs.

(** A field of the form, and the last value [distinctUntilChanged] let through; an
    empty field is [null]. *)
Record Field := mkField { control : option Q; lastSeen : option (option Q) }.

#[export, refine] Instance Field_copy : RecordCopy Field := { record_copy f := mkField (control f) (lastSeen f) }.
Proof. by intros []. Defined.

Record Toolbar := mkToolbar {
  store : BenchmarksWalletsState;
  batch : Field;
  fee : Field;
  currentBatch : option Z;
  dropdown : bool                     (* overlayRef?.hasAttached() *)
}.

#[export, refine] Instance Toolbar_copy : RecordCopy Toolbar := {
  record_copy r := mkToolbar (store r) (batch r) (fee r) (currentBatch r) (dropdown r) }.
Proof. by intros []. Defined.

Section Bars.
Context (env : Browser) {TD : TextDate} (k : Kind).

Definition walletsLength (w : Toolbar) : Z := Z.of_nat (length (wallets (store w))).

(** [v === u] *)
Definition sameValue (u v : option Q) : bool :=
  match u, v with Some x, Some y => Qeq_bool x y | None, None => true | _, _ => false end.

Definition seen (f : Field) (v : option Q) : bool := match lastSeen f with Some u => sameValue u v | None => false end.

(** The number of transactions for a number that was typed. *)
Definition payload (w : Toolbar) (value : Q) : Z :=
  let p := Qround.Qceiling (if Qeq_bool value 0 then 1 else value) in
  if (walletsLength w <? p)%Z then (if randomWallet (store w) then walletsLength w else walletsLength w - 1)%Z else p.

(** [listenToBatchChange]: [setValue(batch, { emitEvent: false })] *)
Definition listenToBatchChange (w : Toolbar) : Toolbar :=
  w <| currentBatch := batchOf k (store w) |> <| batch := (batch w) <| control := inject_Z <$> batchOf k (store w) |> |>.

(** The actions of the form never throw. *)
Definition dispatchBar (w : Toolbar) (a : BenchmarksWalletsActions) : Toolbar :=
  match reducer env (store w) a with Ret s => w <| store := s |> | Throw _ => w end.

(** [setValue(v)] on the field of the batch, with its handler. *)
Fixpoint setBatch (fuel : nat) (w : Toolbar) (v : option Q) : option Toolbar :=
  match fuel with
  | 0 => None
  | S fuel =>
      let w := w <| batch := (batch w) <| control := v |> |> in
      if seen (batch w) v then Some w else
      let w := w <| batch := (batch w) <| lastSeen := Some v |> |> in
      match v with
      | None => Some w
      | Some value =>
          let p := payload w value in
          match setBatch fuel w (Some (inject_Z p)) with
          | None => None
          | Some w =>
              if bool_decide (currentBatch w = Some p) then Some w
              else Some (listenToBatchChange (dispatchBar w (changeBatch k (Some p))))
          end
      end
  end.

(** [setValue(v)] on the field of the fee: the handler stores the value, and the
    store writes its absolute value back. *)
Fixpoint setFee (fuel : nat) (w : Toolbar) (v : option Q) : option Toolbar :=
  match fuel with
  | 0 => None
  | S fuel =>
      let w := w <| fee := (fee w) <| control := v |> |> in
      if seen (fee w) v then Some w else
      let w := w <| fee := (fee w) <| lastSeen := Some v |> |> in
      match v with
      | None => Some w
      | Some value =>
          let old := feeOf k (store w) in
          let w := dispatchBar w (changeFee k value) in
          if Qeq_bool old value then Some w else setFee fuel w (Some (Qabs.Qabs value))
      end
  end.

Definition send (w : Toolbar) : exec BenchmarksWalletsState :=
  if blockSending (store w) then Ret (store w) else reducer env (store w) (sendAction k).

Definition toggleRandomWallet (w : Toolbar) : Toolbar := dispatchBar w BenchmarksWalletsToggleRandomWallet.

Definition detachOverlay (w : Toolbar) : Toolbar := if dropdown w then w <| dropdown := false |> else w.

Definition changeWallet (wallet : BenchmarksWallet) (w : Toolbar) : Toolbar :=
  detachOverlay (dispatchBar w (BenchmarksWalletsSelectWallet (Some wallet))).

Definition openDropdown (w : Toolbar) : Toolbar := w <| dropdown := negb (dropdown w) |>.

End Bars.

(** The toolbar of a page that shows the state [s]. *)
Definition initToolbar (k : Kind) (s : BenchmarksWalletsState) : Toolbar :=
  mkToolbar s (mkField (inject_Z <$> batchOf k s) None) (mkField (Some (Qabs.Qabs (feeOf k s))) (Some (Some (Qabs.Qabs (feeOf k s)))))
    (batchOf k s) false.

(** * Laws of the actions *)

Class KindLaws (env : Browser) {TD : TextDate} (k : Kind) := {
  change_batch s b : exists s', reducer env s (changeBatch k b) = Ret s' /\ batchOf k s' = b /\
    wallets s' = wallets s /\ randomWallet s' = randomWallet s /\ activeWallet s' = activeWallet s /\ blockSending s' = blockSending s;
  change_fee s f : exists s', reducer env s (changeFee k f) = Ret s' /\ feeOf k s' = f
}.

#[export] Instance paymentLaws env {TD : TextDate} : KindLaws env paymentBar.
Proof. split; intros; by eexists. Qed.
#[export] Instance zkappLaws env {TD : TextDate} : KindLaws env zkappBar.
Proof. split; intros; by eexists. Qed.
#[export] Instance amountLaws env {TD : TextDate} : KindLaws env amountField.
Proof. split; intros; by eexists. Qed.

Section Typing.
Context (env : Browser) {TD : TextDate} (k : Kind) {KL : KindLaws env k}.

(** * The batch *)

(** [payload] reads the number of wallets and the kind of sender only. *)
Definition clamp (n : Z) (random : bool) (value : Q) : Z :=
  let p := Qround.Qceiling (if Qeq_bool value 0 then 1 else value) in
  if (n <? p)%Z then (if random then n else n - 1)%Z else p.

Lemma payload_clamp w v : payload w v = clamp (walletsLength w) (randomWallet (store w)) v.
Proof. done. Qed.

Lemma clamp_le n random v : (clamp n random v <= n)%Z.
Proof. unfold clamp. destruct (Z.ltb_spec n (Qround.Qceiling (if Qeq_bool v 0 then 1 else v))); [destruct random; lia|lia]. Qed.

Lemma clamp_Z n random z : z <> 0%Z -> (z <= n)%Z -> clamp n random (inject_Z z) = z.
Proof.
  intros Hz Hn. unfold clamp. destruct (Qeq_bool (inject_Z z) 0) eqn:E.
  - apply Qeq_bool_eq in E. unfold Qeq in E. cbn in E. lia.
  - rewrite Qround.Qceiling_Z. destruct (Z.ltb_spec n z); [lia|done].
Qed.

(** Two rounds reach a value that stays. *)
Lemma clamp_settles n random v : (0 <= n)%Z ->
  let c1 := clamp n random v in let c2 := clamp n random (inject_Z c1) in clamp n random (inject_Z c2) = c2.
Proof.
  intros Hn c1 c2. destruct (Z.eq_dec c2 0%Z) as [E|E].
  - destruct (Z.eq_dec c1 0%Z) as [E1|E1]; [by unfold c2 in *; rewrite E1 in *; rewrite E, E|].
    assert (c2 = c1) as H by (apply clamp_Z; [done|apply clamp_le]). congruence.
  - apply clamp_Z; [done|apply clamp_le].
Qed.

Definition inSync (w : Toolbar) : Prop := currentBatch w = batchOf k (store w).

(** What a round leaves behind: the field shows its value, or that of the store. *)
Definition settled (w : Toolbar) (v : Q) : Prop :=
  inSync w /\ (control (batch w) = Some v \/ control (batch w) = inject_Z <$> currentBatch w).

Definition sameWallets (w w' : Toolbar) : Prop :=
  wallets (store w') = wallets (store w) /\ randomWallet (store w') = randomWallet (store w) /\
  activeWallet (store w') = activeWallet (store w) /\ blockSending (store w') = blockSending (store w).

Lemma sameWallets_clamp w w' v : sameWallets w w' -> payload w' v = payload w v.
Proof. intros (E1 & E2 & _). unfold payload, walletsLength. by rewrite E1, E2. Qed.

Lemma dispatch_batch w p :
  let w' := listenToBatchChange k (dispatchBar env w (changeBatch k (Some p))) in
  inSync w' /\ batchOf k (store w') = Some p /\ control (batch w') = Some (inject_Z p) /\ sameWallets w w'.
Proof.
  unfold dispatchBar. destruct (change_batch (store w) (Some p)) as (s' & -> & Hb & Hw & Hr & Ha & Hs). cbn.
  unfold inSync, sameWallets. cbn. by rewrite Hb.
Qed.

(** A value that was let through before changes only the field. *)
Lemma setBatch_seen fuel w v : seen (batch w) v = true ->
  setBatch env k (S fuel) w v = Some (w <| batch := (batch w) <| control := v |> |>).
Proof.
  intros H. cbn [setBatch].
  assert (seen (batch (w <| batch := (batch w) <| control := v |> |>)) v = true) as -> by exact H. reflexivity.
Qed.

(** The toolbar when the handler starts. *)
Definition noted (w : Toolbar) (q : Q) : Toolbar := w <| batch := mkField (Some q) (Some (Some q)) |>.

Lemma setBatch_new fuel w q : seen (batch w) (Some q) = false ->
  setBatch env k (S fuel) w (Some q) =
    match setBatch env k fuel (noted w q) (Some (inject_Z (payload w q))) with
    | None => None
    | Some w1 => if bool_decide (currentBatch w1 = Some (payload w q)) then Some w1
                 else Some (listenToBatchChange k (dispatchBar env w1 (changeBatch k (Some (payload w q)))))
    end.
Proof.
  intros H. cbn [setBatch].
  assert (seen (batch (w <| batch := (batch w) <| control := Some q |> |>)) (Some q) = false) as -> by exact H.
  reflexivity.
Qed.

(** The outcome of a value that was typed. *)
Definition typed (w w' : Toolbar) (p : Z) : Prop :=
  inSync w' /\ sameWallets w w' /\ batchOf k (store w') = Some p /\ control (batch w') = Some (inject_Z p).

(** A round around a settled one. *)
Lemma setBatch_round fuel w q w1 : seen (batch w) (Some q) = false ->
  setBatch env k fuel (noted w q) (Some (inject_Z (payload w q))) = Some w1 ->
  settled w1 (inject_Z (payload w q)) -> sameWallets w w1 ->
  exists w2, setBatch env k (S fuel) w (Some q) = Some w2 /\ typed w w2 (payload w q).
Proof.
  intros Hseen E [Hsync Hc] Hsame. rewrite setBatch_new, E by done. case_bool_decide as Hb.
  - exists w1. split; [done|]. split; [done|]. split; [done|]. rewrite <- Hsync. split; [done|].
    destruct Hc as [Hc|Hc]; [done|]. by rewrite Hc, Hb.
  - eexists. split; [reflexivity|]. destruct (dispatch_batch w1 (payload w q)) as (H1 & H2 & H3 & H4).
    repeat split; try done; destruct Hsame as (? & ? & ? & ?), H4 as (? & ? & ? & ?); congruence.
Qed.

Lemma typed_settled w w' p : typed w w' p -> settled w' (inject_Z p).
Proof. intros (H & _ & _ & Hc). split; [done|]. by left. Qed.

Lemma sameWallets_refl w f : sameWallets w (w <| batch := f |>).
Proof. done. Qed.

Lemma sameWallets_trans w1 w2 w3 : sameWallets w1 w2 -> sameWallets w2 w3 -> sameWallets w1 w3.
Proof. intros (? & ? & ? & ?) (? & ? & ? & ?). repeat split; congruence. Qed.

Lemma typed_shown w w' p v : typed w w' p -> settled w' v.
Proof. intros (H & _ & Hb & Hc). split; [done|]. right. by rewrite Hc, H, Hb. Qed.

Section Rounds.
Context (n : Z) (random : bool).

(** Enough rounds for a whole number. *)
Definition enough (m : nat) (z : Z) : Prop := forall w, inSync w -> walletsLength w = n -> randomWallet (store w) = random ->
  exists w', setBatch env k m w (Some (inject_Z z)) = Some w' /\ settled w' (inject_Z z) /\ sameWallets w w'.

Lemma seen_round m w z : inSync w -> seen (batch w) (Some (inject_Z z)) = true ->
  exists w', setBatch env k (S m) w (Some (inject_Z z)) = Some w' /\ settled w' (inject_Z z) /\ sameWallets w w'.
Proof.
  intros Hs H. rewrite setBatch_seen by done. eexists. split; [reflexivity|]. split; [|done]. split; [done|]. by left.
Qed.

Lemma enough_step m z : enough m (clamp n random (inject_Z z)) -> enough (S m) z.
Proof.
  intros Hm w Hs Hn Hr. destruct (seen (batch w) (Some (inject_Z z))) eqn:E; [by apply seen_round|].
  destruct (Hm (noted w (inject_Z z)) Hs Hn Hr) as (w1 & E1 & H1 & H2).
  rewrite <- Hn, <- Hr, <- payload_clamp in E1, H1.
  destruct (setBatch_round m w (inject_Z z) w1 E E1 H1 H2) as (w2 & E2 & H3). exists w2. split; [done|].
  split; [by eapply typed_shown|apply H3].
Qed.

(** A number that the handler keeps passes it once. *)
Lemma enough_fixed m z : clamp n random (inject_Z z) = z -> enough (S (S m)) z.
Proof.
  intros Hz w Hs Hn Hr. destruct (seen (batch w) (Some (inject_Z z))) eqn:E; [by apply seen_round|].
  assert (payload w (inject_Z z) = z) as Hp by (by rewrite payload_clamp, Hn, Hr).
  destruct (seen_round m (noted w (inject_Z z)) z Hs) as (w1 & E1 & H1 & H2).
  { cbn. apply Qeq_bool_iff. reflexivity. }
  destruct (setBatch_round (S m) w (inject_Z z) w1 E) as (w2 & E2 & H3); [by rewrite Hp|by rewrite Hp|done|].
  exists w2. split; [done|]. split; [by eapply typed_shown|apply H3].
Qed.

End Rounds.

Lemma setBatch_typed m w q : inSync w -> seen (batch w) (Some q) = false ->
  exists w', setBatch env k (4 + m) w (Some q) = Some w' /\ typed w w' (payload w q).
Proof.
  intros Hs Hseen. set (n := walletsLength w). set (random := randomWallet (store w)).
  assert (enough n random (3 + m) (clamp n random q)) as Hen.
  { apply enough_step. apply (enough_fixed n random m). apply clamp_settles. unfold n, walletsLength. lia. }
  destruct (Hen (noted w q) Hs eq_refl eq_refl) as (w1 & E1 & H1 & H2).
  unfold n, random in E1, H1. rewrite <- payload_clamp in E1, H1.
  by apply (setBatch_round (3 + m) w q w1).
Qed.

(** C24: however often its handler runs again, the field of the batch comes to rest
    within four rounds: it then shows what the store holds, the typed number rounded
    up (1 for 0) and cut to the number of wallets, or one less for a single sender. *)
Theorem toolbar_batch_settles m w q :
  inSync w -> seen (batch w) (Some q) = false ->
  exists w', setBatch env k (4 + m) w (Some q) = Some w' /\
    batchOf k (store w') = Some (clamp (walletsLength w) (randomWallet (store w)) q) /\
    control (batch w') = Some (inject_Z (clamp (walletsLength w) (randomWallet (store w)) q)) /\
    (clamp (walletsLength w) (randomWallet (store w)) q <= walletsLength w)%Z /\ sameWallets w w' /\ inSync w'.
Proof.
  intros Hs Hseen. destruct (setBatch_typed m w q Hs Hseen) as (w' & E & H1 & H2 & H3 & H4).
  exists w'. rewrite <- payload_clamp. split; [done|]. split; [done|]. split; [done|].
  split; [apply clamp_le|]. done.
Qed.

(** * The fee *)

Lemma dispatch_fee w v : feeOf k (store (dispatchBar env w (changeFee k v))) = v.
Proof. unfold dispatchBar. destruct (change_fee (store w) v) as (s' & -> & Hf). exact Hf. Qed.

Lemma dispatchBar_fields w a : batch (dispatchBar env w a) = batch w /\ fee (dispatchBar env w a) = fee w.
Proof. unfold dispatchBar. by destruct (reducer env (store w) a). Qed.

Lemma setFee_seen fuel w v : seen (fee w) v = true ->
  setFee env k (S fuel) w v = Some (w <| fee := (fee w) <| control := v |> |>).
Proof.
  intros H. cbn [setFee].
  assert (seen (fee (w <| fee := (fee w) <| control := v |> |>)) v = true) as -> by exact H. reflexivity.
Qed.

(** The toolbar after the action of the handler. *)
Definition feeSent (w : Toolbar) (v : Q) : Toolbar :=
  dispatchBar env (w <| fee := mkField (Some v) (Some (Some v)) |>) (changeFee k v).

Lemma feeSent_fields w v : fee (feeSent w v) = mkField (Some v) (Some (Some v)) /\ feeOf k (store (feeSent w v)) = v.
Proof. unfold feeSent. by rewrite (proj2 (dispatchBar_fields _ _)), dispatch_fee. Qed.

Lemma setFee_new fuel w v : seen (fee w) (Some v) = false ->
  setFee env k (S fuel) w (Some v) =
    if Qeq_bool (feeOf k (store w)) v then Some (feeSent w v) else setFee env k fuel (feeSent w v) (Some (Qabs.Qabs v)).
Proof.
  intros H. cbn [setFee].
  assert (seen (fee (w <| fee := (fee w) <| control := Some v |> |>)) (Some v) = false) as -> by exact H. reflexivity.
Qed.

(** A fee that is not negative passes the handler once. *)
Lemma setFee_nonneg fuel w v : (0 <= v)%Q -> seen (fee w) (Some v) = false ->
  exists w', setFee env k (S (S fuel)) w (Some v) = Some w' /\ (feeOf k (store w') == v)%Q /\
    exists c, control (fee w') = Some c /\ (c == v)%Q.
Proof.
  intros Hv Hs. rewrite setFee_new by done. destruct (feeSent_fields w v) as [Hf Hk].
  destruct (Qeq_bool (feeOf k (store w)) v) eqn:E.
  - eexists. split; [reflexivity|]. rewrite Hk, Hf. split; [reflexivity|]. by exists v.
  - rewrite setFee_seen.
    + eexists. split; [reflexivity|]. cbn. rewrite Hk. split; [reflexivity|]. eexists. split; [reflexivity|].
      by apply Qabs.Qabs_pos.
    + rewrite Hf. cbn. apply Qeq_bool_iff. symmetry. by apply Qabs.Qabs_pos.
Qed.

(** A typed fee, or amount, ends up without its sign, in the field and in the store,
    within three rounds. *)
Theorem toolbar_fee_nonnegative m w v :
  (0 <= feeOf k (store w))%Q -> seen (fee w) (Some v) = false ->
  exists w', setFee env k (3 + m) w (Some v) = Some w' /\ (feeOf k (store w') == Qabs.Qabs v)%Q /\
    exists c, control (fee w') = Some c /\ (c == Qabs.Qabs v)%Q.
Proof.
  intros Hold Hs. destruct (Qlt_le_dec v 0) as [Hv|Hv].
  - change (3 + m) with (S (S (S m))). rewrite setFee_new by done.
    destruct (Qeq_bool (feeOf k (store w)) v) eqn:E; [apply Qeq_bool_iff in E; lra|].
    destruct (feeSent_fields w v) as [Hf Hk]. apply (setFee_nonneg m (feeSent w v) (Qabs.Qabs v)); [apply Qabs.Qabs_nonneg|].
    rewrite Hf. cbn. destruct (Qeq_bool v (Qabs.Qabs v)) eqn:E2; [|done]. apply Qeq_bool_iff in E2.
    pose proof (Qabs.Qabs_nonneg v). lra.
  - destruct (setFee_nonneg (S m) w v Hv Hs) as (w' & E & H1 & c & H2 & H3). exists w'. split; [done|].
    pose proof (Qabs.Qabs_pos v Hv) as Habs. split; [by rewrite H1, Habs|]. exists c. split; [done|]. by rewrite H3, Habs.
Qed.

End Typing.

(** * Sending *)

Lemma clamp_negative n random q : (q <= -1)%Q -> (0 <= n)%Z -> (clamp n random q < 0)%Z.
Proof.
  intros Hq Hn. unfold clamp. destruct (Qeq_bool q 0) eqn:E; [apply Qeq_bool_iff in E; lra|].
  assert (Qround.Qceiling q <= -1)%Z as Hc.
  { change (-1)%Z with (Qround.Qceiling (inject_Z (-1))). by apply Qround.Qceiling_resp_le. }
  destruct (Z.ltb_spec n (Qround.Qceiling q)); lia.
Qed.

(** A negative batch of a single sender has no array. *)
Lemma send_negative env {TD : TextDate} k w z wallet : k = paymentBar \/ k = zkappBar ->
  batchOf k (store w) = Some z -> (z < 0)%Z -> randomWallet (store w) = false -> blockSending (store w) = false ->
  activeWallet (store w) = Some wallet -> send env k w = Throw (RangeError "Invalid array length").
Proof.
  intros [-> | ->] Hb Hz Hr Hs Ha; unfold send; rewrite Hs; cbn in Hb |- *; unfold activePayments, zkappCommands;
    rewrite Hr, Ha, Hb; cbn; by rewrite (proj2 (Z.ltb_lt z 0)).
Qed.

(** C30: the toolbars accept a negative number: after -1 or less was typed for a
    single sender, the button throws instead of sending. *)
Theorem negative_batch_throws env {TD : TextDate} k w q wallet m :
  k = paymentBar \/ k = zkappBar -> inSync k w -> seen (batch w) (Some q) = false -> (q <= -1)%Q ->
  randomWallet (store w) = false -> blockSending (store w) = false -> activeWallet (store w) = Some wallet ->
  exists w', setBatch env k (4 + m) w (Some q) = Some w' /\ send env k w' = Throw (RangeError "Invalid array length").
Proof.
  intros Hk Hsync Hseen Hq Hr Hs Ha. assert (KindLaws env k) as KL by (destruct Hk as [-> | ->]; apply _).
  destruct (setBatch_typed env k m w q Hsync Hseen) as (w' & E & _ & (_ & Hr' & Ha' & Hs') & Hb & _).
  exists w'. split; [done|]. apply (send_negative env k w' (payload w q) wallet); [done|exact Hb| |congruence..].
  apply clamp_negative; [done|]. unfold walletsLength. lia.
Qed.

(** * Examples *)

#[local] Instance demoDates : TextDate := fun t => t.

(** Two wallets and a single sender: ten payments become one. *)
Lemma toolbar_batch_settles_witness : exists w',
  setBatch demoBrowser paymentBar 4 (initToolbar paymentBar demoState) (Some 10%Q) = Some w' /\
  txSendingBatch (store w') = Some 1%Z /\ control (batch w') = Some 1%Q.
Proof.
  destruct (toolbar_batch_settles demoBrowser paymentBar 0 (initToolbar paymentBar demoState) 10%Q eq_refl eq_refl)
    as (w' & E & Hb & Hc & _). exists w'. split; [exact E|]. split; [exact Hb|exact Hc].
Defined.

Lemma negative_batch_throws_witness : exists w',
  setBatch demoBrowser zkappBar 4 (initToolbar zkappBar demoState) (Some (-2)%Q) = Some w' /\
  send demoBrowser zkappBar w' = Throw (RangeError "Invalid array length").
Proof.
  refine (negative_batch_throws demoBrowser zkappBar (initToolbar zkappBar demoState) (-2)%Q (demoWallet "A" 4) 0 _ _ _ _ _ _ _);
    [by right|reflexivity|reflexivity|unfold Qle; cbn; lia|reflexivity..].
Defined.

Lemma toolbar_fee_nonnegative_witness : exists w',
  setFee demoBrowser paymentBar 3 (initToolbar paymentBar demoState) (Some (-2)%Q) = Some w' /\
  (sendingFee (store w') == 2)%Q.
Proof.
  destruct (toolbar_fee_nonnegative demoBrowser paymentBar 0 (initToolbar paymentBar demoState) (-2)%Q) as (w' & E & Hf & _);
    [unfold Qle; cbn; lia|reflexivity|]. exists w'. split; [exact E|exact Hf].
Defined.

End WalletsToolbar.
