(* ===== verification/MemoryResources.v ===== *)
(** Memory page (frontend/src/app/features/resources/memory): the tree of memory
    allocations reported by the profiler, the breadcrumbs of the treemap and the
    choices kept in the local storage of the browser. *)

From stdpp Require Import gmap.
From stdpp Require Import sorting.
From S2P Require Import Prelude JsRuntime TableSort.

Module Memory.

(** * Data *)

Record MemoryResourceName := mkName { executableName : string; functionName : option string }.

#[export] Instance MemoryResourceName_eq_dec : EqDecision MemoryResourceName.
Proof. solve_decision. Defined.

(** A node of the displayed tree.  [load] numbers the loads of the page: objects
    are compared by reference, and two nodes are the same object when they come
    from the same load and have the same id.  A value of NaN is [None]. *)
Inductive MemoryResource :=
| mkResource (load : nat) (name : MemoryResourceName) (children : list MemoryResource)
    (value : option Q) (id : nat).

Definition load (r : MemoryResource) : nat := let 'mkResource x _ _ _ _ := r in x.
Definition name (r : MemoryResource) : MemoryResourceName := let 'mkResource _ x _ _ _ := r in x.
Definition children (r : MemoryResource) : list MemoryResource := let 'mkResource _ _ x _ _ := r in x.
Definition value (r : MemoryResource) : option Q := let 'mkResource _ _ _ x _ := r in x.
Definition id (r : MemoryResource) : nat := let 'mkResource _ _ _ _ x := r in x.

(** [r1 === r2] *)
Definition sameObject (r1 r2 : MemoryResource) : bool :=
  bool_decide (load r1 = load r2) && bool_decide (id r1 = id r2).

Inductive TreemapView := BINARY | SQUARE | SLICE | DICE.

Definition viewText (v : TreemapView) : string :=
  match v with BINARY => "binary" | SQUARE => "square" | SLICE => "slice" | DICE => "dice" end.

(** [treemapView] is the text of a view: at load time it is whatever the local
    storage holds. *)
Record MemoryResourcesState := mkState {
  resource : option MemoryResource;
  activeResource : option MemoryResource;
  breadcrumbs : list (option MemoryResource);
  granularity : Z;
  treemapView : string
}.

#[export] Program Instance MemoryResourcesState_copy : RecordCopy MemoryResourcesState := {|
  record_copy s := mkState (resource s) (activeResource s) (breadcrumbs s) (granularity s) (treemapView s)
|}.
Next Obligation. by intros []. Qed.

Inductive MemoryResourcesActions :=
| MemoryResourcesGet
| MemoryResourcesGetSuccess (payload : option MemoryResource)
| MemoryResourcesSetActiveResource (payload : MemoryResource)
| MemoryResourcesSetGranularity (payload : Z)
| MemoryResourcesSetTreemapView (payload : TreemapView)
| MemoryResourcesClose.

Definition actionType (a : MemoryResourcesActions) : string :=
  match a with
  | MemoryResourcesGet => "MEMORY_RESOURCES_GET"
  | MemoryResourcesGetSuccess _ => "MEMORY_RESOURCES_GET_SUCCESS"
  | MemoryResourcesSetActiveResource _ => "MEMORY_RESOURCES_SET_ACTIVE_RESOURCE"
  | MemoryResourcesSetGranularity _ => "MEMORY_RESOURCES_SET_GRANULARITY"
  | MemoryResourcesSetTreemapView _ => "MEMORY_RESOURCES_SET_TREEMAP_VIEW"
  | MemoryResourcesClose => "MEMORY_RESOURCES_CLOSE"
  end.

(** * Local storage

    [None] when the environment has no local storage. *)

Notation Storage := (option (gmap string string)).

(** [getLocalStorage()?.getItem(key)] *)
Definition getItem (st : Storage) (key : string) : nullable string :=
  match st with
  | None => Undef
  | Some m => match m !! key with Some v => Val v | None => Null end
  end.

(** [getLocalStorage()?.setItem(key, v)] *)
Definition setItem (st : Storage) (key v : string) : Storage := <[key := v]> <$> st.

(** [Number(x)] of a stored value; [None] is NaN.  The texts the page writes are
    decimal integers, for which this is exact. *)
Definition toNumber (x : nullable string) : option Z :=
  match x with
  | Undef => None
  | Null => Some 0%Z
  | Val s => digitsValue 0 s
  end.

Definition nanOrElse (value : option Z) (replacement : Z) : Z := default replacement value.

(** * Reducer *)

Section Reducer.
(** The storage when the module was loaded: the initial state is a constant. *)
Context (atLoad : Storage).

Definition initialState : MemoryResourcesState := {|
  resource := None;
  activeResource := None;
  breadcrumbs := [];
  granularity := nanOrElse (toNumber (getItem atLoad "memory-granularity")) 512;
  treemapView := match getItem atLoad "memory-view" with
                 | Val v => if String.eqb v "" then viewText BINARY else v
                 | _ => viewText BINARY
                 end
|}.

(** [breadcrumbs.findIndex(b => b.id === i)]: reading a missing entry throws. *)
Fixpoint crumbIndex (i : nat) (l : list (option MemoryResource)) : exec (option nat) :=
  match l with
  | [] => Ret None
  | None :: _ => Throw (TypeError "Cannot read properties of undefined (reading 'id')")
  | Some b :: l =>
      if bool_decide (id b = i) then Ret (Some 0)
      else k ← crumbIndex i l; Ret (option_map S k)
  end.

(** The reducer with the local storage it writes. *)
Definition memoryResourcesReducer (w : MemoryResourcesState * Storage) (action : MemoryResourcesActions)
  : exec (MemoryResourcesState * Storage) :=
  let '(state, storage) := w in
  match action with
  | MemoryResourcesGetSuccess payload =>
      Ret (state <| resource := payload |>
                 <| breadcrumbs := match payload with Some r => [Some r] | None => [] end |>
                 <| activeResource := payload |>, storage)
  | MemoryResourcesSetActiveResource payload =>
      if match activeResource state with Some a => sameObject a payload | None => false end
      then Ret (state, storage)
      else
        crumbs ← (if bool_decide (executableName (name payload) = "root")
                  then Ret [resource state]
                  else i ← crumbIndex (id payload) (breadcrumbs state);
                       Ret match i with
                           | Some i => sliceTo (i + 1) (breadcrumbs state)
                           | None => breadcrumbs state ++ [Some payload]
                           end);
        Ret (state <| activeResource := Some payload |> <| breadcrumbs := crumbs |>, storage)
  | MemoryResourcesSetGranularity payload =>
      Ret (state <| granularity := payload |> <| resource := None |> <| activeResource := None |>
                 <| breadcrumbs := [] |>,
           setItem storage "memory-granularity" (showZ payload))
  | MemoryResourcesSetTreemapView payload =>
      Ret (state <| treemapView := viewText payload |>, setItem storage "memory-view" (viewText payload))
  | MemoryResourcesClose => Ret (initialState, storage)
  | MemoryResourcesGet => Ret (state, storage)
  end.

End Reducer.

(** * Service *)

(** The name of a frame in the profiler's answer: a text or an object. *)
Inductive FrameName :=
| NameText (s : string)
| NameObject (offset executable : string) (function : option string) (functionCategory : string).

Inductive MemoryResourceTree :=
| mkTree (name : FrameName) (value : Q) (cacheValue : option Q) (frames : option (list MemoryResourceTree)).

Definition frameName (t : MemoryResourceTree) : FrameName := let 'mkTree n _ _ _ := t in n.
Definition frameValue (t : MemoryResourceTree) : Q := let 'mkTree _ v _ _ := t in v.
Definition frames (t : MemoryResourceTree) : option (list MemoryResourceTree) :=
  let 'mkTree _ _ _ f := t in f.

(** The numbers whose text has no exponent: only for these is appending an
    exponent to the text a number again. *)
Definition plainText (x : Q) : bool :=
  Qeq_bool x 0 || (Qle_bool (1 # 1000000) (Qabs x) && negb (Qle_bool (inject_Z (10 ^ 21)) (Qabs x))).

(** [+(Math.round(Number(num + 'e+2')) + 'e-2')]: two decimals, halves upwards;
    NaN when a text with an exponent gets a second one. *)
Definition round (num : Q) : option Q :=
  if plainText num then
    let r := Qfloor (num * 100 + (1 # 2)) in
    if (Z.abs r <? 10 ^ 21)%Z then Some (r # 100) else None
  else None.

(** [`${round(threshold)}`] of an integer threshold *)
Definition thresholdText (threshold : Z) : string :=
  match round (inject_Z threshold) with Some q => showZ (Qfloor q) | None => "NaN" end.

Definition getFrameName (n : FrameName) (threshold : Z) : MemoryResourceName :=
  match n with
  | NameText s =>
      mkName (if String.eqb s "underThreshold" then "below " +:+ thresholdText threshold +:+ " KB" else s) None
  | NameObject offset executable function _ => mkName (executable +:+ "@" +:+ offset) function
  end.

(** [(c1, c2) => c2.value - c1.value]; NaN counts as equal. *)
Definition bySize (c1 c2 : MemoryResource) : comparison :=
  match value c1, value c2 with
  | Some a, Some b => Qcompare b a
  | _, _ => Eq
  end.

(** Building one item after the other, each from the id the previous left. *)
Fixpoint threadIds {T} (f : T -> nat -> MemoryResource * nat) (l : list T) (next : nat)
  : list MemoryResource * nat :=
  match l with
  | [] => ([], next)
  | x :: l => let '(r, next) := f x next in
              let '(rs, next) := threadIds f l next in (r :: rs, next)
  end.

Section Service.
(** The number of the load, the threshold it was requested with. *)
Context (nr : nat) (threshold : Z).

(** The object of one frame and the id after it: the children take their ids
    before the frame does. *)
Fixpoint buildFrame (frame : MemoryResourceTree) (next : nat) : MemoryResource * nat :=
  match frame with
  | mkTree n v _ frames =>
      let '(items, next) := match frames with
                            | Some frames => threadIds buildFrame frames next
                            | None => ([], next)
                            end in
      (mkResource nr (getFrameName n threshold) (arraySort bySize items) (round v) next, S next)
  end.

Definition build (frames : list MemoryResourceTree) (next : nat) : list MemoryResource * nat :=
  let '(items, next) := threadIds buildFrame frames next in (arraySort bySize items, next).

(** The function name a spread of the root's name keeps. *)
Definition spreadFunction (n : FrameName) : option string :=
  match n with NameObject _ _ f _ => f | NameText _ => None end.

Definition mapMemoryResponse (response : MemoryResourceTree) : exec MemoryResource :=
  match frames response with
  | None => Throw (TypeError "Cannot read properties of undefined (reading 'forEach')")
  | Some fs =>
      let '(items, next) := build fs 0 in
      Ret (mkResource nr (mkName "root" (spreadFunction (frameName response))) items
             (round (frameValue response)) next)
  end.

End Service.

(** The effect [getResources$] after the answer of the profiler: a failed
    request or mapping gives the action without payload. *)
Definition getResourcesAction (nr : nat) (threshold : Z) (answer : option MemoryResourceTree)
  : MemoryResourcesActions :=
  match answer with
  | None => MemoryResourcesGetSuccess None
  | Some response =>
      match mapMemoryResponse nr threshold response with
      | Ret r => MemoryResourcesGetSuccess (Some r)
      | Throw _ => MemoryResourcesGetSuccess None
      end
  end.

(** * The displayed tree *)

Fixpoint nodes (r : MemoryResource) : list MemoryResource :=
  match r with mkResource _ _ cs _ _ => r :: List.flat_map nodes cs end.

Fixpoint frameNodes (t : MemoryResourceTree) : list MemoryResourceTree :=
  match t with
  | mkTree _ _ _ fs => t :: match fs with Some fs => List.flat_map frameNodes fs | None => [] end
  end.

Definition subframes (t : MemoryResourceTree) : list MemoryResourceTree := default [] (frames t).

Lemma tree_nested_ind (P : MemoryResourceTree -> Prop) :
  (forall t, Forall P (subframes t) -> P t) -> forall t, P t.
Proof.
  intros H. fix IH 1. intros [n v c [fs|]]; apply H; [|constructor].
  exact ((fix go l : Forall P l :=
    match l with [] => Forall_nil_2 P | x :: l => Forall_cons_2 P x l (IH x) (go l) end) fs).
Qed.

Lemma nodes_eq r : nodes r = r :: List.flat_map nodes (children r).
Proof. by destruct r. Qed.

Lemma frameNodes_eq t : frameNodes t = t :: List.flat_map frameNodes (subframes t).
Proof. by destruct t as [? ? ? []]. Qed.

Lemma nodes_self r : r ∈ nodes r.
Proof. rewrite nodes_eq. apply list_elem_of_here. Qed.

Lemma elem_of_flat_map {A B} (f : A -> list B) l y :
  y ∈ List.flat_map f l <-> exists x, x ∈ l /\ y ∈ f x.
Proof. setoid_rewrite list_elem_of_In. rewrite in_flat_map. done. Qed.

Lemma elem_of_nodes r n : n ∈ nodes r <-> n = r \/ exists c, c ∈ children r /\ n ∈ nodes c.
Proof. by rewrite nodes_eq, elem_of_cons, elem_of_flat_map. Qed.

(** The children as they are shown: all of them, and when all have a size, the
    larger first, equal ones in the order of the answer. *)
Definition shownAs (items shown : list MemoryResource) : Prop :=
  Permutation items shown /\
  (Forall (fun r => is_Some (value r)) items -> StableSortOf bySize items shown).

#[export] Instance bySize_consistent : ConsistentOn bySize (fun r => is_Some (value r)).
Proof.
  split; unfold cle, bySize.
  - intros x y [a ->] [b ->]. by rewrite Qcompare_antisym.
  - intros x y z [a ->] [b ->] [c ->]. rewrite <- !Qle_alt. eauto using Qle_trans.
Qed.

Lemma arraySort_shown items : shownAs items (arraySort bySize items).
Proof. split; [apply arraySort_perm|]. intros H.
  by apply (arraySort_StableSortOf bySize (P := fun r => is_Some (value r))). Qed.

Section Tree.
Context (nr : nat) (threshold : Z).

(** A displayed node with the name and size of a frame, and its frames below. *)
Inductive mirrors : MemoryResourceTree -> MemoryResource -> Prop :=
| mirrors_intro t r items :
    name r = getFrameName (frameName t) threshold -> value r = round (frameValue t) ->
    Forall2 mirrors (subframes t) items -> shownAs items (children r) -> mirrors t r.

(** The ids of the subtrees [rs] are those from [lo] below [hi], ids decrease
    towards the leaves and all nodes belong to the load. *)
Record numbered (lo : nat) (rs : list MemoryResource) (hi : nat) : Prop := {
  numbered_ids : Permutation (id <$> List.flat_map nodes rs) (seq lo (hi - lo));
  numbered_le : lo <= hi;
  numbered_down : forall n c, n ∈ List.flat_map nodes rs -> c ∈ children n -> id c < id n;
  numbered_load : forall n, n ∈ List.flat_map nodes rs -> load n = nr
}.

Lemma numbered_perm lo rs rs' hi : Permutation rs rs' -> numbered lo rs hi -> numbered lo rs' hi.
Proof.
  intros Hp [H1 H2 H3 H4]. assert (Permutation (List.flat_map nodes rs') (List.flat_map nodes rs)) as Hn.
  { symmetry. by apply Permutation_flat_map. }
  split; [by rewrite Hn|done| |].
  - intros n c Hin. rewrite Hn in Hin. eauto.
  - intros n Hin. rewrite Hn in Hin. eauto.
Qed.

Lemma numbered_cons lo mid hi r rs :
  numbered lo [r] mid -> numbered mid rs hi -> numbered lo (r :: rs) hi.
Proof.
  intros [A1 A2 A3 A4] [B1 B2 B3 B4]. cbn [List.flat_map] in *. rewrite app_nil_r in *.
  split; cbn [List.flat_map].
  - rewrite fmap_app, A1, B1. replace (hi - lo) with ((mid - lo) + (hi - mid)) by lia.
    rewrite seq_app. by replace (lo + (mid - lo)) with mid by lia.
  - lia.
  - intros n c [Hn|Hn]%elem_of_app; eauto.
  - intros n [Hn|Hn]%elem_of_app; eauto.
Qed.

(** A node over a numbered list takes the next id. *)
Lemma numbered_node lo items hi nm v :
  numbered lo items hi -> numbered lo [mkResource nr nm (arraySort bySize items) v hi] (S hi).
Proof.
  intros Hn. apply (numbered_perm _ _ (arraySort bySize items)) in Hn; [|apply arraySort_perm].
  destruct Hn as [H1 H2 H3 H4]. split; cbn [List.flat_map nodes]; rewrite ?app_nil_r.
  - cbn [fmap list_fmap id]. replace (S hi - lo) with ((hi - lo) + 1) by lia. rewrite seq_app, <- H1.
    replace (lo + (hi - lo)) with hi by lia. cbn. apply Permutation_cons_append.
  - lia.
  - intros n c [->|Hn]%elem_of_cons Hc; [|eauto]. cbn in *.
    assert (id c ∈ seq lo (hi - lo)) as Hs; [|apply elem_of_seq in Hs; lia].
    rewrite <- H1. apply list_elem_of_fmap_2, elem_of_flat_map. eauto using nodes_self.
  - intros n [->|Hn]%elem_of_cons; eauto.
Qed.

Lemma threadIds_spec (f : MemoryResourceTree -> nat -> MemoryResource * nat) l :
  Forall (fun t => forall lo, mirrors t (f t lo).1 /\ numbered lo [(f t lo).1] (f t lo).2 /\
                              (f t lo).2 = lo + length (frameNodes t)) l ->
  forall lo, Forall2 mirrors l (threadIds f l lo).1 /\ numbered lo (threadIds f l lo).1 (threadIds f l lo).2 /\
             (threadIds f l lo).2 = lo + length (List.flat_map frameNodes l).
Proof.
  induction 1 as [|t l Ht _ IH]; intros lo; cbn.
  { split_and!; [constructor| |lia]. split; cbn; [by rewrite Nat.sub_diag|lia| |]; set_solver. }
  destruct (Ht lo) as (H1 & H2 & H3). destruct (f t lo) as [r mid]. cbn in H1, H2, H3.
  destruct (IH mid) as (I1 & I2 & I3). destruct (threadIds f l mid) as [rs hi]. cbn in *.
  split_and!; [by constructor|by eapply numbered_cons|]. rewrite length_app. lia.
Qed.

Lemma buildFrame_spec t : forall lo,
  mirrors t (buildFrame nr threshold t lo).1 /\
  numbered lo [(buildFrame nr threshold t lo).1] (buildFrame nr threshold t lo).2 /\
  (buildFrame nr threshold t lo).2 = lo + length (frameNodes t).
Proof.
  induction t as [t IH] using tree_nested_ind. intros lo.
  destruct (threadIds_spec (buildFrame nr threshold) _ IH lo) as (H1 & H2 & H3).
  assert (buildFrame nr threshold t lo =
    let '(items, next) := threadIds (buildFrame nr threshold) (subframes t) lo in
    (mkResource nr (getFrameName (frameName t) threshold) (arraySort bySize items)
       (round (frameValue t)) next, S next)) as -> by (by destruct t as [? ? ? []]).
  rewrite frameNodes_eq. destruct (threadIds _ (subframes t) lo) as [items next]. cbn in *.
  split_and!; [|by apply numbered_node|lia].
  by eapply (mirrors_intro _ _ items); [..|apply arraySort_shown].
Qed.

Lemma mapMemoryResponse_inv response r :
  mapMemoryResponse nr threshold response = Ret r ->
  exists items, Forall2 mirrors (subframes response) items /\ shownAs items (children r) /\
    numbered 0 [r] (length (frameNodes response)) /\ S (id r) = length (frameNodes response) /\
    name r = mkName "root" (spreadFunction (frameName response)) /\ value r = round (frameValue response).
Proof.
  unfold mapMemoryResponse. destruct response as [n v c [fs|]]; [|done]. cbn [frames]. unfold build.
  destruct (threadIds_spec (buildFrame nr threshold) fs) with (lo := 0) as (H1 & H2 & H3).
  { apply Forall_forall. intros t _. apply buildFrame_spec. }
  rewrite frameNodes_eq. destruct (threadIds _ fs 0) as [items next]. intros [= <-]. cbn in *.
  exists items. rewrite <- H3.
  split_and!; [done|apply arraySort_shown|by apply numbered_node|done..].
Qed.

(** The displayed tree is the answer of the profiler: below the root every
    frame is one node with its name and its size rounded to two decimals, at
    the same place; siblings are ordered by decreasing size, equal ones as in
    the answer.  The ids are the numbers from zero, each once, and a node has
    a larger id than the nodes below it. *)
Theorem memory_tree_complete response r :
  mapMemoryResponse nr threshold response = Ret r ->
  (exists items, Forall2 mirrors (subframes response) items /\ shownAs items (children r)) /\
  value r = round (frameValue response) /\
  Permutation (id <$> nodes r) (seq 0 (length (frameNodes response))) /\
  (forall n c, n ∈ nodes r -> c ∈ children n -> id c < id n).
Proof.
  intros (items & H1 & H2 & H3 & _ & _ & H4)%mapMemoryResponse_inv.
  destruct H3 as [A1 _ A3 _]. cbn in A1, A3. rewrite app_nil_r, Nat.sub_0_r in *. eauto 10.
Qed.

End Tree.

(** * Breadcrumbs *)

(** Every entry is a child of the one before it. *)
Fixpoint trail (l : list MemoryResource) : Prop :=
  match l with
  | p :: (c :: _) as l' => c ∈ children p /\ trail l'
  | _ => True
  end.

Lemma trail_cons p c l : trail (p :: c :: l) <-> c ∈ children p /\ trail (c :: l).
Proof. done. Qed.

Lemma trail_snoc l x y : trail (l ++ [x]) -> y ∈ children x -> trail ((l ++ [x]) ++ [y]).
Proof.
  induction l as [|a [|b l] IH]; intros Ht Hy; [done| |].
  - cbn in *. naive_solver.
  - cbn [app] in *. apply trail_cons in Ht as [H1 H2]. apply trail_cons. auto.
Qed.

Lemma trail_take l : forall n, trail l -> trail (take n l).
Proof.
  induction l as [|a [|b l] IH]; intros [|[|n]] Ht; try done.
  apply trail_cons in Ht as [H1 H2]. cbn [take]. apply trail_cons. split; [done|]. apply (IH (S n) H2).
Qed.

(** What the service guarantees of a loaded tree: ids decrease downwards and
    only the root is called root. *)
Record wellNumbered (root : MemoryResource) : Prop := {
  wn_root : executableName (name root) = "root";
  wn_down : forall n c, n ∈ nodes root -> c ∈ children n -> id c < id n;
  wn_name : forall n c, n ∈ nodes root -> c ∈ children n -> executableName (name c) <> "root"
}.

Lemma resource_nested_ind (P : MemoryResource -> Prop) :
  (forall r, Forall P (children r) -> P r) -> forall r, P r.
Proof.
  intros H. fix IH 1. intros [l n cs v i]. apply H.
  exact ((fix go l : Forall P l :=
    match l with [] => Forall_nil_2 P | x :: l => Forall_cons_2 P x l (IH x) (go l) end) cs).
Qed.

Lemma nodes_trans root : forall n c, n ∈ nodes root -> c ∈ children n -> c ∈ nodes root.
Proof.
  induction root as [r IH] using resource_nested_ind. rewrite Forall_forall in IH.
  intros n c [->|(x & Hx & Hn)]%elem_of_nodes Hc; apply elem_of_nodes; right.
  - exists c. split; [done|apply nodes_self].
  - exists x. eauto.
Qed.

Lemma trail_spec root : wellNumbered root -> forall l r, r ∈ nodes root -> trail (r :: l) ->
  Forall (fun x => x ∈ nodes root) (r :: l) /\
  StronglySorted (fun a b => id b < id a) (r :: l) /\
  Forall (fun x => executableName (name x) <> "root") l.
Proof.
  intros [_ Hd Hr]. induction l as [|c l IH]; intros r Hin Ht.
  { split_and!; repeat constructor; done. }
  apply trail_cons in Ht as [Hc Ht]. pose proof (nodes_trans _ _ _ Hin Hc) as Hcin.
  destruct (IH c Hcin Ht) as (H1 & H2 & H3). split_and!; [by constructor| |by constructor; eauto].
  pose proof (Hd _ _ Hin Hc). apply StronglySorted_inv in H2 as [H2 H4]. constructor; [by constructor|].
  constructor; [done|]. eapply Forall_impl; [exact H4|]. cbn. lia.
Qed.

Lemma crumbIndex_Some i l :
  crumbIndex i (Some <$> l) = Ret (findIndex (fun b => bool_decide (id b = i)) l).
Proof.
  induction l as [|b l IH]; [done|]. cbn. case_bool_decide; [done|].
  change (list_fmap _ _ _ l) with (Some <$> l). rewrite IH. cbn. by destruct (findIndex _ l).
Qed.

(** The breadcrumbs lead from the loaded tree to the active node, child by
    child; without a loaded tree there are none. *)
Definition breadcrumbsLead (s : MemoryResourcesState) : Prop :=
  match resource s with
  | None => breadcrumbs s = [] /\ activeResource s = None
  | Some root => exists l, breadcrumbs s = Some <$> (root :: l) /\ trail (root :: l) /\
                           activeResource s = last (root :: l) /\ wellNumbered root
  end.

(** What the page dispatches: the tree of an answer in which no frame has the
    text root as its name, a click on a child of the active node or on a
    breadcrumb, the choices of the toolbar. *)
Definition allowed (w : MemoryResourcesState * Storage) (a : MemoryResourcesActions) : Prop :=
  match a with
  | MemoryResourcesGetSuccess (Some r) => exists nr threshold response,
      mapMemoryResponse nr threshold response = Ret r /\
      Forall (fun t => frameName t <> NameText "root") (List.flat_map frameNodes (subframes response))
  | MemoryResourcesSetActiveResource r =>
      (exists p, activeResource w.1 = Some p /\ r ∈ children p) \/ Some r ∈ breadcrumbs w.1
  | _ => True
  end.

Lemma getFrameName_root n threshold :
  executableName (getFrameName n threshold) = "root" -> n = NameText "root".
Proof.
  destruct n as [s|o e f c]; cbn.
  - destruct (String.eqb s "underThreshold"); [done|]. by intros ->.
  - destruct e as [|? [|? [|? [|? [|? ?]]]]]; done.
Qed.

Lemma mirrors_nodes threshold t : forall r n, mirrors threshold t r -> n ∈ nodes r ->
  exists t', t' ∈ frameNodes t /\ name n = getFrameName (frameName t') threshold.
Proof.
  induction t as [t IH] using tree_nested_ind. intros r n Hm Hn. rewrite frameNodes_eq.
  inversion Hm as [t' r' items Hname _ Hitems [Hp _]]; subst.
  apply elem_of_nodes in Hn as [->|(c & Hc & Hn)]; [exists t; split; [apply list_elem_of_here|done]|].
  rewrite <- Hp in Hc. apply list_elem_of_lookup_1 in Hc as [i Hi].
  destruct (Forall2_lookup_r _ _ _ _ _ Hitems Hi) as (t1 & Ht1 & Hm1).
  apply list_elem_of_lookup_2 in Ht1. rewrite Forall_forall in IH.
  destruct (IH t1 Ht1 c n Hm1 Hn) as (t2 & Ht2 & Hname2). exists t2. split; [|done].
  right. apply elem_of_flat_map. eauto.
Qed.

Lemma loaded_wellNumbered nr threshold response r :
  mapMemoryResponse nr threshold response = Ret r ->
  Forall (fun t => frameName t <> NameText "root") (List.flat_map frameNodes (subframes response)) ->
  wellNumbered r.
Proof.
  intros (items & H1 & [H2 _] & [_ _ H3 _] & _ & H4 & _)%mapMemoryResponse_inv Hnames.
  cbn in H3. rewrite app_nil_r in H3. split; [by rewrite H4|done|]. intros n c Hn Hc Hroot.
  assert (exists c0, c0 ∈ items /\ c ∈ nodes c0) as (c0 & Hc0 & Hin).
  { pose proof Hn as [->|(c0 & Hc0 & Hn0)]%elem_of_nodes.
    - exists c. rewrite H2. split; [done|apply nodes_self].
    - exists c0. rewrite H2. split; [done|]. by eapply nodes_trans. }
  apply list_elem_of_lookup_1 in Hc0 as [i Hi].
  destruct (Forall2_lookup_r _ _ _ _ _ H1 Hi) as (t1 & Ht1 & Hm1).
  destruct (mirrors_nodes _ _ _ _ Hm1 Hin) as (t2 & Ht2 & Hname). rewrite Hname in Hroot.
  apply getFrameName_root in Hroot. rewrite Forall_forall in Hnames.
  apply (Hnames t2); [|done]. apply elem_of_flat_map. exists t1. split; [|done].
  by apply list_elem_of_lookup_2 in Ht1.
Qed.

(** A click on an entry of the trail finds that entry. *)
Lemma trail_find root l r : wellNumbered root -> trail (root :: l) -> r ∈ root :: l ->
  exists l1 l2, root :: l = l1 ++ r :: l2 /\
    findIndex (fun b => bool_decide (id b = id r)) (root :: l) = Some (length l1).
Proof.
  intros Hw Ht Hr. destruct (trail_spec root Hw l root (nodes_self root) Ht) as (_ & Hs & _).
  apply list_elem_of_split in Hr as (l1 & l2 & Heq). exists l1, l2. split; [done|].
  rewrite Heq in *. apply findIndex_Some. split.
  - exists r. rewrite list_lookup_middle by done. split; [done|]. by apply bool_decide_eq_true.
  - intros j x Hj Hx. rewrite lookup_app_l in Hx by done. apply list_elem_of_lookup_2 in Hx.
    pose proof (StronglySorted_app_1_elem_of _ _ _ x r Hs Hx (list_elem_of_here _ _)) as Hlt. cbn in Hlt.
    apply bool_decide_eq_false. lia.
Qed.

(** A child of the last entry of the trail is new to it. *)
Lemma trail_extend root l p r :
  wellNumbered root -> trail (root :: l) -> last (root :: l) = Some p -> r ∈ children p ->
  trail (root :: (l ++ [r])) /\ executableName (name r) <> "root" /\
  findIndex (fun b => bool_decide (id b = id r)) (root :: l) = None.
Proof.
  intros Hw Ht (l0 & Heq)%last_Some Hr.
  assert (trail (root :: (l ++ [r]))) as Ht'.
  { rewrite app_comm_cons, Heq in *. by apply trail_snoc. }
  destruct (trail_spec root Hw _ root (nodes_self root) Ht') as (_ & Hs & Hn).
  apply Forall_app in Hn as [_ Hn]. apply Forall_cons in Hn as [Hn _]. split; [done|]. split; [done|].
  apply findIndex_None. intros x Hx. rewrite app_comm_cons in Hs.
  pose proof (StronglySorted_app_1_elem_of _ _ _ x r Hs Hx (list_elem_of_here _ _)) as Hlt. cbn in Hlt.
  apply bool_decide_eq_false. lia.
Qed.

Lemma setActive_leads atLoad s storage r :
  breadcrumbsLead s -> allowed (s, storage) (MemoryResourcesSetActiveResource r) ->
  exists s', memoryResourcesReducer atLoad (s, storage) (MemoryResourcesSetActiveResource r) = Ret (s', storage) /\
             breadcrumbsLead s'.
Proof.
  intros Hs Ha. cbn [memoryResourcesReducer]. destruct (match activeResource s with Some _ => _ | None => _ end).
  { eauto. }
  unfold breadcrumbsLead, allowed in *. cbn [fst] in Ha. destruct (resource s) as [root|] eqn:Hroot.
  2: { destruct Hs as [Hb Hact]. rewrite Hb, Hact in Ha. set_solver. }
  destruct Hs as (l & Hb & Ht & Hact & Hw). rewrite Hb, Hact in Ha. rewrite Hb.
  destruct Ha as [(p & Hp & Hr)|Hr].
  - destruct (trail_extend root l p r Hw Ht Hp Hr) as (Ht' & Hne & Hfind).
    rewrite bool_decide_false by done. rewrite crumbIndex_Some, Hfind. cbn [mbind exec_bind].
    eexists. split; [done|]. cbn [resource breadcrumbs activeResource field_update record_copy]. rewrite Hroot.
    exists (l ++ [r]). rewrite app_comm_cons, fmap_app, last_snoc. done.
  - apply list_elem_of_fmap in Hr as (r' & [= <-] & Hr).
    case_bool_decide as Hname.
    + assert (r = root) as ->.
      { apply elem_of_cons in Hr as [->|Hr]; [done|].
        destruct (trail_spec root Hw l root (nodes_self root) Ht) as (_ & _ & Hn).
        rewrite Forall_forall in Hn. by apply Hn in Hr. }
      eexists. split; [done|]. cbn [resource breadcrumbs activeResource field_update record_copy].
      rewrite Hroot. by exists [].
    + destruct (trail_find root l r Hw Ht Hr) as (l1 & l2 & Heq & Hfind).
      rewrite crumbIndex_Some, Hfind. cbn [mbind exec_bind]. eexists. split; [done|].
      cbn [resource breadcrumbs activeResource field_update record_copy]. rewrite Hroot.
      exists (take (length l1) l). unfold sliceTo. rewrite <- fmap_take.
      change (root :: take (length l1) l) with (take (S (length l1)) (root :: l)).
      rewrite Nat.add_1_r. split; [done|]. split; [by apply trail_take|]. split; [|done].
      rewrite Heq, (take_S_r (l1 ++ r :: l2) (length l1) r); [by rewrite last_snoc|]. by apply list_lookup_middle.
Qed.

Lemma reducer_leads atLoad w a :
  breadcrumbsLead w.1 -> allowed w a ->
  exists w', memoryResourcesReducer atLoad w a = Ret w' /\ breadcrumbsLead w'.1.
Proof.
  destruct w as [s storage]. intros Hs Ha. destruct a as [|[r|]|r|g|v|].
  - by exists (s, storage).
  - destruct Ha as (nr & threshold & response & Hr & Hn). eexists. split; [done|].
    exists []. split_and!; try done. by eapply loaded_wellNumbered.
  - by eexists.
  - destruct (setActive_leads atLoad s storage r Hs Ha) as (s' & H1 & H2). by exists (s', storage).
  - by eexists.
  - eexists. split; [done|]. exact Hs.
  - by eexists.
Qed.

(** As long as the clicks are on children of the active node and on
    breadcrumbs, the reducer never throws, and the breadcrumbs always lead from
    the loaded tree down to the active node, child by child; without a loaded
    tree there is neither a breadcrumb nor an active node. *)
Theorem memory_breadcrumbs_path atLoad storage w :
  reachable_exec (memoryResourcesReducer atLoad) (initialState atLoad, storage) allowed w ->
  match resource w.1 with
  | None => breadcrumbs w.1 = [] /\ activeResource w.1 = None
  | Some root => exists l, breadcrumbs w.1 = Some <$> (root :: l) /\ trail (root :: l) /\
                           activeResource w.1 = last (root :: l)
  end /\
  forall a, allowed w a -> exists w', memoryResourcesReducer atLoad w a = Ret w'.
Proof.
  intros Hw.
  assert (breadcrumbsLead w.1) as Hl.
  { revert w Hw. apply reachable_exec_inv; [done|]. intros w a w' Hl Ha Hstep.
    destruct (reducer_leads atLoad w a Hl Ha) as (w1 & H1 & H2). rewrite H1 in Hstep. by injection Hstep as <-. }
  split.
  - unfold breadcrumbsLead in Hl. destruct (resource w.1); [|done]. destruct Hl as (l & ? & ? & ? & _). eauto.
  - intros a Ha. destruct (reducer_leads atLoad w a Hl Ha) as (w' & H & _). eauto.
Qed.

(** * Local storage *)

(** The granularity falls back to 512 only without a local storage or with a
    stored text that is no number; in a browser that never stored one it is
    zero.  A chosen granularity or view is stored and is the one a later session
    starts with, but closing the page within the session goes back to the
    choice of the time the application was loaded. *)
Theorem memory_choices_stored atLoad s m g v :
  (0 <= g)%Z ->
  granularity (initialState None) = 512%Z /\
  granularity (initialState (Some ∅)) = 0%Z /\
  (exists s' st', runM (memoryResourcesReducer atLoad) (s, Some m)
      [MemoryResourcesSetGranularity g; MemoryResourcesSetTreemapView v] = Ret (s', st') /\
    granularity s' = g /\ treemapView s' = viewText v /\ resource s' = None /\ breadcrumbs s' = [] /\
    granularity (initialState st') = g /\ treemapView (initialState st') = viewText v /\
    memoryResourcesReducer atLoad (s', st') MemoryResourcesClose = Ret (initialState atLoad, st')).
Proof.
  intros Hg. split; [done|]. split; [done|]. eexists _, _. split; [done|]. split; [done|]. split; [done|].
  split; [done|]. split; [done|]. unfold initialState, getItem, setItem. cbn [fmap option_fmap option_map].
  cbn [granularity treemapView]. rewrite lookup_insert_ne, !lookup_insert_eq by done.
  cbn [toNumber]. rewrite digitsValue_showZ by done. split; [done|]. split; [by destruct v|done].
Qed.

(** * Examples *)

Definition demoTree : MemoryResourceTree :=
  mkTree (NameObject "0" "node" None "") 100 None
    (Some [mkTree (NameText "underThreshold") (1 # 3) None None;
           mkTree (NameObject "1f" "libc" (Some "malloc") "") 70 None
             (Some [mkTree (NameText "anon") 5 None (Some [])]);
           mkTree (NameObject "2a" "libm" None "") (1 # 3) None None]).

Lemma memory_tree_complete_witness :
  exists r, mapMemoryResponse 1 512 demoTree = Ret r /\
    (executableName ∘ name <$> children r) = ["libc@1f"; "below 512 KB"; "libm@2a"] /\
    Permutation (id <$> nodes r) [0; 1; 2; 3; 4].
Proof.
  eexists. split; [reflexivity|]. split; [reflexivity|].
  apply (memory_tree_complete 1 512 demoTree _ eq_refl).
Defined.

Definition demoRoot : MemoryResource :=
  match mapMemoryResponse 1 512 demoTree with Ret r => r | Throw _ => mkResource 0 (mkName "" None) [] None 0 end.
Definition demoChild : MemoryResource := default demoRoot (head (children demoRoot)).

(** The tree is loaded, then its largest node opened. *)
Definition demoLoaded : MemoryResourcesState * Storage :=
  (mkState (Some demoRoot) (Some demoRoot) [Some demoRoot] 512 "binary", None).
Definition demoOpened : MemoryResourcesState * Storage :=
  (mkState (Some demoRoot) (Some demoChild) [Some demoRoot; Some demoChild] 512 "binary", None).

Lemma memory_breadcrumbs_path_witness :
  exists l, breadcrumbs demoOpened.1 = Some <$> (demoRoot :: l) /\ trail (demoRoot :: l) /\
            activeResource demoOpened.1 = last (demoRoot :: l).
Proof.
  apply (memory_breadcrumbs_path None None demoOpened).
  eapply (reachable_exec_step _ _ _ demoLoaded (MemoryResourcesSetActiveResource demoChild)).
  - eapply (reachable_exec_step _ _ _ _ (MemoryResourcesGetSuccess (Some demoRoot))).
    + apply reachable_exec_init.
    + exists 1, 512%Z, demoTree. split; [reflexivity|]. repeat constructor; discriminate.
    + vm_compute. reflexivity.
  - left. exists demoRoot. split; [reflexivity|]. apply list_elem_of_here.
  - vm_compute. reflexivity.
Defined.

Lemma memory_choices_stored_witness :
  exists s st, runM (memoryResourcesReducer None) (initialState None, Some ∅)
      [MemoryResourcesSetGranularity 128; MemoryResourcesSetTreemapView DICE] = Ret (s, st) /\
    granularity s = 128%Z /\ granularity (initialState st) = 128%Z.
Proof.
  destruct (memory_choices_stored None (initialState None) ∅ 128 DICE) as (_ & _ & s & st & H); [lia|].
  exists s, st. destruct H as (H & Hg & _ & _ & _ & Hs & _). split; [exact H|]. split; [exact Hg|exact Hs].
Defined.

End Memory.
