(* ===== verification/MemoryTreemap.v ===== *)
(** The treemap of the memory page
    (frontend/src/app/features/resources/memory/memory-resources-treemap) with the
    back button of its toolbar and the pipe for sizes: where the resources are
    drawn, what is found and shown when the user zooms in and out. *)

From stdpp Require Import sorting.
From S2P Require Import Prelude JsRuntime MemoryResources.
Import MemoryResources.Memory.

Module MemoryTreemap.

(** * d3

    The library is third-party.  [arranged] are the children of a node of
    [hierarchy(resource).sum(...).sort(...)], [weigh] its value, [tiling] what
    [treemapBinary], [treemapSquarify], [treemapSlice] and [treemapDice] give the
    children of the given values within a width and a height, and [scaleRound] is
    [scaleLinear().rangeRound([0, range]).domain([d0, d1])]. *)

Record Rect := mkRect { x0 : Q; x1 : Q; y0 : Q; y1 : Q }.

(** The summand of a resource: leaves without a size get a small one. *)
Definition leafWeight (r : MemoryResource) : Q :=
  match children r with
  | _ :: _ => 0%Q
  | [] => match value r with
          | Some v => if Qeq_bool v 0 then 1 # 100 else v
          | None => 1 # 100
          end
  end.

Definition sumQ (l : list Q) : Q := foldr Qplus 0%Q l.

Class D3 := {
  arranged : MemoryResource -> list MemoryResource;
  weigh : MemoryResource -> Q;
  tiling : TreemapView -> list Q -> Q -> Q -> list Rect;
  scaleRound : Q -> Q -> Q -> Q -> Z
}.

Definition within (w h : Q) (t : Rect) : Prop :=
  (0 <= x0 t /\ x0 t <= x1 t /\ x1 t <= w /\ 0 <= y0 t /\ y0 t <= y1 t /\ y1 t <= h)%Q.

(** Two rectangles have no common inner point. *)
Definition apart (a b : Rect) : Prop := (x1 a <= x0 b \/ x1 b <= x0 a \/ y1 a <= y0 b \/ y1 b <= y0 a)%Q.

Definition area (t : Rect) : Q := ((x1 t - x0 t) * (y1 t - y0 t))%Q.

(** [Math.round] *)
Definition mathRound (x : Q) : Z := Qfloor (x + (1 # 2))%Q.

(** What its documentation says: sorting keeps the children, a value is the summand
    of the node and the values of its children, a tiling divides the rectangle
    into one for each child without overlap and in proportion to the values, and
    a linear scale is linear. *)
Class D3Laws (D : D3) : Prop := {
  arranged_perm r : Permutation (arranged r) (children r);
  weigh_sum r : (weigh r == leafWeight r + sumQ (weigh <$> children r))%Q;
  tiling_length v l w h : length (tiling v l w h) = length l;
  tiling_within v l w h t : (0 < w)%Q -> (0 < h)%Q -> Forall (fun x => 0 < x)%Q l ->
    t ∈ tiling v l w h -> within w h t;
  tiling_apart v l w h (i j : nat) t u : (0 < w)%Q -> (0 < h)%Q -> Forall (fun x => 0 < x)%Q l -> i <> j ->
    tiling v l w h !! i = Some t -> tiling v l w h !! j = Some u -> apart t u;
  tiling_area v l w h (i : nat) t x : (0 < w)%Q -> (0 < h)%Q -> Forall (fun x => 0 < x)%Q l ->
    tiling v l w h !! i = Some t -> l !! i = Some x -> (area t * sumQ l == x * (w * h))%Q;
  scale_linear d0 d1 range x : (d0 < d1)%Q -> scaleRound d0 d1 range x = mathRound (range * ((x - d0) / (d1 - d0)))%Q
}.

(** * The layout *)

Section Treemap.
Context {D : D3}.
(** [treemapView], [width] and [height] of the component. *)
Context (view : TreemapView) (width height : Q).

(** The loop of [tile]: the rectangle of the whole chart moved into the one of
    the parent. *)
Definition rescale (p t : Rect) : Rect :=
  mkRect (x0 p + x0 t / width * (x1 p - x0 p))%Q (x0 p + x1 t / width * (x1 p - x0 p))%Q
         (y0 p + y0 t / height * (y1 p - y0 p))%Q (y0 p + y1 t / height * (y1 p - y0 p))%Q.

Definition tilesOf (r : MemoryResource) : list Rect := tiling view (weigh <$> arranged r) width height.

(** The node under a path of positions, and its rectangle. *)
Fixpoint nodeAt (r : MemoryResource) (rect : Rect) (path : list nat) : option (MemoryResource * Rect) :=
  match path with
  | [] => Some (r, rect)
  | i :: path =>
      c ← arranged r !! i; t ← tilesOf r !! i; nodeAt c (rescale rect t) path
  end.

(** The root of [d3.treemap()], of size one by one. *)
Definition unitRect : Rect := mkRect 0 1 0 1.

(** ** Finding a node *)

Fixpoint height_ (r : MemoryResource) : nat :=
  let 'mkResource _ _ cs _ _ := r in S (foldr Nat.max 0 (height_ <$> cs)).

(** The first child in which [f] finds something, from position [i] on. *)
Fixpoint firstFound (f : MemoryResource -> option (list nat)) (i : nat) (l : list MemoryResource)
  : option (list nat) :=
  match l with
  | [] => None
  | c :: l => match f c with Some path => Some (i :: path) | None => firstFound f (S i) l end
  end.

(** [findNodeByName], which compares ids: the path of the node, [None] for
    [null]. *)
Fixpoint findFrom (fuel : nat) (target : nat) (r : MemoryResource) : option (list nat) :=
  if bool_decide (id r = target) then Some []
  else match fuel with
       | O => None
       | S fuel => firstFound (findFrom fuel target) 0 (arranged r)
       end.

Definition findNodeByName (node root : MemoryResource) : option (list nat) :=
  findFrom (height_ root) (id node) root.

(** ** Zooming *)

Record Drawn := mkDrawn { d_resource : MemoryResource; d_left : Z; d_top : Z; d_width : Z; d_height : Z }.

(** [position] with the scales of the node [p]. *)
Definition position (p : Rect) (c : MemoryResource) (t : Rect) : Drawn :=
  let xScale := scaleRound (x0 p) (x1 p) width in
  let yScale := scaleRound (y0 p) (y1 p) height in
  mkDrawn c (xScale (x0 t)) (yScale (y0 t)) (xScale (x1 t) - xScale (x0 t))%Z (yScale (y1 t) - yScale (y0 t))%Z.

Definition unreadableNode : JsError := TypeError "Cannot read properties of null (reading 'data')".
Definition unreadableParent : JsError := TypeError "Cannot read properties of null (reading 'parent')".

(** The children of a node, drawn on the whole chart; only nodes with children
    can be opened. *)
Definition render (root : MemoryResource) (path : list nat) : exec (list Drawn) :=
  match nodeAt root unitRect path with
  | None => Throw unreadableNode
  | Some (r, rect) =>
      Ret (zip_with (fun c t => position rect c (rescale rect t)) (arranged r) (tilesOf r))
  end.

(** [zoomIn(found)]: what is shown and the action that is dispatched. *)
Definition zoomIn (root : MemoryResource) (found : option (list nat))
  : exec (list Drawn * MemoryResourcesActions) :=
  match found with
  | None => Throw unreadableNode
  | Some path =>
      shown ← render root path;
      match nodeAt root unitRect path with
      | Some (r, _) => Ret (shown, MemoryResourcesSetActiveResource r)
      | None => Throw unreadableNode
      end
  end.

(** [zoomOut(found)], to the parent of the node. *)
Definition zoomOut (root : MemoryResource) (found : option (list nat))
  : exec (list Drawn * MemoryResourcesActions) :=
  match found with
  | None | Some [] => Throw unreadableParent
  | Some path => zoomIn root (Some (removelast path))
  end.

(** The escape key: [zoomOut] of the last breadcrumb. *)
Definition onKeydownHandler (root : MemoryResource) (breadcrumbs : list MemoryResource)
  : exec (option (list Drawn * MemoryResourcesActions)) :=
  match breadcrumbs, last breadcrumbs with
  | _ :: _ :: _, Some node => r ← zoomOut root (findNodeByName node root); Ret (Some r)
  | _, _ => Ret None
  end.

End Treemap.

(** The back button of the toolbar. *)
Definition back (breadcrumbs : list MemoryResource) : option MemoryResourcesActions :=
  if length breadcrumbs <? 2 then None
  else MemoryResourcesSetActiveResource <$> breadcrumbs !! (length breadcrumbs - 2).

Definition setGranularity (current granularity : Z) : option MemoryResourcesActions :=
  if (granularity =? current)%Z then None else Some (MemoryResourcesSetGranularity granularity).

Definition setTreemapView (current : string) (view : TreemapView) : option MemoryResourcesActions :=
  if bool_decide (viewText view = current) then None else Some (MemoryResourcesSetTreemapView view).

(** A click on a row of the table. *)
Definition onRowClick (row : MemoryResource) : option MemoryResourcesActions :=
  if bool_decide (length (children row) = 0) then None else Some (MemoryResourcesSetActiveResource row).

(** Texts and tooltip of a drawn resource. *)
Definition seesTexts (rectWidth rectHeight textWidth childBgWidth : Q) (r : MemoryResource) : bool :=
  let requiredWidth := if bool_decide (length (children r) = 0) then textWidth else (textWidth + childBgWidth + 20)%Q in
  Qle_bool requiredWidth rectWidth && Qle_bool 30 rectHeight.

(** [tooltip.style.left] *)
Definition tooltipLeft (clientX tooltipWidth innerWidth : Q) : Q :=
  let x := (clientX - tooltipWidth / 2 + 14)%Q in
  let maxX := (innerWidth - tooltipWidth - 14)%Q in
  if Qle_bool x maxX then x else maxX.

(** * The layout is a partition *)

Lemma sumQ_pos l : l <> [] -> Forall (fun x => 0 < x)%Q l -> (0 < sumQ l)%Q.
Proof.
  intros Hne H. destruct H as [|x l Hx H]; [done|]. clear Hne. unfold sumQ. cbn [foldr].
  assert (0 <= foldr Qplus 0 l)%Q; [|lra]. induction H as [|y l Hy _ IH]; cbn [foldr]; lra.
Qed.

(** Moving a coordinate of the chart into an interval. *)
Lemma moved_mono w a b s t :
  (0 < w)%Q -> (a <= b)%Q -> (s <= t)%Q -> (a + s / w * (b - a) <= a + t / w * (b - a))%Q.
Proof.
  intros Hw Hab Hst. apply Qplus_le_r. apply Qmult_le_compat_r; [|lra].
  unfold Qdiv. apply Qmult_le_compat_r; [done|]. by apply Qlt_le_weak, Qinv_lt_0_compat.
Qed.

Lemma moved_start w a b : (a + 0 / w * (b - a) == a)%Q.
Proof. unfold Qdiv. rewrite Qmult_0_l. lra. Qed.

Lemma moved_end w a b : (0 < w)%Q -> (a + w / w * (b - a) == b)%Q.
Proof. intros Hw. field. lra. Qed.

Section Laws.
Context {D : D3} {L : D3Laws D} (view : TreemapView) (width height : Q).
Context (Hwidth : (0 < width)%Q) (Hheight : (0 < height)%Q).
Notation rescale := (rescale width height).
Notation nodeAt := (nodeAt view width height).
Notation tilesOf := (tilesOf view width height).

(** A rectangle with positive sides. *)
Definition proper (t : Rect) : Prop := (x0 t < x1 t /\ y0 t < y1 t)%Q.

Definition inside (a b : Rect) : Prop := (x0 b <= x0 a /\ x1 a <= x1 b /\ y0 b <= y0 a /\ y1 a <= y1 b)%Q.

Definition ordered (t : Rect) : Prop := (x0 t <= x1 t /\ y0 t <= y1 t)%Q.

Lemma rescale_inside p t : ordered p -> within width height t -> inside (rescale p t) p /\ ordered (rescale p t).
Proof.
  intros [Hx Hy] (H1 & H2 & H3 & H4 & H5 & H6). unfold inside, ordered. cbn [x0 x1 y0 y1 MemoryTreemap.rescale].
  pose proof (moved_mono width (x0 p) (x1 p) 0 (x0 t) Hwidth Hx H1) as A1. rewrite moved_start in A1.
  pose proof (moved_mono width (x0 p) (x1 p) (x1 t) width Hwidth Hx H3) as A2. rewrite moved_end in A2 by done.
  pose proof (moved_mono height (y0 p) (y1 p) 0 (y0 t) Hheight Hy H4) as A3. rewrite moved_start in A3.
  pose proof (moved_mono height (y0 p) (y1 p) (y1 t) height Hheight Hy H6) as A4. rewrite moved_end in A4 by done.
  pose proof (moved_mono width (x0 p) (x1 p) (x0 t) (x1 t) Hwidth Hx H2).
  pose proof (moved_mono height (y0 p) (y1 p) (y0 t) (y1 t) Hheight Hy H5). split_and!; done.
Qed.

Lemma rescale_apart p t u : ordered p -> apart t u -> apart (rescale p t) (rescale p u).
Proof.
  intros [Hx Hy] H. unfold apart in *. cbn [x0 x1 y0 y1 MemoryTreemap.rescale].
  destruct H as [H|[H|[H|H]]]; [left|right; left|right; right; left|right; right; right]; by apply moved_mono.
Qed.

Lemma rescale_area p t : (area (rescale p t) * (width * height) == area t * area p)%Q.
Proof. unfold area. cbn [x0 x1 y0 y1 MemoryTreemap.rescale]. field. split; lra. Qed.

Lemma inside_apart a b a' b' : inside a a' -> inside b b' -> apart a' b' -> apart a b.
Proof.
  intros (A1 & A2 & A3 & A4) (B1 & B2 & B3 & B4) [H|[H|[H|H]]];
    [left|right; left|right; right; left|right; right; right]; lra.
Qed.

Lemma inside_trans a b c : inside a b -> inside b c -> inside a c.
Proof. unfold inside. intros. lra. Qed.

(** Sizes as the profiler reports them are not negative. *)
Definition sized (root : MemoryResource) : Prop :=
  forall r, r ∈ nodes root -> match value r with Some v => 0 <= v | None => True end%Q.

Lemma sized_child root c : sized root -> c ∈ children root -> sized c.
Proof. intros H Hc r Hr. apply H, elem_of_nodes. right. by exists c. Qed.

Lemma leafWeight_pos r : sized r -> children r = [] -> (0 < leafWeight r)%Q.
Proof.
  intros Hs Hc. specialize (Hs r (nodes_self r)). unfold leafWeight. rewrite Hc.
  destruct (value r) as [v|]; [|lra]. destruct (Qeq_bool v 0) eqn:E; [lra|].
  apply Qeq_bool_neq in E. destruct (Qle_lt_or_eq _ _ Hs) as [|E']; [done|]. destruct E. by symmetry.
Qed.

Lemma weigh_pos r : sized r -> (0 < weigh r)%Q.
Proof.
  induction r as [r IH] using resource_nested_ind. intros Hs. rewrite weigh_sum.
  destruct (children r) as [|c cs] eqn:E.
  - pose proof (leafWeight_pos r Hs E). cbn. lra.
  - assert (leafWeight r = 0%Q) as -> by (unfold leafWeight; by rewrite E).
    assert (0 < sumQ (weigh <$> c :: cs))%Q; [|lra]. apply sumQ_pos; [done|]. apply Forall_fmap.
    apply Forall_forall. intros x Hx. rewrite Forall_forall in IH. apply IH; [done|]. eapply sized_child; [done|]. by rewrite E.
Qed.

Lemma arranged_child r (i : nat) c : arranged r !! i = Some c -> c ∈ children r.
Proof. intros H%list_elem_of_lookup_2. by rewrite arranged_perm in H. Qed.

Lemma weights_pos r : sized r -> Forall (fun x => 0 < x)%Q (weigh <$> arranged r).
Proof.
  intros Hs. apply Forall_fmap, Forall_forall. intros c Hc. rewrite arranged_perm in Hc.
  apply weigh_pos. by eapply sized_child.
Qed.

Lemma tile_within r (i : nat) t : sized r -> tilesOf r !! i = Some t -> within width height t.
Proof. intros Hs Ht. eapply tiling_within; [done|done|by apply weights_pos|by eapply list_elem_of_lookup_2]. Qed.

Lemma sumQ_perm l k : Permutation l k -> (sumQ l == sumQ k)%Q.
Proof. unfold sumQ. induction 1; cbn [foldr]; lra. Qed.

Lemma tile_of r (i : nat) c : arranged r !! i = Some c -> exists t, tilesOf r !! i = Some t.
Proof.
  intros H. apply lookup_lt_is_Some. unfold MemoryTreemap.tilesOf. rewrite tiling_length, length_fmap.
  by eapply lookup_lt_Some.
Qed.

Lemma nodeAt_app r rect p q :
  nodeAt r rect (p ++ q) = (n ← nodeAt r rect p; nodeAt n.1 n.2 q).
Proof.
  revert r rect. induction p as [|i p IH]; intros r rect; [done|]. cbn.
  destruct (arranged r !! i); cbn; [|done]. destruct (tilesOf r !! i); cbn; [|done]. apply IH.
Qed.

Lemma nodeAt_inside r rect p r' rect' :
  sized r -> ordered rect -> nodeAt r rect p = Some (r', rect') ->
  inside rect' rect /\ ordered rect' /\ sized r' /\ r' ∈ nodes r.
Proof.
  revert r rect. induction p as [|i p IH]; intros r rect Hs Ho; cbn.
  - intros [= <- <-]. split_and!; [unfold inside; lra|done|done|apply nodes_self].
  - destruct (arranged r !! i) as [c|] eqn:Hc; cbn; [|done].
    destruct (tilesOf r !! i) as [t|] eqn:Ht; cbn; [|done]. intros Hn.
    destruct (rescale_inside rect t Ho (tile_within r i t Hs Ht)) as [Hin Ho'].
    pose proof (arranged_child r i c Hc) as Hch.
    destruct (IH c (rescale rect t) (sized_child _ _ Hs Hch) Ho' Hn) as (H1 & H2 & H3 & H4).
    split_and!; [by eapply inside_trans|done|done|]. apply elem_of_nodes. right. by exists c.
Qed.

Lemma nodeAt_apart r rect (i j : nat) p q r1 R1 r2 R2 :
  sized r -> ordered rect -> i <> j -> nodeAt r rect (i :: p) = Some (r1, R1) -> nodeAt r rect (j :: q) = Some (r2, R2) ->
  apart R1 R2.
Proof.
  intros Hs Ho Hij. cbn.
  destruct (arranged r !! i) as [c|] eqn:Hc; cbn; [|done]. destruct (tilesOf r !! i) as [t|] eqn:Ht; cbn; [|done]. intros H1.
  destruct (arranged r !! j) as [d|] eqn:Hd; cbn; [|done]. destruct (tilesOf r !! j) as [u|] eqn:Hu; cbn; [|done]. intros H2.
  destruct (rescale_inside rect t Ho (tile_within r i t Hs Ht)) as [_ Ot].
  destruct (rescale_inside rect u Ho (tile_within r j u Hs Hu)) as [_ Ou].
  destruct (nodeAt_inside _ _ _ _ _ (sized_child _ _ Hs (arranged_child r i c Hc)) Ot H1) as [I1 _].
  destruct (nodeAt_inside _ _ _ _ _ (sized_child _ _ Hs (arranged_child r j d Hd)) Ou H2) as [I2 _].
  eapply inside_apart; [exact I1|exact I2|]. apply rescale_apart; [done|].
  exact (tiling_apart view _ width height i j t u Hwidth Hheight (weights_pos r Hs) Hij Ht Hu).
Qed.

Lemma child_area r rect (i : nat) c t :
  sized r -> arranged r !! i = Some c -> tilesOf r !! i = Some t ->
  (area (rescale rect t) * weigh r == weigh c * area rect)%Q.
Proof.
  intros Hs Hc Ht. assert (sumQ (weigh <$> arranged r) == weigh r)%Q as Hsum.
  { rewrite (weigh_sum r), (sumQ_perm _ (weigh <$> children r)) by (apply fmap_Permutation, arranged_perm).
    assert (leafWeight r = 0%Q) as ->; [|lra]. unfold leafWeight.
    pose proof (arranged_child r i c Hc) as Hch. destruct (children r); [by apply elem_of_nil in Hch|done]. }
  pose proof (tiling_area view _ width height i t (weigh c) Hwidth Hheight (weights_pos r Hs) Ht) as Ha.
  rewrite list_lookup_fmap, Hc in Ha. specialize (Ha eq_refl). rewrite Hsum in Ha.
  pose proof (rescale_area rect t) as Hr. assert (0 < width * height)%Q as Hwh by (apply Qmult_lt_0_compat; done).
  apply (Qmult_inj_r _ _ (width * height)); [lra|].
  transitivity (area (rescale rect t) * (width * height) * weigh r)%Q; [lra|]. rewrite Hr.
  transitivity (area t * weigh r * area rect)%Q; [lra|]. rewrite Ha. lra.
Qed.

Lemma nodeAt_area r rect p r' rect' :
  sized r -> ordered rect -> nodeAt r rect p = Some (r', rect') -> (area rect' * weigh r == weigh r' * area rect)%Q.
Proof.
  revert r rect. induction p as [|i p IH]; intros r rect Hs Ho; cbn.
  - intros [= <- <-]. lra.
  - destruct (arranged r !! i) as [c|] eqn:Hc; cbn; [|done].
    destruct (tilesOf r !! i) as [t|] eqn:Ht; cbn; [|done]. intros Hn.
    destruct (rescale_inside rect t Ho (tile_within r i t Hs Ht)) as [_ Ho'].
    pose proof (sized_child _ _ Hs (arranged_child r i c Hc)) as Hsc.
    pose proof (IH c _ Hsc Ho' Hn) as H1. pose proof (child_area r rect i c t Hs Hc Ht) as H2.
    pose proof (weigh_pos c Hsc) as Hpos. apply (Qmult_inj_r _ _ (weigh c)); [lra|].
    transitivity (area rect' * weigh c * weigh r)%Q; [lra|]. rewrite H1.
    transitivity (weigh r' * (area (rescale rect t) * weigh r))%Q; [lra|]. rewrite H2. lra.
Qed.

Lemma unit_ordered : ordered unitRect.
Proof. split; cbn; lra. Qed.

(** C18: the treemap is a picture of the tree: a resource lies within the resources
    above it, two resources neither of which is above the other do not overlap,
    and the area of each is its share of the whole, whichever of the four views is
    chosen. *)
Theorem treemap_partition root :
  sized root ->
  (forall p q r R r' R', nodeAt root unitRect p = Some (r, R) -> nodeAt root unitRect (p ++ q) = Some (r', R') ->
     inside R' R) /\
  (forall p (i j : nat) q1 q2 r1 R1 r2 R2, i <> j ->
     nodeAt root unitRect (p ++ i :: q1) = Some (r1, R1) -> nodeAt root unitRect (p ++ j :: q2) = Some (r2, R2) ->
     apart R1 R2) /\
  (forall p r R, nodeAt root unitRect p = Some (r, R) -> (area R == weigh r / weigh root)%Q).
Proof.
  intros Hs. split_and!.
  - intros p q r R r' R' Hp Hpq. rewrite nodeAt_app, Hp in Hpq. cbn in Hpq.
    destruct (nodeAt_inside _ _ _ _ _ Hs unit_ordered Hp) as (_ & Ho & Hsr & _).
    by destruct (nodeAt_inside _ _ _ _ _ Hsr Ho Hpq).
  - intros p i j q1 q2 r1 R1 r2 R2 Hij H1 H2. rewrite nodeAt_app in H1, H2.
    destruct (nodeAt root unitRect p) as [[r R]|] eqn:Hp; [|done].
    destruct (nodeAt_inside _ _ _ _ _ Hs unit_ordered Hp) as (_ & Ho & Hsr & _).
    exact (nodeAt_apart r R i j q1 q2 r1 R1 r2 R2 Hsr Ho Hij H1 H2).
  - intros p r R Hp. pose proof (nodeAt_area _ _ _ _ _ Hs unit_ordered Hp) as Ha. pose proof (weigh_pos root Hs) as Hpos.
    apply (Qmult_inj_r _ _ (weigh root)); [lra|]. rewrite Ha. unfold unitRect, area. cbn [x0 x1 y0 y1]. field. lra.
Qed.

(** ** Zooming *)

Lemma mathRound_comp x y : (x == y)%Q -> mathRound x = mathRound y.
Proof. intros H. unfold mathRound. by rewrite H. Qed.

Lemma mathRound_mono x y : (x <= y)%Q -> (mathRound x <= mathRound y)%Z.
Proof. intros H. apply Qfloor_resp_le. lra. Qed.

Lemma mathRound_nonneg x : (0 <= x)%Q -> (0 <= mathRound x)%Z.
Proof. intros H. change 0%Z with (mathRound 0). by apply mathRound_mono. Qed.

(** The scale of a node undoes the move into its rectangle. *)
Lemma scale_moved w a b t :
  (0 < w)%Q -> (a < b)%Q -> scaleRound a b w (a + t / w * (b - a))%Q = mathRound t.
Proof. intros Hw Hab. rewrite scale_linear by done. apply mathRound_comp. field. split; lra. Qed.

Lemma nodeAt_proper root p r R : sized root -> nodeAt root unitRect p = Some (r, R) -> proper R.
Proof.
  intros Hs Hp. destruct (nodeAt_inside _ _ _ _ _ Hs unit_ordered Hp) as (_ & [Hx Hy] & Hsr & _).
  pose proof (nodeAt_area _ _ _ _ _ Hs unit_ordered Hp) as Ha. unfold unitRect, area in Ha. cbn [x0 x1 y0 y1] in Ha.
  pose proof (weigh_pos root Hs). pose proof (weigh_pos r Hsr).
  assert (~ (x1 R - x0 R == 0)%Q /\ ~ (y1 R - y0 R == 0)%Q) as [Hnx Hny].
  { split; intros E; rewrite E in Ha; lra. }
  split; apply Qnot_le_lt; intros E; [apply Hnx|apply Hny]; lra.
Qed.

Lemma render_resources root path r R :
  nodeAt root unitRect path = Some (r, R) ->
  exists shown, render view width height root path = Ret shown /\ (d_resource <$> shown) = arranged r.
Proof.
  intros Hp. unfold render. rewrite Hp. eexists. split; [reflexivity|].
  apply list_eq. intros i. rewrite list_lookup_fmap, lookup_zip_with.
  destruct (arranged r !! i) as [c|] eqn:Hc; [|done]. destruct (tile_of r i c Hc) as [t Ht]. cbn. by rewrite Ht.
Qed.

(** C19: a resource that is opened is drawn as if it were the whole chart: its children
    appear, in order, exactly where the tiling of the chart puts them, rounded to
    pixels, all within the chart. *)
Theorem treemap_zoom root path r R :
  sized root -> nodeAt root unitRect path = Some (r, R) ->
  exists shown, render view width height root path = Ret shown /\
    (d_resource <$> shown) = arranged r /\
    forall (i : nat) d t, shown !! i = Some d -> tilesOf r !! i = Some t ->
      d_left d = mathRound (x0 t) /\ (d_left d + d_width d)%Z = mathRound (x1 t) /\
      d_top d = mathRound (y0 t) /\ (d_top d + d_height d)%Z = mathRound (y1 t) /\
      (0 <= d_left d)%Z /\ (0 <= d_width d)%Z /\ (d_left d + d_width d <= mathRound width)%Z /\
      (0 <= d_top d)%Z /\ (0 <= d_height d)%Z /\ (d_top d + d_height d <= mathRound height)%Z.
Proof.
  intros Hs Hp. destruct (nodeAt_proper root path r R Hs Hp) as [Hx Hy].
  destruct (nodeAt_inside _ _ _ _ _ Hs unit_ordered Hp) as (_ & _ & Hsr & _).
  destruct (render_resources root path r R Hp) as (shown & Hshown & Hres). exists shown. split_and!; [done|done|].
  - unfold render in Hshown. rewrite Hp in Hshown. injection Hshown as <-.
    intros i d t Hd Ht. rewrite lookup_zip_with in Hd. rewrite Ht in Hd.
    destruct (arranged r !! i) as [c|]; [|done]. cbn in Hd. injection Hd as <-.
    destruct (tile_within r i t Hsr Ht) as (B1 & B2 & B3 & B4 & B5 & B6).
    unfold position. cbn [d_left d_width d_top d_height x0 x1 y0 y1 MemoryTreemap.rescale].
    rewrite !scale_moved by done.
    pose proof (mathRound_mono _ _ B2). pose proof (mathRound_mono _ _ B3). pose proof (mathRound_nonneg _ B1).
    pose proof (mathRound_mono _ _ B5). pose proof (mathRound_mono _ _ B6). pose proof (mathRound_nonneg _ B4).
    split_and!; lia.
Qed.

(** ** Finding *)

Lemma nodes_arranged r : Permutation (nodes r) (r :: List.flat_map nodes (arranged r)).
Proof. rewrite nodes_eq. constructor. by rewrite arranged_perm. Qed.

Lemma findFrom_found fuel target r path : findFrom fuel target r = Some path -> target ∈ (id <$> nodes r).
Proof.
  revert r path. induction fuel as [|fuel IH]; intros r path; cbn.
  - case_bool_decide; [|done]. intros _. apply list_elem_of_fmap. exists r. split; [done|apply nodes_self].
  - case_bool_decide.
    + intros _. apply list_elem_of_fmap. exists r. split; [done|apply nodes_self].
    + intros Hf. assert (exists c q, c ∈ arranged r /\ findFrom fuel target c = Some q) as (c & q & Hc & Hq).
      { revert Hf. generalize 0. induction (arranged r) as [|c l IHl]; intros k; cbn; [done|].
        destruct (findFrom fuel target c) as [q|] eqn:E; [intros _; exists c, q; set_solver|].
        intros Hf. destruct (IHl _ Hf) as (d & q & Hd & Hq). exists d, q. set_solver. }
      rewrite nodes_arranged, fmap_cons. right. apply list_elem_of_fmap.
      apply IH in Hq. apply list_elem_of_fmap in Hq as (n & -> & Hn). exists n. split; [done|].
      apply elem_of_flat_map. eauto.
Qed.

Lemma firstFound_at f k l (i : nat) c path :
  l !! i = Some c -> f c = Some path -> (forall (j : nat) d, l !! j = Some d -> j <> i -> f d = None) ->
  firstFound f k l = Some ((k + i)%nat :: path).
Proof.
  revert k i. induction l as [|d l IH]; intros k i Hi Hf Hother; [done|]. destruct i as [|i]; cbn.
  - injection Hi as ->. rewrite Hf, Nat.add_0_r. done.
  - rewrite (Hother 0 d eq_refl) by done. rewrite (IH (S k) i Hi Hf).
    + by rewrite Nat.add_succ_r.
    + intros j e Hj Hji. apply (Hother (S j)); [done|congruence].
Qed.

Lemma height_child r c : c ∈ children r -> height_ c < height_ r.
Proof.
  destruct r as [l n cs v i]. cbn [children height_]. induction cs as [|d cs IH]; intros Hc; [by apply elem_of_nil in Hc|].
  cbn. apply elem_of_cons in Hc as [->|Hc]; [lia|]. specialize (IH Hc). cbn in IH. lia.
Qed.

Lemma arranged_ids r (i j : nat) c d x y :
  NoDup (id <$> nodes r) -> arranged r !! i = Some c -> arranged r !! j = Some d -> x ∈ nodes c -> y ∈ nodes d ->
  id x = id y -> i = j.
Proof.
  intros Hnd Hi Hj Hx Hy E. rewrite nodes_arranged, fmap_cons in Hnd. apply NoDup_cons in Hnd as [_ Hnd].
  revert i j Hi Hj. induction (arranged r) as [|e l IH]; intros i j Hi Hj; [done|].
  cbn in Hnd. rewrite fmap_app in Hnd. apply NoDup_app in Hnd as (_ & Hdis & Hnd).
  assert (forall (k : nat) e' z, l !! k = Some e' -> z ∈ nodes e' -> id z ∈ (id <$> List.flat_map nodes l)) as Hl.
  { intros k e' z Hk Hz. apply list_elem_of_fmap_2, elem_of_flat_map. exists e'. split; [by eapply list_elem_of_lookup_2|done]. }
  destruct i as [|i], j as [|j]; cbn in Hi, Hj; simplify_eq.
  - done.
  - exfalso. apply (Hdis (id x)); [by apply list_elem_of_fmap_2|]. rewrite E. by eapply Hl.
  - exfalso. apply (Hdis (id y)); [by apply list_elem_of_fmap_2|]. rewrite <- E. by eapply Hl.
  - f_equal. by apply IH.
Qed.

(** The search by id finds the node it is asked for. *)
Lemma findFrom_at fuel r rect path n R :
  NoDup (id <$> nodes r) -> height_ r <= fuel -> sized r -> ordered rect -> nodeAt r rect path = Some (n, R) ->
  findFrom fuel (id n) r = Some path.
Proof.
  revert fuel r rect. induction path as [|i path IH]; intros fuel r rect Hnd Hfuel Hs Ho; cbn [MemoryTreemap.nodeAt].
  - intros [= <- _]. destruct fuel; cbn; by rewrite bool_decide_true.
  - destruct (arranged r !! i) as [c|] eqn:Hc; cbn [mbind option_bind]; [|done].
    destruct (tilesOf r !! i) as [t|] eqn:Ht; cbn [mbind option_bind]; [|done]. intros Hn.
    pose proof (arranged_child r i c Hc) as Hch. pose proof (height_child r c Hch) as Hh.
    destruct (rescale_inside rect t Ho (tile_within r i t Hs Ht)) as [_ Ho'].
    pose proof (sized_child _ _ Hs Hch) as Hsc.
    destruct (nodeAt_inside _ _ _ _ _ Hsc Ho' Hn) as (_ & _ & _ & Hnc).
    assert (NoDup (id <$> nodes c)) as Hndc.
    { rewrite nodes_arranged, fmap_cons in Hnd. apply NoDup_cons in Hnd as [_ Hnd].
      pose proof Hc as (l1 & l2 & Hsplit)%list_elem_of_lookup_2%list_elem_of_split.
      rewrite Hsplit, flat_map_app, fmap_app in Hnd. apply NoDup_app in Hnd as (_ & _ & Hnd).
      cbn in Hnd. rewrite fmap_app in Hnd. by apply NoDup_app in Hnd as [? _]. }
    destruct fuel as [|fuel]; [lia|]. cbn [findFrom]. rewrite bool_decide_false.
    + rewrite (firstFound_at _ 0 _ i c path Hc); [done|apply (IH fuel c (rescale rect t)); [done|lia|done..]|].
      intros j d Hj Hji. destruct (findFrom fuel (id n) d) as [q|] eqn:E; [|done]. exfalso. apply Hji.
      apply findFrom_found, list_elem_of_fmap in E as (y & Ey & Hy). symmetry. by eapply (arranged_ids r i j c d n y).
    + intros E. rewrite nodes_arranged, fmap_cons in Hnd. apply NoDup_cons in Hnd as [Hnot _]. apply Hnot. rewrite E.
      apply list_elem_of_fmap_2, elem_of_flat_map. exists c. split; [by eapply list_elem_of_lookup_2|done].
Qed.

Lemma trail_path r rect l :
  trail (r :: l) ->
  exists p, length p = length l /\
    forall k n, (r :: l) !! k = Some n -> exists R, nodeAt r rect (take k p) = Some (n, R).
Proof.
  revert r rect. induction l as [|c l IH]; intros r rect Ht.
  - exists []. split; [done|]. intros [|k] n; [|done]. intros [= <-]. by exists rect.
  - apply trail_cons in Ht as [Hc Ht]. rewrite <- arranged_perm in Hc. apply list_elem_of_lookup in Hc as [i Hi].
    destruct (tile_of r i c Hi) as [t Hti]. destruct (IH c (rescale rect t) Ht) as (p & Hlen & Hp).
    exists (i :: p). split; [cbn; lia|]. intros [|k] n Hk; [injection Hk as <-; by exists rect|].
    destruct (Hp k n Hk) as [R HR]. exists R. cbn. by rewrite Hi, Hti.
Qed.

Lemma take_removelast {T} (l : list T) : removelast l = take (length l - 1) l.
Proof. rewrite removelast_firstn_len. by rewrite Nat.sub_1_r. Qed.

(** Going up the trail: the reducer drops the last breadcrumb. *)
Lemma setActive_parent atLoad s storage root l x y :
  resource s = Some root -> wellNumbered root -> trail ((root :: l) ++ [x]) -> last (root :: l) = Some y ->
  breadcrumbs s = Some <$> ((root :: l) ++ [x]) -> activeResource s = Some x ->
  exists s', memoryResourcesReducer atLoad (s, storage) (MemoryResourcesSetActiveResource y) = Ret (s', storage)
    /\ breadcrumbs s' = Some <$> (root :: l) /\ activeResource s' = Some y.
Proof.
  intros Hroot Hw Ht Hy Hb Ha. apply last_Some in Hy as [l0 Hl0].
  change ((root :: l) ++ [x]) with (root :: (l ++ [x])) in *.
  destruct (trail_spec root Hw _ root (nodes_self root) Ht) as (_ & Hsort & Hnames).
  assert (id x < id y) as Hid.
  { change (root :: (l ++ [x])) with ((root :: l) ++ [x]) in Hsort.
    apply (StronglySorted_app_1_elem_of _ _ _ y x Hsort); [rewrite Hl0; set_solver|by left]. }
  cbn [memoryResourcesReducer]. rewrite Ha.
  assert (sameObject x y = false) as ->.
  { unfold sameObject. rewrite (bool_decide_false (id x = id y)) by lia. apply andb_false_r. }
  case_bool_decide as Hname.
  - assert (l = []) as ->.
    { destruct l as [|c l _] using rev_ind; [done|]. rewrite app_comm_cons in Hl0. apply app_inj_tail in Hl0 as [_ <-].
      rewrite Forall_forall in Hnames. exfalso. apply (Hnames c); [set_solver|done]. }
    destruct l0 as [|? [|]]; cbn in Hl0; try discriminate. injection Hl0 as <-.
    eexists. split; [reflexivity|]. cbn. by rewrite Hroot.
  - assert (root :: (l ++ [x]) = l0 ++ y :: [x]) as Heq by (rewrite app_comm_cons, Hl0, <- app_assoc; done).
    assert (findIndex (fun b => bool_decide (id b = id y)) (root :: (l ++ [x])) = Some (length l0)) as Hfind.
    { rewrite Heq in *. apply findIndex_Some. split.
      - exists y. rewrite list_lookup_middle by done. split; [done|]. by apply bool_decide_eq_true.
      - intros j z Hj Hz. rewrite lookup_app_l in Hz by done. apply list_elem_of_lookup_2 in Hz.
        pose proof (StronglySorted_app_1_elem_of _ _ _ z y Hsort Hz (list_elem_of_here _ _)) as Hlt. cbn in Hlt.
        apply bool_decide_eq_false. lia. }
    rewrite Hb, crumbIndex_Some, Hfind. cbn [mbind exec_bind]. eexists. split; [reflexivity|]. cbn. split; [|done].
    unfold sliceTo. change (Some root :: (Some <$> (l ++ [x]))) with (Some <$> (root :: (l ++ [x]))).
    change (Some root :: (Some <$> l)) with (Some <$> (root :: l)).
    rewrite <- fmap_take, Heq, Hl0. f_equal. rewrite take_app_ge by lia. f_equal.
    by replace (length l0 + 1 - length l0) with 1 by lia.
Qed.

Lemma findNodeByName_trail root l n :
  NoDup (id <$> nodes root) -> sized root -> trail (root :: l) -> last (root :: l) = Some n ->
  exists p, findNodeByName n root = Some p /\ length p = length l /\
    forall k m, (root :: l) !! k = Some m -> exists R, nodeAt root unitRect (take k p) = Some (m, R).
Proof.
  intros Hnd Hs Ht Hn. destruct (trail_path root unitRect l Ht) as (p & Hlen & Hp). exists p. split; [|done].
  rewrite last_lookup in Hn. destruct (Hp _ _ Hn) as [R HR]. cbn [length Nat.pred] in HR. rewrite <- Hlen, firstn_all in HR.
  eapply findFrom_at; [done|lia|done|apply unit_ordered|exact HR].
Qed.

(** The escape key agrees with the back button and never throws: with one
    breadcrumb it does nothing, with more it shows the children of the breadcrumb
    before the last and makes that resource the active one, and the reducer then
    drops the last breadcrumb. *)
Theorem treemap_escape atLoad s storage root crumbs :
  breadcrumbsLead s -> resource s = Some root -> breadcrumbs s = Some <$> crumbs ->
  NoDup (id <$> nodes root) -> sized root ->
  (length crumbs = 1 /\ onKeydownHandler view width height root crumbs = Ret None /\ back crumbs = None) \/
  exists shown parent s',
    onKeydownHandler view width height root crumbs = Ret (Some (shown, MemoryResourcesSetActiveResource parent)) /\
    back crumbs = Some (MemoryResourcesSetActiveResource parent) /\ (d_resource <$> shown) = arranged parent /\
    memoryResourcesReducer atLoad (s, storage) (MemoryResourcesSetActiveResource parent) = Ret (s', storage) /\
    breadcrumbs s' = Some <$> removelast crumbs /\ activeResource s' = Some parent.
Proof.
  intros Hlead Hroot Hcr Hnd Hs. unfold breadcrumbsLead in Hlead. rewrite Hroot in Hlead.
  destruct Hlead as (l & Hb & Ht & Hact & Hw). rewrite Hcr in Hb. apply (inj (fmap (M := list) Some)) in Hb. subst crumbs.
  destruct l as [|x l _] using rev_ind; [by left|right].
  assert (exists y, last (root :: l) = Some y) as [y Hy] by (destruct (last (root :: l)) eqn:E; [eauto|by apply last_None in E]).
  change (root :: (l ++ [x])) with ((root :: l) ++ [x]) in *.
  destruct (setActive_parent atLoad s storage root l x y Hroot Hw Ht Hy Hcr) as (s' & Hred & Hbs & Has).
  { by rewrite Hact, last_snoc. }
  destruct (findNodeByName_trail root (l ++ [x]) x Hnd Hs Ht) as (p & Hfind & Hlen & Hp).
  { change (last ((root :: l) ++ [x]) = Some x). apply last_snoc. }
  rewrite length_app in Hlen. cbn [length] in Hlen.
  pose proof Hy as Hy'. rewrite last_lookup in Hy'. cbn [length Nat.pred] in Hy'.
  assert ((root :: (l ++ [x])) !! length l = Some y) as Hyl.
  { change ((root :: (l ++ [x])) !! length l) with (((root :: l) ++ [x]) !! length l). by rewrite lookup_app_l by (cbn; lia). }
  destruct (Hp _ _ Hyl) as [R HR].
  assert (take (length l) p = removelast p) as Htake by (rewrite take_removelast; f_equal; lia). rewrite Htake in HR.
  destruct (render_resources root (removelast p) y R HR) as (shown & Hshown & Hres).
  exists shown, y, s'. split_and!; [| |done|done|by rewrite removelast_last|done].
  - assert (onKeydownHandler view width height root ((root :: l) ++ [x])
      = (r ← zoomOut view width height root (findNodeByName x root); Ret (Some r))) as ->.
    { unfold onKeydownHandler. pose proof (last_snoc x (root :: l)) as E. destruct l; cbn [app] in *; by rewrite E. }
    rewrite Hfind. unfold zoomOut, zoomIn.
    destruct p as [|i p]; [cbn in Hlen; lia|]. rewrite Hshown. cbn [mbind exec_bind]. by rewrite HR.
  - unfold back. rewrite length_app. cbn [length]. destruct (Nat.ltb_spec (S (length l) + 1) 2); [lia|].
    replace (S (length l) + 1 - 2) with (length l) by lia. change ((root :: l) ++ [x]) with (root :: (l ++ [x])).
    by rewrite Hyl.
Qed.

End Laws.

(** * A library with these laws *)

Fixpoint weightOf (r : MemoryResource) : Q :=
  let 'mkResource _ _ cs _ _ := r in (leafWeight r + sumQ (weightOf <$> cs))%Q.

(** The children side by side, from the offset [acc] on. *)
Fixpoint diceFrom (k h acc : Q) (l : list Q) : list Rect :=
  match l with
  | [] => []
  | x :: l => mkRect (acc * k)%Q ((acc + x) * k)%Q 0 h :: diceFrom k h (acc + x)%Q l
  end.

Definition demoD3 : D3 := {|
  arranged := children;
  weigh := weightOf;
  tiling := fun _ l w h => diceFrom (w / sumQ l)%Q h 0 l;
  scaleRound := fun d0 d1 range x => mathRound (range * ((x - d0) / (d1 - d0)))%Q
|}.

Lemma diceFrom_spec k h l : forall acc (i : nat) t, (0 <= k)%Q -> Forall (fun x => 0 < x)%Q l ->
  diceFrom k h acc l !! i = Some t ->
  exists x, l !! i = Some x /\ (x1 t - x0 t == x * k)%Q /\ (acc * k <= x0 t)%Q /\ (x1 t <= (acc + sumQ l) * k)%Q
    /\ y0 t = 0%Q /\ y1 t = h.
Proof.
  induction l as [|x l IH]; intros acc i t Hk Hl Ht; [done|]. apply Forall_cons in Hl as [Hx Hl].
  assert (0 <= sumQ l)%Q as Hsum.
  { clear -Hl. unfold sumQ. induction Hl; cbn [foldr]; lra. }
  unfold sumQ. cbn [foldr]. fold (sumQ l). destruct i as [|i]; cbn in Ht.
  - injection Ht as <-. exists x. cbn [x0 x1 y0 y1]. split_and!; try done; [lra|lra|].
    apply Qmult_le_compat_r; [lra|done].
  - destruct (IH (acc + x)%Q i t Hk Hl Ht) as (z & Hz & H1 & H2 & H3 & H4). exists z. cbn. split_and!; try done.
    + eapply Qle_trans; [|exact H2]. apply Qmult_le_compat_r; [lra|done].
    + eapply Qle_trans; [exact H3|]. apply Qmult_le_compat_r; [lra|done].
    + by destruct H4.
    + by destruct H4.
Qed.

Lemma diceFrom_apart k h l : forall acc (i j : nat) t u, (0 <= k)%Q -> Forall (fun x => 0 < x)%Q l -> (i < j)%nat ->
  diceFrom k h acc l !! i = Some t -> diceFrom k h acc l !! j = Some u -> (x1 t <= x0 u)%Q.
Proof.
  induction l as [|x l IH]; intros acc i j t u Hk Hl Hij Ht Hu; [done|]. apply Forall_cons in Hl as [Hx Hl].
  destruct j as [|j]; [lia|]. cbn in Hu. destruct i as [|i]; cbn in Ht.
  - injection Ht as <-. destruct (diceFrom_spec k h l _ j u Hk Hl Hu) as (_ & _ & _ & H & _). exact H.
  - exact (IH _ i j t u Hk Hl ltac:(lia) Ht Hu).
Qed.

#[local] Instance demoD3_laws : D3Laws demoD3.
Proof.
  assert (forall w l, (0 < w)%Q -> Forall (fun x => 0 < x)%Q l -> (0 <= w / sumQ l)%Q) as Hk.
  { intros w l Hw Hl. destruct l as [|x l]; [unfold Qdiv, sumQ; cbn; lra|].
    pose proof (sumQ_pos (x :: l) ltac:(done) Hl) as Hpos. apply Qlt_le_weak. unfold Qdiv.
    apply Qmult_lt_0_compat; [done|]. by apply Qinv_lt_0_compat. }
  split; cbn [arranged weigh tiling scaleRound demoD3].
  - done.
  - intros [lo n cs v i]. cbn [weightOf children]. lra.
  - intros _ l w h. generalize (w / sumQ l)%Q 0%Q. induction l as [|x l IH]; intros k acc; cbn; [done|]. by rewrite IH.
  - intros _ l w h t Hw Hh Hl Ht. apply list_elem_of_lookup in Ht as [i Hi].
    destruct (diceFrom_spec _ h l 0 i t (Hk w l Hw Hl) Hl Hi) as (x & Hx & H1 & H2 & H3 & H4 & H5).
    assert (0 < sumQ l)%Q as Hpos by (apply sumQ_pos; [by intros -> | done]).
    assert ((0 + sumQ l) * (w / sumQ l) == w)%Q as Hfull by (field; lra).
    assert (0 < x)%Q as Hx0 by (rewrite Forall_forall in Hl; apply Hl; by eapply list_elem_of_lookup_2).
    assert (0 <= x * (w / sumQ l))%Q as Hxw by (apply Qmult_le_0_compat; [lra|by apply Hk]).
    unfold within. rewrite H4, H5. lra.
  - intros _ l w h i j t u Hw Hh Hl Hij Ht Hu. destruct (Nat.lt_total i j) as [H|[H|H]]; [|done|].
    + left. exact (diceFrom_apart _ h l 0 i j t u (Hk w l Hw Hl) Hl H Ht Hu).
    + right; left. exact (diceFrom_apart _ h l 0 j i u t (Hk w l Hw Hl) Hl H Hu Ht).
  - intros _ l w h i t x Hw Hh Hl Ht Hx.
    destruct (diceFrom_spec _ h l 0 i t (Hk w l Hw Hl) Hl Ht) as (z & Hz & H1 & _ & _ & H4 & H5).
    rewrite Hx in Hz. injection Hz as <-. unfold area. rewrite H1, H4, H5.
    assert (0 < sumQ l)%Q as Hpos by (apply sumQ_pos; [by intros -> | done]). field. lra.
  - done.
Qed.

Lemma demo_sized : sized demoRoot.
Proof.
  intros r Hr. enough (Forall (fun r => match value r with Some v => 0 <= v | None => True end%Q) (nodes demoRoot)) as H
    by (rewrite Forall_forall in H; by apply H). vm_compute. repeat constructor; discriminate.
Qed.

Lemma treemap_partition_witness :
  exists r R, nodeAt (D := demoD3) DICE 100 100 demoRoot unitRect [0] = Some (r, R)
    /\ (area R == weightOf r / weightOf demoRoot)%Q.
Proof.
  do 2 eexists. split; [reflexivity|].
  apply (treemap_partition (D := demoD3) DICE 100 100 ltac:(reflexivity) ltac:(reflexivity) demoRoot demo_sized) with (p := [0]).
  reflexivity.
Defined.

Lemma treemap_zoom_witness :
  exists shown, render (D := demoD3) DICE 100 100 demoRoot [0] = Ret shown
    /\ (d_resource <$> shown) = children demoChild.
Proof.
  destruct (treemap_zoom (D := demoD3) DICE 100 100 ltac:(reflexivity) ltac:(reflexivity) demoRoot [0] demoChild
    (rescale 100 100 unitRect (default unitRect (tilesOf (D := demoD3) DICE 100 100 demoRoot !! 0))))
    as (shown & H1 & H2 & _); [exact demo_sized|reflexivity|].
  exists shown. split; [exact H1|exact H2].
Defined.

Lemma treemap_escape_witness :
  exists shown, onKeydownHandler (D := demoD3) DICE 100 100 demoRoot [demoRoot; demoChild]
    = Ret (Some (shown, MemoryResourcesSetActiveResource demoRoot)).
Proof.
  destruct (treemap_escape (D := demoD3) DICE 100 100 ltac:(reflexivity) ltac:(reflexivity) None demoOpened.1 None
    demoRoot [demoRoot; demoChild]) as [[H _]|(shown & parent & s' & H1 & H2 & _)].
  - exists [demoChild]. split_and!; [reflexivity|split; [apply list_elem_of_here|exact I]|reflexivity|].
    apply (loaded_wellNumbered 1 512%Z demoTree); [reflexivity|repeat constructor; discriminate].
  - reflexivity.
  - reflexivity.
  - apply (bool_decide_unpack _). vm_compute. exact I.
  - exact demo_sized.
  - discriminate H.
  - exists shown. rewrite H1. do 2 f_equal. f_equal. vm_compute in H2. injection H2 as <-. reflexivity.
Defined.

End MemoryTreemap.
