(* ===== verification/DateHelper.v ===== *)
(** Relative times (frontend/src/app/shared/helpers/date.helper.ts): the text of
    the distance between two times and of elapsed durations. *)

From Stdlib Require Import Ascii.
From S2P Require Import Prelude JsRuntime.

(** * [String.prototype.trim] on blanks *)

Fixpoint trimStart (s : string) : string :=
  match s with
  | String c s' => if ascii_dec c " " then trimStart s' else s
  | EmptyString => ""
  end.

Fixpoint trimEnd (s : string) : string :=
  match s with
  | EmptyString => ""
  | String c s' => match trimEnd s' with
                   | EmptyString => if ascii_dec c " " then "" else String c ""
                   | t => String c t
                   end
  end.

Definition trim (s : string) : string := trimStart (trimEnd s).

(** * Distances *)

(** The second argument of [getTimeDiff]; an absent one has no field set. *)
Record TimeDiffConfig := mkConfig { withSecs : bool; only1unit : bool; fromTime : option Z }.
Definition noConfig : TimeDiffConfig := mkConfig false false None.

Record TimeDiff := mkDiff { diff : option string; inFuture : bool }.

Definition SECOND : Z := 1000.
Definition MINUTE : Z := 60 * SECOND.
Definition HOUR : Z := 60 * MINUTE.
Definition DAY : Z := 24 * HOUR.

(** [new Date(t).getTime()]; [None] is NaN, outside the range of dates. *)
Definition getTime (t : Z) : option Z := if (Z.abs t <=? 8640000000000000)%Z then Some t else None.

(** The units a distance is taken apart into. *)
Record Parts := mkParts { days : Z; hours : Z; minutes : Z; seconds : Z }.

Definition takeApart (timeDifference : Z) : Parts :=
  (let days := timeDifference / DAY in
   let timeDifference := timeDifference - days * DAY in
   let hours := timeDifference / HOUR in
   let timeDifference := timeDifference - hours * HOUR in
   let minutes := timeDifference / MINUTE in
   let timeDifference := timeDifference - minutes * MINUTE in
   mkParts days hours minutes (timeDifference / SECOND))%Z.

Definition oneUnit (secs : bool) (p : Parts) : string :=
  if (0 <? days p)%Z then
    if (12 <=? hours p)%Z then "<" +:+ showZ (days p + 1) +:+ "d " else "~" +:+ showZ (days p) +:+ "d "
  else if (0 <? hours p)%Z then
    if (30 <=? minutes p)%Z then "<" +:+ showZ (hours p + 1) +:+ "h " else "~" +:+ showZ (hours p) +:+ "h "
  else if (0 <? minutes p)%Z then
    if (30 <=? seconds p)%Z then "<" +:+ showZ (minutes p + 1) +:+ "m " else "~" +:+ showZ (minutes p) +:+ "m "
  else if secs then showZ (seconds p) +:+ "s " else "<1m ".

Definition allUnits (secs : bool) (p : Parts) : string :=
  let noDay := (days p =? 0)%Z in
  let noHour := (hours p =? 0)%Z in
  let noMinute := (minutes p =? 0)%Z in
  let timeAgo := "" in
  let timeAgo := if (0 <? days p)%Z then timeAgo +:+ showZ (days p) +:+ "d " else timeAgo in
  let timeAgo := if (0 <? hours p)%Z then timeAgo +:+ showZ (hours p) +:+ "h " else timeAgo in
  let timeAgo := if noDay && negb noHour && (0 <? minutes p)%Z
                 then timeAgo +:+ showZ (minutes p) +:+ "m " else timeAgo in
  let timeAgo := if noDay && noHour && (0 <? minutes p)%Z
                 then timeAgo +:+ showZ (minutes p) +:+ "m " else timeAgo in
  let timeAgo := if secs && noDay && noHour then timeAgo +:+ showZ (seconds p) +:+ "s " else timeAgo in
  if negb secs && noDay && noHour && noMinute then "<1m " else timeAgo.

(** When a time is NaN every comparison is false. *)
Definition nanText (c : TimeDiffConfig) : string :=
  if only1unit c then if withSecs c then "NaNs" else "<1m" else "".

(** [now] is [Date.now()]; times are whole milliseconds, or seconds when they
    have ten digits. *)
Definition getTimeDiff (now : Z) (config : TimeDiffConfig) (time : option Z) : TimeDiff :=
  match time with
  | None => mkDiff None false
  | Some t =>
      if (t =? 0)%Z then mkDiff None false else
      let t := if bool_decide (String.length (showZ t) = 10) then (t * ONE_THOUSAND)%Z else t in
      let currentTime := match fromTime config with
                         | Some f => if (f =? 0)%Z then Some now else getTime f
                         | None => Some now
                         end in
      match getTime t, currentTime with
      | Some paramTime, Some currentTime =>
          let timeDifference := (paramTime - currentTime)%Z in
          let p := takeApart (Z.abs timeDifference) in
          mkDiff (Some (trim (if only1unit config then oneUnit (withSecs config) p
                              else allUnits (withSecs config) p)))
            (0 <? timeDifference)%Z
      | _, _ => mkDiff (Some (nanText config)) false
      end
  end.

Definition getElapsedTime (timeInSeconds : Z) : string :=
  if (timeInSeconds <? 60)%Z then showZ timeInSeconds +:+ "s"
  else showZ (timeInSeconds / 60) +:+ "m " +:+ showZ (timeInSeconds mod 60) +:+ "s".

Definition getElapsedTimeInMinsAndHours (timeInMinutes : Z) : string :=
  if (timeInMinutes <? 60)%Z then showZ timeInMinutes +:+ "m"
  else showZ (timeInMinutes / 60) +:+ "h " +:+ showZ (timeInMinutes mod 60) +:+ "m".

(** * The text of a distance *)

Lemma string_app_assoc (s t u : string) : (s +:+ t) +:+ u = s +:+ (t +:+ u).
Proof. induction s as [|c s IH]; [done|]. exact (f_equal (String c) IH). Qed.

Lemma trimEnd_blank s c : c <> " "%char -> trimEnd (s +:+ String c " ") = s +:+ String c "".
Proof.
  intros Hc. induction s as [|d s IH].
  - change (trimEnd (String c " ") = String c ""). cbn.
    destruct (ascii_dec " " " "); [|done]. by destruct (ascii_dec c " ").
  - change (trimEnd (String d (s +:+ String c " ")) = String d (s +:+ String c "")).
    cbn [trimEnd]. rewrite IH. by destruct s.
Qed.

(** The first character is not a blank. *)
Definition notBlank (s : string) : Prop := match s with String c _ => c <> " "%char | EmptyString => True end.

Lemma trimStart_notBlank s : notBlank s -> trimStart s = s.
Proof. destruct s as [|c s]; [done|]. cbn. intros Hc. by destruct (ascii_dec c " "). Qed.

Lemma showZ_notBlank z s : (0 <= z)%Z -> notBlank s -> notBlank (showZ z +:+ s).
Proof.
  intros Hz Hs. pose proof (digitsValue_showZ z Hz) as H.
  destruct (showZ z) as [|c t]; [done|]. change (c <> " "%char). by intros ->.
Qed.

Lemma trim_text s c : c <> " "%char -> notBlank (s +:+ String c "") ->
  trim (s +:+ String c " ") = s +:+ String c "".
Proof. intros Hc Hs. unfold trim. by rewrite trimEnd_blank, trimStart_notBlank. Qed.

Lemma takeApart_spec d : (0 <= d)%Z ->
  takeApart d = mkParts (d / DAY) (d mod DAY / HOUR) (d mod HOUR / MINUTE) (d mod MINUTE / SECOND)%Z.
Proof.
  intros Hd. unfold takeApart, DAY, HOUR, MINUTE, SECOND. cbn.
  pose proof (Z.div_mod d 86400000). pose proof (Z.mod_pos_bound d 86400000).
  pose proof (Z.div_mod d 3600000). pose proof (Z.mod_pos_bound d 3600000).
  pose proof (Z.div_mod d 60000). pose proof (Z.mod_pos_bound d 60000).
  f_equal; Z.to_euclidean_division_equations; lia.
Qed.

(** The text the helper means to show: two units, of which the second is left
    out when it is zero, minutes only below a day. *)
Definition distanceText (d : Z) : string :=
  (let rest n unit := if (n =? 0)%Z then "" else " " +:+ showZ n +:+ unit in
   if d <? MINUTE then "<1m"
   else if d <? HOUR then showZ (d / MINUTE) +:+ "m"
   else if d <? DAY then showZ (d / HOUR) +:+ "h" +:+ rest (d mod HOUR / MINUTE) "m"
   else showZ (d / DAY) +:+ "d" +:+ rest (d mod DAY / HOUR) "h")%Z.

Lemma trim_one z c : (0 <= z)%Z -> c <> " "%char -> trim (showZ z +:+ String c " ") = showZ z +:+ String c "".
Proof. intros Hz Hc. apply trim_text; [done|]. by apply showZ_notBlank. Qed.

Lemma trim_two z1 z2 c1 c2 : (0 <= z1)%Z -> c1 <> " "%char -> c2 <> " "%char ->
  trim ((showZ z1 +:+ String c1 " ") +:+ (showZ z2 +:+ String c2 " ")) =
  showZ z1 +:+ (String c1 "" +:+ (" " +:+ (showZ z2 +:+ String c2 ""))).
Proof.
  intros Hz H1 H2. rewrite <- string_app_assoc, trim_text; [|done|].
  - by rewrite !string_app_assoc.
  - rewrite !string_app_assoc. by apply showZ_notBlank.
Qed.

Lemma allUnits_text d : (0 <= d)%Z -> trim (allUnits false (takeApart d)) = distanceText d.
Proof.
  intros Hd. rewrite takeApart_spec by done. unfold allUnits, distanceText. cbn [days hours minutes seconds].
  change ("" +:+ ?s) with s.
  assert (DAY = 24 * HOUR /\ HOUR = 60 * MINUTE /\ MINUTE = 60000)%Z as (HD & HH & HM) by done.
  destruct (Z.ltb_spec d MINUTE) as [H1|H1].
  { rewrite !(Z.mod_small d), !(Z.div_small d) by lia. done. }
  destruct (Z.ltb_spec d HOUR) as [H2|H2].
  { rewrite (Z.mod_small d DAY), (Z.mod_small d HOUR), (Z.div_small d DAY), (Z.div_small d HOUR) by lia.
    assert (0 < d / MINUTE)%Z by (apply Z.div_str_pos; lia).
    rewrite (proj2 (Z.ltb_lt _ _)), (proj2 (Z.eqb_neq (d / MINUTE) 0)) by lia. cbn. by apply trim_one; [lia|]. }
  assert (0 <= d mod HOUR / MINUTE)%Z as Hm by (apply Z.div_pos; [apply Z.mod_pos_bound|]; lia).
  destruct (Z.ltb_spec d DAY) as [H3|H3].
  { rewrite (Z.mod_small d DAY), (Z.div_small d DAY) by lia.
    assert (0 < d / HOUR)%Z by (apply Z.div_str_pos; lia).
    rewrite (proj2 (Z.ltb_lt 0 (d / HOUR))), (proj2 (Z.eqb_neq (d / HOUR) 0)) by lia. cbn.
    destruct (Z.eqb_spec (d mod HOUR / MINUTE) 0) as [->|Hne]; cbn.
    - by apply trim_one; [lia|].
    - rewrite (proj2 (Z.ltb_lt _ _)) by lia. by apply trim_two; [lia|..]. }
  assert (0 < d / DAY)%Z by (apply Z.div_str_pos; lia).
  assert (0 <= d mod DAY / HOUR)%Z as Hh by (apply Z.div_pos; [apply Z.mod_pos_bound|]; lia).
  rewrite (proj2 (Z.ltb_lt 0 (d / DAY))), (proj2 (Z.eqb_neq (d / DAY) 0)) by lia. cbn.
  destruct (Z.eqb_spec (d mod DAY / HOUR) 0) as [->|Hne]; cbn.
  - by apply trim_one; [lia|].
  - rewrite (proj2 (Z.ltb_lt _ _)) by lia. by apply trim_two; [lia|..].
Qed.

(** Without options the helper shows the distance of two times in the two
    largest units, rounded down, the second left out when it is zero, with
    minutes only below a day and [<1m] below a minute, and tells whether the
    time is in the future; a time with ten digits counts in seconds. *)
Theorem time_diff_text now t :
  t <> 0%Z -> let t' := if bool_decide (String.length (showZ t) = 10) then (t * 1000)%Z else t in
  (Z.abs t' <= 8640000000000000)%Z ->
  getTimeDiff now noConfig (Some t) = mkDiff (Some (distanceText (Z.abs (t' - now)))) (now <? t')%Z.
Proof.
  intros H0 t' Ht. unfold getTimeDiff. rewrite (proj2 (Z.eqb_neq t 0)) by done.
  change ONE_THOUSAND with 1000%Z. fold t'. unfold getTime. rewrite (proj2 (Z.leb_le _ _)) by done.
  cbn [fromTime noConfig only1unit withSecs]. rewrite allUnits_text by lia. f_equal.
  destruct (Z.ltb_spec 0 (t' - now)), (Z.ltb_spec now t'); lia.
Qed.

Lemma time_diff_text_witness :
  getTimeDiff 1700000000000 noConfig (Some 1700101400000%Z) = mkDiff (Some "1d 4h") true.
Proof. rewrite (time_diff_text 1700000000000 1700101400000); [vm_compute; reflexivity|lia|vm_compute; discriminate]. Defined.
