(* ===== verification/ScanStatePage.v ===== *)
(** The page of the scan state (frontend/src/app/features/snarks/scan-state): the
    page component with its timer, the toolbar with paging and search, the list of
    trees and the side panel, around the reducer of ScanState.v and the effect of
    Polling.v, as a step function over clicks, ticks, answers and addresses. *)

From S2P Require Import Prelude JsRuntime DateHelper ScanState Polling.

Module ScanStatePage.
Import ScanState.

(** * State *)

(** The parameter [heightOrHash] and the query parameter [jobId] of the address. *)
Record Route := mkRoute { paramHeight : option string; queryJob : option string }.

(** The page component; [timer] is the last subscription made. *)
Record Component := mkComponent {
  heightOrHash : option string;
  c_jobId : option string;
  c_stream : option bool;
  timer : option nat;
  nodeChanged : bool;
  c_open : bool
}.

(** The toolbar.  [search] is the value of the form, [null] when cleared, and
    [lastSearch] what [distinctUntilChanged] let pass last. *)
Record Toolbar := mkToolbar {
  t_block : option ScanStateBlock;
  search : option string;
  t_stream : bool;
  t_treeView : bool;
  t_highlight : bool;
  gotHeightFromForm : bool;
  lastSearch : option (option string);
  maxBlockHeight : option Z
}.

(** The list of trees. *)
Record TreeList := mkTreeList {
  l_height : option Z;
  l_trees : list ScanStateTree;
  l_error : bool;
  l_leaf : option ScanStateLeaf;
  activeJobIdInRoute : option string
}.

(** The side panel; its block is [{}] at first. *)
Record SidePanel := mkSidePanel {
  activeStep : nat;
  p_block : option ScanStateBlock;
  workingSnarkersLength : nat;
  hasError : bool;
  p_leaf : option ScanStateLeaf
}.

(** [asked] is the node the request under way was sent to, [timers] the timers
    that still tick, [navigating] the navigation that has not completed. *)
Record World := mkWorld {
  slice : ScanStateState;
  storage : Storage;
  flow : Polling.ScanFlow;
  asked : option string;
  node : string;
  route : Route;
  navigating : option Route;
  timers : list nat;
  nextTimer : nat;
  page : Component;
  toolbar : Toolbar;
  treeList : TreeList;
  panel : SidePanel
}.

#[export, refine] Instance Component_copy : RecordCopy Component := {
  record_copy c := mkComponent (heightOrHash c) (c_jobId c) (c_stream c) (timer c) (nodeChanged c) (c_open c) }.
Proof. by intros []. Defined.
#[export, refine] Instance Toolbar_copy : RecordCopy Toolbar := {
  record_copy t := mkToolbar (t_block t) (search t) (t_stream t) (t_treeView t) (t_highlight t)
    (gotHeightFromForm t) (lastSearch t) (maxBlockHeight t) }.
Proof. by intros []. Defined.
#[export, refine] Instance TreeList_copy : RecordCopy TreeList := {
  record_copy l := mkTreeList (l_height l) (l_trees l) (l_error l) (l_leaf l) (activeJobIdInRoute l) }.
Proof. by intros []. Defined.
#[export, refine] Instance SidePanel_copy : RecordCopy SidePanel := {
  record_copy p := mkSidePanel (activeStep p) (p_block p) (workingSnarkersLength p) (hasError p) (p_leaf p) }.
Proof. by intros []. Defined.
#[export, refine] Instance World_copy : RecordCopy World := {
  record_copy w := mkWorld (slice w) (storage w) (flow w) (asked w) (node w) (route w) (navigating w) (timers w)
    (nextTimer w) (page w) (toolbar w) (treeList w) (panel w) }.
Proof. by intros []. Defined.

(** * Subscriptions *)

Definition createTimer (w : World) : World :=
  w <| timers := timers w ++ [nextTimer w] |> <| nextTimer := S (nextTimer w) |>
    <| page := (page w) <| timer := Some (nextTimer w) |> |>.

(** [this.timer?.unsubscribe()] *)
Definition unsubscribe (w : World) : World :=
  w <| timers := List.filter (fun i => negb (bool_decide (timer (page w) = Some i))) (timers w) |>.

Definition listenToStreamChange (w : World) (s : bool) : World :=
  if bool_decide (c_stream (page w) = Some s) then w
  else let w := w <| page := (page w) <| c_stream := Some s |> |> in
       if s then createTimer w else unsubscribe w.

(** [openSidePanel] and [activeJobId] of the page component. *)
Definition listenToPage (s : ScanStateState) (c : Component) : Component :=
  c <| c_jobId := activeJobId s |> <| c_open := openSidePanel s |>.

(** [listenToTreesChanges] of the toolbar: the searched text is cleared when
    another block is shown than the one it found. *)
Definition listenToTreesChanges (b : option ScanStateBlock) (t : Toolbar) : Toolbar :=
  let t := t <| t_block := b |> in
  let found := match search t with
               | Some v => bool_decide ((b ≫= blockHash) = Some v)
                           || bool_decide ((showZ <$> (b ≫= height)) = Some v)
               | None => false
               end in
  if negb found && gotHeightFromForm t then t <| search := None |> <| gotHeightFromForm := false |> else t.

Definition listenToToolbar (s : ScanStateState) (t : Toolbar) : Toolbar :=
  t <| t_stream := stream s |> <| t_treeView := treeView s |> <| t_highlight := highlightSnarkPool s |>.

(** [listenToTreesChanges] and [listenToActiveJobID] of the list of trees. *)
Definition treeListBlock (b : option ScanStateBlock) (l : TreeList) : TreeList :=
  match b with
  | None => l
  | Some b => l <| l_height := height b |> <| l_trees := trees b |> <| l_error := length (trees b) =? 0 |>
  end.
Definition treeListLeaf (leaf : option ScanStateLeaf) (l : TreeList) : TreeList :=
  l <| l_leaf := leaf |> <| activeJobIdInRoute := None |>.

(** The key of a tree in the list: its counters, written one behind the other. *)
Definition trackTree (t : ScanStateTree) : string :=
  showNat (ongoing t) +:+ showNat (availableJobs t) +:+ showNat (completedSnarks t) +:+ showNat (empty t)
  +:+ showNat (coinbase t) +:+ showNat (payment t) +:+ showNat (zkApp t) +:+ showNat (feeTransfer t)
  +:+ showNat (merge t).

(** The leaf shown by the details of a job. *)
Definition jobDetails (shown leaf : option ScanStateLeaf) : option ScanStateLeaf :=
  match leaf with
  | None => shown
  | Some l => Some (l <| jobIndex := None |> <| treeIndex := None |> <| scrolling := None |>)
  end.

(** [listenToBlockChange] and [listenToActiveJobID] of the side panel. *)
Definition listenToBlockChange (b : option ScanStateBlock) (p : SidePanel) : SidePanel :=
  match b with
  | None => p
  | Some b =>
      let n := countIf (fun s => negb (length (snarkerLeafs s) =? 0)) (workingSnarkers b) in
      p <| p_block := Some b |> <| workingSnarkersLength := n |>
        <| hasError := negb (length (workingSnarkers b) =? n) |>
  end.
Definition listenToActiveJobID (leaf : option ScanStateLeaf) (p : SidePanel) : SidePanel :=
  p <| p_leaf := leaf |> <| activeStep := match leaf with Some _ => 1 | None => activeStep p end |>.

(** The actions that assign a new block and a new leaf. *)
Definition assignsBlock (a : ScanStateActions) : bool :=
  match a with ScanStateGetBlockSuccess _ => true | _ => false end.
Definition assignsLeaf (a : ScanStateActions) : bool :=
  match a with
  | ScanStateGetBlockSuccess _ | ScanStateToggleSidePanel | ScanStateSetActiveLeaf _ => true
  | _ => false
  end.

Definition notify (w : World) (a : ScanStateActions) : World :=
  let s := slice w in
  let w := listenToStreamChange w (stream s) in
  let onBlock {T} (f : option ScanStateBlock -> T -> T) x := if assignsBlock a then f (block s) x else x in
  let onLeaf {T} (f : option ScanStateLeaf -> T -> T) x := if assignsLeaf a then f (activeLeaf s) x else x in
  w <| page := listenToPage s (page w) |>
    <| toolbar := listenToToolbar s (onBlock listenToTreesChanges (toolbar w)) |>
    <| treeList := onLeaf treeListLeaf (onBlock treeListBlock (treeList w)) |>
    <| panel := onLeaf listenToActiveJobID (onBlock listenToBlockChange (panel w)) |>.

(** * Actions *)

Section Page.
(** [isDesktop()], the storage when the application was loaded, and the text of
    an address, [router.url]. *)
Context (desktop : bool) (atLoad : Storage) (routerUrl : Route -> string).

(** The effect of an action.  [SCAN_STATE_INIT], which it dispatches for a request
    of a paused page, changes nothing here; [Polling.inits] counts it. *)
Definition effect (w : World) (a : ScanStateActions) : World :=
  match a with
  | ScanStateGetBlock h =>
      w <| asked := if sameHeight h (Polling.inProgress (flow w)) then asked w else Some (node w) |>
        <| flow := Polling.scanStep (flow w) (Polling.GetBlock h (stream (slice w))) |>
  | _ => w
  end.

Definition dispatch (w : World) (a : ScanStateActions) : World :=
  let '(s, st) := reducer desktop atLoad (slice w) (storage w) a in
  effect (notify (w <| slice := s |> <| storage := st |>) a) a.

(** ** The page component *)

Definition heightOf (param : option string) : Height :=
  match param with Some h => HText h | None => HUndefined end.

(** The subscription to the active node in [getBlock]. *)
Definition getBlock (w : World) : World :=
  let h := if nodeChanged (page w) then HUndefined else heightOf (heightOrHash (page w)) in
  let w := dispatch w (ScanStateGetBlock h) in
  w <| page := (page w) <| nodeChanged := true |> |>.

(** The subscription to the address. *)
Definition listenToRoute (w : World) : World :=
  let w := w <| page := (page w) <| heightOrHash := paramHeight (route w) |> |> in
  if truthyStr (queryJob (route w)) && negb (bool_decide (c_jobId (page w) = queryJob (route w)))
  then dispatch w (ScanStateSetActiveJobId (queryJob (route w))) else w.

(** ** The toolbar *)

Definition getHeight (w : World) (h : Height) : World :=
  let w := dispatch w (ScanStateGetBlock h) in
  if t_stream (toolbar w) && truthyHeight h then dispatch w ScanStatePause
  else if negb (t_stream (toolbar w)) && negb (truthyHeight h) then dispatch w ScanStateStart
  else w.

Definition clearForm (w : World) : World := w <| toolbar := (toolbar w) <| search := None |> |>.

(** [block?.height + d] *)
Definition heightBy (w : World) (d : Z) : Height :=
  match t_block (toolbar w) ≫= height with Some h => HNumber (h + d) | None => HNaN end.

(** [block?.trees.length === 0] *)
Definition noTrees (w : World) : bool :=
  match t_block (toolbar w) with Some b => length (trees b) =? 0 | None => false end.
Definition prevDisabled (w : World) : bool :=
  noTrees w || bool_decide ((t_block (toolbar w) ≫= height) = Some 0%Z).
Definition nextDisabled (w : World) : bool :=
  noTrees w || match t_block (toolbar w) ≫= height, maxBlockHeight (toolbar w) with
               | Some h, Some m => (m <=? h)%Z
               | _, _ => false
               end.

(** The input loses the focus: [debounceTime] has passed. *)
Definition listenToInputChanges (w : World) : World :=
  let value := search (toolbar w) in
  if bool_decide (lastSearch (toolbar w) = Some value) then w
  else let w := w <| toolbar := (toolbar w) <| lastSearch := Some value |> |> in
       match value with
       | Some v => if bool_decide (v = "") then w
                   else getHeight (w <| toolbar := (toolbar w) <| gotHeightFromForm := true |> |>) (HText (trim v))
       | None => w
       end.

Definition toggleTreeView (w : World) (tree : bool) : World :=
  if Bool.eqb tree (t_treeView (toolbar w)) then w else dispatch w ScanStateToggleTreeView.

(** ** The list of trees *)

Definition checkLatestHeight (w : World) : World :=
  dispatch (dispatch w (ScanStateGetBlock HNull)) ScanStateStart.

(** A click on a cell of the chart of a tree; [router.navigate] throws for a block
    without height. *)
Definition clickLeaf (w : World) (leaf : ScanStateLeaf) : World :=
  let w := dispatch w (ScanStateSetActiveLeaf (Some leaf)) in
  match l_height (treeList w) with
  | Some h => w <| navigating := Some (mkRoute (Some (showZ h)) (bundle_job_id leaf)) |>
  | None => w
  end.

(** ** The side panel *)

(** [None]: [router.navigate] throws, as the block has no height. *)
Definition routeToJobId (w : World) (jobId : option string) : option World :=
  match p_block (panel w) ≫= height with
  | Some h => Some (w <| navigating := Some (mkRoute (Some (showZ h)) jobId) |>)
  | None => None
  end.

Definition openSnarkerDetails (w : World) (leaf : ScanStateLeaf) : World :=
  let w := dispatch w (ScanStateSetActiveLeaf (Some (leaf <| scrolling := Some true |>))) in
  default w (routeToJobId w (bundle_job_id leaf)).

Definition removeActiveJobId (w : World) : World :=
  let w := dispatch w (ScanStateSetActiveLeaf None) in
  match routeToJobId w None with
  | Some w => w <| panel := (panel w) <| activeStep := 0 |> |>
  | None => w
  end.

Definition toggleSidePanel (w : World) : World := removeActiveJobId (dispatch w ScanStateToggleSidePanel).

(** [goToWorkPool]: the address opened in a new window. *)
Definition goToWorkPool (origin nodeParam : string) (w : World) : exec string :=
  match p_leaf (panel w) with
  | None => Throw (TypeError "Cannot read properties of undefined (reading 'bundle_job_id')")
  | Some leaf =>
      Ret (origin +:+ "/snarks/work-pool/" +:+ default "undefined" (bundle_job_id leaf) +:+ "?node=" +:+ nodeParam)
  end.

(** * Steps *)

Inductive Event :=
| SwitchNode (n : string)
| Tick (i : nat)
| Answer (b : ScanStateBlock)
| Failure
| Navigated
| Visit (r : Route)
| Type_ (text : string)
| FocusOut
| PrevBlock
| NextBlock
| LastBlock
| GoLive
| Pause
| TreeView (tree : bool)
| HighlightPool
| ToggleToolbar
| TogglePanel
| OpenSnarker (leaf : ScanStateLeaf)
| BackToBlock
| ClickLeaf (leaf : ScanStateLeaf)
| CheckLatest
| Resized
| NodeDetails (blockHeight : option Z).

(** The end of a request, with the block that is shown. *)
Definition ended (w : World) (b : ScanStateBlock) : World :=
  dispatch (w <| flow := Polling.scanStep (flow w) Polling.Ended |> <| asked := None |>) (ScanStateGetBlockSuccess b).

Definition step (w : World) (e : Event) : World :=
  match e with
  | SwitchNode n => if bool_decide (n = node w) then w else getBlock (w <| node := n |>)
  | Tick i => if bool_decide (i ∈ timers w) then dispatch w (ScanStateGetBlock HUndefined) else w
  | Answer b =>
      match Polling.scanFlight (flow w) with
      | None => w
      | Some _ =>
          match Polling.scanNavigates (routerUrl (route w)) b with
          | None => ended w failedBlock
          | Some true => ended (w <| navigating := Some (mkRoute (showZ <$> height b) (queryJob (route w))) |>) b
          | Some false => ended w b
          end
      end
  | Failure =>
      match Polling.scanFlight (flow w) with
      | None => w
      | Some _ => ended w failedBlock
      end
  | Navigated =>
      match navigating w with
      | None => w
      | Some r => listenToRoute (w <| route := r |> <| navigating := None |>)
      end
  | Visit r => listenToRoute (w <| route := r |> <| navigating := None |>)
  | Type_ text => w <| toolbar := (toolbar w) <| search := Some text |> |>
  | FocusOut => listenToInputChanges w
  | PrevBlock => if prevDisabled w then w else getHeight (clearForm w) (heightBy w (-1))
  | NextBlock => if nextDisabled w then w else getHeight (clearForm w) (heightBy w 1)
  | LastBlock => getHeight (clearForm w) HNull
  | GoLive => dispatch w ScanStateStart
  | Pause => dispatch w ScanStatePause
  | TreeView tree => toggleTreeView w tree
  | HighlightPool => dispatch w ScanStateHighlightSnarkPool
  | ToggleToolbar => dispatch w ScanStateToggleSidePanel
  | TogglePanel => toggleSidePanel w
  | OpenSnarker leaf => openSnarkerDetails w leaf
  | BackToBlock => removeActiveJobId w
  | ClickLeaf leaf => clickLeaf w leaf
  | CheckLatest => checkLatestHeight w
  | Resized => dispatch w ScanStateSidebarResized
  | NodeDetails h => w <| toolbar := (toolbar w) <| maxBlockHeight := h |> |>
  end.

(** [ngOnInit] of the components at an address.  The job of the address is
    dispatched before the other subscriptions: once when there is one, and once
    more, with or without a job, when the address has a height. *)
Definition routeActions (r : Route) : list ScanStateActions :=
  ScanStateInit ::
  (if truthyStr (queryJob r) then [ScanStateSetActiveJobId (queryJob r)] else []) ++
  (if truthyStr (paramHeight r) then [ScanStateSetActiveJobId (queryJob r)] else []).

Definition mount (st : Storage) (f : Polling.ScanFlow) (n : string) (r : Route) : World :=
  let '(s, st) := fold_left (fun '(s, st) a => reducer desktop atLoad s st a) (routeActions r)
                    (initialState desktop atLoad, st) in
  let c := mkComponent (paramHeight r) None None None false false in
  let w := mkWorld s st f None n r None [] 0 c (mkToolbar None (Some "") (stream s) (treeView s) (highlightSnarkPool s)
             false None None) (mkTreeList None [] false None (queryJob r)) (mkSidePanel 0 None 0 false None) in
  let w := getBlock (listenToStreamChange w (stream s)) in
  w <| page := listenToPage s (page w) |>.

(** [ngOnDestroy] ends the subscriptions and the timers and closes the slice; the
    effect drops its request.  The page can then be opened at another address. *)
Definition reopen (w : World) (r : Route) : World :=
  mount (storage w) (Polling.scanStep (flow w) Polling.Close) (node w) r.

(** * The page and its parts agree *)

(** One timer ticks while the page streams and none while it is paused. *)
Definition running (w : World) (s : bool) : Prop :=
  c_stream (page w) = Some s /\
  timers w = (if s then option_list (timer (page w)) else []) /\
  (s = true -> is_Some (timer (page w))).

Record Sound (w : World) : Prop := {
  sound_running : running w (stream (slice w));
  sound_page : c_jobId (page w) = activeJobId (slice w) /\ c_open (page w) = openSidePanel (slice w);
  sound_toolbar : t_block (toolbar w) = block (slice w) /\ t_stream (toolbar w) = stream (slice w) /\
    t_treeView (toolbar w) = treeView (slice w) /\ t_highlight (toolbar w) = highlightSnarkPool (slice w);
  sound_flow : Polling.scanSound (flow w);
  sound_asked : is_Some (asked w) <-> is_Some (Polling.scanFlight (flow w));
  sound_shown : l_height (treeList w) = block (slice w) ≫= height /\ p_block (panel w) = block (slice w);
  sound_leaf : l_leaf (treeList w) = activeLeaf (slice w) /\ p_leaf (panel w) = activeLeaf (slice w);
  sound_step : is_Some (p_leaf (panel w)) -> activeStep (panel w) = 1;
  sound_route : heightOrHash (page w) = paramHeight (route w)
}.

(** A report about the stream changes the timers and nothing else. *)
Lemma listenToStreamChange_running w b s : running w b ->
  exists ts n c, listenToStreamChange w s = w <| timers := ts |> <| nextTimer := n |> <| page := c |> /\
    running (w <| timers := ts |> <| nextTimer := n |> <| page := c |>) s /\
    heightOrHash c = heightOrHash (page w) /\ nodeChanged c = nodeChanged (page w) /\
    (b = s -> ts = timers w /\ timer c = timer (page w)).
Proof.
  destruct w as [sl st f a nd r nv ts n [h j cs t nc o] tb tl p]. unfold running. cbn.
  intros (-> & Hts & Ht). unfold listenToStreamChange. cbn.
  destruct (bool_decide (Some b = Some s)) eqn:E.
  - apply bool_decide_eq_true in E as [= <-]. by eexists ts, n, _.
  - apply bool_decide_eq_false in E. destruct s, b; try done.
    + subst ts. eexists _, _, _. split; [reflexivity|]. cbn. naive_solver.
    + subst ts. destruct (Ht eq_refl) as [i ->]. exists [], n, (mkComponent h j (Some false) (Some i) nc o).
      split; [unfold unsubscribe; cbn; by rewrite bool_decide_true|]. cbn. naive_solver.
Qed.

(** What an action other than the close of the page leaves alone. *)
Lemma reducer_keeps s st a : a <> ScanStateClose ->
  let s' := (reducer desktop atLoad s st a).1 in
  (if assignsBlock a then is_Some (block s') else block s' = block s) /\
  (assignsLeaf a = false -> activeLeaf s' = activeLeaf s).
Proof. destruct a; cbn; try done; eauto. Qed.

Lemma effect_flow w a :
  exists f o, effect w a = w <| asked := o |> <| flow := f |> /\
    (Polling.scanSound (flow w) -> Polling.scanSound f) /\
    ((is_Some (asked w) <-> is_Some (Polling.scanFlight (flow w))) -> is_Some o <-> is_Some (Polling.scanFlight f)).
Proof.
  destruct w as [sl st f o nd r nv ts n c tb tl p]. destruct a as [| | |h| | | | | | | | |];
    try (by eexists f, o).
  eexists _, _. split; [reflexivity|]. cbn [flow asked]. split; [apply Polling.scanStep_sound|].
  cbn. destruct (sameHeight _ _); [done|]. cbn. naive_solver.
Qed.

Lemma listenToTreesChanges_block b t :
  t_block (listenToTreesChanges b t) = b.
Proof. unfold listenToTreesChanges. cbn. by case_match. Qed.

(** An action makes the page component agree as well. *)
Lemma dispatch_establishes w a : a <> ScanStateClose ->
  Sound (w <| page := listenToPage (slice w) (page w) |>) -> Sound (dispatch w a).
Proof.
  intros Ha Hs. unfold dispatch. pose proof (reducer_keeps (slice w) (storage w) a Ha) as [Hb Hl].
  destruct (reducer _ _ _ _ a) as [s st]. cbn in Hb, Hl.
  set (w1 := w <| slice := s |> <| storage := st |>).
  destruct (effect_flow (notify w1 a) a) as (f & o & -> & Hf & Ho).
  assert (running w1 (stream (slice w))) as Hr by exact (sound_running _ Hs).
  destruct (listenToStreamChange_running w1 _ (stream s) Hr) as (ts & n & c & Eq & Hr' & Hh & _).
  unfold notify in *. change (slice w1) with s in *. rewrite Eq in *. clear Eq.
  destruct Hs as [_ _ (Htb & _) Hfl Hask (Hlh & Hpb) (Hll & Hpl) Hst Hrt].
  cbn in Htb, Hfl, Hask, Hlh, Hpb, Hll, Hpl, Hst, Hrt. split; cbn; [done|done| | | | | | |by rewrite Hh].
  - split_and!; try done. destruct (assignsBlock a); [apply listenToTreesChanges_block|]. by rewrite Htb, Hb.
  - by apply Hf.
  - by apply Ho.
  - destruct (assignsBlock a); [destruct Hb as [b ->]|rewrite Hb]; by destruct (assignsLeaf a).
  - destruct (assignsLeaf a); [done|]. rewrite Hl by done.
    destruct (assignsBlock a); [|done]. unfold treeListBlock, listenToBlockChange. by destruct (block s).
  - destruct (assignsLeaf a); cbn; [by intros [? ->]|].
    destruct (assignsBlock a); [|done]. unfold listenToBlockChange. by destruct (block s).
Qed.

Lemma sound_listenToPage w : Sound w -> Sound (w <| page := listenToPage (slice w) (page w) |>).
Proof. intros []. by split. Qed.

Lemma dispatch_sound w a : a <> ScanStateClose -> Sound w -> Sound (dispatch w a).
Proof. intros Ha Hs. by apply dispatch_establishes, sound_listenToPage. Qed.

(** What a report about the stream leaves alone. *)
Lemma stream_frame w b :
  let w' := listenToStreamChange w b in
  slice w' = slice w /\ storage w' = storage w /\ node w' = node w /\ route w' = route w /\
  navigating w' = navigating w /\ flow w' = flow w /\ asked w' = asked w.
Proof. unfold listenToStreamChange, createTimer, unsubscribe. destruct (bool_decide _); [done|]. by destruct b. Qed.

(** What a dispatched action does to the parts other than the components. *)
Lemma dispatch_frame w a :
  slice (dispatch w a) = (reducer desktop atLoad (slice w) (storage w) a).1 /\
  storage (dispatch w a) = (reducer desktop atLoad (slice w) (storage w) a).2 /\
  node (dispatch w a) = node w /\ route (dispatch w a) = route w /\ navigating (dispatch w a) = navigating w /\
  ((forall h, a <> ScanStateGetBlock h) -> flow (dispatch w a) = flow w /\ asked (dispatch w a) = asked w).
Proof.
  unfold dispatch. destruct (reducer _ _ _ _ a) as [s st]. cbn.
  destruct (stream_frame (w <| slice := s |> <| storage := st |>) (stream s)) as (H1 & H2 & H3 & H4 & H5 & H6 & H7).
  destruct a; cbn; split_and!; try assumption; intros Hn; [..|by split]; try (by split). by destruct (Hn _ eq_refl).
Qed.

(** No action touches what the page remembers of the node and of the last search. *)
Lemma dispatch_locals w a :
  nodeChanged (page (dispatch w a)) = nodeChanged (page w) /\
  lastSearch (toolbar (dispatch w a)) = lastSearch (toolbar w).
Proof.
  assert (forall v b, nodeChanged (page (listenToStreamChange v b)) = nodeChanged (page v) /\
    lastSearch (toolbar (listenToStreamChange v b)) = lastSearch (toolbar v)) as Hv.
  { intros v b. unfold listenToStreamChange, createTimer, unsubscribe. destruct (bool_decide _); [done|]. by destruct b. }
  assert (forall b t, lastSearch (listenToTreesChanges b t) = lastSearch t) as Ht.
  { intros b t. unfold listenToTreesChanges. cbn. by case_match. }
  unfold dispatch. destruct (reducer _ _ _ _ a) as [s st].
  destruct (Hv (w <| slice := s |> <| storage := st |>) (stream s)) as [H1 H2].
  destruct a; cbn; rewrite ?Ht; done.
Qed.

Lemma dispatch_getBlock w h :
  let w' := dispatch w (ScanStateGetBlock h) in
  flow w' = Polling.scanStep (flow w) (Polling.GetBlock h (stream (slice w))) /\
  asked w' = if sameHeight h (Polling.inProgress (flow w)) then asked w else Some (node w).
Proof.
  cbn zeta. unfold dispatch. cbn [reducer].
  set (w1 := w <| slice := slice w |> <| storage := storage w |>).
  destruct (stream_frame w1 (stream (slice w))) as (H1 & _ & H3 & _ & _ & H6 & H7).
  cbn. fold w1. by rewrite H1, H3, H6, H7.
Qed.

Ltac sound_local := let H := fresh in intros H; destruct H; split; done.

Lemma sound_navigating w x : Sound w -> Sound (w <| navigating := x |>).
Proof. sound_local. Qed.
Lemma sound_node w n : Sound w -> Sound (w <| node := n |>).
Proof. sound_local. Qed.
Lemma sound_nodeChanged w b : Sound w -> Sound (w <| page := (page w) <| nodeChanged := b |> |>).
Proof. sound_local. Qed.
Lemma sound_search w x : Sound w -> Sound (w <| toolbar := (toolbar w) <| search := x |> |>).
Proof. sound_local. Qed.
Lemma sound_lastSearch w x : Sound w -> Sound (w <| toolbar := (toolbar w) <| lastSearch := x |> |>).
Proof. sound_local. Qed.
Lemma sound_fromForm w b : Sound w -> Sound (w <| toolbar := (toolbar w) <| gotHeightFromForm := b |> |>).
Proof. sound_local. Qed.
Lemma sound_maxHeight w x : Sound w -> Sound (w <| toolbar := (toolbar w) <| maxBlockHeight := x |> |>).
Proof. sound_local. Qed.

Create HintDb page.
Hint Resolve dispatch_sound sound_navigating sound_node sound_nodeChanged sound_search sound_lastSearch
  sound_fromForm sound_maxHeight : page.
Hint Extern 1 (_ <> ScanStateClose) => discriminate : page.

Lemma getHeight_sound w h : Sound w -> Sound (getHeight w h).
Proof. intros Hs. unfold getHeight. repeat case_match; auto with page. Qed.

Lemma getBlock_sound w : Sound w -> Sound (getBlock w).
Proof. intros Hs. unfold getBlock. auto with page. Qed.

Lemma listenToRoute_sound w r : Sound w -> Sound (listenToRoute (w <| route := r |> <| navigating := None |>)).
Proof.
  intros Hs. unfold listenToRoute.
  set (w1 := _ <| page := _ |>). assert (Sound w1) by (by destruct Hs; split).
  case_match; auto with page.
Qed.

Lemma ended_sound w b : Sound w -> Sound (ended w b).
Proof.
  intros Hs. unfold ended. apply dispatch_sound; [done|].
  destruct Hs as [Hr Hp Ht Hf Ha Hsh Hl Hst Hrt]. split; try done.
  - cbn [flow field_update record_copy World_copy]. by apply Polling.scanStep_sound.
  - cbn. destruct (Polling.scanFlight (flow w)) eqn:E; cbn; [|rewrite E]; split; by intros [? ?].
Qed.

Lemma removeActiveJobId_sound w : Sound w -> Sound (removeActiveJobId w).
Proof.
  intros Hs. unfold removeActiveJobId.
  assert (Sound (dispatch w (ScanStateSetActiveLeaf None))) as Hd by auto with page.
  assert (p_leaf (panel (dispatch w (ScanStateSetActiveLeaf None))) = None) as Hl.
  { rewrite (proj2 (sound_leaf _ Hd)). by rewrite (proj1 (dispatch_frame _ _)). }
  revert Hd Hl. generalize (dispatch w (ScanStateSetActiveLeaf None)). intros w' Hd Hl.
  unfold routeToJobId. destruct (p_block (panel w') ≫= height); [|done].
  destruct Hd as [Hr Hp Ht Hf Ha Hsh Hlf Hst Hrt]. split; try done. cbn. rewrite Hl. by intros [? ?].
Qed.
Hint Resolve getHeight_sound getBlock_sound listenToRoute_sound ended_sound removeActiveJobId_sound : page.

Lemma step_sound w e : Sound w -> Sound (step w e).
Proof.
  intros Hs. destruct e; cbn [step];
    try (unfold listenToInputChanges, clearForm, toggleTreeView, checkLatestHeight, toggleSidePanel,
           openSnarkerDetails, clickLeaf, routeToJobId;
         repeat case_match; cbn [default from_option id]; auto 8 with page).
Qed.

(** No request is under way. *)
Definition idle (f : Polling.ScanFlow) : Prop :=
  Polling.scanFlight f = None /\ Polling.inProgress f = HNull.

(** The address decides whether the page starts paused, and on which job. *)
Definition paused (r : Route) : bool := truthyStr (queryJob r) || truthyStr (paramHeight r).
Definition mountedSlice (r : Route) : ScanStateState :=
  (initialState desktop atLoad)
    <| activeJobId := if paused r then queryJob r else None |> <| stream := negb (paused r) |>.

Lemma routeActions_slice st r :
  fold_left (fun '(s, st) a => reducer desktop atLoad s st a) (routeActions r) (initialState desktop atLoad, st)
  = (mountedSlice r, st).
Proof. unfold routeActions, mountedSlice, paused. by destruct (truthyStr (queryJob r)), (truthyStr (paramHeight r)). Qed.

(** The page at an address, before its first request. *)
Definition opening (st : Storage) (f : Polling.ScanFlow) (n : string) (r : Route) : World :=
  let s := mountedSlice r in
  listenToStreamChange
    (mkWorld s st f None n r None [] 0 (mkComponent (paramHeight r) None None None false false)
      (mkToolbar None (Some "") (stream s) (treeView s) (highlightSnarkPool s) false None None)
      (mkTreeList None [] false None (queryJob r)) (mkSidePanel 0 None 0 false None)) (stream s).

Lemma opening_frame st f n r : let w := opening st f n r in
  slice w = mountedSlice r /\ storage w = st /\ node w = n /\ route w = r /\ navigating w = None /\
  flow w = f /\ asked w = None /\ nodeChanged (page w) = false /\ heightOrHash (page w) = paramHeight r.
Proof. unfold opening, mountedSlice. by destruct (paused r). Qed.

Lemma opening_sound st f n r : idle f -> let w := opening st f n r in
  Sound (w <| page := listenToPage (slice w) (page w) |>).
Proof.
  intros [Hf Hp]. cbn zeta. destruct (opening_frame st f n r) as (_ & _ & _ & _ & _ & Ef & Ea & _).
  unfold opening, mountedSlice in *.
  destruct (paused r); split; try done; try (by intros [? ?]);
    cbn [flow asked field_update record_copy World_copy]; unfold Polling.scanSound; rewrite ?Ef, ?Ea, Hf;
    try done; split; by intros [? ?].
Qed.

Lemma mount_opening st f n r :
  mount st f n r = let w := getBlock (opening st f n r) in w <| page := listenToPage (mountedSlice r) (page w) |>.
Proof. unfold mount. by rewrite routeActions_slice. Qed.

Lemma getBlock_first w :
  Sound (w <| page := listenToPage (slice w) (page w) |>) -> nodeChanged (page w) = false ->
  Polling.inProgress (flow w) = HNull ->
  let w' := getBlock w in
  Sound w' /\ slice w' = slice w /\ storage w' = storage w /\ node w' = node w /\ route w' = route w /\
  navigating w' = navigating w /\ asked w' = Some (node w) /\
  Polling.scanFlight (flow w') = Some (heightOf (heightOrHash (page w))).
Proof.
  intros Ho Hn Hp. cbn zeta. unfold getBlock. rewrite Hn. set (h := heightOf (heightOrHash (page w))).
  assert (sameHeight h (Polling.inProgress (flow w)) = false) as Hd.
  { rewrite Hp. unfold h. by destruct (heightOrHash (page w)). }
  pose proof (dispatch_establishes w (ScanStateGetBlock h) ltac:(done) Ho) as Hs.
  destruct (dispatch_frame w (ScanStateGetBlock h)) as (F1 & F2 & F3 & F4 & F5 & _).
  destruct (dispatch_getBlock w h) as [G1 G2]. rewrite Hd in G2.
  apply (f_equal Polling.scanFlight) in G1. unfold Polling.scanStep in G1. rewrite Hd in G1.
  revert Hs F1 F2 F3 F4 F5 G1 G2. generalize (dispatch w (ScanStateGetBlock h)). intros w' Hs.
  intros F1 F2 F3 F4 F5 G1 G2. split; [by apply sound_nodeChanged|]. done.
Qed.

(** The page opened at an address: its parts agree, and the block of the address,
    or the latest one, is being requested. *)
Lemma mount_sound st f n r : idle f -> let w := mount st f n r in
  Sound w /\ slice w = mountedSlice r /\ storage w = st /\ node w = n /\ route w = r /\
  navigating w = None /\ asked w = Some n /\ Polling.scanFlight (flow w) = Some (heightOf (paramHeight r)) /\
  nodeChanged (page w) = true.
Proof.
  intros Hi. cbn zeta. rewrite mount_opening.
  destruct (opening_frame st f n r) as (E1 & E2 & E3 & E4 & E5 & E6 & E7 & E8 & E9).
  destruct (getBlock_first (opening st f n r)) as (Hs & F1 & F2 & F3 & F4 & F5 & F6 & F7);
    [by apply opening_sound|done|by rewrite E6; apply Hi|].
  assert (nodeChanged (page (getBlock (opening st f n r))) = true) as Hc by done.
  rewrite E9 in F7. rewrite E1 in F1. rewrite <- F1.
  revert Hs F1 F2 F3 F4 F5 F6 F7 Hc. generalize (getBlock (opening st f n r)). intros w Hs F1 F2 F3 F4 F5 F6 F7 Hc.
  split; [by apply sound_listenToPage|]. cbn. split_and!; congruence.
Qed.

(** The page has had its first node, and [x] was searched last. *)
Definition remembers (x : option (option string)) (w : World) : Prop :=
  nodeChanged (page w) = true /\ lastSearch (toolbar w) = x.

Lemma dispatch_remembers x w a : remembers x w -> remembers x (dispatch w a).
Proof. unfold remembers. by destruct (dispatch_locals w a) as [-> ->]. Qed.
Lemma remembers_node x w : remembers x w -> remembers x (w <| page := (page w) <| nodeChanged := true |> |>).
Proof. by intros []. Qed.

(** The world after a dispatch, of which only what [lemma] keeps is used. *)
Ltac abstract_dispatch lemma H w1 :=
  match goal with |- context [dispatch ?w ?a] =>
    apply (lemma _ w a) in H; [revert H; generalize (dispatch w a); intros w1 H|try done..] end.

Create HintDb locals.
Hint Constants Opaque : locals.
#[local] Opaque dispatch.
Hint Resolve dispatch_remembers remembers_node : locals.
Hint Extern 2 (remembers ?x (field_update navigating _ ?w)) => change (remembers x w) : locals.
Hint Extern 2 (remembers ?x (field_update node _ ?w)) => change (remembers x w) : locals.
Hint Extern 2 (remembers ?x (field_update route _ ?w)) => change (remembers x w) : locals.
Hint Extern 2 (remembers ?x (field_update asked _ ?w)) => change (remembers x w) : locals.
Hint Extern 2 (remembers ?x (field_update flow _ ?w)) => change (remembers x w) : locals.
Hint Extern 2 (remembers ?x (field_update panel _ ?w)) => change (remembers x w) : locals.
Hint Extern 2 (remembers ?x (field_update page (fun _ => field_update heightOrHash _ _) ?w)) =>
  change (remembers x w) : locals.
Hint Extern 2 (remembers ?x (field_update toolbar (fun _ => field_update _ _ _) ?w)) =>
  change (remembers x w) : locals.

Lemma getHeight_remembers x w h : remembers x w -> remembers x (getHeight w h).
Proof. intros Hr. unfold getHeight. repeat case_match; auto with locals. Qed.
Lemma getBlock_remembers x w : remembers x w -> remembers x (getBlock w).
Proof. intros Hr. unfold getBlock. auto with locals. Qed.
Lemma listenToRoute_remembers x w : remembers x w -> remembers x (listenToRoute w).
Proof.
  intros Hr. unfold listenToRoute. set (w1 := _ <| page := _ |>). assert (remembers x w1) as H1 by exact Hr.
  clearbody w1. destruct (_ && _); auto with locals.
Qed.
Lemma ended_remembers x w b : remembers x w -> remembers x (ended w b).
Proof. intros Hr. unfold ended. auto with locals. Qed.
Lemma removeActiveJobId_remembers x w : remembers x w -> remembers x (removeActiveJobId w).
Proof.
  intros Hr. unfold removeActiveJobId, routeToJobId.
  abstract_dispatch dispatch_remembers Hr w1. destruct (p_block (panel w1) ≫= height); exact Hr.
Qed.
Lemma clickLeaf_remembers x w l : remembers x w -> remembers x (clickLeaf w l).
Proof.
  intros Hr. unfold clickLeaf.
  abstract_dispatch dispatch_remembers Hr w1. destruct (l_height (treeList w1)); exact Hr.
Qed.
Lemma openSnarkerDetails_remembers x w l : remembers x w -> remembers x (openSnarkerDetails w l).
Proof.
  intros Hr. unfold openSnarkerDetails, routeToJobId.
  abstract_dispatch dispatch_remembers Hr w1. destruct (p_block (panel w1) ≫= height); exact Hr.
Qed.
Hint Resolve getHeight_remembers getBlock_remembers listenToRoute_remembers ended_remembers
  removeActiveJobId_remembers clickLeaf_remembers openSnarkerDetails_remembers : locals.

Definition isFocusOut (e : Event) : bool := match e with FocusOut => true | _ => false end.

Lemma step_remembers x w e : isFocusOut e = false -> remembers x w -> remembers x (step w e).
Proof.
  intros He Hr. destruct e; try done; cbn [step]; auto with locals.
  - destruct (bool_decide _); auto with locals.
  - destruct (bool_decide _); auto with locals.
  - destruct (Polling.scanFlight (flow w)); [|done].
    destruct (Polling.scanNavigates _ _) as [[]|]; by apply ended_remembers.
  - destruct (Polling.scanFlight (flow w)); auto with locals.
  - destruct (navigating w); auto with locals.
  - destruct (prevDisabled w); auto with locals.
  - destruct (nextDisabled w); auto with locals.
  - unfold toggleTreeView. destruct (Bool.eqb _ _); auto with locals.
  - unfold toggleSidePanel. auto with locals.
  - unfold checkLatestHeight. auto with locals.
Qed.

(** ** Waiting for a block *)

(** The request [fl] is under way and the page does not stream. *)
Definition waits (fl : Polling.ScanFlow) (w : World) : Prop := flow w = fl /\ stream (slice w) = false.

(** The actions that neither ask for a block nor start the stream. *)
Definition calm (a : ScanStateActions) : bool :=
  match a with ScanStateGetBlock _ | ScanStateStart | ScanStateClose => false | _ => true end.

Lemma dispatch_waits fl w a : calm a = true -> waits fl w -> waits fl (dispatch w a).
Proof.
  intros Ha [Hf Hs]. destruct (dispatch_frame w a) as (F1 & _ & _ & _ & _ & F6).
  split; [rewrite (proj1 (F6 ltac:(by intros h ->))); done|]. rewrite F1.
  destruct a as [| | | |p|p|[]| | | | | |]; done.
Qed.

(** The events that neither ask for another block nor end the request: no change
    of the node, answer or failure, no search, no step to the previous, next or last
    block, no return to the live stream and no check for the latest block. *)
Definition quiet (e : Event) : bool :=
  match e with
  | SwitchNode _ | Answer _ | Failure | FocusOut | PrevBlock | NextBlock | LastBlock | GoLive | CheckLatest => false
  | _ => true
  end.

Lemma listenToRoute_waits fl w : waits fl w -> waits fl (listenToRoute w).
Proof.
  intros Hw. unfold listenToRoute. set (w1 := _ <| page := _ |>). assert (waits fl w1) as H1 by exact Hw.
  clearbody w1. destruct (_ && _); [by apply dispatch_waits|done].
Qed.

Lemma removeActiveJobId_waits fl w : waits fl w -> waits fl (removeActiveJobId w).
Proof.
  intros Hw. unfold removeActiveJobId, routeToJobId. abstract_dispatch dispatch_waits Hw w1.
  destruct (p_block (panel w1) ≫= height); exact Hw.
Qed.

Lemma step_waits fl w e : Sound w -> quiet e = true -> waits fl w -> waits fl (step w e).
Proof.
  intros Hs Hq Hw. destruct e; try done; cbn [step]; try (by apply dispatch_waits).
  - destruct (sound_running _ Hs) as (_ & -> & _). by rewrite (proj2 Hw).
  - destruct (navigating w); [|done]. by apply listenToRoute_waits.
  - by apply listenToRoute_waits.
  - unfold toggleTreeView. destruct (Bool.eqb _ _); [done|by apply dispatch_waits].
  - by apply removeActiveJobId_waits, dispatch_waits.
  - unfold openSnarkerDetails, routeToJobId.
    abstract_dispatch dispatch_waits Hw w1.
    destruct (p_block (panel w1) ≫= height); exact Hw.
  - by apply removeActiveJobId_waits.
  - unfold clickLeaf.
    abstract_dispatch dispatch_waits Hw w1.
    destruct (l_height (treeList w1)); exact Hw.
Qed.

Lemma getHeight_spec w h : Sound w -> h <> HNaN -> h <> HNull -> let w1 := getHeight w h in
  Sound w1 /\ stream (slice w1) = negb (truthyHeight h) /\ Polling.scanFlight (flow w1) = Some h /\
  node w1 = node w /\ (Polling.scanFlight (flow w) <> Some h -> asked w1 = Some (node w)).
Proof.
  intros Hs Hn Hl. cbn zeta. split; [by apply getHeight_sound|]. unfold getHeight.
  destruct (dispatch_getBlock w h) as [Hf Ha]. destruct (dispatch_frame w (ScanStateGetBlock h)) as (F1 & _ & F3 & _).
  pose proof (dispatch_sound w (ScanStateGetBlock h) ltac:(done) Hs) as Hd.
  assert (Polling.scanFlight (flow (dispatch w (ScanStateGetBlock h))) = Some h) as Hfl.
  { rewrite Hf. cbn. destruct (sameHeight h (Polling.inProgress (flow w))) eqn:E; [|done].
    apply Polling.sameHeight_true in E as [E _]. pose proof (sound_flow _ Hs) as Hsf. unfold Polling.scanSound in Hsf.
    destruct (Polling.scanFlight (flow w)); destruct_and?; congruence. }
  assert (Polling.scanFlight (flow w) <> Some h -> asked (dispatch w (ScanStateGetBlock h)) = Some (node w)) as Hq.
  { intros Hne. rewrite Ha. destruct (sameHeight _ _) eqn:E; [|done].
    rewrite Hf in Hfl. cbn in Hfl. rewrite E in Hfl. done. }
  revert Hd F1 F3 Hfl Hq. generalize (dispatch w (ScanStateGetBlock h)). intros w1 Hd F1 F3 Hfl Hq.
  destruct (sound_toolbar _ Hd) as (_ & -> & _).
  destruct (stream (slice w1)) eqn:Es, (truthyHeight h); cbn [andb negb]; rewrite ?Es; [|done|done|].
  - destruct (dispatch_frame w1 ScanStatePause) as (-> & _ & -> & _ & _ & G).
    destruct (G ltac:(done)) as [-> ->]. split_and!; done.
  - destruct (dispatch_frame w1 ScanStateStart) as (-> & _ & -> & _ & _ & G).
    destruct (G ltac:(done)) as [-> ->]. split_and!; done.
Qed.

Lemma ended_spec w b : block (slice (ended w b)) = Some b /\ stream (slice (ended w b)) = stream (slice w) /\
  flow (ended w b) = Polling.scanStep (flow w) Polling.Ended /\ route (ended w b) = route w /\
  node (ended w b) = node w /\ navigating (ended w b) = navigating w /\ asked (ended w b) = None /\
  (truthyStr (activeJobId (slice w)) = true ->
   activeLeaf (slice (ended w b)) =
     Some ((default noLeaf (head (leafsOfJob (trees b) (default "" (activeJobId (slice w))))))
             <| scrolling := Some (negb (bool_decide (is_Some (activeLeaf (slice w))))) |>)).
Proof.
  unfold ended. set (w1 := _ <| asked := None |>).
  destruct (dispatch_frame w1 (ScanStateGetBlockSuccess b)) as (-> & _ & -> & -> & -> & G).
  destruct (G ltac:(done)) as [-> ->]. split_and!; try done. cbn. by intros ->.
Qed.

(** The block an answer puts on the page: without a height the effect fails on it. *)
Definition shownFor (b : ScanStateBlock) : ScanStateBlock :=
  match height b with Some _ => b | None => failedBlock end.

Lemma answer_ended w b : is_Some (Polling.scanFlight (flow w)) -> exists x,
  step w (Answer b) = ended (w <| navigating := x |>) (shownFor b) /\
  (Polling.scanNavigates (routerUrl (route w)) b <> Some true -> x = navigating w).
Proof.
  intros [k Hk]. cbn [step]. rewrite Hk.
  destruct (Polling.scanNavigates _ _) as [[]|] eqn:E; unfold Polling.scanNavigates in E; unfold shownFor;
    destruct (height b); try done; [by eexists|exists (navigating w); split; [by destruct w|done]..].
Qed.

Lemma idle_timers w : Sound w -> stream (slice w) = false -> timers w = [].
Proof. intros Hs E. destruct (sound_running _ Hs) as (_ & -> & _). by rewrite E. Qed.

Lemma getBlock_replaces w h k : Sound w -> Polling.scanFlight (flow w) = Some h -> k <> h ->
  Polling.scanFlight (flow (dispatch w (ScanStateGetBlock k))) = Some k.
Proof.
  intros Hs Hfl Hk. destruct (dispatch_getBlock w k) as [-> _]. pose proof (sound_flow _ Hs) as Hf.
  unfold Polling.scanSound in Hf. rewrite Hfl in Hf. destruct Hf as [Hp _]. cbn [Polling.scanStep]. rewrite Hp.
  destruct (sameHeight k h) eqn:E; [|done]. by apply Polling.sameHeight_true in E as [-> _].
Qed.

(** The first tick of a streaming page asks for the latest block. *)
Lemma first_tick w h : Sound w -> stream (slice w) = true -> Polling.scanFlight (flow w) = Some h -> h <> HUndefined ->
  exists i, timers w = [i] /\ Polling.scanFlight (flow (step w (Tick i))) = Some HUndefined.
Proof.
  intros Hs Hst Hfl Hu. destruct (sound_running _ Hs) as (_ & Etm & Hi). rewrite Hst in Etm, Hi.
  destruct (Hi eq_refl) as [i Ei]. exists i. rewrite Ei in Etm. split; [done|]. cbn [step]. rewrite Etm.
  rewrite bool_decide_true by (by left). by apply (getBlock_replaces w h).
Qed.

Lemma live_replaces w h : Sound w -> Polling.scanFlight (flow w) = Some h -> h <> HUndefined ->
  exists i, timers (step w GoLive) = [i] /\
    Polling.scanFlight (flow (step (step w GoLive) (Tick i))) = Some HUndefined.
Proof.
  intros Hs Hfl Hu. destruct (dispatch_frame w ScanStateStart) as (F1 & _ & _ & _ & _ & G).
  apply (first_tick _ h); [by apply step_sound|cbn [step]; by rewrite F1| |done].
  cbn [step]. by rewrite (proj1 (G ltac:(done))).
Qed.

Lemma latest_replaces w h e : Sound w -> stream (slice w) = false -> Polling.scanFlight (flow w) = Some h ->
  h <> HNull -> e = LastBlock \/ e = CheckLatest ->
  Polling.scanFlight (flow (step w e)) = Some HNull /\ stream (slice (step w e)) = true.
Proof.
  intros Hs Hst Hfl Hn He.
  assert (forall w, Sound w -> stream (slice w) = false -> Polling.scanFlight (flow w) = Some h ->
    let w' := dispatch (dispatch w (ScanStateGetBlock HNull)) ScanStateStart in
    t_stream (toolbar (dispatch w (ScanStateGetBlock HNull))) = false /\
    Polling.scanFlight (flow w') = Some HNull /\ stream (slice w') = true) as H.
  { clear w Hs Hst Hfl. intros w Hs Hst Hfl. cbn zeta.
    pose proof (getBlock_replaces w h HNull Hs Hfl ltac:(done)) as H1.
    destruct (dispatch_frame w (ScanStateGetBlock HNull)) as (F1 & _).
    pose proof (dispatch_sound w (ScanStateGetBlock HNull) ltac:(done) Hs) as Hd.
    destruct (sound_toolbar _ Hd) as (_ & -> & _). rewrite F1. split; [done|].
    destruct (dispatch_frame (dispatch w (ScanStateGetBlock HNull)) ScanStateStart) as (-> & _ & _ & _ & _ & G).
    by rewrite (proj1 (G ltac:(done))). }
  destruct He as [-> | ->]; cbn [step].
  - destruct (H (clearForm w)) as (Et & Hx); [by unfold clearForm; auto with page|done..|].
    unfold getHeight. rewrite Et. exact Hx.
  - apply (H w Hs Hst Hfl).
Qed.

(** The answer ends the request of a paused page, and all its parts show it. *)
Lemma answer_shown w h b : Sound w -> stream (slice w) = false -> Polling.scanFlight (flow w) = Some h ->
  let w3 := step w (Answer b) in
  Polling.scanFlight (flow w) = Some h /\ timers w = [] /\
  block (slice w3) = Some (shownFor b) /\ t_block (toolbar w3) = Some (shownFor b) /\
  p_block (panel w3) = Some (shownFor b) /\ Polling.scanFlight (flow w3) = None /\ timers w3 = [].
Proof.
  intros Hs Hst Hfl. cbn zeta. pose proof (step_sound w (Answer b) Hs) as H3.
  destruct (answer_ended w b) as (x & Ea & _); [by rewrite Hfl|]. rewrite Ea in H3 |- *.
  destruct (ended_spec (w <| navigating := x |>) (shownFor b)) as (B1 & B2 & B3 & _).
  destruct (sound_toolbar _ H3) as (-> & _). destruct (sound_shown _ H3) as (_ & ->). rewrite B1, B3.
  split; [done|]. split; [by apply idle_timers|]. split_and!; try done; [cbn; by rewrite Hfl|].
  apply idle_timers; [done|]. by rewrite B2.
Qed.

(** A later node is asked for its latest block, unless the request under way is
    one for the latest block. *)
Lemma getBlock_later w : Sound w -> nodeChanged (page w) = true -> let w1 := getBlock w in
  node w1 = node w /\ Polling.scanFlight (flow w1) = Some HUndefined /\ slice w1 = slice w /\
  (Polling.scanFlight (flow w) = Some HUndefined -> flow w1 = flow w /\ asked w1 = asked w) /\
  (Polling.scanFlight (flow w) <> Some HUndefined -> asked w1 = Some (node w)).
Proof.
  intros Hs Hc. cbn zeta. unfold getBlock. rewrite Hc.
  pose proof (sound_flow _ Hs) as Hf. unfold Polling.scanSound in Hf.
  destruct (dispatch_getBlock w HUndefined) as [E1 E2].
  destruct (dispatch_frame w (ScanStateGetBlock HUndefined)) as (F1 & _ & F3 & _).
  revert E1 E2 F1 F3. generalize (dispatch w (ScanStateGetBlock HUndefined)). intros w1 E1 E2 F1 F3.
  cbn in E1, E2, F1, F3 |- *. rewrite E1, E2, F1, F3.
  destruct (Polling.scanFlight (flow w)) as [k|] eqn:Ek.
  - destruct Hf as [Hp _]. rewrite Hp. destruct (decide (HUndefined = k)) as [<-|E].
    + rewrite bool_decide_true by done. naive_solver.
    + rewrite bool_decide_false by done. cbn. naive_solver.
  - rewrite Hf. cbn. naive_solver.
Qed.

Lemma switch_replaces w n' : Sound w -> nodeChanged (page w) = true -> n' <> node w ->
  Polling.scanFlight (flow (step w (SwitchNode n'))) = Some HUndefined.
Proof.
  intros Hs Hc Hne. cbn [step]. rewrite bool_decide_false by done.
  match goal with |- context [getBlock ?x] => pose proof (getBlock_later x) as H end.
  apply H; [by apply sound_node|exact Hc].
Qed.

Lemma run_quiet_remembers x es : forall w, forallb quiet es = true -> remembers x w -> remembers x (run step w es).
Proof.
  induction es as [|e es IH]; intros w Hq Hr; [done|]. cbn in Hq. apply andb_true_iff in Hq as [He Hq].
  apply IH; [done|]. apply step_remembers; [by destruct e|done].
Qed.

(** Opening a job puts it into the address, and the address asks for nothing. *)
Lemma openSnarker_navigated w leaf z j : Sound w -> block (slice w) ≫= height = Some z -> bundle_job_id leaf = Some j ->
  let w1 := step (step w (OpenSnarker leaf)) Navigated in
  route w1 = mkRoute (Some (showZ z)) (Some j) /\ node w1 = node w /\
  activeLeaf (slice w1) = Some (leaf <| scrolling := Some true |>) /\ activeJobId (slice w1) = Some j.
Proof.
  intros Hs Hz Hj. cbn zeta. cbn [step]. unfold openSnarkerDetails, routeToJobId.
  match goal with |- context [dispatch w ?a] =>
    destruct (dispatch_frame w a) as (F1 & _ & F3 & _); pose proof (dispatch_sound w a ltac:(done) Hs) as Hd;
    revert Hd F1 F3; generalize (dispatch w a); intros w1 Hd F1 F3 end.
  rewrite (proj2 (sound_shown _ Hd)), F1. cbn. rewrite Hz. cbn.
  unfold listenToRoute. cbn. rewrite (proj1 (sound_page _ Hd)), F1. cbn. rewrite Hj.
  rewrite (bool_decide_true (Some j = Some j)) by done. rewrite andb_false_r. cbn. rewrite F1, F3. cbn. by rewrite Hj.
Qed.

Lemma close_idle fl : idle (Polling.scanStep fl Polling.Close).
Proof. done. Qed.

Section Opened.
Context (st : Storage) (f : Polling.ScanFlow) (n : string) (r : Route) (Hidle : idle f).
Notation reached := (reachable_by step (mount st f n r) (fun _ _ => True)).

Lemma reached_sound w : reached w -> Sound w.
Proof. revert w. apply reachable_by_inv; [by apply mount_sound|]. intros w e Hs _. by apply step_sound. Qed.

Lemma reached_run w es : reached w -> reached (run step w es).
Proof. revert w. induction es as [|e es IH]; intros w Hw; [done|]. apply IH. by apply reachable_step. Qed.

Lemma run_waits fl es : forall w, Sound w -> forallb quiet es = true -> waits fl w ->
  Sound (run step w es) /\ waits fl (run step w es).
Proof.
  induction es as [|e es IH]; intros w Hs Hq Hw; [done|].
  cbn in Hq. apply andb_true_iff in Hq as [He Hq]. cbn. apply IH; [by apply step_sound|done|by apply step_waits].
Qed.

(** C28: in every state the opened page can reach, exactly one timer ticks while it
    streams and none while it is paused; the toolbar, the side panel and the page
    component show what the slice holds; a request under way is the last one asked
    for, and ticks do not stack up requests for the latest block. *)
Theorem scan_page_streams w : reached w ->
  (stream (slice w) = true -> exists i, timers w = [i] /\ timer (page w) = Some i) /\
  (stream (slice w) = false -> timers w = [] /\ forall i, step w (Tick i) = w) /\
  (t_stream (toolbar w) = stream (slice w) /\ t_block (toolbar w) = block (slice w) /\
   p_block (panel w) = block (slice w) /\ p_leaf (panel w) = activeLeaf (slice w) /\
   c_jobId (page w) = activeJobId (slice w) /\ (is_Some (activeLeaf (slice w)) -> activeStep (panel w) = 1)) /\
  (forall h, Polling.scanFlight (flow w) = Some h ->
     is_Some (asked w) /\ Polling.inProgress (flow w) = h /\ last (Polling.scanAsked (flow w)) = Some h) /\
  (Polling.scanFlight (flow w) = Some HUndefined -> forall i,
     flow (step w (Tick i)) = flow w /\ asked (step w (Tick i)) = asked w).
Proof.
  intros Hw. pose proof (reached_sound w Hw) as Hs. destruct (sound_running _ Hs) as (_ & Ht & Hi).
  pose proof (sound_flow _ Hs) as Hf. unfold Polling.scanSound in Hf. split_and!; try apply Hs.
  - intros E. rewrite E in Ht. destruct (Hi E) as [i Ei]. exists i. by rewrite Ei in Ht.
  - intros E. rewrite (idle_timers w Hs E). split; [done|]. intros i. cbn [step]. by rewrite (idle_timers w Hs E).
  - rewrite <- (proj2 (sound_leaf _ Hs)). apply Hs.
  - intros h Hh. rewrite Hh in Hf. split; [|done]. apply (sound_asked _ Hs). by rewrite Hh.
  - intros Hh i. rewrite Hh in Hf. cbn [step]. destruct (bool_decide _); [|done].
    destruct (dispatch_getBlock w HUndefined) as [-> ->]. cbn. by rewrite (proj1 Hf).
Qed.

Lemma reached_nodeChanged w : reached w -> nodeChanged (page w) = true.
Proof.
  revert w. apply reachable_by_inv; [by apply mount_sound|]. intros w e Hc _.
  destruct (isFocusOut e) eqn:He.
  - destruct e; try done. cbn [step]. unfold listenToInputChanges. destruct (bool_decide _); [done|].
    destruct (search (toolbar w)) as [v|]; [|done]. destruct (bool_decide _); [done|].
    by apply (getHeight_remembers (lastSearch (toolbar (w <| toolbar := (toolbar w) <| lastSearch := Some (Some v) |> |>)))).
  - by apply (step_remembers (lastSearch (toolbar w))).
Qed.

Lemma switch_spec w n' : reached w -> n' <> node w -> let w1 := step w (SwitchNode n') in
  node w1 = n' /\ Polling.scanFlight (flow w1) = Some HUndefined /\ slice w1 = slice w /\
  (Polling.scanFlight (flow w) = Some HUndefined -> flow w1 = flow w /\ asked w1 = asked w) /\
  (Polling.scanFlight (flow w) <> Some HUndefined -> asked w1 = Some n').
Proof.
  intros Hw Hne. cbn zeta. cbn [step]. rewrite bool_decide_false by done.
  match goal with |- context [getBlock ?x] => pose proof (getBlock_later x) as H end. apply H.
  - by apply sound_node, reached_sound.
  - exact (reached_nodeChanged w Hw).
Qed.


(** C31: switching a paused page to a second node while the first one has not
    answered sends nothing to it: the block of the first node is shown under the
    second one, and neither a request nor a timer is left to correct it. *)
Theorem scan_switch_ignored w n1 n2 b : reached w -> stream (slice w) = false -> n1 <> node w -> n2 <> n1 ->
  Polling.scanFlight (flow w) <> Some HUndefined ->
  let w2 := step (step w (SwitchNode n1)) (SwitchNode n2) in
  let w3 := step w2 (Answer b) in
  asked w2 = Some n1 /\ flow w2 = flow (step w (SwitchNode n1)) /\
  node w3 = n2 /\ block (slice w3) = Some (shownFor b) /\ Polling.scanFlight (flow w3) = None /\ timers w3 = [].
Proof.
  intros Hw Hs H1 H2 Hq. cbn zeta. destruct (switch_spec w n1 Hw H1) as (N1 & L1 & S1 & _ & A1).
  assert (reached (step w (SwitchNode n1))) as Hr1 by by apply reachable_step.
  revert Hr1 N1 L1 S1 A1. generalize (step w (SwitchNode n1)). intros w1 Hr1 N1 L1 S1 A1.
  destruct (switch_spec w1 n2 Hr1) as (N2 & L2 & S2 & A2 & _); [congruence|].
  assert (reached (step w1 (SwitchNode n2))) as Hr2 by by apply reachable_step.
  revert Hr2 N2 L2 S2 A2. generalize (step w1 (SwitchNode n2)). intros w2 Hr2 N2 L2 S2 A2.
  destruct (A2 L1) as [E2 ->]. split; [by apply A1|]. split; [done|].
  destruct (answer_ended w2 b) as (x & Ea & _); [by rewrite L2|].
  pose proof (step_sound w2 (Answer b) (reached_sound w2 Hr2)) as H3. rewrite Ea in H3 |- *.
  destruct (ended_spec (w2 <| navigating := x |>) (shownFor b)) as (-> & B2 & -> & _ & -> & _). cbn in B2 |- *. rewrite L2.
  split_and!; try done. apply idle_timers; [done|]. by rewrite B2, S2, S1.
Qed.

(** A text that was searched last is not searched again, whatever happened between,
    if the search field was not left in between. *)
Theorem scan_search_repeated w v es : reached w -> v <> "" -> forallb (fun e => negb (isFocusOut e)) es = true ->
  let search w := step (step w (Type_ v)) FocusOut in
  let w1 := run step (search w) es in
  search w1 = step w1 (Type_ v).
Proof.
  intros Hw Hv Hes. cbn zeta.
  set (w1 := step (step w (Type_ v)) FocusOut).
  assert (reached w1) as Hr by (do 2 (apply reachable_step; [|done]); done).
  assert (remembers (Some (Some v)) w1) as H1.
  { split; [by apply reached_nodeChanged|]. unfold w1. cbn [step]. unfold listenToInputChanges. cbn.
    case_bool_decide as E; [done|]. rewrite bool_decide_false by done.
    match goal with |- context [getHeight ?x ?h] => assert (remembers (Some (Some v)) (getHeight x h)) as H end;
      [|apply H]. apply getHeight_remembers. split; [|done]. exact (reached_nodeChanged w Hw). }
  clearbody w1. assert (remembers (Some (Some v)) (run step w1 es)) as [_ H2].
  { clear Hr. revert w1 H1. induction es as [|e es IH]; intros w1 H1; [done|]. cbn in Hes.
    apply andb_true_iff in Hes as [He%negb_true_iff Hes]. cbn. apply IH; [done|]. by apply step_remembers. }
  cbn [step]. unfold listenToInputChanges. cbn. rewrite H2. by rewrite bool_decide_true.
Qed.

(** C27: a job opened from the side panel is in the address, and the page opened
    anew at that address asks the same node for the same block, shows it and selects
    the same job, without leaving the address or starting the stream. *)
Theorem scan_job_reopened w b z leaf j : reached w ->
  (forall r z, paramHeight r = Some (showZ z) -> strIncludes (routerUrl r) (showZ z) = true) ->
  block (slice w) = Some b -> height b = Some z -> bundle_job_id leaf = Some j -> j <> "" ->
  head (leafsOfJob (trees b) j) = Some leaf ->
  let w1 := step (step w (OpenSnarker leaf)) Navigated in
  let w2 := reopen w1 (route w1) in
  let w3 := step w2 (Answer b) in
  route w1 = mkRoute (Some (showZ z)) (Some j) /\ activeLeaf (slice w1) = Some (leaf <| scrolling := Some true |>) /\
  Polling.scanFlight (flow w2) = Some (HText (showZ z)) /\ asked w2 = Some (node w) /\
  block (slice w3) = Some b /\ activeLeaf (slice w3) = activeLeaf (slice w1) /\ activeStep (panel w3) = 1 /\
  route w3 = route w1 /\ navigating w3 = None /\ timers w3 = [].
Proof.
  intros Hw Hurl Hb Hz Hj Hne Hl. cbn zeta.
  destruct (openSnarker_navigated w leaf z j) as (R1 & N1 & L1 & _); [by apply reached_sound|by rewrite Hb|done|].
  revert R1 N1 L1. generalize (step (step w (OpenSnarker leaf)) Navigated). intros w1 R1 N1 L1. rewrite R1, L1.
  set (r1 := mkRoute (Some (showZ z)) (Some j)). unfold reopen.
  destruct (mount_sound (storage w1) _ (node w1) r1 (close_idle (flow w1))) as (Hs & S2 & _ & N2 & R2 & V2 & A2 & F2 & _).
  revert Hs S2 N2 R2 V2 A2 F2. generalize (mount (storage w1) (Polling.scanStep (flow w1) Polling.Close) (node w1) r1).
  intros w2 Hs S2 N2 R2 V2 A2 F2. split; [done|]. split; [done|]. split; [done|]. split; [congruence|].
  destruct (answer_ended w2 b) as (x & Ea & Hx); [by rewrite F2|].
  unfold shownFor in Ea. rewrite Hz, Hx in Ea by (unfold Polling.scanNavigates; rewrite R2, Hz; cbn; by rewrite (Hurl r1 z)).
  pose proof (step_sound w2 (Answer b) Hs) as H3. rewrite Ea in H3 |- *.
  destruct (ended_spec (w2 <| navigating := navigating w2 |>) b) as (B1 & B2 & _ & B4 & _ & B6 & _ & B8).
  cbn in B2, B4, B6, B8. assert (paused r1 = true) as Hp.
  { unfold paused. cbn. by rewrite (proj2 (String.eqb_neq j "") Hne). }
  unfold mountedSlice in S2. rewrite Hp in S2. rewrite S2 in B2, B8. cbn in B8.
  rewrite (proj2 (String.eqb_neq j "") Hne), Hl in B8. specialize (B8 eq_refl).
  rewrite B1, B8, B4, B6. split_and!; try done.
  - apply (sound_step _ H3). by rewrite (proj2 (sound_leaf _ H3)), B8.
  - apply idle_timers; [done|by rewrite B2].
Qed.

End Opened.
End Page.

(** * Concrete pages *)

Lemma prefix_self s : String.prefix s s = true.
Proof. induction s as [|c s IH]; [done|]. cbn. by destruct (Ascii.ascii_dec c c). Qed.

Lemma strIncludes_suffix p s : strIncludes (p +:+ s) s = true.
Proof.
  induction p as [|c p IH].
  - change ("" +:+ s) with s. destruct s as [|c s]; [done|]. cbn [strIncludes]. unfold isPrefixOf.
    by rewrite prefix_self.
  - change (String c p +:+ s) with (String c (p +:+ s)). cbn [strIncludes]. by rewrite IH, orb_true_r.
Qed.

Definition demoUrl (r : Route) : string := "/snarks/scan-state/" +:+ default "" (paramHeight r).

Definition demoBlockAt (z : Z) : ScanStateBlock :=
  mkBlock (Some "h") (Some z) (Some z) (Some []) (Some []) [] [mapTree 0 [demoLeaf "j1" None]].

Notation demoStep := (step true None demoUrl).
Notation demoMount := (mount true None None Polling.initialScan "a").

Lemma demo_reached r es :
  reachable_by demoStep (demoMount r) (fun _ _ => True) (run demoStep (demoMount r) es).
Proof. apply reached_run. apply reachable_init. Qed.

(** The page with the block 12, streaming. *)
Definition demoWorld : World := run demoStep (demoMount (mkRoute None None)) [Tick 0; Answer (demoBlockAt 12)].

Lemma scan_page_streams_witness : exists i, timers demoWorld = [i] /\ timer (page demoWorld) = Some i.
Proof.
  apply (scan_page_streams true None demoUrl None Polling.initialScan "a" (mkRoute None None) (conj eq_refl eq_refl)
    demoWorld); [apply demo_reached|reflexivity].
Defined.


Lemma scan_switch_ignored_witness :
  let w := demoStep (demoStep (demoStep demoWorld Pause) (SwitchNode "b")) (SwitchNode "c") in
  asked w = Some "b" /\ node (demoStep w (Answer (demoBlockAt 7))) = "c".
Proof.
  destruct (scan_switch_ignored true None demoUrl None Polling.initialScan "a" (mkRoute None None) (conj eq_refl eq_refl)
    (demoStep demoWorld Pause) "b" "c" (demoBlockAt 7)) as (H1 & _ & H2 & _);
    [apply (demo_reached _ [Tick 0; Answer (demoBlockAt 12); Pause])|reflexivity|discriminate..|].
  split; [exact H1|exact H2].
Defined.

(** Block 12 is searched, the next one paged to, and 12 searched again: block 13
    stays, and nothing is requested. *)
Lemma scan_search_repeated_witness :
  let search w := demoStep (demoStep w (Type_ "12")) FocusOut in
  let w := run demoStep (search demoWorld) [Answer (demoBlockAt 12); NextBlock; Answer (demoBlockAt 13)] in
  search w = demoStep w (Type_ "12") /\ block (slice (search w)) = Some (demoBlockAt 13) /\
  Polling.scanFlight (flow (search w)) = None /\ stream (slice (search w)) = false.
Proof.
  split_and!; [|vm_compute; reflexivity..].
  apply (scan_search_repeated true None demoUrl None Polling.initialScan "a" (mkRoute None None) (conj eq_refl eq_refl)
    demoWorld "12" [Answer (demoBlockAt 12); NextBlock; Answer (demoBlockAt 13)]);
    [apply demo_reached|discriminate|reflexivity].
Defined.

Lemma scan_job_reopened_witness :
  let w1 := demoStep (demoStep demoWorld (OpenSnarker ((demoLeaf "j1" None) <| treeIndex := Some 0 |> <| jobIndex := Some 0 |>))) Navigated in
  route w1 = mkRoute (Some "12") (Some "j1").
Proof.
  destruct (scan_job_reopened true None demoUrl None Polling.initialScan "a" (mkRoute None None) (conj eq_refl eq_refl)
    demoWorld (demoBlockAt 12) 12 ((demoLeaf "j1" None) <| treeIndex := Some 0 |> <| jobIndex := Some 0 |>) "j1") as (H & _);
    [apply demo_reached| |reflexivity|reflexivity|reflexivity|discriminate|reflexivity|exact H].
  intros r z Hr. unfold demoUrl. rewrite Hr. apply strIncludes_suffix.
Defined.

End ScanStatePage.
