(* ===== verification/WonSlots.v ===== *)
(** Won slots page (frontend/src/app/features/block-production/won-slots): the
    slots the producer has won, with their production attempts. *)

From Stdlib Require Import Ascii.
From S2P Require Import Prelude JsRuntime TableSort DateHelper.

Module WonSlots.

(** * Data *)

Inductive BlockProductionWonSlotsStatus :=
| Scheduled
| StagedLedgerDiffCreatePending
| StagedLedgerDiffCreateSuccess
| Produced
| ProofCreatePending
| ProofCreateSuccess
| BlockApplyPending
| BlockApplySuccess
| Committed
| Discarded
| Canonical
| Orphaned.

#[export] Instance Status_eq_dec : EqDecision BlockProductionWonSlotsStatus.
Proof. solve_decision. Defined.

Definition statusText (s : BlockProductionWonSlotsStatus) : string :=
  match s with
  | Scheduled => "Scheduled"
  | StagedLedgerDiffCreatePending => "StagedLedgerDiffCreatePending"
  | StagedLedgerDiffCreateSuccess => "StagedLedgerDiffCreateSuccess"
  | Produced => "Produced"
  | ProofCreatePending => "ProofCreatePending"
  | ProofCreateSuccess => "ProofCreateSuccess"
  | BlockApplyPending => "BlockApplyPending"
  | BlockApplySuccess => "BlockApplySuccess"
  | Committed => "Committed"
  | Discarded => "Discarded"
  | Canonical => "Canonical"
  | Orphaned => "Orphaned"
  end.

Inductive BlockProductionWonSlotsDiscardReason :=
| BestTipStakingLedgerDifferent | BestTipGlobalSlotHigher | BestTipSuperior.

(** Durations in seconds and end times; [null] and [undefined] are [None]. *)
Record BlockProductionWonSlotTimes := mkTimes {
  scheduled : option Z;
  stagedLedgerDiffCreate : option Q;
  produced : option Q;
  proofCreate : option Q;
  blockApply : option Q;
  discarded : option Z;
  committed : option Z;
  stagedLedgerDiffCreateEnd : option Z;
  producedEnd : option Z;
  proofCreateEnd : option Z;
  blockApplyEnd : option Z
}.

Record BlockProductionWonSlotsSlot := mkSlot {
  epoch : option Z;
  message : string;
  age : string;
  slotTime : Z;
  globalSlot : Z;
  slotInEpoch : option Z;
  vrfValueWithThreshold : list Q;
  active : bool;
  percentage : option nat;
  height : option Z;
  hash : option string;
  transactionsTotal : option Z;
  payments : option Z;
  delegations : option Z;
  zkapps : option Z;
  snarkFees : option Q;
  coinbaseRewards : option Q;
  txFeesRewards : option Q;
  completedWorksCount : option Z;
  times : option BlockProductionWonSlotTimes;
  status : option BlockProductionWonSlotsStatus;
  discardReason : option BlockProductionWonSlotsDiscardReason;
  lastObservedConfirmations : option Z;
  orphanedBy : option string
}.

(** The columns with a single value. *)
Inductive SlotField :=
| fEpoch | fMessage | fAge | fSlotTime | fGlobalSlot | fSlotInEpoch | fActive | fPercentage | fHeight
| fHash | fTransactionsTotal | fPayments | fDelegations | fZkapps | fSnarkFees | fCoinbaseRewards
| fTxFeesRewards | fCompletedWorksCount | fStatus | fLastObservedConfirmations | fOrphanedBy.

#[export] Instance SlotField_eq_dec : EqDecision SlotField.
Proof. solve_decision. Defined.

#[export] Instance Slot_row : Row BlockProductionWonSlotsSlot SlotField := fun f s =>
  match f with
  | fEpoch => ofOption vZ (epoch s)
  | fMessage => VStr (message s)
  | fAge => VStr (age s)
  | fSlotTime => vZ (slotTime s)
  | fGlobalSlot => vZ (globalSlot s)
  | fSlotInEpoch => ofOption vZ (slotInEpoch s)
  | fActive => VBool (active s)
  | fPercentage => ofOption (fun n => vZ (Z.of_nat n)) (percentage s)
  | fHeight => ofOption vZ (height s)
  | fHash => ofOption VStr (hash s)
  | fTransactionsTotal => ofOption vZ (transactionsTotal s)
  | fPayments => ofOption vZ (payments s)
  | fDelegations => ofOption vZ (delegations s)
  | fZkapps => ofOption vZ (zkapps s)
  | fSnarkFees => ofOption VNum (snarkFees s)
  | fCoinbaseRewards => ofOption VNum (coinbaseRewards s)
  | fTxFeesRewards => ofOption VNum (txFeesRewards s)
  | fCompletedWorksCount => ofOption vZ (completedWorksCount s)
  | fStatus => ofOption (fun x => VStr (statusText x)) (status s)
  | fLastObservedConfirmations => ofOption vZ (lastObservedConfirmations s)
  | fOrphanedBy => ofOption VStr (orphanedBy s)
  end.

Record VrfStats := mkVrf { evaluated : option Z; total : option Z }.

Record BlockProductionWonSlotsEpoch := mkEpoch {
  epochNumber : Z;
  start : Z;
  end_ : Z;
  currentGlobalSlot : Z;
  currentTime : Z;
  vrfStats : VrfStats;
  publicKey : string
}.

Record BlockProductionWonSlotsFilters := mkFilters {
  accepted : bool;
  orphaned : bool;
  upcoming : bool;
  filterDiscarded : bool
}.

Record BlockProductionWonSlotsState := mkState {
  stateEpoch : option BlockProductionWonSlotsEpoch;
  slots : list BlockProductionWonSlotsSlot;
  filteredSlots : list BlockProductionWonSlotsSlot;
  activeSlot : option BlockProductionWonSlotsSlot;
  activeSlotRoute : option string;
  openSidePanel : bool;
  filters : BlockProductionWonSlotsFilters;
  stateSort : TableSort SlotField;
  serverResponded : bool
}.

#[export] Program Instance State_copy : RecordCopy BlockProductionWonSlotsState := {|
  record_copy s := mkState (stateEpoch s) (slots s) (filteredSlots s) (activeSlot s) (activeSlotRoute s)
    (openSidePanel s) (filters s) (stateSort s) (serverResponded s)
|}.
Next Obligation. by intros []. Qed.

Inductive BlockProductionWonSlotsActions :=
| init (route : option string)
| close
| getSlots
| getSlotsSuccess (slots : list BlockProductionWonSlotsSlot) (epoch : option BlockProductionWonSlotsEpoch)
    (activeSlot : option BlockProductionWonSlotsSlot)
| changeFilters (filters : BlockProductionWonSlotsFilters)
| setActiveSlot (slot : option BlockProductionWonSlotsSlot)
| setActiveSlotNumber (slotNumber : Z)
| sortAction (sort : TableSort SlotField)
| toggleSidePanel.

(** [createType(BLOCK_PRODUCTION_PREFIX, 'Won Slots', type)] *)
Definition actionType (a : BlockProductionWonSlotsActions) : string :=
  "[Block Production Won Slots] " +:+
  match a with
  | init _ => "Init"
  | close => "Close"
  | getSlots => "Get Slots"
  | getSlotsSuccess _ _ _ => "Get Slots Success"
  | changeFilters _ => "Change Filters"
  | setActiveSlot _ => "Set Active Slot"
  | setActiveSlotNumber _ => "Set Active Slot Number"
  | sortAction _ => "Sort"
  | toggleSidePanel => "Toggle Side Panel"
  end.

(** * Reducer *)

Section Page.
(** The collation of the host and the width of the window: [isDesktop()]. *)
Context {LC : LocaleCompare} (isDesktop : bool).

Definition initialState : BlockProductionWonSlotsState := {|
  stateEpoch := None;
  slots := [];
  filteredSlots := [];
  activeSlot := None;
  activeSlotRoute := None;
  openSidePanel := isDesktop;
  filters := mkFilters true true true true;
  stateSort := mkTableSort fSlotTime ASC;
  serverResponded := false
|}.

Definition sortSlots (node : list BlockProductionWonSlotsSlot) (tableSort : TableSort SlotField)
  : list BlockProductionWonSlotsSlot :=
  sort node tableSort [fMessage] false.

Definition keepSlot (filters : BlockProductionWonSlotsFilters) (slot : BlockProductionWonSlotsSlot) : bool :=
  let hasStatus s := bool_decide (status slot = Some s) in
  if (accepted filters && hasStatus Canonical) || (orphaned filters && hasStatus Orphaned) ||
     (filterDiscarded filters && hasStatus Discarded) || active slot || hasStatus Committed
  then true
  else (upcoming filters && bool_decide (status slot = None)) || hasStatus Scheduled.

Definition filterSlots (slots : list BlockProductionWonSlotsSlot) (filters : BlockProductionWonSlotsFilters)
  : list BlockProductionWonSlotsSlot :=
  List.filter (keepSlot filters) slots.

Definition blockProductionWonSlotsReducer (state : BlockProductionWonSlotsState)
  (action : BlockProductionWonSlotsActions) : exec BlockProductionWonSlotsState :=
  match action with
  | init route => Ret (state <| activeSlotRoute := route |> <| serverResponded := false |>)
  | getSlotsSuccess newSlots newEpoch newActive =>
      Ret (state <| slots := newSlots |> <| stateEpoch := newEpoch |>
                 <| filteredSlots := filterSlots (sortSlots newSlots (stateSort state)) (filters state) |>
                 <| activeSlot := newActive |>
                 <| openSidePanel := match activeSlot state with
                                     | Some _ => openSidePanel state
                                     | None => isDesktop
                                     end |>
                 <| serverResponded := true |>)
  | setActiveSlot None => Throw (TypeError "Cannot read properties of undefined (reading 'globalSlot')")
  | setActiveSlot (Some slot) =>
      Ret (state <| activeSlot := Some slot |> <| activeSlotRoute := Some (showZ (globalSlot slot)) |>
                 <| openSidePanel := true |>)
  | sortAction ts =>
      Ret (state <| stateSort := ts |>
                 <| filteredSlots := filterSlots (sortSlots (slots state) ts) (filters state) |>)
  | changeFilters fs =>
      Ret (state <| filters := fs |>
                 <| filteredSlots := filterSlots (sortSlots (slots state) (stateSort state)) fs |>)
  | toggleSidePanel =>
      Ret (state <| openSidePanel := negb (openSidePanel state) |>
                 <| activeSlot := if openSidePanel state then None else activeSlot state |>
                 <| activeSlotRoute := if openSidePanel state then None else activeSlotRoute state |>)
  | close => Ret initialState
  | getSlots | setActiveSlotNumber _ => Ret state
  end.

(** * Service *)

Record WonSlot := mkWonSlot {
  slot_time : Z;
  global_slot : Z;
  w_epoch : Z;
  delegator : list string;
  value_with_threshold : list Q
}.

Record Transactions := mkTransactions { t_payments : Z; t_delegations : Z; t_zkapps : Z }.

Record Block := mkBlock {
  b_hash : string;
  b_height : Z;
  transactions : Transactions;
  coinbase : Z;
  fees : Z;
  snark_fees : Z;
  completed_works_count : Z
}.

Record Times := mkRawTimes {
  r_scheduled : option Z;
  staged_ledger_diff_create_start : option Z;
  staged_ledger_diff_create_end : option Z;
  r_produced : option Z;
  proof_create_start : option Z;
  proof_create_end : option Z;
  block_apply_start : option Z;
  block_apply_end : option Z;
  r_discarded : option Z;
  r_committed : option Z
}.

Record Attempt := mkAttempt {
  won_slot : WonSlot;
  block : option Block;
  a_times : Times;
  a_status : option BlockProductionWonSlotsStatus;
  last_observed_confirmations : option Z;
  orphaned_by : option string;
  discard_reason : option BlockProductionWonSlotsDiscardReason
}.

Record WonSlotResponse := mkResponse {
  attempts : list Attempt;
  future_won_slots : list WonSlot;
  current_global_slot : Z;
  current_time : Z;
  epoch_end : Z;
  epoch_start : Z;
  current_epoch : Z;
  current_epoch_vrf_stats : option (Z * Z);
  public_key : string
}.

(** [Date.now()] at the i-th place of the mapping that reads the clock. *)
Context (clock : nat -> Z).

(** [Math.floor(slot_time / ONE_MILLION)]: nanoseconds to milliseconds *)
Definition toMillis (slot : WonSlot) : Z := (slot_time slot / ONE_MILLION)%Z.

Definition getActive (now slotTime : Z) (discardedAt : option Z) : bool :=
  (slotTime <=? now)%Z && (now <? 3 * 60 * 1000 + slotTime)%Z && negb (truthyNum discardedAt).

Definition getMessage (isActive : bool) (st : option BlockProductionWonSlotsStatus) : string :=
  if isActive then "Producing" else
  match st with
  | Some Scheduled => (if isDesktop then "Production " else "") +:+ "Scheduled"
  | Some Canonical => "Produced Block"
  | Some Orphaned => statusText Orphaned +:+ " Block"
  | Some Discarded => statusText Discarded +:+ " Block"
  | Some Committed => if isDesktop then "Waiting for Confirmation" else "Confirming"
  | _ => (if isDesktop then "Upcoming " else "") +:+ "Won Slot"
  end.

(** [s.replace('<', '')]: the first occurrence *)
Fixpoint dropLess (s : string) : string :=
  match s with
  | String c s => if Ascii.ascii_dec c "<"%char then s else String c (dropLess s)
  | EmptyString => ""
  end.

Definition calculateTimeAgo (now : Z) (isActive : bool) (slotTime : Z) : exec string :=
  if isActive then Ret "Now" else
  let '(mkDiff d future) := getTimeDiff now noConfig (Some slotTime) in
  if future then
    match d with
    | Some d => Ret ("in ~ " +:+ dropLess d)
    | None => Throw (TypeError "Cannot read properties of undefined (reading 'replace')")
    end
  else Ret (default "undefined" d +:+ " ago").

(** The seconds between two times in nanoseconds, [null] unless both are set. *)
Definition duration (from to : option Z) : option Q :=
  match to, from with
  | Some b, Some a =>
      if truthyNum to && truthyNum from then Some (inject_Z (b - a) / inject_Z ONE_BILLION)%Q else None
  | _, _ => None
  end.

(** [x || null] *)
Definition orNull (x : option Z) : option Z := if truthyNum x then x else None.

Definition mapTimes (t : Times) : BlockProductionWonSlotTimes := {|
  scheduled := r_scheduled t;
  stagedLedgerDiffCreate := duration (staged_ledger_diff_create_start t) (staged_ledger_diff_create_end t);
  produced := duration (staged_ledger_diff_create_end t) (r_produced t);
  proofCreate := duration (proof_create_start t) (proof_create_end t);
  blockApply := duration (block_apply_start t) (block_apply_end t);
  discarded := orNull (r_discarded t);
  committed := orNull (r_committed t);
  stagedLedgerDiffCreateEnd := staged_ledger_diff_create_end t;
  producedEnd := r_produced t;
  proofCreateEnd := proof_create_end t;
  blockApplyEnd := block_apply_end t
|}.

(** The finished stages of an attempt. *)
Definition stagesDone (t : BlockProductionWonSlotTimes) : nat :=
  countIf (fun b : bool => b)
    [bool_decide (is_Some (stagedLedgerDiffCreate t)); bool_decide (is_Some (produced t));
     bool_decide (is_Some (proofCreate t)); bool_decide (is_Some (blockApply t));
     bool_decide (is_Some (committed t))].

Definition inMina (x : Z) : Q := (inject_Z x / inject_Z ONE_BILLION)%Q.

(** The [k]-th attempt. *)
Definition mapAttempt (k : nat) (a : Attempt) : exec BlockProductionWonSlotsSlot :=
  let millis := toMillis (won_slot a) in
  let isActive := getActive (clock (2 * k)) millis (r_discarded (a_times a)) in
  let tx := transactions <$> block a in
  agoText ← calculateTimeAgo (clock (2 * k + 1)) isActive millis;
  Ret {|
    epoch := Some (w_epoch (won_slot a));
    message := getMessage isActive (a_status a);
    age := agoText;
    slotTime := millis;
    globalSlot := global_slot (won_slot a);
    slotInEpoch := Some (Z.rem (global_slot (won_slot a)) 7140);
    vrfValueWithThreshold := value_with_threshold (won_slot a);
    active := isActive;
    percentage := if isActive then Some (stagesDone (mapTimes (a_times a)) * 20) else None;
    height := b_height <$> block a;
    hash := b_hash <$> block a;
    transactionsTotal := Some (default 0 ((fun t => t_payments t + t_delegations t + t_zkapps t) <$> tx))%Z;
    payments := Some (default 0%Z (t_payments <$> tx));
    delegations := Some (default 0%Z (t_delegations <$> tx));
    zkapps := Some (default 0%Z (t_zkapps <$> tx));
    snarkFees := (fun b => inMina (snark_fees b)) <$> block a;
    coinbaseRewards := (fun b => inMina (coinbase b)) <$> block a;
    txFeesRewards := (fun b => inMina (fees b)) <$> block a;
    completedWorksCount := Some (default 0%Z (completed_works_count <$> block a));
    times := Some (mapTimes (a_times a));
    status := a_status a;
    discardReason := discard_reason a;
    lastObservedConfirmations := last_observed_confirmations a;
    orphanedBy := orphaned_by a
  |}.

(** A won slot without attempt; the clock is read at place [i]. *)
Definition mapFuture (i : nat) (slot : WonSlot) : exec BlockProductionWonSlotsSlot :=
  agoText ← calculateTimeAgo (clock i) false (toMillis slot);
  Ret {|
    epoch := None; message := getMessage false None; age := agoText; slotTime := toMillis slot;
    globalSlot := global_slot slot; slotInEpoch := None; vrfValueWithThreshold := value_with_threshold slot;
    active := false; percentage := None; height := None; hash := None; transactionsTotal := None;
    payments := None; delegations := None; zkapps := None; snarkFees := None; coinbaseRewards := None;
    txFeesRewards := None; completedWorksCount := None; times := None; status := None;
    discardReason := None; lastObservedConfirmations := None; orphanedBy := None
  |}.

(** A callback that can throw, with the index it is called with. *)
Fixpoint exec_mapi {A B} (f : nat -> A -> exec B) (i : nat) (l : list A) : exec (list B) :=
  match l with
  | [] => Ret []
  | x :: l => y ← f i x; ys ← exec_mapi f (S i) l; Ret (y :: ys)
  end.

Definition mapSlots (response : option WonSlotResponse)
  : exec (list BlockProductionWonSlotsSlot * option BlockProductionWonSlotsEpoch) :=
  match response with
  | None => Ret ([], None)
  | Some r =>
      attemptsSlots ← exec_mapi mapAttempt 0 (attempts r);
      futureWonSlots ← exec_mapi mapFuture (2 * length (attempts r)) (future_won_slots r);
      Ret (attemptsSlots ++ futureWonSlots,
           Some {| epochNumber := current_epoch r; start := epoch_start r; end_ := epoch_end r;
                   currentGlobalSlot := current_global_slot r; currentTime := current_time r;
                   vrfStats := mkVrf (fst <$> current_epoch_vrf_stats r) (snd <$> current_epoch_vrf_stats r);
                   publicKey := public_key r |})
  end.

(** * Effects *)

(** The slot chosen when the route names none. *)
Definition preferred (l : list BlockProductionWonSlotsSlot) : option BlockProductionWonSlotsSlot :=
  match List.find active l with
  | Some s => Some s
  | None =>
      match List.find (fun s => bool_decide (status s = Some Committed)) l with
      | Some s => Some s
      | None =>
          match List.find (fun s => bool_decide (status s = Some Scheduled)) l with
          | Some s => Some s
          | None => List.find (fun s => bool_decide (status s = None)) l
          end
      end
  end.

(** The slot [getSlots$] selects. *)
Definition newActiveSlot (state : BlockProductionWonSlotsState) (newSlots : list BlockProductionWonSlotsSlot)
  : option BlockProductionWonSlotsSlot :=
  let route := activeSlotRoute state in
  let found := List.find (fun s => bool_decide (Some (showZ (globalSlot s)) = route)) newSlots in
  if (isDesktop && negb (truthyStr route)) ||
     (truthyStr route && bool_decide (found = None)) ||
     (negb isDesktop && negb (truthyStr route) && bool_decide (length (slots state) = 0))
  then preferred newSlots
  else found.

(** The route it navigates to. *)
Definition routes (state : BlockProductionWonSlotsState) (selected : option BlockProductionWonSlotsSlot)
  : list string :=
  let route := activeSlotRoute state in
  ["block-production"; "won-slots"] ++
  (if (bool_decide (is_Some selected) && isDesktop) ||
      (truthyStr route && bool_decide (activeSlot state = None)) ||
      (truthyStr route && openSidePanel state)
   then [default "" ((fun s => showZ (globalSlot s)) <$> selected)] else []).

(** The action [getSlots$] dispatches for an answer; a failed request is [None]. *)
Definition getSlotsAction (state : BlockProductionWonSlotsState) (answer : option (option WonSlotResponse))
  : BlockProductionWonSlotsActions :=
  match answer ≫= fun r => match mapSlots r with Ret x => Some x | Throw _ => None end with
  | Some (newSlots, newEpoch) => getSlotsSuccess newSlots newEpoch (newActiveSlot state newSlots)
  | None => getSlotsSuccess [] None None
  end.

(** [setActiveSlotNumber$] *)
Definition setActiveSlotNumberEffect (state : BlockProductionWonSlotsState) (slotNumber : Z)
  : BlockProductionWonSlotsActions :=
  setActiveSlot (List.find (fun s => bool_decide (globalSlot s = slotNumber)) (slots state)).

End Page.

(** * The displayed slots *)

(** What the filters mean for a slot; an attempt under way counts as active. *)
Definition visible (f : BlockProductionWonSlotsFilters) (slot : BlockProductionWonSlotsSlot) : Prop :=
  active slot = true \/
  match status slot with
  | Some Canonical => accepted f = true
  | Some Orphaned => orphaned f = true
  | Some Discarded => filterDiscarded f = true
  | Some Committed | Some Scheduled => True
  | None => upcoming f = true
  | Some _ => False
  end.

Lemma keepSlot_visible f slot : keepSlot f slot = true <-> visible f slot.
Proof.
  unfold keepSlot, visible. destruct (active slot), (status slot) as [[]|], f as [[] [] [] []]; cbn; intuition congruence.
Qed.

Section Displayed.
Context {LC : LocaleCompare} (isDesktop : bool).

(** In every state the page can reach, the displayed slots are the loaded
    ones that pass the current filters, in the order of the current sort: an
    active or committed slot always, an upcoming, canonical, orphaned or
    discarded one as its filter says, and a slot between two stages that is no
    longer active never.  A scheduled slot is displayed whatever the filters. *)
Theorem wonslots_displayed s :
  reachable_exec (blockProductionWonSlotsReducer isDesktop) (initialState isDesktop) (fun _ _ => True) s ->
  (exists l, sortSlots (slots s) (stateSort s) = l /\ filteredSlots s = List.filter (keepSlot (filters s)) l /\
             Permutation (slots s) l) /\
  forall slot, slot ∈ filteredSlots s <-> slot ∈ slots s /\ visible (filters s) slot.
Proof.
  intros Hs.
  assert (filteredSlots s = filterSlots (sortSlots (slots s) (stateSort s)) (filters s)) as H.
  { revert s Hs. apply reachable_exec_inv; [done|]. intros s a s' IH _ Hstep.
    destruct a as [| | | | |[]| | |]; cbn in Hstep; simplify_eq; done. }
  split.
  - eexists. split; [done|]. split; [exact H|]. apply sort_perm.
  - intros slot. rewrite H. unfold filterSlots. rewrite elem_of_list_filter, keepSlot_visible.
    unfold sortSlots. by rewrite sort_elem.
Qed.

End Displayed.

(** * The mapped slots *)

Lemma calculateTimeAgo_total now isActive t : exists text, calculateTimeAgo now isActive t = Ret text.
Proof.
  unfold calculateTimeAgo. destruct isActive; [eauto|]. unfold getTimeDiff.
  repeat case_match; simplify_eq/=; eauto.
Qed.

(** The text of a number is not empty. *)
Lemma showZ_truthy z : truthyStr (Some (showZ z)) = true.
Proof.
  destruct z as [|p|p]; [done| |done]. pose proof (digitsValue_showZ (Z.pos p) ltac:(lia)) as H.
  unfold truthyStr. destruct (showZ (Z.pos p)) as [|c t]; [|done]. cbn in H. by simplify_eq.
Qed.

Section Mapped.
Context (isDesktop : bool).

Lemma exec_mapi_spec {A B} (f : nat -> A -> exec B) (Q : A -> B -> Prop) l :
  (forall i x, exists y, f i x = Ret y /\ Q x y) ->
  forall i, exists ys, exec_mapi f i l = Ret ys /\ Forall2 Q l ys.
Proof.
  intros Hf. induction l as [|x l IH]; intros i; [by exists []|].
  destruct (Hf i x) as (y & Hy & HQ). destruct (IH (S i)) as (ys & Hys & HF).
  exists (y :: ys). cbn. rewrite Hy. cbn. rewrite Hys. by split; [|constructor].
Qed.

(** An attempt and its row. *)
Definition attemptRow (a : Attempt) (s : BlockProductionWonSlotsSlot) : Prop :=
  globalSlot s = global_slot (won_slot a) /\ slotTime s = toMillis (won_slot a) /\ status s = a_status a /\
  transactionsTotal s = Some (default 0 (payments s) + default 0 (delegations s) + default 0 (zkapps s))%Z /\
  (if active s
   then message s = "Producing" /\ age s = "Now" /\ truthyNum (r_discarded (a_times a)) = false /\
        exists k, k <= 5 /\ percentage s = Some (20 * k)
   else message s = getMessage isDesktop false (a_status a) /\ percentage s = None).

(** A future slot and its row. *)
Definition futureRow (w : WonSlot) (s : BlockProductionWonSlotsSlot) : Prop :=
  globalSlot s = global_slot w /\ slotTime s = toMillis w /\ status s = None /\ active s = false /\
  message s = (if isDesktop then "Upcoming Won Slot" else "Won Slot").

Lemma mapAttempt_row clock k a : exists s, mapAttempt isDesktop clock k a = Ret s /\ attemptRow a s /\
  active s = getActive (clock (2 * k)) (slotTime s) (r_discarded (a_times a)).
Proof.
  unfold mapAttempt. set (b := getActive _ _ _).
  destruct (calculateTimeAgo_total (clock (2 * k + 1)) b (toMillis (won_slot a))) as [text Ht].
  rewrite Ht. eexists. split; [done|]. split; [|done].
  unfold attemptRow. cbn. split_and!; try done.
  - by destruct (block a).
  - destruct b eqn:Hb; [|done]. split; [done|]. split.
    { unfold calculateTimeAgo in Ht. by simplify_eq. }
    split.
    { subst b. unfold getActive in Hb. by apply andb_true_iff in Hb as [_ ?%negb_true_iff]. }
    exists (stagesDone (mapTimes (a_times a))). split; [apply countIf_le|]. f_equal. apply Nat.mul_comm.
Qed.

Lemma mapFuture_row clock i w : exists s, mapFuture isDesktop clock i w = Ret s /\ futureRow w s.
Proof.
  unfold mapFuture. destruct (calculateTimeAgo_total (clock i) false (toMillis w)) as [text Ht].
  rewrite Ht. eexists. split; [done|]. unfold futureRow. cbn. by destruct isDesktop.
Qed.

(** The mapping of an answer never throws, whatever the clock: it lists one
    row per attempt and then one per future slot, in the order of the answer,
    with the slot time in milliseconds.  An attempt under way is shown as
    producing, with a progress of twenty percent per finished stage, at most a
    hundred; every other attempt by its status. *)
Theorem wonslots_mapped clock r :
  exists rows ep, mapSlots isDesktop clock (Some r) = Ret (rows, Some ep) /\
  exists past future, rows = past ++ future /\
    Forall2 attemptRow (attempts r) past /\ Forall2 futureRow (future_won_slots r) future.
Proof.
  destruct (exec_mapi_spec (mapAttempt isDesktop clock) attemptRow (attempts r)) with (i := 0)
    as (past & Hp & HP).
  { intros i x. destruct (mapAttempt_row clock i x) as (s & H1 & H2 & _). eauto. }
  destruct (exec_mapi_spec (mapFuture isDesktop clock) futureRow (future_won_slots r)) with
    (i := 2 * length (attempts r)) as (future & Hf & HF).
  { intros i x. apply mapFuture_row. }
  unfold mapSlots. rewrite Hp. cbn [mbind exec_bind]. rewrite Hf. cbn [mbind exec_bind].
  eexists _, _. split; [done|]. eauto.
Qed.

(** A slot lasts three minutes, so when the slot times of the attempts are
    at least that far apart and the clock stands still during the mapping, at
    most one row is active, and it is the attempt whose slot the clock is in. *)
Theorem wonslots_one_active now r rows ep :
  mapSlots isDesktop (fun _ => now) (Some r) = Ret (rows, ep) ->
  (forall i j a b, attempts r !! i = Some a -> attempts r !! j = Some b -> i < j ->
     (180000 <= Z.abs (toMillis (won_slot a) - toMillis (won_slot b)))%Z) ->
  (forall i s, rows !! i = Some s -> active s = true -> (slotTime s <= now < slotTime s + 180000)%Z) /\
  (forall i j s t, rows !! i = Some s -> rows !! j = Some t -> active s = true -> active t = true -> i = j).
Proof.
  intros H Hgap.
  pose (row a s := slotTime s = toMillis (won_slot a) /\
                   active s = getActive now (slotTime s) (r_discarded (a_times a))).
  destruct (exec_mapi_spec (mapAttempt isDesktop (fun _ => now)) row (attempts r)) with (i := 0)
    as (past & Hp & HP).
  { intros i x. destruct (mapAttempt_row (fun _ => now) i x) as (s & H1 & (_ & H2 & _) & H3). by exists s. }
  destruct (exec_mapi_spec (mapFuture isDesktop (fun _ => now)) futureRow (future_won_slots r)) with
    (i := 2 * length (attempts r)) as (future & Hf & HF).
  { intros i x. apply mapFuture_row. }
  unfold mapSlots in H. rewrite Hp in H. cbn [mbind exec_bind] in H. rewrite Hf in H.
  cbn [mbind exec_bind] in H. simplify_eq.
  assert (forall i s, (past ++ future) !! i = Some s -> active s = true ->
    exists a, attempts r !! i = Some a /\ slotTime s = toMillis (won_slot a) /\
              (slotTime s <= now < slotTime s + 180000)%Z) as Hact.
  { intros i s [Hi|[Hlen Hi]]%lookup_app_Some Ha.
    - destruct (Forall2_lookup_r _ _ _ _ _ HP Hi) as (a & Ha' & Ht & Hg).
      exists a. rewrite Hg in Ha. unfold getActive in Ha. js_simpl. split_and!; [done|done|lia..].
    - destruct (Forall2_lookup_r _ _ _ _ _ HF Hi) as (w & _ & Hrow).
      destruct Hrow as (_ & _ & _ & Hfalse & _). congruence. }
  split.
  - intros i s Hi Ha. by destruct (Hact i s Hi Ha) as (a & _ & _ & ?).
  - intros i j s t Hi Hj Hs Ht.
    destruct (Hact i s Hi Hs) as (a & Ha & Hta & Ba). destruct (Hact j t Hj Ht) as (b & Hb & Htb & Bb).
    destruct (Nat.lt_trichotomy i j) as [Hlt|[->|Hlt]]; [|done|].
    + pose proof (Hgap i j a b Ha Hb Hlt). lia.
    + pose proof (Hgap j i b a Hb Ha Hlt). lia.
Qed.

End Mapped.

(** * The selected slot *)

(** The first slot of the best kind present. *)
Definition bestKind (l : list BlockProductionWonSlotsSlot) (o : option BlockProductionWonSlotsSlot) : Prop :=
  match o with
  | Some s => s ∈ l /\ (active s = true \/
      (forall x, x ∈ l -> active x = false) /\
      (status s = Some Committed \/
       (forall x, x ∈ l -> status x <> Some Committed) /\
       (status s = Some Scheduled \/
        (forall x, x ∈ l -> status x <> Some Scheduled) /\ status s = None)))
  | None => forall x, x ∈ l -> active x = false /\ status x <> Some Committed /\
                      status x <> Some Scheduled /\ status x <> None
  end.

Lemma find_status_None st `{!forall s, Decision (status s = st)} l :
  List.find (fun s => bool_decide (status s = st)) l = None -> forall x, x ∈ l -> status x <> st.
Proof. intros Hf x Hx. rewrite find_None_iff in Hf. by apply Hf, bool_decide_eq_false in Hx. Qed.

Lemma find_status_Some st `{!forall s, Decision (status s = st)} l s :
  List.find (fun s => bool_decide (status s = st)) l = Some s -> s ∈ l /\ status s = st.
Proof. intros [H1 H2%bool_decide_eq_true]%find_Some_iff. done. Qed.

Lemma preferred_bestKind l : bestKind l (preferred l).
Proof.
  unfold preferred, bestKind. destruct (List.find active l) as [s|] eqn:H1.
  { apply find_Some_iff in H1 as []. auto. }
  rewrite find_None_iff in H1. destruct (List.find _ l) as [s|] eqn:H2.
  { apply find_status_Some in H2 as []. auto 10. }
  pose proof (find_status_None _ _ H2) as N2. clear H2.
  destruct (List.find _ l) as [s|] eqn:H3.
  { apply find_status_Some in H3 as []. auto 10. }
  pose proof (find_status_None _ _ H3) as N3. clear H3.
  destruct (List.find _ l) as [s|] eqn:H4.
  { apply find_status_Some in H4 as []. auto 10. }
  pose proof (find_status_None _ _ H4) as N4. intros x Hx. auto.
Qed.

Lemma newActiveSlot_cases isDesktop state newSlots :
  newActiveSlot isDesktop state newSlots = preferred newSlots \/
  newActiveSlot isDesktop state newSlots =
    List.find (fun s => bool_decide (Some (showZ (globalSlot s)) = activeSlotRoute state)) newSlots.
Proof. unfold newActiveSlot. destruct (_ || _); auto. Qed.

(** The slot an answer selects is one of its slots.  A slot the route names is
    selected whenever it is in the answer.  Without a route on a desktop, and
    when the route names a slot that is not in the answer, the first active
    slot is selected, else the first committed, scheduled or upcoming one, in
    this order, and none only when there is no such slot. *)
Theorem wonslots_selection isDesktop state newSlots :
  (forall s, newActiveSlot isDesktop state newSlots = Some s -> s ∈ newSlots) /\
  (forall s, s ∈ newSlots -> activeSlotRoute state = Some (showZ (globalSlot s)) ->
     exists s', newActiveSlot isDesktop state newSlots = Some s' /\ globalSlot s' = globalSlot s) /\
  ((isDesktop = true /\ truthyStr (activeSlotRoute state) = false) \/
   (truthyStr (activeSlotRoute state) = true /\
    forall s, s ∈ newSlots -> activeSlotRoute state <> Some (showZ (globalSlot s))) ->
     bestKind newSlots (newActiveSlot isDesktop state newSlots)).
Proof.
  split_and!.
  - intros s Hs. pose proof (preferred_bestKind newSlots) as Hp.
    destruct (newActiveSlot_cases isDesktop state newSlots) as [Heq|Heq]; rewrite Heq in Hs.
    + rewrite Hs in Hp. by destruct Hp.
    + by apply find_Some_iff in Hs as [].
  - intros s Hs Hroute. unfold newActiveSlot. rewrite Hroute.
    destruct (List.find _ newSlots) as [s'|] eqn:Hfind.
    + apply find_Some_iff in Hfind as [_ Hs'%bool_decide_eq_true]. injection Hs' as Hs'.
      assert (globalSlot s' = globalSlot s) as Hg by (by apply (inj pretty)).
      assert (truthyStr (Some (showZ (globalSlot s))) = true) as ->; [by apply showZ_truthy|].
      rewrite (bool_decide_false (Some s' = None)) by done. cbn. rewrite !andb_false_r. cbn. eauto.
    + rewrite find_None_iff in Hfind. apply Hfind in Hs. by rewrite bool_decide_true in Hs.
  - intros Hcase. assert (newActiveSlot isDesktop state newSlots = preferred newSlots) as ->;
      [|apply preferred_bestKind].
    unfold newActiveSlot. destruct Hcase as [[-> Hr]|[Hr Hno]]; [by rewrite Hr|].
    assert (List.find (fun s => bool_decide (Some (showZ (globalSlot s)) = activeSlotRoute state)) newSlots = None)
      as -> by (apply find_None_iff; intros x Hx; apply bool_decide_eq_false; intros E; by apply (Hno x Hx)).
    rewrite Hr. cbn. by rewrite orb_true_r.
Qed.

(** * Examples *)

Definition demoTimes : Times :=
  mkRawTimes (Some 1%Z) (Some 5%Z) (Some 9%Z) (Some 12%Z) None None None None None None.
Definition demoAttempt (t slot : Z) (st : BlockProductionWonSlotsStatus) : Attempt :=
  mkAttempt (mkWonSlot t slot 3 [] []) None demoTimes (Some st) None None None.
Definition demoResponse : WonSlotResponse :=
  mkResponse [demoAttempt 1700000000000000000 7150 Orphaned; demoAttempt 1700000180000000000 7151 Produced]
    [mkWonSlot 1700000540000000000 7153 3 [] []] 7151 0 0 0 3 None "B62".

Lemma wonslots_one_active_witness :
  exists rows ep, mapSlots true (fun _ => 1700000200000%Z) (Some demoResponse) = Ret (rows, ep) /\
    active <$> rows = [false; true; false] /\ percentage <$> rows = [None; Some 40; None] /\
    age <$> rows = ["3m ago"; "Now"; "in ~ 5m"] /\
    (1700000180000 <= 1700000200000 < 1700000180000 + 180000)%Z.
Proof.
  destruct (mapSlots true (fun _ => 1700000200000%Z) (Some demoResponse)) as [[rows ep]|e] eqn:E;
    [|vm_compute in E; discriminate E].
  exists rows, ep. split; [reflexivity|].
  pose proof (wonslots_one_active true 1700000200000 demoResponse rows ep E) as H.
  vm_compute in E. injection E as <- <-. split; [reflexivity|]. split; [reflexivity|]. split; [reflexivity|].
  refine (proj1 (H _) 1 _ eq_refl eq_refl).
  intros i j a b Ha Hb Hij. destruct i as [|[|i]], j as [|[|j]]; try lia; cbn in Ha, Hb; try discriminate.
  injection Ha as <-. injection Hb as <-. vm_compute. discriminate.
Defined.

Definition demoSlot (slot : Z) (st : option BlockProductionWonSlotsStatus) (isActive : bool)
  : BlockProductionWonSlotsSlot :=
  mkSlot None "" "" slot slot None [] isActive None None None None None None None None None None None None st
    None None None.

Definition demoSlots : list BlockProductionWonSlotsSlot :=
  [demoSlot 3 (Some Scheduled) false; demoSlot 1 (Some Canonical) false; demoSlot 2 None false].

(** All filters off: the scheduled slot is still displayed. *)
Lemma wonslots_displayed_witness :
  exists s, runM (blockProductionWonSlotsReducer (LC := codeUnitCompare) true) (initialState true)
      [getSlotsSuccess demoSlots None None; changeFilters (mkFilters false false false false)] = Ret s /\
    demoSlot 3 (Some Scheduled) false ∈ filteredSlots s.
Proof.
  set (s1 := match blockProductionWonSlotsReducer (LC := codeUnitCompare) true (initialState true)
    (getSlotsSuccess demoSlots None None) with Ret s => s | Throw _ => initialState true end).
  eexists. split; [reflexivity|].
  apply (wonslots_displayed (LC := codeUnitCompare) true).
  - eapply (reachable_exec_step _ _ _ s1 (changeFilters (mkFilters false false false false)));
      [|exact I|reflexivity].
    eapply (reachable_exec_step _ _ _ (initialState true) (getSlotsSuccess demoSlots None None));
      [apply reachable_exec_init|exact I|reflexivity].
  - split; [apply list_elem_of_here|]. right. exact I.
Defined.

Lemma wonslots_selection_witness :
  exists s, newActiveSlot true (initialState true) demoSlots = Some s /\ globalSlot s = 3%Z /\ s ∈ demoSlots.
Proof.
  eexists. split; [reflexivity|]. split; [reflexivity|].
  apply (proj1 (wonslots_selection true (initialState true) demoSlots)). reflexivity.
Defined.

End WonSlots.
