(* ===== verification/Loading.v ===== *)
(** The loading bar (frontend/src/app/layout/toolbar/loading.reducer.ts): the
    reducer that keeps the types of the requests in progress, against an abstract
    specification as the set of pending requests of the pages. *)

From S2P Require Import Prelude.
From stdpp Require Import gmap.

Module Loading.

(** * The reducer *)

(** [createType(module, submodule, actionName)] of store-functions.ts *)
Definition createType (module : string) (submodule : option string) (actionName : string) : string :=
  "[" +:+ module +:+ match submodule with Some s => if bool_decide (s = "") then "" else " " +:+ s | None => "" end
  +:+ "] " +:+ actionName.

Definition APP_PREFIX : string := "App".
Definition BLOCK_PRODUCTION_PREFIX : string := "Block Production".
Definition overview (name : string) : string := createType BLOCK_PRODUCTION_PREFIX (Some "Overview") name.
Definition wonSlots (name : string) : string := createType BLOCK_PRODUCTION_PREFIX (Some "Won Slots") name.
Definition app (name : string) : string := createType APP_PREFIX None name.

Notation LoadingState := (list string).

Definition initialState : LoadingState := [].

(** The argument of [remove], a type or an array of types. *)
Inductive Removal := One (type : string) | Many (types : list string).

Definition add (state : LoadingState) (type : string) : LoadingState := type :: state.

Definition remove (state : LoadingState) (r : Removal) : LoadingState :=
  match r with
  | Many types => List.filter (fun t => negb (includes types t)) state
  | One type => List.filter (fun t => negb (bool_decide (t = type))) state
  end.

(** The cases of the switch that add the type of the action. *)
Definition added : list string :=
  [ app "Init"; overview "Get Slots"; wonSlots "Init";
    "STATE_ACTIONS_GET_EARLIEST_SLOT"; "STATE_ACTIONS_GET_ACTIONS";
    "NODES_OVERVIEW_INIT"; "NODES_BOOTSTRAP_INIT"; "NODES_LIVE_INIT";
    "SNARKS_WORK_POOL_INIT"; "SNARKS_WORK_POOL_GET_WORK_POOL_DETAIL"; "SCAN_STATE_INIT";
    "MEMORY_RESOURCES_GET"; "NETWORK_NODE_DHT_INIT"; "NETWORK_BOOTSTRAP_STATS_INIT";
    "BENCHMARKS_WALLETS_GET_WALLETS"; "BENCHMARKS_WALLETS_GET_ALL_TXS" ].

(** The cases that remove, with what they remove. *)
Definition removed : list (string * Removal) :=
  [ (app "Init Success", One (app "Init"));
    (overview "Get Slots Success", One (overview "Get Slots"));
    (overview "Close", Many [overview "Close"]);
    (wonSlots "Get Slots Success", One (wonSlots "Init"));
    (wonSlots "Close", One (wonSlots "Init"));
    ("STATE_ACTIONS_GET_EARLIEST_SLOT_SUCCESS", One "STATE_ACTIONS_GET_EARLIEST_SLOT");
    ("STATE_ACTIONS_GET_ACTIONS_SUCCESS", One "STATE_ACTIONS_GET_ACTIONS");
    ("STATE_ACTIONS_CLOSE", Many ["STATE_ACTIONS_GET_EARLIEST_SLOT"; "STATE_ACTIONS_GET_ACTIONS"]);
    ("NODES_OVERVIEW_GET_NODES_SUCCESS", One "NODES_OVERVIEW_INIT");
    ("NODES_OVERVIEW_CLOSE", Many ["NODES_OVERVIEW_INIT"]);
    ("NODES_BOOTSTRAP_GET_NODES_SUCCESS", One "NODES_BOOTSTRAP_INIT");
    ("NODES_BOOTSTRAP_CLOSE", Many ["NODES_BOOTSTRAP_INIT"]);
    ("NODES_LIVE_GET_NODES_SUCCESS", One "NODES_LIVE_INIT");
    ("NODES_LIVE_CLOSE", Many ["NODES_LIVE_INIT"]);
    ("SNARKS_WORK_POOL_GET_WORK_POOL_SUCCESS", One "SNARKS_WORK_POOL_INIT");
    ("SNARKS_WORK_POOL_GET_WORK_POOL_DETAIL_SUCCESS", One "SNARKS_WORK_POOL_GET_WORK_POOL_DETAIL");
    ("SNARKS_WORK_POOL_CLOSE", Many ["SNARKS_WORK_POOL_INIT"; "SNARKS_WORK_POOL_GET_WORK_POOL_DETAIL"]);
    ("SCAN_STATE_GET_BLOCK_SUCCESS", One "SCAN_STATE_INIT");
    ("SCAN_STATE_CLOSE", Many ["SCAN_STATE_INIT"]);
    ("MEMORY_RESOURCES_GET_SUCCESS", One "MEMORY_RESOURCES_GET");
    ("MEMORY_RESOURCES_CLOSE", Many ["MEMORY_RESOURCES_GET"]);
    ("NETWORK_NODE_DHT_GET_PEERS_SUCCESS", One "NETWORK_NODE_DHT_INIT");
    ("NETWORK_NODE_DHT_CLOSE", Many ["NETWORK_NODE_DHT_INIT"]);
    ("NETWORK_BOOTSTRAP_STATS_GET_BOOTSTRAP_STATS_SUCCESS", One "NETWORK_BOOTSTRAP_STATS_INIT");
    ("NETWORK_BOOTSTRAP_STATS_CLOSE", Many ["NETWORK_BOOTSTRAP_STATS_INIT"]);
    ("BENCHMARKS_WALLETS_GET_WALLETS_SUCCESS", One "BENCHMARKS_WALLETS_GET_WALLETS");
    ("BENCHMARKS_GET_ALL_TXS_SUCCESS", One "BENCHMARKS_WALLETS_GET_ALL_TXS");
    ("BENCHMARKS_WALLETS_CLOSE", Many ["BENCHMARKS_WALLETS_GET_WALLETS"; "BENCHMARKS_WALLETS_GET_ALL_TXS"]) ].

Definition removal (type : string) : option Removal :=
  snd <$> List.find (fun c => bool_decide (c.1 = type)) removed.

(** The switch on the type of any action dispatched to the store. *)
Definition loadingReducer (state : LoadingState) (type : string) : LoadingState :=
  if includes added type then add state type
  else match removal type with
       | Some r => remove state r
       | None => state
       end.

(** The toolbar shows the bar exactly when this is positive. *)
Definition selectLoadingStateLength (state : LoadingState) : nat := length state.

(** * Specification: the pending requests of the pages

    A page starts requests, a request is answered, and leaving a page gives up
    its requests. *)

Inductive Request :=
| AppInit | OverviewSlots | WonSlotsInit | EarliestSlot | StateActions | NodesOverview | NodesBootstrap
| NodesLive | WorkPool | WorkPoolDetail | ScanState | Memory | NodeDht | BootstrapStats | Wallets | AllTxs.

#[export] Instance Request_eq_dec : EqDecision Request.
Proof. solve_decision. Defined.

Definition requests : list Request :=
  [ AppInit; OverviewSlots; WonSlotsInit; EarliestSlot; StateActions; NodesOverview; NodesBootstrap;
    NodesLive; WorkPool; WorkPoolDetail; ScanState; Memory; NodeDht; BootstrapStats; Wallets; AllTxs ].

Definition startType (r : Request) : string :=
  match r with
  | AppInit => app "Init" | OverviewSlots => overview "Get Slots" | WonSlotsInit => wonSlots "Init"
  | EarliestSlot => "STATE_ACTIONS_GET_EARLIEST_SLOT" | StateActions => "STATE_ACTIONS_GET_ACTIONS"
  | NodesOverview => "NODES_OVERVIEW_INIT" | NodesBootstrap => "NODES_BOOTSTRAP_INIT"
  | NodesLive => "NODES_LIVE_INIT" | WorkPool => "SNARKS_WORK_POOL_INIT"
  | WorkPoolDetail => "SNARKS_WORK_POOL_GET_WORK_POOL_DETAIL" | ScanState => "SCAN_STATE_INIT"
  | Memory => "MEMORY_RESOURCES_GET" | NodeDht => "NETWORK_NODE_DHT_INIT"
  | BootstrapStats => "NETWORK_BOOTSTRAP_STATS_INIT" | Wallets => "BENCHMARKS_WALLETS_GET_WALLETS"
  | AllTxs => "BENCHMARKS_WALLETS_GET_ALL_TXS"
  end.

Definition answerType (r : Request) : string :=
  match r with
  | AppInit => app "Init Success" | OverviewSlots => overview "Get Slots Success"
  | WonSlotsInit => wonSlots "Get Slots Success"
  | EarliestSlot => "STATE_ACTIONS_GET_EARLIEST_SLOT_SUCCESS" | StateActions => "STATE_ACTIONS_GET_ACTIONS_SUCCESS"
  | NodesOverview => "NODES_OVERVIEW_GET_NODES_SUCCESS" | NodesBootstrap => "NODES_BOOTSTRAP_GET_NODES_SUCCESS"
  | NodesLive => "NODES_LIVE_GET_NODES_SUCCESS" | WorkPool => "SNARKS_WORK_POOL_GET_WORK_POOL_SUCCESS"
  | WorkPoolDetail => "SNARKS_WORK_POOL_GET_WORK_POOL_DETAIL_SUCCESS" | ScanState => "SCAN_STATE_GET_BLOCK_SUCCESS"
  | Memory => "MEMORY_RESOURCES_GET_SUCCESS" | NodeDht => "NETWORK_NODE_DHT_GET_PEERS_SUCCESS"
  | BootstrapStats => "NETWORK_BOOTSTRAP_STATS_GET_BOOTSTRAP_STATS_SUCCESS"
  | Wallets => "BENCHMARKS_WALLETS_GET_WALLETS_SUCCESS" | AllTxs => "BENCHMARKS_GET_ALL_TXS_SUCCESS"
  end.

(** The action that leaves the page of the request; the application itself is
    never left. *)
Definition leaveType (r : Request) : option string :=
  match r with
  | AppInit => None | OverviewSlots => Some (overview "Close") | WonSlotsInit => Some (wonSlots "Close")
  | EarliestSlot | StateActions => Some "STATE_ACTIONS_CLOSE"
  | NodesOverview => Some "NODES_OVERVIEW_CLOSE" | NodesBootstrap => Some "NODES_BOOTSTRAP_CLOSE"
  | NodesLive => Some "NODES_LIVE_CLOSE" | WorkPool | WorkPoolDetail => Some "SNARKS_WORK_POOL_CLOSE"
  | ScanState => Some "SCAN_STATE_CLOSE" | Memory => Some "MEMORY_RESOURCES_CLOSE"
  | NodeDht => Some "NETWORK_NODE_DHT_CLOSE" | BootstrapStats => Some "NETWORK_BOOTSTRAP_STATS_CLOSE"
  | Wallets | AllTxs => Some "BENCHMARKS_WALLETS_CLOSE"
  end.

Definition starts (t : string) (r : Request) : Prop := t = startType r.
Definition ends (t : string) (r : Request) : Prop := t = answerType r \/ Some t = leaveType r.

(** A request is pending after the actions when it was started and neither
    answered nor left since. *)
Inductive pending (r : Request) : list string -> Prop :=
| pending_start acts t : starts t r -> pending r (acts ++ [t])
| pending_keep acts t : pending r acts -> ~ ends t r -> pending r (acts ++ [t]).

(** * Refinement *)

#[export] Instance starts_dec t r : Decision (starts t r).
Proof. unfold starts. apply _. Defined.
#[export] Instance ends_dec t r : Decision (ends t r).
Proof. unfold ends. apply _. Defined.

Lemma requests_all r : r ∈ requests.
Proof. destruct r; vm_compute; set_solver. Qed.

Definition actionTypes : list string := added ++ removed.*1.

(** What the reducer does with the entry of a request. *)
Definition removes (t : string) (r : Request) : bool :=
  match removal t with
  | Some (One u) => bool_decide (startType r = u)
  | Some (Many us) => includes us (startType r)
  | None => false
  end.

(** The tables agree on every action and request, but for leaving the overview
    of the block production. *)
Definition agree (t : string) (r : Request) : bool :=
  eqb (includes added t && bool_decide (t = startType r)) (bool_decide (starts t r)) &&
  eqb (negb (includes added t) && removes t r)
      (bool_decide (ends t r) && negb (bool_decide (t = overview "Close" /\ r = OverviewSlots))).

Lemma agree_known : forallb (fun t => forallb (agree t) requests) actionTypes = true.
Proof. vm_compute. reflexivity. Qed.

Lemma agree_types : forallb (fun r => includes actionTypes (startType r) && includes actionTypes (answerType r) &&
  match leaveType r with Some t => includes actionTypes t | None => true end) requests = true.
Proof. vm_compute. reflexivity. Qed.

Lemma added_requests : forallb (fun t => existsb (fun r => bool_decide (t = startType r)) requests) added = true.
Proof. vm_compute. reflexivity. Qed.

Lemma unknown_type t r : t ∉ actionTypes ->
  includes added t = false /\ removal t = None /\ ~ starts t r /\ ~ ends t r.
Proof.
  intros Ht. pose proof agree_types as Ha. rewrite forallb_forall in Ha.
  specialize (Ha r ltac:(apply list_elem_of_In, requests_all)). rewrite !andb_true_iff, !includes_true in Ha.
  destruct Ha as [[H1 H2] H3]. repeat split.
  - apply includes_false. intros ?. apply Ht, elem_of_app. by left.
  - unfold removal. destruct (List.find _ _) as [c|] eqn:Hf; [|done].
    apply find_Some_iff in Hf as [Hc He]. apply bool_decide_eq_true in He. subst.
    destruct Ht. apply elem_of_app. right. by apply list_elem_of_fmap_2.
  - intros ->. done.
  - intros [->|E]; [done|]. rewrite <- E in H3. by rewrite includes_true in H3.
Qed.

(** One step of the reducer on the entry of a request. *)
Lemma loading_step s t r : startType r ∈ loadingReducer s t <->
  starts t r \/ (startType r ∈ s /\ ~ (ends t r /\ ~ (t = overview "Close" /\ r = OverviewSlots))).
Proof.
  destruct (decide (t ∈ actionTypes)) as [Ht|Ht].
  - pose proof agree_known as Ha. rewrite forallb_forall in Ha.
    specialize (Ha t ltac:(by apply list_elem_of_In)). rewrite forallb_forall in Ha.
    specialize (Ha r ltac:(apply list_elem_of_In, requests_all)).
    unfold agree in Ha. rewrite andb_true_iff, !eqb_true_iff in Ha. destruct Ha as [H1 H2].
    assert (includes added t && bool_decide (t = startType r) = true <-> starts t r) as H1'.
    { rewrite H1. apply bool_decide_eq_true. }
    assert (negb (includes added t) && removes t r = true <->
            ends t r /\ ~ (t = overview "Close" /\ r = OverviewSlots)) as H2'.
    { rewrite H2, andb_true_iff, negb_true_iff, bool_decide_eq_true, bool_decide_eq_false. done. }
    rewrite <- H1', <- H2'. clear H1 H2 H1' H2'. unfold loadingReducer, add, remove, removes.
    destruct (includes added t); cbn [negb andb].
    + rewrite elem_of_cons, bool_decide_eq_true. naive_solver.
    + destruct (removal t) as [[u|us]|]; rewrite ?elem_of_list_filter, ?negb_true_iff.
      * destruct (bool_decide _); naive_solver.
      * destruct (includes us _); naive_solver.
      * naive_solver.
  - destruct (unknown_type t r Ht) as (H1 & H2 & H3 & H4). unfold loadingReducer. rewrite H1, H2. naive_solver.
Qed.

Lemma loading_only_requests s t u : u ∈ loadingReducer s t -> u ∈ s \/ exists r, u = startType r.
Proof.
  unfold loadingReducer, add, remove. destruct (includes added t) eqn:Ha.
  - intros [->|?]%elem_of_cons; [|by left]. right. apply includes_true in Ha.
    pose proof added_requests as H. rewrite forallb_forall in H. specialize (H t ltac:(by apply list_elem_of_In)).
    apply existsb_exists in H as (r & _ & Hr). apply bool_decide_eq_true in Hr. eauto.
  - destruct (removal t) as [[]|]; rewrite ?elem_of_list_filter; naive_solver.
Qed.

Lemma pending_snoc r acts t : pending r (acts ++ [t]) <-> starts t r \/ (pending r acts /\ ~ ends t r).
Proof.
  split.
  - inversion 1 as [acts' t' Hs E|acts' t' Hp He E]; apply app_inj_tail in E as [-> ->]; auto.
  - intros [H|[H1 H2]]; [by apply pending_start|by apply pending_keep].
Qed.

Lemma pending_nil r : ~ pending r [].
Proof. inversion 1; by destruct acts. Qed.

Lemma run_snoc (s : LoadingState) acts t :
  run loadingReducer s (acts ++ [t]) = loadingReducer (run loadingReducer s acts) t.
Proof. by rewrite run_app. Qed.

(** The bar after the overview of the block production was left with its request
    running: it stays until the answer of a later request. *)
Lemma overview_bar_stays s acts : startType OverviewSlots ∈ s -> overview "Get Slots Success" ∉ acts ->
  0 < selectLoadingStateLength (run loadingReducer s (overview "Close" :: acts)).
Proof.
  intros Hs Ha. assert (startType OverviewSlots ∈ run loadingReducer s (overview "Close" :: acts)) as H.
  { induction acts as [|t acts IH] using rev_ind.
    - change (run _ _ _) with (loadingReducer s (overview "Close")). apply loading_step. right. naive_solver.
    - change (overview "Close" :: acts ++ [t]) with ((overview "Close" :: acts) ++ [t]).
      rewrite run_snoc. apply loading_step. right. split; [apply IH; set_solver|].
      intros [[E|E] Hn]; [set_solver|]. destruct Hn. split; [by injection E|done]. }
  unfold selectLoadingStateLength. destruct (run _ _ _); [set_solver|cbn; lia].
Qed.

(** C11: the loading reducer implements the pending requests: after any actions
    every entry of the list is a request, every pending request has an entry, and
    the other way round for every request but the slots of the block production
    overview, which are listed until they are answered, also after their page was
    left; without that action the lists agree and the bar is hidden exactly when
    nothing is pending. *)
Theorem loading_refines_pending acts :
  let s := run loadingReducer initialState acts in
  (forall u, u ∈ s -> exists r, u = startType r) /\
  (forall r, pending r acts -> startType r ∈ s) /\
  (forall r, r <> OverviewSlots -> (startType r ∈ s <-> pending r acts)) /\
  (overview "Close" ∉ acts ->
     (forall r, startType r ∈ s <-> pending r acts) /\
     (selectLoadingStateLength s = 0 <-> forall r, ~ pending r acts)) /\
  (forall more, startType OverviewSlots ∈ s -> answerType OverviewSlots ∉ more ->
     0 < selectLoadingStateLength (run loadingReducer s (overview "Close" :: more))).
Proof.
  assert (forall u, u ∈ run loadingReducer initialState acts -> exists r, u = startType r) as Hreq.
  { induction acts as [|t acts IH] using rev_ind; [set_solver|]. intros u. rewrite run_snoc.
    intros [?|?]%loading_only_requests; auto. }
  assert (forall r, (pending r acts -> startType r ∈ run loadingReducer initialState acts) /\
                    (r <> OverviewSlots \/ overview "Close" ∉ acts ->
                     startType r ∈ run loadingReducer initialState acts -> pending r acts)) as Hall.
  { clear Hreq. induction acts as [|t acts IH] using rev_ind; intros r.
    - split; [by intros ?%pending_nil|]. cbn. set_solver.
    - rewrite run_snoc, loading_step, pending_snoc. destruct (IH r) as [IH1 IH2]. split; [naive_solver|].
      intros Ho [?|[Hs He]]; [by left|]. right. split; [apply IH2; set_solver|].
      intros He'. apply He. split; [done|]. intros [-> ->]. set_solver. }
  split; [done|]. split; [apply Hall|].
  split; [intros r Hr; split; apply Hall; auto|].
  split; [|intros more; by apply overview_bar_stays]. intros Ho.
  assert (forall r, startType r ∈ run loadingReducer initialState acts <-> pending r acts) as Hiff
    by (intros r; split; apply Hall; auto).
  split; [done|]. unfold selectLoadingStateLength. setoid_rewrite <- Hiff.
  destruct (run _ _ _) as [|u us]; cbn; [set_solver|]. split; [done|].
  intros H. destruct (Hreq u) as [r ->]; [set_solver|]. destruct (H r). set_solver.
Qed.

Example overview_left : run loadingReducer [] [overview "Get Slots"; overview "Close"] = [overview "Get Slots"].
Proof. vm_compute. reflexivity. Qed.

Example won_slots_left : run loadingReducer [] [wonSlots "Init"; wonSlots "Init"; wonSlots "Close"] = [].
Proof. vm_compute. reflexivity. Qed.

End Loading.
