(* ===== verification/AppConfig.v ===== *)
(** Nodes and their features (frontend/src/app/shared/constants/config.ts), the
    menus built from them (layout/menu, layout/submenu-tabs) and the form that
    adds a node (layout/new-node). *)

From S2P Require Import Prelude JsRuntime.
From Stdlib Require Import Ascii.

Module AppConfig.

(** * Nodes *)

(** The features of a node: an object from page to sub-pages, or an array, which
    the code still accepts. *)
Inductive FeaturesConfig :=
| FeatureObject (entries : list (string * list string))
| FeatureArray (names : list string).

#[export] Instance FeaturesConfig_eq_dec : EqDecision FeaturesConfig.
Proof. solve_decision. Defined.

Record MinaNode := mkMinaNode {
  name : string;
  url : option string;
  memoryProfiler : option string;
  debugger : option string;
  features : option FeaturesConfig;
  isCustom : option bool;
  isWebNode : option bool
}.

#[export] Instance MinaNode_eq_dec : EqDecision MinaNode.
Proof. solve_decision. Defined.

#[export, refine] Instance MinaNode_copy : RecordCopy MinaNode := {
  record_copy r := mkMinaNode (name r) (url r) (memoryProfiler r) (debugger r) (features r) (isCustom r)
    (isWebNode r) }.
Proof. by intros []. Defined.

(** The parts of the environment the functions read. *)
Record MinaEnv := mkMinaEnv {
  configs : list MinaNode;
  globalFeatures : option FeaturesConfig
}.

(** [Object.keys(features)]; the keys of an array are its indices. *)
Definition objectKeys (f : FeaturesConfig) : list string :=
  match f with
  | FeatureObject entries => entries.*1
  | FeatureArray names => mapi (fun i _ => showNat i) names
  end.

(** [features[feature]], the name of a page and never an index. *)
Definition featureOf (f : FeaturesConfig) (feature : string) : option (list string) :=
  match f with
  | FeatureObject entries => snd <$> List.find (fun e => bool_decide (e.1 = feature)) entries
  | FeatureArray _ => None
  end.

(** [href.endsWith('/')] and [href.slice(0, -1)] *)
Fixpoint stripSlash (s : string) : string :=
  match s with
  | EmptyString => EmptyString
  | String c EmptyString => if bool_decide (c = "/"%char) then EmptyString else s
  | String c s => String c (stripSlash s)
  end.

Section Config.
(** [window] exists; [new URL(path, origin).href] of the browser. *)
Context (browser : bool) (resolve : string -> exec string) (environment : MinaEnv).

Definition getURL (pathOrUrl : option string) : exec (option string) :=
  if browser && truthyStr pathOrUrl
  then href ← resolve (default "" pathOrUrl); Ret (Some (stripSlash href))
  else Ret pathOrUrl.

Definition resolveConfig (config : MinaNode) : exec MinaNode :=
  u ← getURL (url config); m ← getURL (memoryProfiler config); d ← getURL (debugger config);
  Ret (config <| url := u |> <| memoryProfiler := m |> <| debugger := d |>).

(** [CONFIG] *)
Definition CONFIG : exec MinaEnv :=
  cs ← (if browser then exec_map resolveConfig (configs environment) else Ret []);
  Ret (mkMinaEnv cs (globalFeatures environment)).

End Config.

Section Features.
Context (browser : bool) (CONFIG : MinaEnv).

Definition getFeaturesConfig (config : option MinaNode) : option FeaturesConfig :=
  if bool_decide (length (configs CONFIG) = 0) then globalFeatures CONFIG
  else match config ≫= features with Some f => Some f | None => globalFeatures CONFIG end.

Definition getAvailableFeatures (config : option MinaNode) : list string :=
  match getFeaturesConfig config with Some f => objectKeys f | None => [] end.

(** An argument that is [undefined] is the first configured node. *)
Definition getFirstFeature (config : option MinaNode) : option string :=
  let config := match config with Some c => Some c | None => head (configs CONFIG) end in
  if negb browser then Some ""
  else match config ≫= features with
       | Some (FeatureArray names) => head names
       | _ => match getFeaturesConfig config with
              | Some f => head (objectKeys f)
              | None => Some ""
              end
       end.

Definition isFeatureEnabled (config : option MinaNode) (feature : string) : bool :=
  match config ≫= features with
  | Some (FeatureArray names) => bool_decide (is_Some (head names))
  | _ => match getFeaturesConfig config with
         | Some f => bool_decide (is_Some (featureOf f feature))
         | None => false
         end
  end.

Definition isSubFeatureEnabled (config : option MinaNode) (feature subFeature : string) : bool :=
  match getFeaturesConfig config with
  | Some f => match featureOf f feature with Some subs => includes subs subFeature | None => false end
  | None => false
  end.

(** * Menus *)

Record MenuItem := mkMenuItem { itemName : string; icon : string }.

Definition MENU_ITEMS : list MenuItem :=
  [ mkMenuItem "Dashboard" "dashboard"; mkMenuItem "Block Production" "library_add"; mkMenuItem "Nodes" "margin";
    mkMenuItem "Resources" "analytics"; mkMenuItem "Mempool" "blur_circular"; mkMenuItem "Network" "account_tree";
    mkMenuItem "State" "code_blocks"; mkMenuItem "SNARKs" "assignment_turned_in";
    mkMenuItem "Benchmarks" "dynamic_form"; mkMenuItem "Fuzzing" "shuffle" ].

(** [s.split(' ').join('-')] *)
Fixpoint dashes (s : string) : string :=
  match s with
  | EmptyString => EmptyString
  | String c s => String (if bool_decide (c = " "%char) then "-"%char else c) (dashes s)
  end.

(** [s.split('-').join(' ')] *)
Fixpoint spaces (s : string) : string :=
  match s with
  | EmptyString => EmptyString
  | String c s => String (if bool_decide (c = "-"%char) then " "%char else c) (spaces s)
  end.

(** [s.replace(' ', '-')]: the first one only. *)
Fixpoint firstDash (s : string) : string :=
  match s with
  | EmptyString => EmptyString
  | String c s => if bool_decide (c = " "%char) then String "-"%char s else String c (firstDash s)
  end.

(** A feature named [""] is not truthy. *)
Definition allowedMenuItems (activeNode : option MinaNode) : list MenuItem :=
  let node := match activeNode with
              | Some n => n
              | None => mkMinaNode "" None None None (Some (FeatureObject [])) None None
              end in
  let fs := getAvailableFeatures (Some node) in
  List.filter (fun opt => truthyStr (List.find (fun f => bool_decide (f = dashes (toLowerCase (itemName opt)))) fs))
    MENU_ITEMS.

Record SubMenu := mkSubMenu { subMenuName : string; route : string }.

Definition getSubMenusMap (fs : option (list string)) : option (list SubMenu) :=
  option_map (fmap (fun f => mkSubMenu (spaces f) f)) fs.

(** [features[feature]] where the feature was not found reads the key
    ["undefined"]; a missing global configuration throws. *)
Definition setSubMenusOfActiveNodeForNewPage (node : option MinaNode) (baseRoute : string) : exec (list SubMenu) :=
  let node' := match node with Some n => n | None => mkMinaNode "" None None None None None None end in
  let feature := List.find (fun f => bool_decide (f = baseRoute)) (getAvailableFeatures (Some node')) in
  let key := default "undefined" feature in
  match node ≫= features with
  | Some f => Ret (default [] (getSubMenusMap (featureOf f key)))
  | None => match globalFeatures CONFIG with
            | Some f => Ret (default [] (getSubMenusMap (featureOf f key)))
            | None => Throw (TypeError "Cannot read properties of undefined")
            end
  end.

End Features.

(** * The form for a new node *)

Record SubFeature := mkSubFeature { subName : string; subChecked : bool }.
Record Feature := mkFeature { featureName : string; checked : bool; subFeatures : list SubFeature }.

#[export, refine] Instance SubFeature_copy : RecordCopy SubFeature := {
  record_copy r := mkSubFeature (subName r) (subChecked r) }.
Proof. by intros []. Defined.
#[export, refine] Instance Feature_copy : RecordCopy Feature := {
  record_copy r := mkFeature (featureName r) (checked r) (subFeatures r) }.
Proof. by intros []. Defined.

Definition sub (n : string) : SubFeature := mkSubFeature n true.

Definition initialForm : list Feature :=
  [ mkFeature "Dashboard" true [];
    mkFeature "Nodes" true [sub "overview"; sub "live"; sub "bootstrap"];
    mkFeature "State" true [sub "actions"];
    mkFeature "Network" true [sub "messages"; sub "connections"; sub "blocks"; sub "topology"; sub "node DHT";
                              sub "graph overview"; sub "bootstrap stats"];
    mkFeature "Snarks" true [sub "scan state"; sub "work pool"];
    mkFeature "Resources" true [sub "memory"];
    mkFeature "Mempool" true [];
    mkFeature "Benchmarks" true [] ].

(** The click handlers change the feature object in place. *)
Definition onFeatureCheck (feature : Feature) : Feature :=
  let c := negb (checked feature) in
  feature <| checked := c |> <| subFeatures := (fun s : SubFeature => s <| subChecked := c |>) <$> subFeatures feature |>.

Definition onSubFeatureCheck (j : nat) (feature : Feature) : Feature :=
  let subs := alter (fun s : SubFeature => s <| subChecked := negb (subChecked s) |>) j (subFeatures feature) in
  feature <| subFeatures := subs |> <| checked := existsb subChecked subs |>.

(** Clicks on the box of a feature, and on that of one of its sub-features. *)
Inductive Click := ClickFeature (i : nat) | ClickSubFeature (i j : nat).

Definition click (form : list Feature) (c : Click) : list Feature :=
  match c with
  | ClickFeature i => alter onFeatureCheck i form
  | ClickSubFeature i j => alter (onSubFeatureCheck j) i form
  end.

(** [featuresConfig[key] = value] *)
Fixpoint setFeature (key : string) (value : list string) (fs : list (string * list string)) :
    list (string * list string) :=
  match fs with
  | [] => [(key, value)]
  | (k, v) :: fs => if bool_decide (k = key) then (k, value) :: fs else (k, v) :: setFeature key value fs
  end.

Definition featureType (n : string) : string := firstDash (toLowerCase n).

Definition featuresConfig (form : list Feature) : list (string * list string) :=
  fold_left (fun fs f => setFeature (featureType (featureName f))
               (featureType ∘ subName <$> List.filter subChecked (subFeatures f)) fs)
    (List.filter checked form) [].

(** The node handed to the store; [None] when a required field is empty. *)
Definition addNode (form : list Feature) (fname furl fmemProfiler fdebugger : string) : option MinaNode :=
  if bool_decide (fname = "") || bool_decide (furl = "") then None
  else Some (mkMinaNode fname (Some furl) (Some fmemProfiler) (Some fdebugger)
               (Some (FeatureObject (featuresConfig form))) (Some true) None).

(** * Theorems *)

(** The landing page of a node whose own or global features are an object with
    some page is one of its pages. *)
Lemma getFirstFeature_enabled CONFIG node e es :
  getFeaturesConfig CONFIG (Some node) = Some (FeatureObject (e :: es)) ->
  configs CONFIG <> [] ->
  exists page, getFirstFeature true CONFIG (Some node) = Some page /\
               isFeatureEnabled CONFIG (Some node) page = true.
Proof.
  intros Hf Hne. exists e.1. unfold getFirstFeature, isFeatureEnabled. rewrite Hf. cbn [negb].
  unfold getFeaturesConfig in Hf. rewrite bool_decide_false in Hf by (by destruct (configs CONFIG)).
  assert (bool_decide (is_Some (featureOf (FeatureObject (e :: es)) e.1)) = true) as He.
  { cbn. rewrite (bool_decide_true (e.1 = e.1)) by done. apply bool_decide_eq_true. by eexists. }
  cbn [mbind option_bind] in *. by destruct (features node) as [[es'|names]|].
Qed.

(** ** The form *)

Notation skeleton form := ((fun f => (featureName f, subName <$> subFeatures f)) <$> form).

Lemma list_alter_skeleton (g : Feature -> Feature) (i : nat) (form : list Feature) :
  (forall f, featureName (g f) = featureName f /\ (subName <$> subFeatures (g f)) = (subName <$> subFeatures f)) ->
  skeleton (alter g i form) = skeleton form.
Proof.
  intros Hg. revert i. induction form as [|f form IH]; intros [|i]; [done|done| |]; cbn.
  - destruct (Hg f) as [-> ->]. done.
  - f_equal. apply IH.
Qed.

Definition boxesAgree (f : Feature) : Prop :=
  subFeatures f <> [] -> checked f = existsb subChecked (subFeatures f).

Lemma onFeatureCheck_agree f : boxesAgree (onFeatureCheck f).
Proof.
  unfold boxesAgree, onFeatureCheck. record_simpl. cbn.
  destruct (subFeatures f) as [|s subs]; [done|]. intros _. cbn.
  destruct (checked f); cbn; [|done]. by induction subs.
Qed.

Lemma alter_Forall {A} (P : A -> Prop) (g : A -> A) (i : nat) (l : list A) :
  Forall P l -> (forall x, P x -> P (g x)) -> Forall P (alter g i l).
Proof.
  intros Hl Hg. revert i. induction Hl as [|x l Hx Hl IH]; intros [|i]; cbn; constructor; auto; apply IH.
Qed.

Lemma sub_alter_names (j : nat) (subs : list SubFeature) :
  (subName <$> alter (fun s : SubFeature => s <| subChecked := negb (subChecked s) |>) j subs) = (subName <$> subs).
Proof. revert j. induction subs as [|s subs IH]; intros [|j]; [done|done|done|]. cbn. f_equal. apply IH. Qed.

Lemma form_invariant form : reachable_by click initialForm (fun _ _ => True) form ->
  skeleton form = skeleton initialForm /\ Forall boxesAgree form.
Proof.
  revert form. apply reachable_by_inv.
  - split; [done|]. unfold initialForm, boxesAgree. repeat constructor; by cbn.
  - intros form c [H1 H2] _. destruct c as [i|i j]; cbn [click]; (split; [rewrite list_alter_skeleton; [done|] | ]).
    + intros f. cbn. split; [done|]. rewrite <- list_fmap_compose. by apply list_fmap_ext.
    + apply alter_Forall; [done|]. intros f _. apply onFeatureCheck_agree.
    + intros f. cbn. split; [done|]. apply sub_alter_names.
    + apply alter_Forall; [done|]. intros f _. by unfold boxesAgree.
Qed.

Definition entry (f : Feature) : string * list string :=
  (featureType (featureName f), featureType ∘ subName <$> List.filter subChecked (subFeatures f)).

Lemma setFeature_absent k v fs : k ∉ fs.*1 -> setFeature k v fs = fs ++ [(k, v)].
Proof.
  induction fs as [|[k' v'] fs IH]; intros Hk; [done|]. cbn in *.
  rewrite bool_decide_false by set_solver. rewrite IH by set_solver. done.
Qed.

Lemma setFeature_fold l : forall acc, NoDup (acc.*1 ++ (fst ∘ entry <$> l)) ->
  fold_left (fun fs f => setFeature (featureType (featureName f))
               (featureType ∘ subName <$> List.filter subChecked (subFeatures f)) fs) l acc
  = acc ++ (entry <$> l).
Proof.
  induction l as [|f l IH]; intros acc Hnd; cbn; [by rewrite app_nil_r|].
  cbn in Hnd. rewrite setFeature_absent.
  - rewrite IH; [by rewrite <- app_assoc|]. rewrite fmap_app, <- app_assoc. exact Hnd.
  - rewrite NoDup_app in Hnd. destruct Hnd as (_ & Hd & _). intros Hin. apply (Hd _ Hin). by left.
Qed.

Lemma form_keys form : skeleton form = skeleton initialForm -> NoDup (fst ∘ entry <$> form).
Proof.
  intros H. assert ((fst ∘ entry <$> form) = (featureType ∘ fst) <$> (skeleton form)) as ->.
  { rewrite <- list_fmap_compose. by apply list_fmap_ext. }
  rewrite H. apply (bool_decide_unpack _). by vm_compute.
Qed.

Lemma filter_sublist {A} (p : A -> bool) (l : list A) : sublist (List.filter p l) l.
Proof. induction l as [|x l IH]; cbn; [constructor|]. destruct (p x); by constructor. Qed.

Lemma featuresConfig_spec form : skeleton form = skeleton initialForm ->
  featuresConfig form = entry <$> List.filter checked form.
Proof.
  intros H. unfold featuresConfig. rewrite setFeature_fold; [done|]. cbn.
  eapply sublist_NoDup; [apply (form_keys form H)|]. apply fmap_sublist, filter_sublist.
Qed.

Lemma find_entry (l : list Feature) f : NoDup (fst ∘ entry <$> l) -> f ∈ l ->
  List.find (fun e => bool_decide (e.1 = featureType (featureName f))) (entry <$> l) = Some (entry f).
Proof.
  induction l as [|g l IH]; cbn; [set_solver|]. intros [Hg Hnd]%NoDup_cons [->|Hf]%elem_of_cons.
  - by rewrite bool_decide_true.
  - rewrite bool_decide_false; [by apply IH|]. intros E. apply Hg.
    change (fst (entry g) ∈ (fst ∘ entry <$> l)). cbn. rewrite E.
    apply (list_elem_of_fmap_2 (fst ∘ entry) l f Hf).
Qed.

(** A node added with the form gets exactly the pages and sub-pages whose
    boxes are checked, whatever was clicked: a page with sub-pages is checked
    exactly when one of its sub-pages is, the features of the node are the checked
    ones in order, the main menu shows exactly the items of checked pages and the
    tabs of such a page are its checked sub-pages.  Without a name or a url no
    node is added. *)
Theorem new_node_pages CONFIG form fname furl mem dbg :
  reachable_by click initialForm (fun _ _ => True) form -> configs CONFIG <> [] ->
  (forall f, f ∈ form -> subFeatures f <> [] -> checked f = existsb subChecked (subFeatures f)) /\
  match addNode form fname furl mem dbg with
  | None => fname = "" \/ furl = ""
  | Some node =>
      isCustom node = Some true /\
      getAvailableFeatures CONFIG (Some node) = featureType ∘ featureName <$> List.filter checked form /\
      (forall item, item ∈ allowedMenuItems CONFIG (Some node) <->
         item ∈ MENU_ITEMS /\ exists f, f ∈ form /\ checked f = true /\
           featureType (featureName f) = dashes (toLowerCase (itemName item))) /\
      (forall f, f ∈ form -> checked f = true ->
         setSubMenusOfActiveNodeForNewPage CONFIG (Some node) (featureType (featureName f)) =
         Ret ((fun s => mkSubMenu (spaces (featureType (subName s))) (featureType (subName s)))
                <$> List.filter subChecked (subFeatures f)))
  end.
Proof.
  intros Hr Hne. destruct (form_invariant form Hr) as [Hsk Hag]. rewrite Forall_forall in Hag.
  split; [exact Hag|]. unfold addNode.
  destruct (bool_decide (fname = "") || bool_decide (furl = "")) eqn:Hv.
  { rewrite orb_true_iff, !bool_decide_eq_true in Hv. done. }
  set (node := mkMinaNode _ _ _ _ _ _ _). split; [done|].
  assert (getAvailableFeatures CONFIG (Some node) = featureType ∘ featureName <$> List.filter checked form) as Hkeys.
  { unfold getAvailableFeatures, getFeaturesConfig. rewrite bool_decide_false by (by destruct (configs CONFIG)).
    cbn. rewrite featuresConfig_spec by done. rewrite <- list_fmap_compose. by apply list_fmap_ext. }
  split; [done|]. split.
  - intros item. unfold allowedMenuItems. rewrite elem_of_list_filter, Hkeys. apply and_iff_compat_l.
    destruct (List.find _ _) as [k|] eqn:Hf.
    + apply find_Some_iff in Hf as [Hk He]. apply bool_decide_eq_true in He.
      apply list_elem_of_fmap in Hk as (f & -> & Hin). apply elem_of_list_filter in Hin as [Hin Hc].
      split; [intros _; eauto|]. intros _. cbn in He |- *. rewrite He. cbn.
      rewrite <- He. assert (f ∈ form) as Hin' by done.
      assert ((featureName f, subName <$> subFeatures f) ∈ skeleton initialForm) as Hs.
      { rewrite <- Hsk. by apply (list_elem_of_fmap_2 (fun f => (featureName f, subName <$> subFeatures f))). }
      cbn in Hs. repeat (apply elem_of_cons in Hs as [Hs|Hs]; [injection Hs as -> _; done|]). by apply not_elem_of_nil in Hs.
    + cbn. split; [done|]. intros (f & Hin & Hc & He). rewrite find_None_iff in Hf.
      specialize (Hf (featureType (featureName f))). rewrite bool_decide_eq_false in Hf. destruct Hf; [|done].
      apply (list_elem_of_fmap_2 (featureType ∘ featureName)), elem_of_list_filter. done.
  - intros f Hin Hc. unfold setSubMenusOfActiveNodeForNewPage. rewrite Hkeys.
    assert (f ∈ List.filter checked form) as Hin' by (by apply elem_of_list_filter).
    assert (NoDup (fst ∘ entry <$> List.filter checked form)) as Hnd.
    { eapply sublist_NoDup; [apply (form_keys form Hsk)|]. apply fmap_sublist, filter_sublist. }
    destruct (List.find _ _) as [k|] eqn:Hf.
    + apply find_Some_iff in Hf as [_ ->%bool_decide_eq_true]. cbn [mbind option_bind default from_option].
      cbn. rewrite featuresConfig_spec, find_entry by done. cbn. rewrite <- list_fmap_compose. done.
    + rewrite find_None_iff in Hf. specialize (Hf (featureType (featureName f))).
      rewrite bool_decide_eq_false in Hf. destruct Hf; [|done].
      by apply (list_elem_of_fmap_2 (featureType ∘ featureName)).
Qed.

Definition demoEnv : MinaEnv :=
  mkMinaEnv [mkMinaNode "local" (Some "http://127.0.0.1:3000") None None None None None] None.

Lemma new_node_pages_witness :
  reachable_by click initialForm (fun _ _ => True) (click initialForm (ClickSubFeature 2 0)) /\
  (forall f, f ∈ click initialForm (ClickSubFeature 2 0) -> subFeatures f <> [] ->
     checked f = existsb subChecked (subFeatures f)) /\
  (itemName <$> allowedMenuItems demoEnv (addNode (click initialForm (ClickSubFeature 2 0)) "a" "b" "" "")) =
    ["Dashboard"; "Nodes"; "Resources"; "Mempool"; "Network"; "SNARKs"; "Benchmarks"].
Proof.
  assert (reachable_by click initialForm (fun _ _ => True) (click initialForm (ClickSubFeature 2 0))) as H.
  { apply reachable_step; [apply reachable_init|done]. }
  split; [exact H|]. split; [|vm_compute; reflexivity].
  refine (proj1 (new_node_pages demoEnv _ "a" "b" "" "" H _)). discriminate.
Defined.

End AppConfig.
