(* ===== verification/AppStore.v ===== *)
(** The root slice of the store (frontend/src/app/app.reducer.ts, app.service.ts,
    app.effects.ts) with the list of nodes, the active node, the polling of its
    status and the errors (layout/error-preview). *)

From S2P Require Import Prelude JsRuntime AppConfig.
From Stdlib Require Import Ascii.

Module AppStore.
Import AppConfig.

(** * Data *)

Inductive AppNodeStatus := PENDING | BOOTSTRAP | CATCHUP | SYNCED | OFFLINE.
Inductive MinaNetwork := MAINNET | DEVNET | UNKNOWN.

#[export] Instance AppNodeStatus_eq_dec : EqDecision AppNodeStatus.
Proof. solve_decision. Defined.

Record AppMenu := mkAppMenu { collapsed : bool; isMobile : bool; open : bool }.

Record AppNodeDetails := mkDetails {
  status : AppNodeStatus;
  blockHeight : option Z;
  blockTime : option Z;
  peersConnected : nat;
  peersDisconnected : nat;
  peersConnecting : nat;
  transactions : Z;
  snarks : Z;
  producingBlockAt : option Q;
  producingBlockGlobalSlot : option Z;
  producingBlockStatus : option string;
  chainId : option string;
  network : option MinaNetwork
}.

Record AppEnvBuild := mkEnvBuild { buildTime : string; git : list (string * string);
  cargo : list (string * string); rustc : list (string * string) }.

Record AppState := mkAppState {
  menu : AppMenu;
  nodes : list MinaNode;
  activeNode : option MinaNode;
  activeNodeDetails : AppNodeDetails;
  envBuild : option AppEnvBuild
}.

#[export, refine] Instance AppMenu_copy : RecordCopy AppMenu := {
  record_copy r := mkAppMenu (collapsed r) (isMobile r) (open r) }.
Proof. by intros []. Defined.
#[export, refine] Instance AppState_copy : RecordCopy AppState := {
  record_copy r := mkAppState (menu r) (nodes r) (activeNode r) (activeNodeDetails r) (envBuild r) }.
Proof. by intros []. Defined.

(** The cells of the local storage, as the JSON values the application writes. *)
Record Storage := mkStorage { menu_collapsed : option bool; custom_nodes : option (list MinaNode) }.

#[export, refine] Instance Storage_copy : RecordCopy Storage := {
  record_copy r := mkStorage (menu_collapsed r) (custom_nodes r) }.
Proof. by intros []. Defined.

Inductive AppActions :=
| initSuccess (node : option MinaNode) (ns : list MinaNode)
| changeActiveNode (node : MinaNode)
| getNodeDetailsSuccess (details : AppNodeDetails)
| changeMenuCollapsing (isCollapsing : bool)
| toggleMobile (mobile : bool)
| toggleMenuOpening
| addNode (node : MinaNode)
| deleteNode (node : MinaNode)
| getNodeEnvBuildSuccess (env : option AppEnvBuild).

(** * app.reducer.ts *)

Definition noDetails (s : AppNodeStatus) : AppNodeDetails :=
  mkDetails s None None 0 0 0 0%Z 0%Z None None None None None.

(** No local storage outside of a browser: [None]. *)
Definition initialState (storage : option Storage) : AppState :=
  mkAppState (mkAppMenu (default false (storage ≫= menu_collapsed)) false true) [] None (noDetails PENDING) None.

(** [JSON.parse(getLocalStorage()?.getItem('custom_nodes') ?? '[]')] *)
Definition customNodes (storage : option Storage) : list MinaNode := default [] (storage ≫= custom_nodes).

Definition setCustomNodes (storage : option Storage) (ns : list MinaNode) : option Storage :=
  option_map (fun st : Storage => st <| custom_nodes := Some ns |>) storage.

Definition otherName (node n : MinaNode) : bool := negb (bool_decide (name n = name node)).

Definition appReducer (storage : option Storage) (state : AppState) (action : AppActions) : option Storage * AppState :=
  match action with
  | initSuccess node ns => (storage, state <| activeNode := node |> <| nodes := ns |>)
  | changeActiveNode node => (storage, state <| activeNode := Some node |>)
  | getNodeDetailsSuccess details => (storage, state <| activeNodeDetails := details |>)
  | changeMenuCollapsing c =>
      (option_map (fun st : Storage => st <| menu_collapsed := Some c |>) storage,
       state <| menu := (menu state) <| collapsed := c |> |>)
  | toggleMobile m => (storage, state <| menu := (menu state) <| isMobile := m |> <| open := negb m |> |>)
  | toggleMenuOpening => (storage, state <| menu := (menu state) <| open := negb (open (menu state)) |> |>)
  | addNode node =>
      (setCustomNodes storage (node :: customNodes storage), state <| nodes := node :: nodes state |>)
  | deleteNode node =>
      let ns := List.filter (otherName node) (nodes state) in
      (setCustomNodes storage (List.filter (otherName node) (customNodes storage)),
       state <| nodes := ns |>
             <| activeNode := if bool_decide (name <$> activeNode state = Some (name node))
                              then head ns else activeNode state |>)
  | getNodeEnvBuildSuccess env => (storage, state <| envBuild := env |>)
  end.

(** * app.service.ts *)

Definition getNodes (CONFIG : MinaEnv) (storage : option Storage) : list MinaNode :=
  configs CONFIG ++ customNodes storage.

(** [nodeName] is the query parameter [node]. *)
Definition getActiveNode (ns : list MinaNode) (nodeName : option string) : option MinaNode :=
  match List.find (fun c => bool_decide (Some (name c) = nodeName)) ns with
  | Some n => Some n
  | None => head ns
  end.

Record BlockProductionAttempt := mkAttempt { slot_time : Z; global_slot : Z; attemptStatus : string }.

Record NodeDetailsResponse := mkResponse {
  bestTipHeight : option Z;          (* transition_frontier.best_tip?.height *)
  syncTime : option Z;               (* transition_frontier.sync.time *)
  syncPhase : string;
  poolTransactions : Z;
  poolSnarks : Z;
  connectionStatuses : list string;  (* peers[i].connection_status *)
  chain_id : option string;
  current_block_production_attempt : option BlockProductionAttempt
}.

Definition getStatus (data : NodeDetailsResponse) : AppNodeStatus :=
  if bool_decide (syncPhase data = "Bootstrap") then BOOTSTRAP
  else if bool_decide (syncPhase data = "Catchup") then CATCHUP
  else if bool_decide (syncPhase data = "Synced") then SYNCED
  else PENDING.

Definition getNetwork (chain : option string) : MinaNetwork :=
  if bool_decide (chain = Some "a7351abc7ddf2ea92d1b38cc8e636c271c1dfd2c081c637f62ebc2af34eb7cc1") then MAINNET
  else if bool_decide (chain = Some "29936104443aaf264a7f0192ac64b1c7173198c1ed404c1bcff5e562e05eb7f6") then DEVNET
  else UNKNOWN.

(** [undefined / ONE_MILLION] is not a number and becomes [null]. *)
Definition getActiveNodeDetails (data : NodeDetailsResponse) : AppNodeDetails :=
  let count s := countIf (fun c => bool_decide (c = s)) (connectionStatuses data) in
  let attempt := current_block_production_attempt data in
  mkDetails (getStatus data) (bestTipHeight data) (syncTime data)
    (count "Connected") (count "Disconnected") (count "Connecting")
    (poolTransactions data) (poolSnarks data)
    (option_map (fun a => (inject_Z (slot_time a) / inject_Z ONE_MILLION)%Q) attempt)
    (option_map global_slot attempt) (option_map attemptStatus attempt)
    (chain_id data) (Some (getNetwork (chain_id data))).

(** * Errors: layout/error-preview and shared/constants/store-functions.ts *)

Record MinaError := mkMinaError {
  errorType : MinaErrorType;
  message : string;
  timestamp : string;
  seen : bool;
  errorStatus : option string
}.

#[export, refine] Instance MinaError_copy : RecordCopy MinaError := {
  record_copy r := mkMinaError (errorType r) (message r) (timestamp r) (seen r) (errorStatus r) }.
Proof. by intros []. Defined.

Inductive ErrorPreviewActions := ErrorAdd (payload : MinaError) | MarkErrorsAsSeen.

Definition errorReducer (errors : list MinaError) (action : ErrorPreviewActions) : list MinaError :=
  match action with
  | ErrorAdd payload => payload :: errors
  | MarkErrorsAsSeen => (fun e : MinaError => e <| seen := true |>) <$> errors
  end.

(** A failure: an exception, or an answer of the server with status. *)
Record Failure := mkFailure { failureMessage : string; httpStatus : option (Z * string) }.

Definition addError `{DateFormat} (now : Z) (error : Failure) (type : MinaErrorType) : ErrorPreviewActions :=
  ErrorAdd (mkMinaError type (failureMessage error) (toReadableDate (inject_Z now) (Some "HH:mm:ss")) false
    match httpStatus error with
    | Some (code, text) => if (code =? 0)%Z then None else Some (showZ code +:+ " " +:+ text)
    | None => None
    end).

(** * app.effects.ts *)

(** Calls of the router. *)
Inductive Navigation := MergeNodeParam (node : string) | GoTo (page : option string).

Record World := mkWorld {
  app : AppState;
  storage : option Storage;
  errors : list MinaError;
  rustNode : option MinaNode;                  (* RustService.node *)
  requestInProgress : bool;
  statusRequest : option (option MinaNode);    (* the request of getNodeDetails$ and its node *)
  buildRequests : list (option MinaNode);      (* the requests of getNodeEnvBuild$ *)
  wasmStarting : bool;                         (* initSuccess$ waits for the web node *)
  navigations : list Navigation
}.

#[export, refine] Instance World_copy : RecordCopy World := {
  record_copy r := mkWorld (app r) (storage r) (errors r) (rustNode r) (requestInProgress r) (statusRequest r)
    (buildRequests r) (wasmStarting r) (navigations r) }.
Proof. by intros []. Defined.

(** The actions dispatched by the components and what arrives from outside. *)
Inductive Event :=
| Init (nodeName : option string)
| Dispatch (action : AppActions) (routerUrl : string)
| GetNodeDetails
| StatusAnswer (data : NodeDetailsResponse)
| StatusFailure (error : Failure) (now : Z)
| BuildAnswer (i : nat) (env : AppEnvBuild)
| BuildFailure (i : nat) (error : Failure) (now : Z)
| WasmStarted.

Section Effects.
Context `{DateFormat} (CONFIG : MinaEnv) (browser : bool).

Definition reduce (w : World) (a : AppActions) : World :=
  let '(st, s) := appReducer (storage w) (app w) a in w <| storage := st |> <| app := s |>.

Definition isWeb (n : option MinaNode) : bool := default false (n ≫= isWebNode).

Definition getNodeEnvBuild (w : World) : World := w <| buildRequests := buildRequests w ++ [rustNode w] |>.

(** The effect reads [isWebNode] of the active node; without one it throws, which
    the store reports before it subscribes again. *)
Definition initSuccessEffect (w : World) : World :=
  match activeNode (app w) with
  | None => w <| wasmStarting := false |>
  | Some n => if isWeb (Some n) then w <| wasmStarting := true |>
              else getNodeEnvBuild (w <| wasmStarting := false |>)
  end.

Definition initEffect (w : World) (nodeName : option string) : World :=
  let ns := getNodes CONFIG (storage w) in
  let active := getActiveNode ns nodeName in
  initSuccessEffect (reduce (w <| rustNode := active |>) (initSuccess active ns)).

(** [removeParamsFromURL(url.split('/')[1])]: the text between the first two
    slashes, up to a question mark. *)
Fixpoint upTo (stop : ascii -> bool) (s : string) : string :=
  match s with
  | EmptyString => EmptyString
  | String c s => if stop c then EmptyString else String c (upTo stop s)
  end.
Fixpoint afterSlash (s : string) : option string :=
  match s with
  | EmptyString => None
  | String c s => if bool_decide (c = "/"%char) then Some s else afterSlash s
  end.
Definition activePage (routerUrl : string) : string :=
  let segment := option_map (upTo (fun c => bool_decide (c = "/"%char))) (afterSlash routerUrl) in
  upTo (fun c => bool_decide (c = "?"%char)) (default "undefined" segment).

(** The actions this effect gives are not dispatched. *)
Definition onNodeChange (w : World) (routerUrl : string) : World :=
  let node := activeNode (app w) in
  w <| rustNode := node |>
    <| navigations := MergeNodeParam (default "" (option_map name node)) ::
         (if isFeatureEnabled CONFIG node (activePage routerUrl) then []
          else [GoTo (getFirstFeature browser CONFIG node)]) |>.

Definition getNodeDetailsEffect (w : World) : World :=
  if requestInProgress w then w
  else w <| requestInProgress := true |> <| statusRequest := Some (rustNode w) |>.

Definition statusDone (w : World) : World := w <| requestInProgress := false |> <| statusRequest := None |>.

(** A failure ends the subscriptions of the effect: all requests of
    [getNodeEnvBuild$] in progress are given up. *)
Definition step (w : World) (e : Event) : World :=
  match e with
  | Init nodeName => initEffect w nodeName
  | Dispatch a routerUrl =>
      let w := reduce w a in
      match a with
      | changeActiveNode _ => onNodeChange w routerUrl
      | initSuccess _ _ => initSuccessEffect w
      | _ => w
      end
  | GetNodeDetails => getNodeDetailsEffect w
  | StatusAnswer data =>
      match statusRequest w with
      | Some _ => reduce (statusDone w) (getNodeDetailsSuccess (getActiveNodeDetails data))
      | None => w
      end
  | StatusFailure error now =>
      match statusRequest w with
      | Some _ => reduce (statusDone w <| errors := errorReducer (errors w) (addError now error GENERIC) |>)
                    (getNodeDetailsSuccess (noDetails OFFLINE))
      | None => w
      end
  | BuildAnswer i env =>
      match buildRequests w !! i with
      | Some _ => reduce (w <| buildRequests := delete i (buildRequests w) |>) (getNodeEnvBuildSuccess (Some env))
      | None => w
      end
  | BuildFailure i error now =>
      match buildRequests w !! i with
      | Some _ => reduce (w <| buildRequests := [] |> <| errors := errorReducer (errors w) (addError now error RUST) |>)
                    (getNodeEnvBuildSuccess None)
      | None => w
      end
  | WasmStarted => if wasmStarting w then getNodeEnvBuild (w <| wasmStarting := false |>) else w
  end.

Definition initialWorld (st : option Storage) : World :=
  mkWorld (initialState st) st [] None false None [] false [].

(** * Sessions

    A session starts with [Init] and goes on with the actions the components
    dispatch: a node is selected from the list, the nodes deleted are custom ones,
    with names of their own. *)

Definition allowed (w : World) (e : Event) : Prop :=
  match e with
  | Init _ => False
  | Dispatch (initSuccess _ _) _ => False
  | Dispatch (changeActiveNode n) _ => n ∈ nodes (app w)
  | Dispatch (deleteNode n) _ => name n ∉ (name <$> configs CONFIG)
  | _ => True
  end.

Definition started (st : Storage) (nodeName : option string) : World :=
  step (initialWorld (Some st)) (Init nodeName).

Definition session (st : Storage) (nodeName : option string) : World -> Prop :=
  reachable_by step (started st nodeName) allowed.

Lemma getActiveNode_in ns nodeName : ns <> [] -> exists n, getActiveNode ns nodeName = Some n /\ n ∈ ns.
Proof.
  intros Hne. unfold getActiveNode. destruct (List.find _ _) as [n|] eqn:Hf.
  - apply find_Some_iff in Hf as [? _]. eauto.
  - destruct ns as [|n ns]; [done|]. exists n. split; [done|]. by left.
Qed.

(** The active node is found again by its name. *)
Lemma getActiveNode_name ns n : NoDup (name <$> ns) -> n ∈ ns -> getActiveNode ns (Some (name n)) = Some n.
Proof.
  intros Hnd Hn. unfold getActiveNode. destruct (List.find _ _) as [m|] eqn:Hf.
  - apply find_Some_iff in Hf as [Hm He]. apply bool_decide_eq_true in He. injection He as He. f_equal.
    apply list_elem_of_lookup in Hn as [i Hi]. apply list_elem_of_lookup in Hm as [j Hj].
    assert (i = j) as ->; [|congruence].
    eapply (NoDup_lookup _ i j (name n) Hnd); rewrite list_lookup_fmap; [by rewrite Hi|]. rewrite Hj. cbn. congruence.
  - rewrite find_None_iff in Hf. specialize (Hf n Hn). by rewrite bool_decide_eq_false in Hf.
Qed.

Record sessionInv (w : World) : Prop := {
  inv_storage : exists st, storage w = Some st /\ collapsed (menu (app w)) = default false (menu_collapsed st);
  inv_nodes : Permutation (nodes (app w)) (configs CONFIG ++ customNodes (storage w));
  inv_active : exists n, activeNode (app w) = Some n /\ n ∈ nodes (app w)
}.

Lemma reduce_other w a :
  errors (reduce w a) = errors w /\ rustNode (reduce w a) = rustNode w /\
  requestInProgress (reduce w a) = requestInProgress w /\ statusRequest (reduce w a) = statusRequest w /\
  buildRequests (reduce w a) = buildRequests w.
Proof. by destruct a. Qed.

Lemma started_world st nodeName :
  nodes (app (started st nodeName)) = getNodes CONFIG (Some st) /\
  activeNode (app (started st nodeName)) = getActiveNode (getNodes CONFIG (Some st)) nodeName /\
  rustNode (started st nodeName) = activeNode (app (started st nodeName)) /\
  storage (started st nodeName) = Some st /\ menu (app (started st nodeName)) = menu (initialState (Some st)).
Proof.
  unfold started. cbn [step]. unfold initEffect, initSuccessEffect, getNodeEnvBuild. cbn.
  destruct (getActiveNode _ _) as [n|]; cbn; [|done]. by destruct (default _ _).
Qed.

Lemma started_inv st nodeName : configs CONFIG <> [] -> sessionInv (started st nodeName).
Proof.
  intros Hne. destruct (started_world st nodeName) as (H1 & H2 & _ & H4 & H5). split.
  - exists st. by rewrite H4, H5.
  - by rewrite H1, H4.
  - rewrite H1, H2. apply getActiveNode_in. unfold getNodes. by destruct (configs CONFIG).
Qed.

Lemma delete_inv w n : configs CONFIG <> [] -> name n ∉ (name <$> configs CONFIG) ->
  sessionInv w -> sessionInv (reduce w (deleteNode n)).
Proof.
  intros Hne Hn [(st & Hst & Hc) Hp (m & Hm & Hin)]. split; cbn [reduce appReducer storage app].
  - rewrite Hst. cbn. eauto.
  - rewrite Hst in *. cbn in *.
    assert (List.filter (otherName n) (configs CONFIG) = configs CONFIG) as Hcs.
    { apply filter_true_id. intros c Hc'. unfold otherName. rewrite bool_decide_false; [done|].
      intros E. apply Hn. rewrite <- E. by apply list_elem_of_fmap_2. }
    rewrite (list_filter_perm (otherName n) _ _ Hp), List.filter_app, Hcs. done.
  - cbn. rewrite Hm. cbn. case_bool_decide as E.
    + assert (exists c, c ∈ List.filter (otherName n) (nodes (app w))) as [c Hc'].
      { destruct (configs CONFIG) as [|c cs] eqn:Hcs; [done|]. exists c. apply elem_of_list_filter. split.
        - rewrite Hp. set_solver.
        - unfold otherName. rewrite bool_decide_false; [done|]. intros E'. apply Hn. rewrite <- E'. cbn. by left. }
      destruct (List.filter _ _) as [|d ds]; [set_solver|]. exists d. split; [done|]. by left.
    + exists m. split; [done|]. apply elem_of_list_filter. split; [done|]. unfold otherName.
      rewrite bool_decide_false; [done|]. congruence.
Qed.

Lemma session_invariant st nodeName w : configs CONFIG <> [] -> session st nodeName w -> sessionInv w.
Proof.
  intros Hne. revert w. apply reachable_by_inv; [by apply started_inv|].
  intros w e Hi Hok. destruct e as [|a u| | | | | |]; cbn [step] in *.
  - done.
  - destruct a; try done.
    + destruct Hi as [Hs Hp _]. split; [done|done|]. cbn. eauto.
    + by destruct Hi.
    + destruct Hi as [(st' & Hs & _) Hp Ha]. split; [cbn; rewrite Hs; cbn; eauto|by rewrite Hs in Hp; cbn; rewrite Hs|done].
    + by destruct Hi.
    + by destruct Hi.
    + destruct Hi as [(st' & Hs & Hc) Hp (m & Hm & Hin)]. split; cbn.
      * rewrite Hs. cbn. eauto.
      * rewrite Hs in *. cbn in *. rewrite Hp. apply Permutation_middle.
      * exists m. split; [done|]. by right.
    + by apply delete_inv.
    + by destruct Hi.
  - unfold getNodeDetailsEffect. destruct (requestInProgress w); [done|]. by destruct Hi.
  - destruct (statusRequest w); [|done]. by destruct Hi.
  - destruct (statusRequest w); [|done]. by destruct Hi.
  - destruct (buildRequests w !! i); [|done]. by destruct Hi.
  - destruct (buildRequests w !! i); [|done]. by destruct Hi.
  - destruct (wasmStarting w); [|done]. by destruct Hi.
Qed.

(** ** A reload *)

(** After the start the components dispatch everything but the start. *)
Definition ofSession (e : Event) : bool :=
  match e with Init _ | Dispatch (initSuccess _ _) _ => false | _ => true end.

Definition deletedName (e : Event) : option string :=
  match e with Dispatch (deleteNode n) _ => Some (name n) | _ => None end.

Definition deletedNames (evs : list Event) : list string := omap deletedName evs.

Definition kept (names : list string) (c : MinaNode) : bool := negb (includes names (name c)).

(** What a session keeps whatever is selected, added and deleted. *)
Definition reloadInv (names : list string) (w : World) : Prop :=
  (exists st, storage w = Some st /\ collapsed (menu (app w)) = default false (menu_collapsed st)) /\
  Permutation (nodes (app w)) (List.filter (kept names) (configs CONFIG) ++ customNodes (storage w)).

Lemma reloadInv_ext names w w' :
  storage w' = storage w -> nodes (app w') = nodes (app w) -> menu (app w') = menu (app w) ->
  reloadInv names w -> reloadInv names w'.
Proof. unfold reloadInv. by intros -> -> ->. Qed.

Lemma kept_delete names n (l : list MinaNode) :
  List.filter (otherName n) (List.filter (kept names) l) = List.filter (kept (names ++ [name n])) l.
Proof.
  induction l as [|c l IH]; [done|]. cbn [List.filter].
  assert (kept (names ++ [name n]) c = kept names c && otherName n c) as ->.
  { unfold kept, otherName, includes. rewrite <- negb_orb, <- bool_decide_or. f_equal. apply bool_decide_ext. set_solver. }
  destruct (kept names c); cbn [andb List.filter]; by rewrite IH.
Qed.

Lemma reload_step names w e : ofSession e = true -> reloadInv names w ->
  reloadInv (names ++ default [] ((fun n => [n]) <$> deletedName e)) (step w e).
Proof.
  intros He Hw. destruct e as [|a u| | | | | |]; cbn [step deletedName fmap option_fmap option_map default from_option id];
    rewrite ?app_nil_r; try done.
  - destruct a; cbn [ofSession] in He; try done; cbn [deletedName fmap option_fmap option_map default from_option id];
      rewrite ?app_nil_r; try exact Hw; destruct Hw as [(st & Hst & Hc) Hp].
    + split; cbn; [rewrite Hst; cbn; eauto|]. by rewrite Hst in *.
    + split; cbn; rewrite Hst in *; cbn in *; [by eexists|]. rewrite Hp. apply Permutation_middle.
    + split; cbn; rewrite Hst in *; cbn in *; [by eexists|].
      by rewrite (list_filter_perm (otherName node) _ _ Hp), List.filter_app, kept_delete.
  - unfold getNodeDetailsEffect. by destruct (requestInProgress w).
  - by destruct (statusRequest w).
  - by destruct (statusRequest w).
  - by destruct (buildRequests w !! i).
  - by destruct (buildRequests w !! i).
  - by destruct (wasmStarting w).
Qed.

Lemma reload_run st nodeName evs : forallb ofSession evs = true ->
  reloadInv (deletedNames evs) (run step (started st nodeName) evs).
Proof.
  induction evs as [|e evs IH] using rev_ind.
  - intros _. destruct (started_world st nodeName) as (H1 & _ & _ & H4 & H5).
    change (run step (started st nodeName) []) with (started st nodeName). unfold reloadInv. rewrite H1, H4, H5.
    split; [by eexists|]. unfold getNodes. f_equiv. apply reflexive_eq. symmetry. by apply filter_true_id.
  - rewrite forallb_app, andb_true_iff. intros [Hevs He]. cbn in He. rewrite andb_true_r in He.
    rewrite run_app. unfold deletedNames. rewrite omap_app.
    replace (omap deletedName [e]) with (default [] ((fun n => [n]) <$> deletedName e)) by (cbn; by destruct (deletedName e)).
    by apply reload_step, IH.
Qed.

Lemma filter_split {X} (p : X -> bool) l : Permutation l (List.filter p l ++ List.filter (fun x => negb (p x)) l).
Proof.
  induction l as [|x l IH]; [done|]. cbn. destruct (p x); cbn; [by constructor|].
  rewrite <- Permutation_middle. by constructor.
Qed.


(** * Requests *)

Definition singleFlight (w : World) : Prop := requestInProgress w = bool_decide (is_Some (statusRequest w)).

Lemma statusDone_flight w : singleFlight (statusDone w).
Proof. done. Qed.

Lemma reduce_flight w a : singleFlight w -> singleFlight (reduce w a).
Proof. unfold singleFlight. destruct (reduce_other w a) as (_ & _ & -> & -> & _). done. Qed.

Lemma step_flight w e : singleFlight w -> singleFlight (step w e).
Proof.
  intros Hw. destruct e as [nn|a u| | | | | |]; cbn [step].
  - unfold initEffect, initSuccessEffect. set (w' := reduce _ _).
    assert (singleFlight w') as H' by (by apply reduce_flight).
    destruct (activeNode (app w')) as [n|]; [|done]. by destruct (isWeb _).
  - pose proof (reduce_flight w a Hw) as H'. destruct a; try done.
    unfold initSuccessEffect. destruct (activeNode _); [|done]. by destruct (isWeb _).
  - unfold getNodeDetailsEffect. destruct (requestInProgress w) eqn:E; [done|].
    unfold singleFlight. done.
  - destruct (statusRequest w); [|done]. apply reduce_flight, statusDone_flight.
  - destruct (statusRequest w); [|done]. apply reduce_flight. done.
  - destruct (buildRequests w !! i); [|done]. by apply reduce_flight.
  - destruct (buildRequests w !! i); [|done]. by apply reduce_flight.
  - by destruct (wasmStarting w).
Qed.

(** The polling of the node status never overlaps and never stalls: in every
    reachable world the flag is set exactly while a request is in progress, and
    after an answer or a failure the next tick sends a request to the current
    node; a failure shows the node as offline and adds one unseen error. *)
Theorem status_poll_recovers st w : reachable_by step (initialWorld st) (fun _ _ => True) w ->
  (requestInProgress w = true <-> is_Some (statusRequest w)) /\
  (forall data, statusRequest (step (step w (StatusAnswer data)) GetNodeDetails) = Some (rustNode w)) /\
  (forall error now, statusRequest (step (step w (StatusFailure error now)) GetNodeDetails) = Some (rustNode w)) /\
  (forall error now, is_Some (statusRequest w) ->
     status (activeNodeDetails (app (step w (StatusFailure error now)))) = OFFLINE /\
     exists e, errors (step w (StatusFailure error now)) = e :: errors w /\ seen e = false).
Proof.
  intros Hw. assert (singleFlight w) as Hf.
  { revert w Hw. apply reachable_by_inv; [done|]. intros. by apply step_flight. }
  unfold singleFlight in Hf. split; [rewrite Hf; apply bool_decide_eq_true|].
  assert (statusRequest w = None -> requestInProgress w = false) as Hnone.
  { intros E. rewrite Hf, E. done. }
  repeat split.
  - intros data. cbn [step]. destruct (statusRequest w) eqn:E; [done|].
    unfold getNodeDetailsEffect. by rewrite Hnone.
  - intros error now. cbn [step]. destruct (statusRequest w) eqn:E; [done|].
    unfold getNodeDetailsEffect. by rewrite Hnone.
  - destruct H0 as [q Hq]. cbn [step]. by rewrite Hq.
  - destruct H0 as [q Hq]. cbn [step]. rewrite Hq. cbn. eauto.
Qed.

(** The events of a session in which the active node is not deleted. *)
Definition keepsActive (w : World) (e : Event) : Prop :=
  match e with
  | Dispatch (initSuccess _ _) _ => False
  | Dispatch (deleteNode n) _ => option_map name (activeNode (app w)) <> Some (name n)
  | _ => True
  end.

Lemma follow_step w e : keepsActive w e ->
  rustNode w = activeNode (app w) -> rustNode (step w e) = activeNode (app (step w e)).
Proof.
  intros Hok Hw. destruct e as [nn|a u| | | | | |]; cbn [step keepsActive] in *.
  - unfold initEffect, initSuccessEffect. cbn. destruct (getActiveNode _ _) as [n|]; [|done]. cbn; by destruct (default _ _).
  - destruct a; try done. cbn. rewrite bool_decide_false; [done|]. intros E. apply Hok. rewrite <- E. by destruct (activeNode _).
  - unfold getNodeDetailsEffect. by destruct (requestInProgress w).
  - by destruct (statusRequest w).
  - by destruct (statusRequest w).
  - by destruct (buildRequests w !! i).
  - by destruct (buildRequests w !! i).
  - by destruct (wasmStarting w).
Qed.

(** C32: the requests go to the active node as long as the active node is not
    deleted.  When it is, another node is shown as active but the requests still
    go to the deleted one; and selecting another node never requests its build
    information, so that of the previous node stays displayed. *)
Theorem requests_follow_active_node st :
  (forall w, reachable_by step (initialWorld st) keepsActive w -> rustNode w = activeNode (app w)) /\
  (forall w n u, rustNode w = Some n -> activeNode (app w) = Some n -> requestInProgress w = false ->
     let w' := step w (Dispatch (deleteNode n) u) in
     (activeNode (app w') <> Some n) /\ statusRequest (step w' GetNodeDetails) = Some (Some n)) /\
  (forall w n u, let w' := step w (Dispatch (changeActiveNode n) u) in
     rustNode w' = Some n /\ buildRequests w' = buildRequests w /\ envBuild (app w') = envBuild (app w)).
Proof.
  split; [|split].
  - apply reachable_by_inv; [done|]. intros w e Hw Hok. by apply follow_step.
  - intros w n u Hr Ha Hp. cbn. split.
    + rewrite Ha. cbn. rewrite bool_decide_true by done. intros E.
      assert (n ∈ List.filter (otherName n) (nodes (app w))) as Hin.
      { destruct (List.filter _ _) as [|m ms]; [done|]. injection E as ->. by left. }
      apply elem_of_list_filter in Hin as [_ Hin]. unfold otherName in Hin. by rewrite bool_decide_true in Hin.
    + unfold getNodeDetailsEffect. cbn. rewrite Hp. cbn. by rewrite Hr.
  - intros w n u. done.
Qed.

End Effects.

(** Selecting a node puts it into the url and leaves the page only when the
    node does not have it, for a page the node has. *)
Theorem node_change_lands_on_page `{DateFormat} CONFIG w n u e es :
  configs CONFIG <> [] -> getFeaturesConfig CONFIG (Some n) = Some (FeatureObject (e :: es)) ->
  let w' := step CONFIG true w (Dispatch (changeActiveNode n) u) in
  (isFeatureEnabled CONFIG (Some n) (activePage u) = true /\ navigations w' = [MergeNodeParam (name n)]) \/
  (isFeatureEnabled CONFIG (Some n) (activePage u) = false /\
   exists page, navigations w' = [MergeNodeParam (name n); GoTo (Some page)] /\
                isFeatureEnabled CONFIG (Some n) page = true).
Proof.
  intros Hne Hf w'. assert (navigations w' = MergeNodeParam (name n) ::
    (if isFeatureEnabled CONFIG (Some n) (activePage u) then []
     else [GoTo (getFirstFeature true CONFIG (Some n))])) as -> by done.
  destruct (isFeatureEnabled CONFIG (Some n) (activePage u)); [by left|]. right. split; [done|].
  destruct (getFirstFeature_enabled CONFIG n e es Hf Hne) as (page & -> & Hp). eauto.
Qed.

(** * Examples *)

#[local] Instance plainFormat : DateFormat := fun _ _ => "".

Definition demoNode (n : string) : MinaNode := mkMinaNode n (Some ("http://" +:+ n)) None None None (Some true) None.
Definition demoEnv : MinaEnv := mkMinaEnv [demoNode "main"] (Some (FeatureObject [("dashboard", []); ("state", ["actions"])])).
Definition demoStorage : Storage := mkStorage None None.
Definition demoWorld : World :=
  run (step demoEnv true) (started demoEnv true demoStorage None)
    [Dispatch (addNode (demoNode "own")) "/state"; Dispatch (changeActiveNode (demoNode "own")) "/state"].

Lemma demo_session : session demoEnv true demoStorage None demoWorld.
Proof.
  change demoWorld with
    (step demoEnv true (step demoEnv true (started demoEnv true demoStorage None) (Dispatch (addNode (demoNode "own")) "/state"))
       (Dispatch (changeActiveNode (demoNode "own")) "/state")).
  apply reachable_step; [apply reachable_step; [apply reachable_init|done]|]. cbn. by left.
Qed.

(** A node is added and selected and a configured one is deleted. *)
Definition demoEvents : list Event :=
  [Dispatch (addNode (demoNode "own")) "/state"; Dispatch (changeActiveNode (demoNode "own")) "/state";
   Dispatch (deleteNode (demoNode "main")) "/state"].


Lemma status_poll_recovers_witness :
  requestInProgress (step demoEnv true (initialWorld None) GetNodeDetails) = true /\
  is_Some (statusRequest (step demoEnv true (initialWorld None) GetNodeDetails)).
Proof.
  split; [reflexivity|].
  refine (proj1 (proj1 (status_poll_recovers demoEnv true None (step demoEnv true (initialWorld None) GetNodeDetails) _)) _).
  - apply reachable_step; [apply reachable_init|done].
  - reflexivity.
Defined.

Lemma node_change_lands_on_page_witness :
  navigations (step demoEnv true (initialWorld None) (Dispatch (changeActiveNode (demoNode "own")) "/network/blocks?node=main"))
    = [MergeNodeParam "own"; GoTo (Some "dashboard")] /\
  ((isFeatureEnabled demoEnv (Some (demoNode "own")) (activePage "/network/blocks?node=main") = true /\
    navigations (step demoEnv true (initialWorld None) (Dispatch (changeActiveNode (demoNode "own")) "/network/blocks?node=main"))
      = [MergeNodeParam "own"]) \/
   (isFeatureEnabled demoEnv (Some (demoNode "own")) (activePage "/network/blocks?node=main") = false /\
    exists page, navigations (step demoEnv true (initialWorld None) (Dispatch (changeActiveNode (demoNode "own")) "/network/blocks?node=main"))
      = [MergeNodeParam "own"; GoTo (Some page)] /\ isFeatureEnabled demoEnv (Some (demoNode "own")) page = true)).
Proof.
  split; [reflexivity|].
  refine (node_change_lands_on_page demoEnv (initialWorld None) (demoNode "own") "/network/blocks?node=main"
            ("dashboard", []) [("state", ["actions"])] _ _); [discriminate|reflexivity].
Defined.

End AppStore.
