(* ===== verification/WonSlotsPage.v ===== *)
(** The components of the won slots page
    (frontend/src/app/features/block-production/won-slots): the page, its filters,
    its cards, the heading with the epoch, and the side panel with the countdown of
    the active slot.  The table is an instance of RouteTables.v. *)

From S2P Require Import Prelude JsRuntime TableSort DateHelper WonSlots AppConfig AppStore.

Module WonSlotsPage.
Import WonSlots.

#[local] Existing Instance AppStore.AppNodeStatus_eq_dec.

(** * The page *)

Record WonSlotsPage := mkPage {
  showSidePanel : bool;
  nodeIsBootstrapping : bool;
  isPending : bool;
  isCalculatingVRF : bool;
  pageVrfStats : option VrfStats;
  pageEpoch : option Z;
  emptySlots : bool;
  isLoading : bool
}.

#[export, refine] Instance WonSlotsPage_copy : RecordCopy WonSlotsPage := {
  record_copy r := mkPage (showSidePanel r) (nodeIsBootstrapping r) (isPending r) (isCalculatingVRF r) (pageVrfStats r)
    (pageEpoch r) (emptySlots r) (isLoading r) }.
Proof. by intros []. Defined.

Definition initialPage (isDesktop : bool) : WonSlotsPage := mkPage isDesktop false true false None None true true.

Definition listenToNodeChange (node : option AppStore.AppNodeDetails) (p : WonSlotsPage) : WonSlotsPage :=
  p <| nodeIsBootstrapping := bool_decide (AppStore.status <$> node = Some AppStore.BOOTSTRAP) |>
    <| isPending := bool_decide (AppStore.status <$> node = Some AppStore.PENDING) |>.

Definition listenToActiveNode (id : option string) (p : WonSlotsPage) : WonSlotsPage * BlockProductionWonSlotsActions :=
  (p <| isLoading := true |>, init id).

Definition listenToResize (open : bool) (p : WonSlotsPage) : WonSlotsPage := p <| showSidePanel := open |>.

(** A comparison with an absent number is false. *)
Definition listenToActiveEpoch (activeEpoch : option BlockProductionWonSlotsEpoch) (p : WonSlotsPage) : WonSlotsPage :=
  let stats := vrfStats <$> activeEpoch in
  p <| pageEpoch := epochNumber <$> activeEpoch |> <| pageVrfStats := stats |>
    <| isCalculatingVRF := match stats ≫= evaluated, stats ≫= total with
                           | Some e, Some t => (e <? t)%Z
                           | _, _ => false
                           end |>.

Definition listenToSlots (l : list BlockProductionWonSlotsSlot) (p : WonSlotsPage) : WonSlotsPage :=
  p <| emptySlots := length l =? 0 |>.

Definition listenToResponded (responded : bool) (p : WonSlotsPage) : WonSlotsPage := p <| isLoading := negb responded |>.

(** * Filters *)

Definition hasStatus (st : BlockProductionWonSlotsStatus) (s : BlockProductionWonSlotsSlot) : bool :=
  bool_decide (status s = Some st).

Definition isFuture (s : BlockProductionWonSlotsSlot) : bool := bool_decide (status s = None) || hasStatus Scheduled s.

Record Totals := mkTotals {
  totalWonSlots : nat; totalCanonical : nat; totalOrphaned : nat; totalFuture : nat; totalDiscarded : nat }.

Definition totals (l : list BlockProductionWonSlotsSlot) : Totals :=
  mkTotals (length l) (countIf (hasStatus Canonical) l) (countIf (hasStatus Orphaned) l) (countIf isFuture l)
    (countIf (hasStatus Discarded) l).

Inductive FilterName := fnAccepted | fnOrphaned | fnUpcoming | fnDiscarded.

Definition changeFilter (f : BlockProductionWonSlotsFilters) (name : FilterName) (value : bool)
  : BlockProductionWonSlotsActions :=
  changeFilters
    match name with
    | fnAccepted => mkFilters value (orphaned f) (upcoming f) (filterDiscarded f)
    | fnOrphaned => mkFilters (accepted f) value (upcoming f) (filterDiscarded f)
    | fnUpcoming => mkFilters (accepted f) (orphaned f) value (filterDiscarded f)
    | fnDiscarded => mkFilters (accepted f) (orphaned f) (upcoming f) value
    end.

(** * Cards *)

Record Cards := mkCards {
  nextWonSlot : option string;
  nextSlot : option Z;
  wonSlots : nat;
  slotsUsed : nat;
  acceptedBlocks : nat;
  lastBlockTime : option string;
  totalRewards : string
}.

(** The sum of two rewards is NaN ([None]) when one is absent. *)
Definition slotReward (s : BlockProductionWonSlotsSlot) : option Q :=
  match coinbaseRewards s, txFeesRewards s with Some c, Some f => Some (c + f)%Q | _, _ => None end.

Definition addNum (a b : option Q) : option Q := match a, b with Some x, Some y => Some (x + y)%Q | _, _ => None end.

(** [x.toFixed(0)]: the nearest integer, the larger one of two. *)
Definition toFixed0 (x : Q) : string := showZ (Qround.Qfloor (x + (1 # 2))%Q).

Definition rewardsText (l : list BlockProductionWonSlotsSlot) : string :=
  match fold_left addNum (slotReward <$> List.filter (hasStatus Canonical) l) (Some 0%Q) with
  | Some x => toFixed0 x
  | None => "0"
  end.

Definition slotsCards (now : Z) (l : list BlockProductionWonSlotsSlot) : Cards :=
  let next := List.find isFuture l in
  {| nextWonSlot := match next with
                    | Some s => diff (getTimeDiff now noConfig (Some (slotTime s)))
                    | None => Some "Now"
                    end;
     nextSlot := match next with Some s => Some (globalSlot s) | None => globalSlot <$> List.find active l end;
     wonSlots := length l;
     slotsUsed := countIf (fun s => hasStatus Canonical s || hasStatus Orphaned s || hasStatus Discarded s) l;
     acceptedBlocks := countIf (hasStatus Canonical) l;
     lastBlockTime := diff (getTimeDiff now noConfig (slotTime <$> last (List.filter (hasStatus Canonical) l)));
     totalRewards := rewardsText l |}.

(** [addMinutesToTimestamp(currentTime / ONE_BILLION, minutes) * ONE_THOUSAND]:
    milliseconds, whose fraction the date drops. *)
Definition addMinutes (time minutes : Z) : Z := ((time + minutes * 60 * ONE_BILLION) ÷ ONE_MILLION)%Z.

Definition epochEndsIn (now : Z) (e : BlockProductionWonSlotsEpoch) : option string :=
  diff (getTimeDiff now noConfig (Some (addMinutes (currentTime e) ((end_ e - currentGlobalSlot e) * 3)))).

(** [Math.floor((current - start) / (end - start) * 100)] for an epoch that has slots. *)
Definition epochProgress (e : BlockProductionWonSlotsEpoch) : Z :=
  ((currentGlobalSlot e - start e) * 100 / (end_ e - start e))%Z.

(** * The heading *)

(** ['Epoch ' + slots[0].epoch]; absent without slots. *)
Definition epochHeading (l : list BlockProductionWonSlotsSlot) : option string :=
  (fun s => "Epoch " +:+ match epoch s with Some e => showZ e | None => "undefined" end) <$> head l.

(** The seconds are rounded down before the minutes are taken off. *)
Definition startedAgo (now : Z) (e : BlockProductionWonSlotsEpoch) : option string :=
  diff (getTimeDiff now noConfig
    (Some ((currentTime e / ONE_BILLION + - (currentGlobalSlot e - start e) * 3 * 60) * ONE_THOUSAND)%Z)).

(** * The side panel *)

Record SidePanel := mkPanel {
  slot : option BlockProductionWonSlotsSlot;
  title : string;
  percentageDone : nat;
  slotStartedAlready : bool;
  vrfText : string;
  vrf : list Q;
  remainingTime : string;
  stopTimer : bool;
  stateWhenReachedZero : option (Z * option BlockProductionWonSlotsStatus);
  discardedAt : option string
}.

#[export, refine] Instance SidePanel_copy : RecordCopy SidePanel := {
  record_copy r := mkPanel (slot r) (title r) (percentageDone r) (slotStartedAlready r) (vrfText r) (vrf r) (remainingTime r)
    (stopTimer r) (stateWhenReachedZero r) (discardedAt r) }.
Proof. by intros []. Defined.

Definition initialPanel : SidePanel := mkPanel None "" 0 false "" [0%Q; 0%Q] "" false None None.

(** [addMinutesToTimestamp(slotTime, 3)] *)
Definition slotEnd (s : BlockProductionWonSlotsSlot) : Z := (slotTime s + 3 * ONE_THOUSAND * 60)%Z.

(** The text for a slot in the future is replaced at once. *)
Definition parse (now : Z) (p : SidePanel) : SidePanel :=
  match slot p with
  | Some s =>
      if stopTimer p then p <| remainingTime := "-" |> else
      let remaining := getTimeDiff now (mkConfig true false None) (Some (slotEnd s)) in
      let p := if inFuture remaining then p <| remainingTime := "-" |> else p in
      let p := p <| remainingTime := default "undefined" (diff remaining) |> in
      if bool_decide (remainingTime p = "0s")
      then p <| stopTimer := true |> <| stateWhenReachedZero := Some (globalSlot s, status s) |> <| remainingTime := "-" |>
      else p
  | None => p <| remainingTime := "-" |>
  end.

Definition getVrfText (s : BlockProductionWonSlotsSlot) : string :=
  if active s then "Won Slot Requirement" else "Block Produce Right".

(** The node writes [null] for the end of a stage that was not reached, and a
    comparison takes [null] for 0. *)
Definition reached (t : Z) (stageEnd : option Z) : bool := (default 0 stageEnd <=? t)%Z.

(** Where the discarded block is drawn; a discarded slot has times. *)
Definition discardedLocation (t : BlockProductionWonSlotTimes) : string :=
  let d := default 0%Z (discarded t) in
  let location := if reached d (stagedLedgerDiffCreateEnd t) then "ledger" else "beforeLedger" in
  let location := if reached d (producedEnd t) then "produced" else location in
  let location := if reached d (proofCreateEnd t) then "proof" else location in
  if reached d (blockApplyEnd t) then "apply" else location.

Definition createDiscardedView (s : BlockProductionWonSlotsSlot) : option string :=
  match discardReason s, times s with Some _, Some t => Some (discardedLocation t) | _, _ => None end.

Definition listenToActiveSlot (now : Z) (s : BlockProductionWonSlotsSlot) (p : SidePanel) : SidePanel :=
  let p := p <| slot := Some s |> <| title := message s |>
             <| percentageDone := match times s with Some t => stagesDone t * 20 | None => 0 end |>
             <| slotStartedAlready := (slotTime s <? now)%Z |> in
  let resets := match stateWhenReachedZero p with
                | Some (number, st) => bool_decide (number = globalSlot s) && negb (bool_decide (st = status s))
                | None => true
                end in
  let p := if resets then p <| stopTimer := negb (active s) |> <| stateWhenReachedZero := None |> else p in
  (parse now p) <| vrfText := getVrfText s |> <| vrf := vrfValueWithThreshold s |> <| discardedAt := createDiscardedView s |>.

(** A slot is selected or reported again; a second passes. *)
Inductive PanelEvent := ActiveSlot (now : Z) (s : BlockProductionWonSlotsSlot) | Tick (now : Z).

Definition panelStep (p : SidePanel) (e : PanelEvent) : SidePanel :=
  match e with ActiveSlot now s => listenToActiveSlot now s p | Tick now => parse now p end.

Definition minascanUrl (network : option string) (s : BlockProductionWonSlotsSlot) : string :=
  "https://minascan.io/" +:+ default "undefined" network +:+ "/block/" +:+ default "undefined" (hash s).

(** * The countdown *)

Definition remainingText (now : Z) (s : BlockProductionWonSlotsSlot) : string :=
  default "undefined" (diff (getTimeDiff now (mkConfig true false None) (Some (slotEnd s)))).

Lemma parse_stopped now p : stopTimer p = true -> parse now p = p <| remainingTime := "-" |>.
Proof. intros H. unfold parse. by destruct (slot p); [rewrite H|]. Qed.

Lemma parse_running now p s : slot p = Some s -> stopTimer p = false ->
  parse now p = if bool_decide (remainingText now s = "0s")
                then p <| stopTimer := true |> <| stateWhenReachedZero := Some (globalSlot s, status s) |> <| remainingTime := "-" |>
                else p <| remainingTime := remainingText now s |>.
Proof.
  intros Hs Hr. unfold parse. rewrite Hs, Hr. fold (remainingText now s). destruct (inFuture _); cbn;
    fold (remainingText now s); case_bool_decide; by destruct p.
Qed.

(** The events that say nothing new about the slot whose countdown ended. *)
Definition otherNews (number : Z) (st : option BlockProductionWonSlotsStatus) (e : PanelEvent) : Prop :=
  match e with ActiveSlot _ s => globalSlot s = number -> status s = st | Tick _ => True end.

(** The panel after the countdown of a slot ended. *)
Definition ended (number : Z) (st : option BlockProductionWonSlotsStatus) (p : SidePanel) : Prop :=
  stopTimer p = true /\ stateWhenReachedZero p = Some (number, st) /\ remainingTime p = "-".

Lemma ended_step number st p e : otherNews number st e -> ended number st p -> ended number st (panelStep p e).
Proof.
  intros He (Hs & Hz & Hr). destruct e as [now s|now]; cbn [panelStep].
  - unfold listenToActiveSlot. set (q := p <| slot := Some s |> <| title := message s |> <| percentageDone := _ |> <| slotStartedAlready := _ |>).
    change (stateWhenReachedZero q) with (stateWhenReachedZero p). rewrite Hz. cbn [otherNews] in He.
    assert (bool_decide (number = globalSlot s) && negb (bool_decide (st = status s)) = false) as ->.
    { case_bool_decide as E; [|done]. rewrite bool_decide_true; [done|]. symmetry. by apply He. }
    rewrite parse_stopped by done. done.
  - rewrite parse_stopped by done. done.
Qed.

(** C25: the countdown of the side panel.  Before any countdown ended, a slot that is
    selected shows a dash unless it is active, and then the distance to its end,
    in either direction.  Once the countdown of a slot ended, the panel shows a dash
    for every slot that is selected, also an active one with time left, until the
    same slot is reported with another status. *)
Theorem panel_countdown p s now :
  (stateWhenReachedZero p = None ->
   remainingTime (panelStep p (ActiveSlot now s)) =
     if active s && negb (bool_decide (remainingText now s = "0s")) then remainingText now s else "-") /\
  (slot p = Some s -> stopTimer p = false -> remainingText now s = "0s" ->
   forall es, Forall (otherNews (globalSlot s) (status s)) es ->
   remainingTime (run panelStep (panelStep p (Tick now)) es) = "-").
Proof.
  split.
  - intros Hz. cbn [panelStep]. unfold listenToActiveSlot.
    set (q := p <| slot := Some s |> <| title := message s |> <| percentageDone := _ |> <| slotStartedAlready := _ |>).
    change (stateWhenReachedZero q) with (stateWhenReachedZero p). rewrite Hz.
    set (q' := q <| stopTimer := negb (active s) |> <| stateWhenReachedZero := None |>).
    destruct (active s) eqn:Ha; cbn [andb].
    + pose proof (parse_running now q' s eq_refl) as E. assert (stopTimer q' = false) as Hstop by done.
      rewrite (E Hstop). by case_bool_decide.
    + rewrite parse_stopped by done. done.
  - intros Hs Hrun H0 es Hes.
    assert (ended (globalSlot s) (status s) (panelStep p (Tick now))) as Hend.
    { cbn [panelStep]. rewrite (parse_running now p s) by done. by rewrite bool_decide_true. }
    revert Hend. generalize (panelStep p (Tick now)). induction Hes as [|e es He _ IH]; intros q Hq; cbn.
    + by destruct Hq as (_ & _ & ->).
    + apply IH. by apply ended_step.
Qed.

(** * Bounds *)

(** The slots that no total counts. *)
Definition uncounted (x : BlockProductionWonSlotsSlot) : bool :=
  negb (isFuture x || hasStatus Canonical x || hasStatus Orphaned x || hasStatus Discarded x).

Lemma one_total x :
  (if hasStatus Canonical x then 1 else 0) + (if hasStatus Orphaned x then 1 else 0) + (if isFuture x then 1 else 0) +
  (if hasStatus Discarded x then 1 else 0) + (if uncounted x then 1 else 0) = 1.
Proof. unfold uncounted, isFuture, hasStatus. by destruct (status x) as [[]|]. Qed.

Lemma totals_sum l :
  countIf (hasStatus Canonical) l + countIf (hasStatus Orphaned) l + countIf isFuture l + countIf (hasStatus Discarded) l +
  countIf uncounted l = length l.
Proof. induction l as [|x l IH]; [done|]. rewrite !countIf_cons. cbn [length]. pose proof (one_total x). lia. Qed.

Lemma stagesDone_le t : stagesDone t <= 5.
Proof. unfold stagesDone. etrans; [apply countIf_le|done]. Qed.

Lemma parse_percentage now p : percentageDone (parse now p) = percentageDone p.
Proof.
  destruct (stopTimer p) eqn:Hs; [by rewrite parse_stopped|]. destruct (slot p) as [s|] eqn:E.
  - rewrite (parse_running now p s) by done. by case_bool_decide.
  - unfold parse. by rewrite E.
Qed.

Lemma percentageDone_slot now s p :
  percentageDone (listenToActiveSlot now s p) = match times s with Some t => stagesDone t * 20 | None => 0 end.
Proof.
  unfold listenToActiveSlot. cbn zeta.
  match goal with |- percentageDone ((parse now ?q) <| vrfText := _ |> <| vrf := _ |> <| discardedAt := _ |>) = _ =>
    transitivity (percentageDone (parse now q)); [reflexivity|] end.
  rewrite parse_percentage. by match goal with |- context [if ?b then _ else _] => destruct b end.
Qed.

Lemma progress_bounded e : (start e <= currentGlobalSlot e <= end_ e)%Z -> (start e < end_ e)%Z ->
  (0 <= epochProgress e <= 100)%Z.
Proof.
  intros Hc He. unfold epochProgress. split; [apply Z.div_pos; lia|].
  apply Z.div_le_upper_bound; lia.
Qed.

(** The numbers of the page fit together: the accepted blocks are among the
    slots used, and these among the won slots; every won slot is counted by exactly
    one total of the filters, except the slots in production or waiting for
    confirmation, which are in none; the finished stages give at most 100 percent in
    steps of 20; and within an epoch its progress is between 0 and 100 percent. *)
Theorem wonslots_numbers_bounded now l s p e :
  (start e <= currentGlobalSlot e <= end_ e)%Z -> (start e < end_ e)%Z ->
  (acceptedBlocks (slotsCards now l) <= slotsUsed (slotsCards now l) <= wonSlots (slotsCards now l)) /\
  (let t := totals l in totalCanonical t + totalOrphaned t + totalFuture t + totalDiscarded t +
     countIf uncounted l = totalWonSlots t) /\
  percentageDone (listenToActiveSlot now s p) ∈ [0; 20; 40; 60; 80; 100] /\
  (0 <= epochProgress e <= 100)%Z.
Proof.
  intros Hc He. split; [|split; [|split]].
  - cbn. split; [|apply countIf_le]. apply countIf_mono. intros x ->. done.
  - cbn. apply totals_sum.
  - rewrite percentageDone_slot. destruct (times s) as [t|]; [|set_solver].
    pose proof (stagesDone_le t) as H. destruct (stagesDone t) as [|[|[|[|[|[|n]]]]]]; [set_solver..|lia].
  - by apply progress_bounded.
Qed.

(** * The discarded block *)

Definition stageEnds (t : BlockProductionWonSlotTimes) : list (string * option Z) :=
  [("ledger", stagedLedgerDiffCreateEnd t); ("produced", producedEnd t); ("proof", proofCreateEnd t); ("apply", blockApplyEnd t)].

(** The last stage that was over when the block was discarded. *)
Definition lastStageOver (t : BlockProductionWonSlotTimes) (d : Z) : string :=
  default "beforeLedger"
    (last (fst <$> List.filter (fun st => match snd st with Some e => (e <=? d)%Z | None => false end) (stageEnds t))).

(** C29: the block is drawn behind the last stage that was over when it was
    discarded, provided that all stages were reached; a block discarded before it
    was applied is drawn behind the last stage of all. *)
Theorem discarded_block_drawn t d : discarded t = Some d -> (0 <= d)%Z ->
  ((forall st, st ∈ stageEnds t -> is_Some (snd st)) -> discardedLocation t = lastStageOver t d) /\
  (blockApplyEnd t = None -> discardedLocation t = "apply" /\ lastStageOver t d <> "apply").
Proof.
  intros Hd Hpos. unfold discardedLocation, lastStageOver, reached. rewrite Hd. cbn [default from_option]. split.
  - intros Hall. unfold stageEnds in *.
    assert (is_Some (stagedLedgerDiffCreateEnd t)) as [e1 ->] by (apply (Hall ("ledger", stagedLedgerDiffCreateEnd t)); set_solver).
    assert (is_Some (producedEnd t)) as [e2 ->] by (apply (Hall ("produced", producedEnd t)); set_solver).
    assert (is_Some (proofCreateEnd t)) as [e3 ->] by (apply (Hall ("proof", proofCreateEnd t)); set_solver).
    assert (is_Some (blockApplyEnd t)) as [e4 ->] by (apply (Hall ("apply", blockApplyEnd t)); set_solver).
    cbn. by destruct (e1 <=? d)%Z, (e2 <=? d)%Z, (e3 <=? d)%Z, (e4 <=? d)%Z.
  - intros Ha. unfold stageEnds. rewrite Ha. cbn. rewrite (proj2 (Z.leb_le 0 d)) by done. split; [done|].
    repeat (case_match; cbn); done.
Qed.

(** * Examples *)

Definition demoWon (n t : Z) (a : bool) (st : option BlockProductionWonSlotsStatus) : BlockProductionWonSlotsSlot :=
  mkSlot None "" "" t n None [] a None None None None None None None None None None None None st None None None.

Definition demoPanel : SidePanel := listenToActiveSlot 1700000000000 (demoWon 7 1699999999000 true (Some Produced)) initialPanel.

(** The countdown of slot 7 ends at its last second; slot 9, which has three minutes
    left, shows a dash. *)
Lemma panel_countdown_witness :
  remainingTime demoPanel = "2m 59s" /\
  remainingTime (run panelStep (panelStep demoPanel (Tick 1700000178500))
    [ActiveSlot 1700000179500 (demoWon 9 1700000179000 true (Some Scheduled)); Tick 1700000180500]) = "-".
Proof.
  split; [vm_compute; reflexivity|].
  refine (proj2 (panel_countdown demoPanel (demoWon 7 1699999999000 true (Some Produced)) 1700000178500) _ _ _ _ _);
    [vm_compute; reflexivity..|].
  repeat constructor. cbn. lia.
Defined.

Definition demoWonEpoch : BlockProductionWonSlotsEpoch := mkEpoch 3 21420 28559 24990 1700000000000000000 (mkVrf None None) "B62q".

Lemma wonslots_numbers_bounded_witness :
  epochProgress demoWonEpoch = 50%Z /\ (0 <= epochProgress demoWonEpoch <= 100)%Z.
Proof.
  split; [vm_compute; reflexivity|].
  refine (proj2 (proj2 (proj2 (wonslots_numbers_bounded 0 [] (demoWon 7 0 true None) initialPanel demoWonEpoch _ _))));
    cbn; lia.
Defined.

(** Discarded during the creation of the ledger, drawn behind the application. *)
Lemma discarded_block_drawn_witness :
  discardedLocation (mkTimes None None None None None (Some 5%Z) None None None None None) = "apply" /\
  lastStageOver (mkTimes None None None None None (Some 5%Z) None None None None None) 5 = "beforeLedger".
Proof.
  split; [|reflexivity].
  refine (proj1 (proj2 (discarded_block_drawn (mkTimes None None None None None (Some 5%Z) None None None None None) 5 eq_refl _) eq_refl)).
  lia.
Defined.

End WonSlotsPage.
