(* ===== verification/NodeSwitcher.v ===== *)
(** The node switcher of the toolbar: the status chip (layout/server-status), the
    list of nodes it opens (layout/node-picker) and the form for a new node
    (layout/new-node), over the store of AppStore.v.  Nodes are compared with
    [===], so they are kept as objects here ([NodeObj]). *)

From S2P Require Import Prelude JsRuntime DateHelper AppConfig AppStore.

Module NodeSwitcher.
Import AppConfig AppStore.

(** * Data *)

(** A node object: its identity and its fields. *)
Record NodeObj := mkObj { ref : nat; node : MinaNode }.

#[export] Instance NodeObj_eq_dec : EqDecision NodeObj.
Proof. solve_decision. Defined.

(** NodePickerComponent; [searchText] is the value of the input. *)
Record NodePicker := mkPicker {
  pickerNodes : list NodeObj;
  filteredNodes : list NodeObj;
  pickerActive : option NodeObj;
  searchText : string
}.

#[export, refine] Instance NodePicker_copy : RecordCopy NodePicker := {
  record_copy r := mkPicker (pickerNodes r) (filteredNodes r) (pickerActive r) (searchText r) }.
Proof. by intros []. Defined.

(** What is attached to [nodePickerOverlayRef], which the list and the form share. *)
Inductive NodeOverlay := PickerOpen (p : NodePicker) | NewNodeOpen.

(** ServerStatusComponent.  [tooltip] tells whether [tooltipOverlayRef] is attached;
    [strayTooltips] are attached overlays that no field refers to any more. *)
Record ServerStatus := mkServerStatus {
  switchForbidden : bool;
  mobile : option bool;
  shownNode : option NodeObj;
  details : option AppNodeDetails;
  isOnline : bool;
  blockTimeAgo : option string;
  knownNodes : list NodeObj;
  tooltip : bool;
  strayTooltips : nat;
  nodeOverlay : option NodeOverlay
}.

#[export, refine] Instance ServerStatus_copy : RecordCopy ServerStatus := {
  record_copy r := mkServerStatus (switchForbidden r) (mobile r) (shownNode r) (details r) (isOnline r)
    (blockTimeAgo r) (knownNodes r) (tooltip r) (strayTooltips r) (nodeOverlay r) }.
Proof. by intros []. Defined.

(** The application: the store, its nodes as objects, and the toolbar. *)
Record Switcher := mkSwitcher {
  store : World;
  objects : list NodeObj;             (* state.app.nodes *)
  activeObject : option NodeObj;      (* state.app.activeNode *)
  nextRef : nat;
  toolbar : ServerStatus
}.

#[export, refine] Instance Switcher_copy : RecordCopy Switcher := {
  record_copy r := mkSwitcher (store r) (objects r) (activeObject r) (nextRef r) (toolbar r) }.
Proof. by intros []. Defined.

(** * server-status.component.ts *)

Definition hasPicker (u : ServerStatus) : bool := bool_decide (is_Some (nodeOverlay u)).

Definition detachNodeOverlay (u : ServerStatus) : ServerStatus :=
  if hasPicker u then u <| nodeOverlay := None |> else u.

Definition detachTooltipOverlay (u : ServerStatus) : ServerStatus :=
  if tooltip u then u <| tooltip := false |> else u.

Definition listenToMenuChange (m : AppMenu) (u : ServerStatus) : ServerStatus :=
  if bool_decide (Some (isMobile m) = mobile u) then u else u <| mobile := Some (isMobile m) |>.

(** The three subscriptions of [listenToNodeChanges]. *)
Definition onNodes (ns : list NodeObj) (u : ServerStatus) : ServerStatus :=
  match ns with
  | [] => u
  | _ => let u := u <| knownNodes := ns |> in if tooltip u then detachNodeOverlay u else u
  end.

Definition onActiveNode (n : option NodeObj) (u : ServerStatus) : ServerStatus :=
  match n with None => u | Some n => u <| shownNode := Some n |> end.

(** Times of blocks are whole milliseconds, in nanoseconds; no time divides to 0. *)
Definition onDetails (now : Z) (d : AppNodeDetails) (u : ServerStatus) : ServerStatus :=
  u <| details := Some d |>
    <| isOnline := negb (includes [PENDING; OFFLINE] (status d)) |>
    <| blockTimeAgo := diff (getTimeDiff now noConfig (Some (default 0 (blockTime d) ÷ 1000000)%Z)) |>.

Definition listenToRouterChange (pathname : string) (u : ServerStatus) : ServerStatus :=
  u <| switchForbidden := strIncludes pathname "nodes/overview" |>.

(** A new overlay takes the place of the one [tooltipOverlayRef] referred to. *)
Definition openTooltipDropdown (u : ServerStatus) : ServerStatus :=
  if bool_decide (status <$> details u = Some PENDING) then u
  else u <| strayTooltips := if tooltip u then S (strayTooltips u) else strayTooltips u |> <| tooltip := true |>.

Definition openNodePicker (u : ServerStatus) : ServerStatus :=
  if hasPicker u then u <| nodeOverlay := None |>
  else u <| nodeOverlay := Some (PickerOpen (mkPicker (knownNodes u) (knownNodes u) (shownNode u) "")) |>.

Definition openAddNewNodeOverlay (u : ServerStatus) : ServerStatus :=
  if hasPicker u then u <| nodeOverlay := None |> else u <| nodeOverlay := Some NewNodeOpen |>.

(** The subscription to the [closeEmitter] of the list. *)
Definition onPickerClose (addNewNode : bool) (u : ServerStatus) : ServerStatus :=
  let u := detachNodeOverlay u in if addNewNode then openAddNewNodeOverlay u else u.

(** * node-picker.component.ts *)

(** [value] is in lower case. *)
Definition nodeMatches (value : string) (n : NodeObj) : bool :=
  strIncludes (toLowerCase (name (node n))) value ||
  match url (node n) with Some u => strIncludes (toLowerCase u) value | None => false end.

(** A key released in the input, once the delay is over. *)
Definition listenToNodeSearch (text : string) (p : NodePicker) : NodePicker :=
  let p := p <| searchText := text |> in
  if String.length text <=? 1 then p <| filteredNodes := pickerNodes p |>
  else p <| filteredNodes := List.filter (nodeMatches (toLowerCase text)) (pickerNodes p) |>.

(** * The actions on the nodes *)

Section Steps.
Context `{DateFormat} (CONFIG : MinaEnv) (browser : bool).

Definition toToolbar (f : ServerStatus -> ServerStatus) (s : Switcher) : Switcher :=
  s <| toolbar := f (toolbar s) |>.

Definition appStep (e : Event) (s : Switcher) : Switcher := s <| store := step CONFIG browser (store s) e |>.

Definition tellNodes (s : Switcher) : Switcher :=
  toToolbar (onActiveNode (activeObject s) ∘ onNodes (objects s)) s.

Definition dispatchChange (o : NodeObj) (routerUrl : string) (s : Switcher) : Switcher :=
  let s := appStep (Dispatch (changeActiveNode (node o)) routerUrl) s in
  toToolbar (onActiveNode (Some o)) (s <| activeObject := Some o |>).

Definition dispatchAdd (n : MinaNode) (routerUrl : string) (s : Switcher) : Switcher :=
  let s := appStep (Dispatch (addNode n) routerUrl) s in
  tellNodes (s <| objects := mkObj (nextRef s) n :: objects s |> <| nextRef := S (nextRef s) |>).

Definition dispatchDelete (o : NodeObj) (routerUrl : string) (s : Switcher) : Switcher :=
  let s := appStep (Dispatch (deleteNode (node o)) routerUrl) s in
  let ns := List.filter (otherName (node o) ∘ node) (objects s) in
  tellNodes (s <| objects := ns |>
    <| activeObject := if bool_decide (name ∘ node <$> activeObject s = Some (name (node o)))
                       then head ns else activeObject s |>).

Definition withPicker (s : Switcher) (f : NodePicker -> Switcher) : Switcher :=
  match nodeOverlay (toolbar s) with Some (PickerOpen p) => f p | _ => s end.

Definition selectNode (o : NodeObj) (routerUrl : string) (s : Switcher) : Switcher :=
  withPicker s (fun p =>
    let s := toToolbar (onPickerClose false) s in
    if bool_decide (Some o = pickerActive p) then s else dispatchChange o routerUrl s).

Definition deleteCustomNode (o : NodeObj) (routerUrl : string) (s : Switcher) : Switcher :=
  withPicker s (fun p =>
    let left := List.filter (fun n => negb (bool_decide (n = o))) (filteredNodes p) in
    dispatchDelete o routerUrl
      (toToolbar (fun u => u <| nodeOverlay := Some (PickerOpen (p <| filteredNodes := left |>)) |>) s)).

(** * Events *)

(** What the user does in the toolbar, and the other events of the application.
    The rows of the list are named by their position, and [routerUrl] is where the
    router is. *)
Inductive UiEvent :=
| AppEvent (e : Event) (now : Z)
| NavigationEnd (pathname : string)
| MouseEnterChip
| MouseLeaveChip
| ClickSwitcher
| ClickOutside
| Scroll
| KeyUp (text : string)
| ClickNode (i : nat) (routerUrl : string)
| ClickDelete (i : nat) (routerUrl : string)
| ClickNewNode
| ConfirmNewNode (form : list Feature) (fname furl fmemProfiler fdebugger : string) (routerUrl : string)
| CloseNewNode.

(** The actions that only the components of the toolbar dispatch, and the start. *)
Definition nodeEvent (e : Event) : bool :=
  match e with
  | Init _ => true
  | Dispatch (initSuccess _ _ | changeActiveNode _ | addNode _ | deleteNode _) _ => true
  | _ => false
  end.

(** Whether the event puts new details into the store. *)
Definition newDetails (w : World) (e : Event) : bool :=
  match e with
  | StatusAnswer _ | StatusFailure _ _ => bool_decide (is_Some (statusRequest w))
  | Dispatch (getNodeDetailsSuccess _) _ => true
  | _ => false
  end.

Definition tellApp (now : Z) (fresh : bool) (s : Switcher) : Switcher :=
  let s := toToolbar (listenToMenuChange (menu (app (store s)))) s in
  if fresh then toToolbar (onDetails now (activeNodeDetails (app (store s)))) s else s.

Definition uiStep (s : Switcher) (e : UiEvent) : Switcher :=
  match e with
  | AppEvent e now =>
      if nodeEvent e then s else tellApp now (newDetails (store s) e) (appStep e s)
  | NavigationEnd pathname => toToolbar (listenToRouterChange pathname) s
  | MouseEnterChip => toToolbar openTooltipDropdown s
  | MouseLeaveChip => toToolbar detachTooltipOverlay s
  | ClickSwitcher => toToolbar openNodePicker s
  | ClickOutside => withPicker s (fun _ => toToolbar (onPickerClose false) s)
  | Scroll => withPicker s (fun _ => toToolbar detachNodeOverlay s)
  | KeyUp text =>
      withPicker s (fun p => toToolbar (fun u => u <| nodeOverlay := Some (PickerOpen (listenToNodeSearch text p)) |>) s)
  | ClickNode i routerUrl =>
      withPicker s (fun p => match filteredNodes p !! i with Some o => selectNode o routerUrl s | None => s end)
  | ClickDelete i routerUrl =>
      withPicker s (fun p =>
        match filteredNodes p !! i with
        | Some o => if default false (isCustom (node o)) then deleteCustomNode o routerUrl s else s
        | None => s
        end)
  | ClickNewNode => withPicker s (fun _ => toToolbar (onPickerClose true) s)
  | ConfirmNewNode form fname furl fmem fdbg routerUrl =>
      match nodeOverlay (toolbar s), AppConfig.addNode form fname furl fmem fdbg with
      | Some NewNodeOpen, Some n => toToolbar detachNodeOverlay (dispatchAdd n routerUrl s)
      | _, _ => s
      end
  | CloseNewNode =>
      match nodeOverlay (toolbar s) with Some NewNodeOpen => toToolbar detachNodeOverlay s | _ => s end
  end.

(** The toolbar of an application that has started. *)
Definition emptyToolbar : ServerStatus := mkServerStatus false None None None false None [] false 0 None.

Definition objectsOf (ns : list MinaNode) : list NodeObj := mapi mkObj ns.

Definition activeOf (os : list NodeObj) (nodeName : option string) : option NodeObj :=
  match List.find (fun o => bool_decide (Some (name (node o)) = nodeName)) os with
  | Some o => Some o
  | None => head os
  end.

Definition startUi (now : Z) (st : Storage) (nodeName : option string) : Switcher :=
  let w := started CONFIG browser st nodeName in
  let os := objectsOf (nodes (app w)) in
  tellApp now true (tellNodes (mkSwitcher w os (activeOf os nodeName) (length os) emptyToolbar)).

(** * Sessions of the toolbar *)

(** A search is made in a list that is up to date, and nodes get names of their own. *)
Definition careful (s : Switcher) (e : UiEvent) : Prop :=
  match e with
  | KeyUp _ => forall p, nodeOverlay (toolbar s) = Some (PickerOpen p) -> pickerNodes p = objects s
  | ConfirmNewNode _ fname _ _ _ _ => fname ∉ (name ∘ node <$> objects s)
  | _ => True
  end.

Definition offered (u : ServerStatus) : list NodeObj :=
  match nodeOverlay u with Some (PickerOpen p) => filteredNodes p | _ => [] end.

(** The node the open list marks as active. *)
Definition marked (u : ServerStatus) : option (option NodeObj) :=
  match nodeOverlay u with Some (PickerOpen p) => Some (pickerActive p) | _ => None end.

(** The mark is right, or on a node that is gone. *)
Definition markRight (s : Switcher) : Prop :=
  forall a, marked (toolbar s) = Some a -> a = activeObject s \/ forall o, a = Some o -> o ∉ objects s.

(** The objects are those of the store, and the toolbar has heard of all of them. *)
Record uiInv (s : Switcher) : Prop := {
  ui_nodes : node <$> objects s = nodes (app (store s));
  ui_active : node <$> activeObject s = activeNode (app (store s));
  ui_known : knownNodes (toolbar s) = objects s;
  ui_shown : shownNode (toolbar s) = activeObject s;
  ui_names : NoDup (name ∘ node <$> objects s);
  ui_rows : offered (toolbar s) ⊆ objects s;
  ui_mark : markRight s
}.

Lemma fmap_filter_node f (os : list NodeObj) : node <$> List.filter (f ∘ node) os = List.filter f (node <$> os).
Proof. induction os as [|o os IH]; [done|]. cbn. destruct (f (node o)); cbn; by rewrite IH. Qed.

Lemma head_node (os : list NodeObj) : node <$> head os = head (node <$> os).
Proof. by destruct os. Qed.

Lemma objectsOf_nodes ns : node <$> objectsOf ns = ns.
Proof.
  apply list_eq. intros i. unfold objectsOf, mapi. rewrite list_lookup_fmap, list_lookup_imap.
  by destruct (ns !! i).
Qed.

Lemma activeOf_node os nodeName : node <$> activeOf os nodeName = getActiveNode (node <$> os) nodeName.
Proof.
  unfold activeOf, getActiveNode. rewrite <- head_node.
  assert (List.find (fun c => bool_decide (Some (name c) = nodeName)) (node <$> os) =
          node <$> List.find (fun o => bool_decide (Some (name (node o)) = nodeName)) os) as ->.
  { induction os as [|o os IH]; [done|]. cbn. by destruct (bool_decide _). }
  by destruct (List.find _ os).
Qed.

(** What the other events of the application leave alone. *)
Lemma app_event_nodes e w : nodeEvent e = false ->
  nodes (app (step CONFIG browser w e)) = nodes (app w) /\
  activeNode (app (step CONFIG browser w e)) = activeNode (app w).
Proof.
  intros He. destruct e as [|a u| | | | | |]; cbn [step]; try done.
  - by destruct a.
  - unfold getNodeDetailsEffect. by destruct (requestInProgress w).
  - by destruct (statusRequest w).
  - by destruct (statusRequest w).
  - by destruct (buildRequests w !! i).
  - by destruct (buildRequests w !! i).
  - by destruct (wasmStarting w).
Qed.

Lemma app_event_allowed e w : nodeEvent e = false -> allowed CONFIG w e.
Proof. by destruct e as [|[]| | | | | |]. Qed.

Lemma tellApp_rest now fresh s :
  store (tellApp now fresh s) = store s /\ objects (tellApp now fresh s) = objects s /\
  activeObject (tellApp now fresh s) = activeObject s /\
  knownNodes (toolbar (tellApp now fresh s)) = knownNodes (toolbar s) /\
  shownNode (toolbar (tellApp now fresh s)) = shownNode (toolbar s) /\
  offered (toolbar (tellApp now fresh s)) = offered (toolbar s) /\
  marked (toolbar (tellApp now fresh s)) = marked (toolbar s).
Proof. unfold tellApp, listenToMenuChange. destruct fresh; cbn; by case_bool_decide. Qed.

(** A change of the toolbar that only closes the overlay, or replaces its rows by
    nodes of the store. *)
Lemma toolbar_inv f s : knownNodes (f (toolbar s)) = knownNodes (toolbar s) ->
  shownNode (f (toolbar s)) = shownNode (toolbar s) -> offered (f (toolbar s)) ⊆ objects s ->
  (forall a, marked (f (toolbar s)) = Some a -> marked (toolbar s) = Some a \/ a = activeObject s) ->
  uiInv s -> uiInv (toToolbar f s).
Proof.
  intros Hk Hs Ho Hm [H1 H2 H3 H4 H5 H6 H7]. split; cbn; try congruence || done.
  intros a Ha. destruct (Hm a Ha) as [Ha'|Ha']; [by apply H7|by left].
Qed.

Lemma marked_detach u : marked (detachNodeOverlay u) = None.
Proof. unfold detachNodeOverlay, hasPicker. case_bool_decide as E; [done|]. unfold marked. destruct (nodeOverlay u); [|done]. by destruct E. Qed.

Lemma marked_nodes ns u a : marked (onNodes ns u) = Some a -> marked u = Some a.
Proof. destruct ns; [done|]. cbn. destruct (tooltip u); [|done]. by rewrite marked_detach. Qed.

Lemma offered_detach u : offered (detachNodeOverlay u) = [].
Proof. unfold detachNodeOverlay, hasPicker. case_bool_decide as E; [done|]. unfold offered. destruct (nodeOverlay u); [|done]. by destruct E. Qed.

Lemma offered_nodes ns u : offered (onNodes ns u) ⊆ offered u.
Proof.
  unfold onNodes. destruct ns as [|n ns]; [done|]. cbn. destruct (tooltip u); [|done].
  rewrite offered_detach. apply list_subseteq_nil.
Qed.

Lemma known_nodes ns u : ns <> [] -> knownNodes (onNodes ns u) = ns.
Proof. intros Hne. destruct ns; [done|]. cbn. destruct (tooltip u); [|done]. unfold detachNodeOverlay. by case_match. Qed.

Lemma shown_nodes ns u : shownNode (onNodes ns u) = shownNode u.
Proof. destruct ns; [done|]. cbn. destruct (tooltip u); [|done]. unfold detachNodeOverlay. by case_match. Qed.

Lemma tellNodes_inv s : objects s <> [] -> is_Some (activeObject s) ->
  node <$> objects s = nodes (app (store s)) -> node <$> activeObject s = activeNode (app (store s)) ->
  NoDup (name ∘ node <$> objects s) -> offered (toolbar s) ⊆ objects s -> markRight s ->
  uiInv (tellNodes s).
Proof.
  intros Hne [o Ho] Hn Ha Hd Hr Hm. unfold tellNodes. rewrite Ho. split; cbn; try done.
  - by rewrite known_nodes.
  - etrans; [|exact Hr]. apply (offered_nodes (objects s)).
  - intros a E. apply (Hm a). by apply (marked_nodes (objects s)).
Qed.

Context (st : Storage) (nodeName : option string).
Context (Hconfigs : configs CONFIG <> []).
Context (Hplain : forall c, c ∈ configs CONFIG -> default false (isCustom c) = false).

(** The invariant of the toolbar, over a session of the store. *)
Definition inSession (s : Switcher) : Prop := uiInv s /\ session CONFIG browser st nodeName (store s).

Lemma session_active s : session CONFIG browser st nodeName (store s) ->
  exists n, activeNode (app (store s)) = Some n /\ n ∈ nodes (app (store s)).
Proof. intros Hs. apply (inv_active _ _ (session_invariant CONFIG browser st nodeName _ Hconfigs Hs)). Qed.

Lemma listed_node s o : inSession s -> o ∈ objects s -> node o ∈ nodes (app (store s)).
Proof. intros [Hi _] Ho. rewrite <- (ui_nodes _ Hi). by apply list_elem_of_fmap_2. Qed.

Lemma names_store s : inSession s -> NoDup (name <$> nodes (app (store s))).
Proof. intros [Hi _]. rewrite <- (ui_nodes _ Hi), <- list_fmap_compose. apply (ui_names _ Hi). Qed.

(** A custom node does not have the name of a configured one. *)
Lemma custom_name s o : inSession s -> o ∈ objects s -> default false (isCustom (node o)) = true ->
  name (node o) ∉ (name <$> configs CONFIG).
Proof.
  intros Hs Ho Hc Hin. pose proof (listed_node s o Hs Ho) as Hl. pose proof (names_store s Hs) as Hd.
  destruct (session_invariant CONFIG browser st nodeName _ Hconfigs (proj2 Hs)) as [_ Hp _].
  rewrite Hp in Hl, Hd. rewrite fmap_app in Hd. apply NoDup_app in Hd as (_ & Hd & _).
  apply elem_of_app in Hl as [Hl|Hl].
  - by rewrite (Hplain _ Hl) in Hc.
  - apply (Hd _ Hin). by apply list_elem_of_fmap_2.
Qed.

Lemma change_inSession o u s : o ∈ objects s -> marked (toolbar s) = None -> inSession s -> inSession (dispatchChange o u s).
Proof.
  intros Ho Hc Hs. pose proof (listed_node s o Hs Ho) as Hl. destruct Hs as [[] Hs].
  split; [split; try done; intros a E; change (marked (toolbar s) = Some a) in E; by rewrite Hc in E|].
  by apply (reachable_step _ _ _ _ (Dispatch (changeActiveNode (node o)) u)).
Qed.

Lemma add_inSession n u s : name n ∉ (name ∘ node <$> objects s) -> marked (toolbar s) = None -> inSession s ->
  inSession (dispatchAdd n u s).
Proof.
  intros Hn Hno [Hi Hs]. split.
  - destruct (session_active s Hs) as (m & Hm & _). destruct Hi as [H1 H2 _ _ H5 H6 _].
    apply tellNodes_inv; cbn; [done| | | | | |].
    + rewrite <- H2 in Hm. destruct (activeObject s); [by eexists|done].
    + by rewrite <- H1.
    + done.
    + by constructor.
    + intros x Hx. right. by apply H6.
    + intros a E. change (marked (toolbar s) = Some a) in E. by rewrite Hno in E.
  - by apply (reachable_step _ _ _ _ (Dispatch (addNode n) u)).
Qed.

(** Deleting by name takes away no other row. *)
Lemma other_rows s o x : uiInv s -> o ∈ objects s -> x ∈ objects s -> x <> o ->
  otherName (node o) (node x) = true.
Proof.
  intros Hi Ho Hx Hne. unfold otherName. apply negb_true_iff, bool_decide_eq_false. intros E. apply Hne.
  apply list_elem_of_lookup in Ho as [i Hi'], Hx as [j Hj].
  pose proof (proj1 (NoDup_alt _) (ui_names _ Hi) j i (name (node x))) as Heq.
  rewrite !list_lookup_fmap, Hi', Hj in Heq. cbn in Heq. rewrite E in Heq.
  specialize (Heq eq_refl eq_refl). congruence.
Qed.

Lemma deletion_inSession o u s : default false (isCustom (node o)) = true -> o ∈ objects s -> inSession s ->
  (forall x, x ∈ offered (toolbar s) -> x <> o) -> inSession (dispatchDelete o u s).
Proof.
  intros Hc Ho Hs Hrows. pose proof (custom_name s o Hs Ho Hc) as Hn. destruct Hs as [Hi Hs].
  assert (session CONFIG browser st nodeName (store (dispatchDelete o u s))) as Hs'.
  { by apply (reachable_step _ _ _ _ (Dispatch (deleteNode (node o)) u)). }
  split; [|exact Hs']. destruct (session_active _ Hs') as (m & Hm & Hin).
  destruct (Hi) as [H1 H2 _ _ H5 H6 H7].
  assert (node <$> List.filter (otherName (node o) ∘ node) (objects s) =
          nodes (app (step CONFIG browser (store s) (Dispatch (deleteNode (node o)) u)))) as Hnodes.
  { rewrite fmap_filter_node, H1. done. }
  set (act := if bool_decide (name ∘ node <$> activeObject s = Some (name (node o)))
              then head (List.filter (otherName (node o) ∘ node) (objects s)) else activeObject s).
  assert (node <$> act = activeNode (app (step CONFIG browser (store s) (Dispatch (deleteNode (node o)) u)))) as Hact.
  { unfold act. cbn. rewrite <- H2, <- option_fmap_compose. case_bool_decide; [|done].
    rewrite head_node, fmap_filter_node, H1. done. }
  apply tellNodes_inv.
  - cbn. intros E. rewrite E in Hnodes. change (m ∈ nodes (app (step CONFIG browser (store s) (Dispatch (deleteNode (node o)) u)))) in Hin.
    rewrite <- Hnodes in Hin. by apply elem_of_nil in Hin.
  - change (is_Some act). change (activeNode (app (step CONFIG browser (store s) (Dispatch (deleteNode (node o)) u))) = Some m) in Hm.
    rewrite <- Hact in Hm. destruct act; [by eexists|done].
  - exact Hnodes.
  - exact Hact.
  - cbn. eapply sublist_NoDup; [exact H5|]. apply fmap_sublist, filter_sublist.
  - intros x Hx. cbn in Hx |- *. apply elem_of_list_filter. split; [by apply H6|].
    apply (other_rows s); auto.
  - intros a Ha. change (marked (toolbar s) = Some a) in Ha. cbn. fold act. destruct (H7 a Ha) as [->|Hgone].
    + unfold act. case_bool_decide as E; [|by left]. right. intros x Hx Hf. rewrite Hx in E.
      apply elem_of_list_filter in Hf as [_ Hf]. cbn in Hf. unfold otherName in Hf.
      rewrite bool_decide_true in Hf by (cbn in E; congruence). done.
    + right. intros x Hx Hf. apply elem_of_list_filter in Hf as [Hf _]. by eapply Hgone.
Qed.

Lemma filteredNodes_offered s p : nodeOverlay (toolbar s) = Some (PickerOpen p) -> offered (toolbar s) = filteredNodes p.
Proof. intros E. unfold offered. by rewrite E. Qed.

Lemma closing_inSession f s : (forall u, knownNodes (f u) = knownNodes u) -> (forall u, shownNode (f u) = shownNode u) ->
  offered (f (toolbar s)) = [] -> marked (f (toolbar s)) = None -> inSession s -> inSession (toToolbar f s).
Proof.
  intros Hk Hs Ho Hm [Hi Hw]. split; [|done]. apply toolbar_inv; auto; [rewrite Ho; apply list_subseteq_nil|].
  by rewrite Hm.
Qed.

Lemma detach_inSession s : inSession s -> inSession (toToolbar detachNodeOverlay s).
Proof.
  apply closing_inSession; [by intros u; unfold detachNodeOverlay; case_match..|apply offered_detach|apply marked_detach].
Qed.

(** Choosing a row and deleting one. *)
Lemma select_inSession i u s o p : nodeOverlay (toolbar s) = Some (PickerOpen p) -> filteredNodes p !! i = Some o ->
  inSession s -> inSession (selectNode o u s).
Proof.
  intros Hp Ho Hs. unfold selectNode, withPicker. rewrite Hp.
  assert (inSession (toToolbar (onPickerClose false) s)) as Hc by (by apply detach_inSession).
  case_bool_decide; [exact Hc|]. apply change_inSession; [|by apply marked_detach|exact Hc]. apply (ui_rows s (proj1 Hs)).
  rewrite (filteredNodes_offered s p Hp). by eapply list_elem_of_lookup_2.
Qed.

Lemma delete_inSession i u s o p : nodeOverlay (toolbar s) = Some (PickerOpen p) -> filteredNodes p !! i = Some o ->
  default false (isCustom (node o)) = true -> inSession s -> inSession (deleteCustomNode o u s).
Proof.
  intros Hp Ho Hc Hs. unfold deleteCustomNode, withPicker. rewrite Hp.
  assert (offered (toolbar s) ⊆ objects s) as Hrows by apply (ui_rows s (proj1 Hs)).
  rewrite (filteredNodes_offered s p Hp) in Hrows. apply deletion_inSession.
  - done.
  - cbn. apply Hrows. by eapply list_elem_of_lookup_2.
  - destruct Hs as [Hi Hw]. split; [|done]. apply toolbar_inv; [done..| | |done].
    + cbn. intros x Hx. apply elem_of_list_filter in Hx as [Hx _]. by apply Hrows.
    + unfold marked. rewrite Hp. cbn. intros a Ha. by left.
  - cbn. intros x Hx. apply elem_of_list_filter in Hx as [_ Hx]. by apply negb_true_iff, bool_decide_eq_false in Hx.
Qed.

Lemma search_rows text p : filteredNodes (listenToNodeSearch text p) ⊆ pickerNodes p.
Proof.
  unfold listenToNodeSearch. case_match; [done|]. intros x Hx. cbn in Hx. by apply elem_of_list_filter in Hx as [Hx _].
Qed.

Lemma careful_step s e : careful s e -> inSession s -> inSession (uiStep s e).
Proof.
  intros Hok Hs. destruct e as [e now|pathname| | | | | |text|i u|i u| |form fname furl fm fd u|]; cbn [uiStep].
  - destruct (nodeEvent e) eqn:He; [done|]. destruct Hs as [[] Hw].
    destruct (app_event_nodes e (store s) He) as [E1 E2]. unfold inSession.
    destruct (tellApp_rest now (newDetails (store s) e) (appStep e s)) as (T1 & T2 & T3 & T4 & T5 & T6 & T7).
    split; [split|]; rewrite ?T1, ?T2, ?T3, ?T4, ?T5, ?T6; unfold markRight; rewrite ?T2, ?T3, ?T7; cbn [appStep store objects activeObject toolbar]; cbn; rewrite ?E1, ?E2; try done.
    apply reachable_step; [done|]. by apply app_event_allowed.
  - destruct Hs as [Hi Hw]. split; [|done]. apply toolbar_inv; [done..| |by left|done]. apply (ui_rows _ Hi).
  - destruct Hs as [Hi Hw]. split; [|done]. unfold openTooltipDropdown.
    apply toolbar_inv; [by case_bool_decide..| |by case_bool_decide; left|done]. pose proof (ui_rows _ Hi). by case_bool_decide.
  - destruct Hs as [Hi Hw]. split; [|done]. unfold detachTooltipOverlay.
    apply toolbar_inv; [by case_match..| |by case_match; left|done]. pose proof (ui_rows _ Hi). by case_match.
  - destruct Hs as [Hi Hw]. split; [|done]. unfold openNodePicker.
    apply toolbar_inv; [by case_match..| | |done]; (case_match; cbn; [|]).
    + apply list_subseteq_nil.
    + by rewrite (ui_known _ Hi).
    + done.
    + intros a Ha. right. injection Ha as <-. apply (ui_shown _ Hi).
  - unfold withPicker. case_match; [|done]. case_match; [|done]. by apply detach_inSession.
  - unfold withPicker. case_match; [|done]. case_match; [|done]. by apply detach_inSession.
  - unfold withPicker. destruct (nodeOverlay (toolbar s)) as [[p|]|] eqn:Hp; [|done..].
    destruct Hs as [Hi Hw]. split; [|done]. apply toolbar_inv; [done..| | |done].
    + cbn. rewrite <- (Hok p Hp). apply search_rows.
    + unfold marked. rewrite Hp. cbn. intros a Ha. left. unfold listenToNodeSearch in Ha. by case_match.
  - unfold withPicker. destruct (nodeOverlay (toolbar s)) as [[p|]|] eqn:Hp; [|done..].
    destruct (filteredNodes p !! i) eqn:Ho; [|done]. by eapply select_inSession.
  - unfold withPicker. destruct (nodeOverlay (toolbar s)) as [[p|]|] eqn:Hp; [|done..].
    destruct (filteredNodes p !! i) as [o|] eqn:Ho; [|done]. destruct (default false (isCustom (node o))) eqn:Hc; [|done].
    by eapply delete_inSession.
  - unfold withPicker. case_match; [|done]. case_match; [|done].
    apply closing_inSession; [| | | |done].
    1,2: by intros v; unfold onPickerClose, detachNodeOverlay, openAddNewNodeOverlay; repeat case_match.
    all: by unfold onPickerClose, openAddNewNodeOverlay; case_match.
  - destruct (nodeOverlay (toolbar s)) as [[p|]|] eqn:Hp; [done| |done].
    destruct (AppConfig.addNode form fname furl fm fd) as [n|] eqn:Hn; [|done].
    apply detach_inSession. apply add_inSession; [|by unfold marked; rewrite Hp|done]. unfold AppConfig.addNode in Hn.
    destruct (_ || _); [done|]. injection Hn as <-. exact Hok.
  - case_match; [|done]. case_match; [done|]. by apply detach_inSession.
Qed.

Lemma start_inSession now : NoDup (name <$> getNodes CONFIG (Some st)) -> inSession (startUi now st nodeName).
Proof.
  intros Hd. pose proof (reachable_init (step CONFIG browser) (started CONFIG browser st nodeName) (allowed CONFIG)) as Hw.
  destruct (session_active (mkSwitcher (started CONFIG browser st nodeName) [] None 0 emptyToolbar) Hw) as (m & Hm & Hin).
  destruct (started_world CONFIG browser st nodeName) as (E1 & E2 & _). unfold startUi. cbn zeta. set (w := started CONFIG browser st nodeName) in *. set (s := mkSwitcher w _ _ _ _).
  assert (uiInv (tellNodes s)) as [].
  { change (activeNode (app w) = Some m) in Hm. change (m ∈ nodes (app w)) in Hin. unfold s. apply tellNodes_inv; cbn [objects activeObject toolbar store].
    - intros E. rewrite <- (objectsOf_nodes (nodes (app w))), E in Hin. by apply elem_of_nil in Hin.
    - rewrite E2 in Hm. rewrite <- E1, <- (objectsOf_nodes (nodes (app w))), <- activeOf_node in Hm.
      by destruct (activeOf _ nodeName).
    - apply objectsOf_nodes.
    - by rewrite activeOf_node, objectsOf_nodes, E1.
    - rewrite list_fmap_compose, objectsOf_nodes, E1. done.
    - apply list_subseteq_nil.
    - done. }
  destruct (tellApp_rest now true (tellNodes s)) as (T1 & T2 & T3 & T4 & T5 & T6 & T7). unfold inSession.
  split; [split|]; rewrite ?T1, ?T2, ?T3, ?T4, ?T5, ?T6; unfold markRight; rewrite ?T2, ?T3, ?T7; done.
Qed.

Lemma runs_inSession now s : NoDup (name <$> getNodes CONFIG (Some st)) ->
  reachable_by uiStep (startUi now st nodeName) careful s -> inSession s.
Proof.
  intros Hd. revert s. apply reachable_by_inv; [by apply start_inSession|]. intros s e Hs Hok. by apply careful_step.
Qed.

(** Clicking a row selects its node, also when the list marks it already. *)
Lemma click_selects s p i o u : inSession s -> nodeOverlay (toolbar s) = Some (PickerOpen p) ->
  filteredNodes p !! i = Some o ->
  activeObject (uiStep s (ClickNode i u)) = Some o /\ nodeOverlay (toolbar (uiStep s (ClickNode i u))) = None.
Proof.
  intros [Hi _] Hp Ho. cbn [uiStep]. unfold withPicker. rewrite Hp, Ho. unfold selectNode, withPicker. rewrite Hp.
  assert (nodeOverlay (onPickerClose false (toolbar s)) = None) as Hc.
  { unfold onPickerClose, detachNodeOverlay, hasPicker. rewrite Hp. done. }
  case_bool_decide as E; [|done]. split; [|exact Hc]. change (activeObject s = Some o).
  destruct (ui_mark _ Hi (pickerActive p)) as [<-|Hgone]; [by unfold marked; rewrite Hp|done|].
  destruct (Hgone o); [done|]. apply (ui_rows _ Hi). rewrite (filteredNodes_offered s p Hp).
  by eapply list_elem_of_lookup_2.
Qed.

(** C20: the toolbar drives the store through its sessions: while searches are
    made in an up-to-date list and new nodes get new names, every event of the
    toolbar is one the store expects, the toolbar shows the nodes and the active
    node of the store, and every row of the open list is one of its nodes, which
    a click makes the active one and closes the list. *)
Theorem toolbar_refines_sessions now s :
  NoDup (name <$> getNodes CONFIG (Some st)) -> reachable_by uiStep (startUi now st nodeName) careful s ->
  session CONFIG browser st nodeName (store s) /\
  node <$> knownNodes (toolbar s) = nodes (app (store s)) /\
  node <$> shownNode (toolbar s) = activeNode (app (store s)) /\
  forall p i o u, nodeOverlay (toolbar s) = Some (PickerOpen p) -> filteredNodes p !! i = Some o ->
    node o ∈ nodes (app (store s)) /\
    activeNode (app (store (uiStep s (ClickNode i u)))) = Some (node o) /\
    nodeOverlay (toolbar (uiStep s (ClickNode i u))) = None.
Proof.
  intros Hd Hs. pose proof (runs_inSession now s Hd Hs) as Hin. destruct (Hin) as [Hi Hw].
  split; [done|]. split; [by rewrite (ui_known _ Hi), (ui_nodes _ Hi)|].
  split; [by rewrite (ui_shown _ Hi), (ui_active _ Hi)|]. intros p i o u Hp Ho.
  destruct (click_selects s p i o u Hin Hp Ho) as [Ha Hc].
  destruct (careful_step s (ClickNode i u) I Hin) as [Hi' _]. split; [|split; [|done]].
  - apply listed_node; [done|]. apply (ui_rows _ Hi). rewrite (filteredNodes_offered s p Hp).
    by eapply list_elem_of_lookup_2.
  - by rewrite <- (ui_active _ Hi'), Ha.
Qed.

End Steps.

(** C33: the open list keeps the nodes it was opened with: a deleted node is back
    in it after the next key in the search field, and choosing it there makes a
    node active, and asked for its status, that the store does not list any
    more. *)
Theorem picker_revives_deleted_node `{DateFormat} CONFIG browser s p o i j text u :
  nodeOverlay (toolbar s) = Some (PickerOpen p) -> tooltip (toolbar s) = false ->
  filteredNodes p !! i = Some o -> pickerNodes p !! j = Some o ->
  default false (isCustom (node o)) = true -> pickerActive p <> Some o -> String.length text <= 1 ->
  let s' := run (uiStep CONFIG browser) s [ClickDelete i u; KeyUp text; ClickNode j u] in
  activeNode (app (store s')) = Some (node o) /\ rustNode (store s') = Some (node o) /\
  (node o ∉ nodes (app (store s'))) /\ shownNode (toolbar s') = Some o.
Proof.
  intros Hp Ht Hi Hj Hc Ha Hl. cbn [run fold_left].
  set (left := List.filter (fun n => negb (bool_decide (n = o))) (filteredNodes p)).
  assert (exists s1, uiStep CONFIG browser s (ClickDelete i u) = s1 /\
    nodeOverlay (toolbar s1) = Some (PickerOpen (p <| filteredNodes := left |>)) /\
    nodes (app (store s1)) = List.filter (otherName (node o)) (nodes (app (store s)))) as (s1 & -> & Hp1 & Hn1).
  { eexists. split; [reflexivity|]. cbn [uiStep]. unfold withPicker. rewrite Hp, Hi, Hc.
    unfold deleteCustomNode, withPicker. rewrite Hp. split; [|done]. fold left. unfold dispatchDelete, tellNodes. cbn.
    unfold onNodes, onActiveNode. repeat case_match; cbn in *; congruence. }
  assert (exists s2, uiStep CONFIG browser s1 (KeyUp text) = s2 /\ store s2 = store s1 /\ exists p2,
    nodeOverlay (toolbar s2) = Some (PickerOpen p2) /\ filteredNodes p2 !! j = Some o /\ pickerActive p2 = pickerActive p)
    as (s2 & -> & Hst & p2 & Hp2 & Hj2 & Ha2).
  { eexists. split; [reflexivity|]. cbn [uiStep]. unfold withPicker. rewrite Hp1. split; [done|].
    eexists. split; [reflexivity|]. unfold listenToNodeSearch. rewrite (proj2 (Nat.leb_le _ _) Hl). done. }
  cbn [uiStep]. unfold withPicker. rewrite Hp2, Hj2. unfold selectNode, withPicker. rewrite Hp2, Ha2.
  rewrite bool_decide_false by congruence. cbn. repeat split; try done. rewrite Hst, Hn1.
  intros Hin. apply elem_of_list_filter in Hin as [_ Hin]. unfold otherName in Hin. by rewrite bool_decide_true in Hin.
Qed.

(** * Examples *)

#[local] Instance plainFormat : DateFormat := fun _ _ => "".

Definition demoConfigs : MinaEnv :=
  mkMinaEnv [mkMinaNode "main" (Some "http://main") None None None None None] (Some (FeatureObject [("dashboard", [])])).
Definition demoCustom (n : string) : MinaNode := mkMinaNode n (Some ("http://" +:+ n)) None None None (Some true) None.
Definition demoCells : Storage := mkStorage None (Some [demoCustom "own"; demoCustom "spare"]).
Definition demoStart : Switcher := startUi demoConfigs true 1700000000000 demoCells None.
Definition demoOpen : Switcher :=
  run (uiStep demoConfigs true) demoStart [MouseEnterChip; MouseLeaveChip; ClickSwitcher; KeyUp "OWN"].

Definition demoRows : list NodeObj := objectsOf (configs demoConfigs ++ [demoCustom "own"; demoCustom "spare"]).
Definition demoPicker : NodePicker := mkPicker demoRows demoRows (head demoRows) "".

Lemma demo_open : reachable_by (uiStep demoConfigs true) demoStart careful demoOpen.
Proof.
  unfold demoOpen. cbn [run fold_left]. repeat (apply reachable_step; [|cbn; trivial]); [apply reachable_init|].
  intros p Hp. vm_compute in Hp. injection Hp as <-. reflexivity.
Qed.

Lemma toolbar_refines_sessions_witness :
  session demoConfigs true demoCells None (store demoOpen) /\
  activeNode (app (store (uiStep demoConfigs true demoOpen (ClickNode 0 "/dashboard")))) = Some (demoCustom "own").
Proof.
  assert (configs demoConfigs <> []) as H1 by discriminate.
  assert (forall c, c ∈ configs demoConfigs -> default false (isCustom c) = false) as H2.
  { intros c Hc. apply list_elem_of_singleton in Hc as ->. reflexivity. }
  assert (NoDup (name <$> getNodes demoConfigs (Some demoCells))) as H3.
  { apply (bool_decide_unpack _). vm_compute. exact I. }
  destruct (toolbar_refines_sessions demoConfigs true demoCells None H1 H2 1700000000000 demoOpen H3 demo_open)
    as (Hw & _ & _ & Hrow).
  split; [exact Hw|]. refine (proj1 (proj2 (Hrow (demoPicker <| filteredNodes := [mkObj 1 (demoCustom "own")] |> <| searchText := "OWN" |>)
                   0 (mkObj 1 (demoCustom "own")) "/dashboard" _ _))); vm_compute; reflexivity.
Defined.

Lemma picker_revives_deleted_node_witness :
  let s := uiStep demoConfigs true demoStart ClickSwitcher in
  let s' := run (uiStep demoConfigs true) s [ClickDelete 1 "/dashboard"; KeyUp ""; ClickNode 1 "/dashboard"] in
  activeNode (app (store s')) = Some (demoCustom "own") /\
  nodes (app (store s')) = [mkMinaNode "main" (Some "http://main") None None None None None; demoCustom "spare"].
Proof.
  split; [|vm_compute; reflexivity].
  refine (proj1 (picker_revives_deleted_node demoConfigs true (uiStep demoConfigs true demoStart ClickSwitcher) demoPicker
                   (mkObj 1 (demoCustom "own")) 1 1 "" "/dashboard" _ _ _ _ _ _ _));
    [vm_compute; reflexivity..|discriminate|cbn; lia].
Defined.

End NodeSwitcher.
