(* ===== verification/NodesOverview.v ===== *)
(** Nodes overview (frontend/src/app/features/nodes/overview): the synchronisation
    of every configured node.  The service is shared with the live and bootstrap
    pages and the dashboard. *)

From S2P Require Import Prelude JsRuntime TableSort AppConfig AppStore.

Module NodesOverview.

(** * Data *)

(** Blocks as the node reports them; times in nanoseconds, absent or zero until
    they happen. *)
Record SyncBlock := mkSyncBlock {
  global_slot : Z;
  raw_height : Z;
  raw_hash : string;
  pred_hash : string;
  raw_status : string;
  fetch_start : option Z;
  fetch_end : option Z;
  apply_start : option Z;
  apply_end : option Z
}.

Record NodesOverviewBlock := mkBlock {
  blockGlobalSlot : Z;
  blockHeight : Z;
  hash : string;
  predHash : string;
  status : string;
  fetchStart : option Z;
  fetchEnd : option Z;
  applyStart : option Z;
  applyEnd : option Z;
  fetchDuration : option Z;
  applyDuration : option Z;
  isBestTip : option bool
}.

#[export, refine] Instance Block_copy : RecordCopy NodesOverviewBlock := {
  record_copy r := mkBlock (blockGlobalSlot r) (blockHeight r) (hash r) (predHash r) (status r) (fetchStart r)
    (fetchEnd r) (applyStart r) (applyEnd r) (fetchDuration r) (applyDuration r) (isBestTip r) }.
Proof. by intros []. Defined.

(** [NodesOverviewNodeBlockStatus] and [NodesOverviewNodeKindType] *)
Definition APPLIED : string := "Applied".
Definition APPLYING : string := "Applying".
Definition FETCHED : string := "Fetched".
Definition FETCHING : string := "Fetching".
Definition MISSING : string := "Missing".
Definition blockStatuses : list string := [APPLIED; APPLYING; FETCHED; FETCHING; MISSING].
Definition SYNCED : string := "Synced".
Definition PENDING_KIND : string := "Pending".
Definition OFFLINE : string := "Offline".

Inductive StepState := PENDING | LOADING | SUCCESS.

#[export] Instance StepState_eq_dec : EqDecision StepState.
Proof. solve_decision. Defined.

Record SnarkedStep := mkSnarked {
  fetchHashesStart : option Z;
  fetchHashesEnd : option Z;
  fetchAccountsStart : option Z;
  fetchAccountsEnd : option Z;
  fetchHashesDuration : option Z;
  fetchAccountsDuration : option Z;
  fetchHashesPassedTime : option Z;
  fetchAccountsPassedTime : option Z
}.

Record EpochStep := mkEpochStep { epochState : StepState; snarked : SnarkedStep; epochTotalTime : option Z }.

Record StagedStep := mkStaged {
  fetchPartsStart : option Z;
  fetchPartsEnd : option Z;
  reconstructStart : option Z;
  reconstructEnd : option Z;
  fetchPartsDuration : option Z;
  reconstructDuration : option Z;
  fetchPassedTime : option Z;
  reconstructPassedTime : option Z
}.

Record RootStagedStep := mkRootStaged { stagedState : StepState; staged : StagedStep; stagedTotalTime : option Z }.

Record NodesOverviewLedger := mkLedger {
  stakingEpoch : EpochStep;
  nextEpoch : EpochStep;
  rootSnarked : EpochStep;
  rootStaged : RootStagedStep
}.

#[export, refine] Instance EpochStep_copy : RecordCopy EpochStep := {
  record_copy r := mkEpochStep (epochState r) (snarked r) (epochTotalTime r) }.
Proof. by intros []. Defined.
#[export, refine] Instance RootStagedStep_copy : RecordCopy RootStagedStep := {
  record_copy r := mkRootStaged (stagedState r) (staged r) (stagedTotalTime r) }.
Proof. by intros []. Defined.

Record NodesOverviewNode := mkNode {
  name : string;
  kind : string;
  snarks : option Z;
  transactions : option Z;
  bestTipReceived : option string;
  bestTipReceivedTimestamp : option Q;
  bestTip : option string;
  height : option Z;
  globalSlot : option Z;
  appliedBlocks : option nat;
  applyingBlocks : option nat;
  missingBlocks : option nat;
  fetchedBlocks : option nat;
  fetchingBlocks : option nat;
  ledgers : option NodesOverviewLedger;
  blocks : list NodesOverviewBlock
}.

Inductive NodeField :=
| fKind | fName | fSnarks | fTransactions | fHeight | fBestTip | fBestTipReceivedTimestamp
| fAppliedBlocks | fFetchingBlocks | fFetchedBlocks | fMissingBlocks.

#[export] Instance NodeField_eq_dec : EqDecision NodeField.
Proof. solve_decision. Defined.

Definition vNat (n : nat) : JsVal := vZ (Z.of_nat n).

#[export] Instance Node_row : Row NodesOverviewNode NodeField := fun f n =>
  match f with
  | fKind => VStr (kind n)
  | fName => VStr (name n)
  | fSnarks => ofOption vZ (snarks n)
  | fTransactions => ofOption vZ (transactions n)
  | fHeight => ofOption vZ (height n)
  | fBestTip => ofOption VStr (bestTip n)
  | fBestTipReceivedTimestamp => ofOption VNum (bestTipReceivedTimestamp n)
  | fAppliedBlocks => ofOption vNat (appliedBlocks n)
  | fFetchingBlocks => ofOption vNat (fetchingBlocks n)
  | fFetchedBlocks => ofOption vNat (fetchedBlocks n)
  | fMissingBlocks => ofOption vNat (missingBlocks n)
  end.

(** * Service *)

(** [Math.ceil(a / b)] for a positive [b]. *)
Definition ceilDiv (a b : Z) : Z := (- ((- a) / b))%Z.

Definition getDuration (start end_ : option Z) : option Z :=
  match start, end_ with
  | Some s, Some e => if (s =? 0)%Z || (e =? 0)%Z then None else Some (ceilDiv (e - s) ONE_BILLION)
  | _, _ => None
  end.

(** [Math.ceil(Date.now() / ONE_THOUSAND - start / ONE_BILLION)] *)
Definition getPassed (now : Z) (start : option Z) : option Z :=
  if truthyNum start then Some (ceilDiv (now * ONE_MILLION - default 0%Z start) ONE_BILLION) else None.

Record RawSnarked := mkRawSnarked {
  fetch_hashes_start : option Z; fetch_hashes_end : option Z;
  fetch_accounts_start : option Z; fetch_accounts_end : option Z
}.
Record RawStaged := mkRawStaged {
  fetch_parts_start : option Z; fetch_parts_end : option Z;
  reconstruct_start : option Z; reconstruct_end : option Z
}.
Record RawLedgers := mkRawLedgers {
  staking_epoch : option RawSnarked;
  next_epoch : option RawSnarked;
  root : option (RawSnarked * RawStaged)
}.

Definition noneOfStepsCompleted (step : RawSnarked) : bool :=
  negb (truthyNum (fetch_hashes_start step)) && negb (truthyNum (fetch_accounts_start step)).

Definition getSnarkedLedgerStep (now : Z) (step : option RawSnarked) : EpochStep :=
  match step with
  | None => mkEpochStep PENDING (mkSnarked None None None None None None None None) None
  | Some s =>
      mkEpochStep (if noneOfStepsCompleted s then PENDING else LOADING)
        (mkSnarked (fetch_hashes_start s) (fetch_hashes_end s) (fetch_accounts_start s) (fetch_accounts_end s)
           (getDuration (fetch_hashes_start s) (fetch_hashes_end s))
           (getDuration (fetch_accounts_start s) (fetch_accounts_end s))
           (getPassed now (fetch_hashes_start s)) (getPassed now (fetch_accounts_start s))) None
  end.

(** [null + null] is 0. *)
Definition sumNull (a b : option Z) : Z := (default 0 a + default 0 b)%Z.

Definition finishEpoch (step : EpochStep) : EpochStep :=
  step <| epochState := SUCCESS |>
       <| epochTotalTime := Some (sumNull (fetchHashesDuration (snarked step)) (fetchAccountsDuration (snarked step))) |>.

(** The two steps of the root ledger. *)
Definition getRoot (now : Z) (r : option (RawSnarked * RawStaged)) : EpochStep * RootStagedStep :=
  let epochLedger := getSnarkedLedgerStep now (option_map fst r) in
  match r with
  | None => (epochLedger, mkRootStaged PENDING (mkStaged None None None None None None None None) None)
  | Some (_, s) =>
      let state := if negb (truthyNum (fetch_parts_start s)) && negb (truthyNum (reconstruct_start s))
                   then PENDING else LOADING in
      let st := mkStaged (fetch_parts_start s) (fetch_parts_end s) (reconstruct_start s) (reconstruct_end s)
                  (getDuration (fetch_parts_start s) (fetch_parts_end s))
                  (getDuration (reconstruct_start s) (reconstruct_end s))
                  (getPassed now (fetch_parts_start s)) (getPassed now (reconstruct_start s)) in
      (if bool_decide (state = PENDING) then epochLedger else finishEpoch epochLedger,
       if truthyNum (reconstructEnd st)
       then mkRootStaged SUCCESS st (Some (sumNull (fetchPartsDuration st) (reconstructDuration st)))
       else mkRootStaged state st None)
  end.

Definition getLedgers (now : Z) (l : RawLedgers) : NodesOverviewLedger :=
  let '(rs, rg) := getRoot now (root l) in
  let ne := getSnarkedLedgerStep now (next_epoch l) in
  let ne := if bool_decide (epochState rs = PENDING) then ne else finishEpoch ne in
  let se := getSnarkedLedgerStep now (staking_epoch l) in
  let se := if bool_decide (epochState ne = PENDING) then se else finishEpoch se in
  mkLedger se ne rs rg.

Record SyncTip := mkSyncTip {
  tipBlocks : list SyncBlock;
  tipKind : string;
  synced : option Z;
  best_tip_received : Z;
  tipLedgers : RawLedgers
}.

Definition mapBlock (b : SyncBlock) : NodesOverviewBlock :=
  mkBlock (global_slot b) (raw_height b) (raw_hash b) (pred_hash b) (raw_status b)
    (fetch_start b) (fetch_end b) (apply_start b) (apply_end b)
    (getDuration (fetch_start b) (fetch_end b)) (getDuration (apply_start b) (apply_end b)) None.

(** [blocks[0].isBestTip = true] *)
Definition markBestTip (bs : list NodesOverviewBlock) : list NodesOverviewBlock :=
  match bs with
  | [] => []
  | b :: bs => b <| isBestTip := Some true |> :: bs
  end.

Definition countStatus (s : string) (bs : list SyncBlock) : nat :=
  countIf (fun b => bool_decide (raw_status b = s)) bs.

Section Service.
Context `{DateFormat} (now : Z).

Definition mapTip (nodeName : string) (details : option AppStore.NodeDetailsResponse) (node : SyncTip)
  : NodesOverviewNode :=
  let received := (inject_Z (best_tip_received node) / inject_Z ONE_MILLION)%Q in
  let first := head (tipBlocks node) in
  mkNode nodeName
    match details with
    | Some d => AppStore.syncPhase d
    | None => if bool_decide (is_Some (synced node)) then SYNCED else tipKind node
    end
    (option_map AppStore.poolSnarks details) (option_map AppStore.poolTransactions details)
    (Some (toReadableDate received None)) (Some received)
    (option_map raw_hash first) (option_map raw_height first) (option_map global_slot first)
    (Some (countStatus APPLIED (tipBlocks node))) (Some (countStatus APPLYING (tipBlocks node)))
    (Some (countStatus MISSING (tipBlocks node))) (Some (countStatus FETCHED (tipBlocks node)))
    (Some (countStatus FETCHING (tipBlocks node)))
    (Some (getLedgers now (tipLedgers node)))
    (markBestTip (mapBlock <$> tipBlocks node)).

Definition mapNodeTipsResponse (syncTips : list SyncTip) (details : option AppStore.NodeDetailsResponse)
    (nodeName : string) : exec (list NodesOverviewNode) :=
  if length syncTips =? 0 then Throw (ErrorMsg "Empty response")
  else Ret (mapTip nodeName details <$> syncTips).

Definition mapNodeTipsErrorResponse (nodeName : string) : list NodesOverviewNode :=
  [ mkNode nodeName OFFLINE (Some 0%Z) (Some 0%Z) (Some "-") (Some 0%Q) (Some "-") None (Some 0%Z)
      (Some 0) (Some 0) (Some 0) (Some 0) (Some 0) (Some (getLedgers now (mkRawLedgers None None None))) [] ].

(** [answer]: the two requests, or the failure of one of them. *)
Definition getNodeTips (nodeName : string) (answer : exec (list SyncTip * AppStore.NodeDetailsResponse))
  : list NodesOverviewNode :=
  match ('(tips, details) ← answer; mapNodeTipsResponse tips (Some details) nodeName) with
  | Ret nodes => nodes
  | Throw _ => mapNodeTipsErrorResponse nodeName
  end.

End Service.

(** * Reducer *)

Record NodesOverviewState := mkState {
  nodes : list NodesOverviewNode;
  activeNode : option NodesOverviewNode;
  tableSort : TableSort NodeField
}.

#[export, refine] Instance State_copy : RecordCopy NodesOverviewState := {
  record_copy s := mkState (nodes s) (activeNode s) (tableSort s) }.
Proof. by intros []. Defined.

Inductive NodesOverviewActions :=
| NodesOverviewInit
| NodesOverviewGetNodes
| NodesOverviewGetNodesSuccess (payload : list NodesOverviewNode)
| NodesOverviewGetNodeStatus (payload : AppConfig.MinaNode)
| NodesOverviewGetNodeStatusSuccess (payload : option NodesOverviewNode)
| NodesOverviewSortNodes (payload : TableSort NodeField)
| NodesOverviewSetActiveNode (payload : option NodesOverviewNode)
| NodesOverviewClose.

Section Reducer.
Context {LC : LocaleCompare} (CONFIG : AppConfig.MinaEnv).

Definition pendingNode (n : AppConfig.MinaNode) : NodesOverviewNode :=
  mkNode (AppConfig.name n) PENDING_KIND None None None None None None None None None None None None None [].

Definition initialState : NodesOverviewState :=
  mkState (pendingNode <$> AppConfig.configs CONFIG) None (mkTableSort fKind DSC).

Definition sortNodes (ns : list NodesOverviewNode) (ts : TableSort NodeField) : list NodesOverviewNode :=
  sort ns ts [fKind; fName; fBestTip] false.

Definition sameName (a b : NodesOverviewNode) : bool := bool_decide (name a = name b).

(** The received node takes the place of the row with its name, or a new one. *)
Definition putNode (n : NodesOverviewNode) (ns : list NodesOverviewNode) : list NodesOverviewNode :=
  match findIndex (fun m => sameName m n) ns with
  | Some i => <[i := n]> ns
  | None => ns ++ [n]
  end.

Definition reducer (state : NodesOverviewState) (action : NodesOverviewActions) : NodesOverviewState :=
  match action with
  | NodesOverviewGetNodeStatusSuccess currentNode =>
      let ns := match currentNode with Some n => putNode n (nodes state) | None => nodes state end in
      state <| nodes := sortNodes ns (tableSort state) |>
            <| activeNode := activeNode state ≫= (fun a => List.find (fun m => sameName m a) ns) |>
  | NodesOverviewSortNodes ts => state <| tableSort := ts |> <| nodes := sortNodes (nodes state) ts |>
  | NodesOverviewSetActiveNode n => state <| activeNode := n |>
  | NodesOverviewClose => initialState
  | _ => state
  end.

(** * Effects: [getNodes$] asks for the status of every node of the application.

    The flag is cleared by the actions the effect emits, none when there are no
    nodes. *)
Definition getNodesEffect (pendingRequest : bool) (appNodes : list AppConfig.MinaNode)
  : bool * list NodesOverviewActions :=
  if pendingRequest then (true, [])
  else (bool_decide (appNodes = []), NodesOverviewGetNodeStatus <$> appNodes).

(** The status requests of one poll with their answers, dispatched in the order
    of arrival. *)
Definition statusSuccess `{DateFormat} (now : Z)
    (a : AppConfig.MinaNode * exec (list SyncTip * AppStore.NodeDetailsResponse)) : NodesOverviewActions :=
  NodesOverviewGetNodeStatusSuccess (head (getNodeTips now (AppConfig.name a.1) a.2)).

(** * Rows *)

Lemma sameName_true a b : sameName a b = true <-> name a = name b.
Proof. unfold sameName. apply bool_decide_eq_true. Qed.

Lemma putNode_spec n ns : NoDup (name <$> ns) ->
  NoDup (name <$> putNode n ns) /\
  forall m, m ∈ putNode n ns <-> m = n \/ (m ∈ ns /\ name m <> name n).
Proof.
  intros Hnd. unfold putNode. destruct (findIndex _ ns) as [i|] eqn:Hf.
  - apply findIndex_Some in Hf as [(x & Hx & Hp) _]. apply sameName_true in Hp.
    assert ((name <$> <[i:=n]> ns) = (name <$> ns)) as Hnames.
    { rewrite list_fmap_insert. apply list_insert_id. rewrite list_lookup_fmap, Hx. cbn. by rewrite Hp. }
    split; [by rewrite Hnames|]. intros m. rewrite !list_elem_of_lookup. split.
    + intros [j Hj]. destruct (decide (i = j)) as [->|Hij].
      * rewrite list_lookup_insert_eq in Hj by (by eapply lookup_lt_Some). left. congruence.
      * rewrite list_lookup_insert_ne in Hj by done. right. split; [eauto|]. intros E. apply Hij.
        eapply (NoDup_lookup _ i j (name n) Hnd); rewrite list_lookup_fmap; [by rewrite Hx; cbn; rewrite Hp|].
        rewrite Hj. cbn. by rewrite E.
    + intros [->|[[j Hj] Hm]].
      * exists i. apply list_lookup_insert_eq. by eapply lookup_lt_Some.
      * exists j. rewrite list_lookup_insert_ne; [done|]. intros ->. congruence.
  - rewrite findIndex_None in Hf.
    assert (name n ∉ (name <$> ns)) as Hn.
    { intros (x & E & Hx)%list_elem_of_fmap. specialize (Hf x Hx). unfold sameName in Hf.
      rewrite bool_decide_eq_false in Hf. by rewrite E in Hf. }
    rewrite fmap_app. split.
    + apply NoDup_app. split; [done|]. split; [|apply NoDup_singleton].
      intros x Hx Hx1. apply list_elem_of_singleton in Hx1 as ->. done.
    + intros m. rewrite elem_of_app, list_elem_of_singleton. split; [|naive_solver].
      intros [Hm| ->]; [|by left]. right. split; [done|]. intros E. apply Hn. rewrite <- E.
      by apply list_elem_of_fmap_2.
Qed.

Lemma sortNodes_perm ns ts : Permutation (sortNodes ns ts) ns.
Proof. symmetry. apply sort_perm. Qed.

Lemma reducer_names s a : NoDup (name <$> nodes s) -> NoDup (AppConfig.name <$> AppConfig.configs CONFIG) ->
  NoDup (name <$> nodes (reducer s a)).
Proof.
  intros Hs Hc. destruct a as [| | | |[n|]|ts| |]; cbn; try done; rewrite ?sortNodes_perm; try done.
  - by apply putNode_spec.
  - by rewrite <- list_fmap_compose.
Qed.

(** With different names of the configured nodes the overview has at most one
    row per name in every reachable state, and a row for every configured node. *)
Theorem overview_one_row_per_node s :
  NoDup (AppConfig.name <$> AppConfig.configs CONFIG) ->
  reachable_by reducer initialState (fun _ _ => True) s ->
  NoDup (name <$> nodes s) /\
  forall c, c ∈ AppConfig.configs CONFIG -> AppConfig.name c ∈ (name <$> nodes s).
Proof.
  intros Hc. revert s. apply reachable_by_inv.
  - cbn. rewrite <- list_fmap_compose. split; [done|]. intros c Hin.
    change (AppConfig.name c) with ((name ∘ pendingNode) c). by apply list_elem_of_fmap_2.
  - intros s a [Hs Hall] _. split; [by apply reducer_names|]. intros c Hin. specialize (Hall c Hin).
    apply list_elem_of_fmap in Hall as (m & E & Hm). rewrite E.
    destruct a as [| | | |[n|]|ts| |]; cbn; try (by apply list_elem_of_fmap_2); rewrite ?sortNodes_perm;
      try (by apply list_elem_of_fmap_2).
    + destruct (decide (name m = name n)) as [En|En].
      * rewrite En. apply list_elem_of_fmap_2. apply putNode_spec; auto.
      * apply list_elem_of_fmap_2. apply putNode_spec; auto.
    + rewrite <- E. rewrite <- list_fmap_compose.
      change (AppConfig.name c) with ((name ∘ pendingNode) c). by apply list_elem_of_fmap_2.
Qed.

Section Poll.
Context `{DateFormat} (now : Z).

(** The row shown for an answer, offline when a request failed. *)
Definition answerNode (a : AppConfig.MinaNode * exec (list SyncTip * AppStore.NodeDetailsResponse))
  : NodesOverviewNode :=
  let offline := mkNode (AppConfig.name a.1) OFFLINE (Some 0%Z) (Some 0%Z) (Some "-") (Some 0%Q) (Some "-") None
      (Some 0%Z) (Some 0) (Some 0) (Some 0) (Some 0) (Some 0) (Some (getLedgers now (mkRawLedgers None None None))) [] in
  match a.2 with
  | Ret (tip :: _, details) => mapTip now (AppConfig.name a.1) (Some details) tip
  | _ => offline
  end.

Lemma statusSuccess_answer a : statusSuccess now a = NodesOverviewGetNodeStatusSuccess (Some (answerNode a)).
Proof. unfold statusSuccess, answerNode, getNodeTips. by destruct a as [n [[[|tip tips] d]|e]]. Qed.

Lemma answerNode_name a : name (answerNode a) = AppConfig.name a.1.
Proof. unfold answerNode. by destruct a as [n [[[|tip tips] d]|e]]. Qed.

(** A poll of the overview with different node names shows, in whatever order
    the answers arrive, exactly one row per answer, offline when a request failed
    or was empty and the first reported tip otherwise, and leaves the other rows
    alone. *)
Theorem overview_poll_shows_answers s answers :
  NoDup (name <$> nodes s) -> NoDup (AppConfig.name ∘ fst <$> answers) ->
  let s' := run reducer s (statusSuccess now <$> answers) in
  NoDup (name <$> nodes s') /\
  forall m, m ∈ nodes s' <->
    (exists a, a ∈ answers /\ m = answerNode a) \/ (m ∈ nodes s /\ name m ∉ (AppConfig.name ∘ fst <$> answers)).
Proof.
  revert s. induction answers as [|a answers IH]; intros s Hs Ha s'.
  - split; [done|]. intros m. cbn. set_solver.
  - subst s'. cbn [fmap list_fmap] in *. apply NoDup_cons in Ha as [Ha Hrest].
    change (run reducer s (statusSuccess now a :: (statusSuccess now <$> answers)))
      with (run reducer (reducer s (statusSuccess now a)) (statusSuccess now <$> answers)).
    rewrite statusSuccess_answer. set (s1 := reducer s _).
    destruct (putNode_spec (answerNode a) (nodes s) Hs) as [Hnd Hel].
    assert (Permutation (nodes s1) (putNode (answerNode a) (nodes s))) as Hp by (apply sortNodes_perm).
    destruct (IH s1) as [IH1 IH2]; [by rewrite Hp|done|]. split; [done|]. intros m. rewrite IH2, Hp, Hel.
    rewrite elem_of_cons. setoid_rewrite elem_of_cons. rewrite answerNode_name. cbn [compose].
    assert (m = answerNode a -> name m = AppConfig.name a.1) as Hname by (intros ->; apply answerNode_name).
    unfold compose in *. split.
    + intros [(b & Hb & ->)|[[-> | [Hm Hne]] Hout]]; [left; eauto|left; eauto|]. right. split; [done|]. naive_solver.
    + intros [(b & [-> | Hb] & ->)|[Hm Hout]]; [|by left; eauto|].
      * right. split; [by left|]. by rewrite answerNode_name.
      * right. split; [right; split; [done|]|]; naive_solver.
Qed.

End Poll.
End Reducer.

(** * Ledger steps *)

(** The steps in the order in which a node synchronises. *)
Definition stepStates (l : NodesOverviewLedger) : list StepState :=
  [epochState (stakingEpoch l); epochState (nextEpoch l); epochState (rootSnarked l); stagedState (rootStaged l)].

(** A step that has begun has every step before it done. *)
Definition doneBefore (a b : StepState) : Prop := b <> PENDING -> a = SUCCESS.

Lemma epoch_finish_state (b : bool) e :
  epochState (if b then e else finishEpoch e) = if b then epochState e else SUCCESS.
Proof. by destruct b. Qed.

Lemma getRoot_order now r :
  (forall s t, r = Some (s, t) -> truthyNum (reconstruct_end t) = true -> truthyNum (reconstruct_start t) = true) ->
  doneBefore (epochState (getRoot now r).1) (stagedState (getRoot now r).2).
Proof.
  intros Hr. destruct r as [[s t]|]; [|by intros ?]. specialize (Hr s t eq_refl).
  unfold doneBefore, getRoot. cbn [fst snd].
  destruct (truthyNum (fetch_parts_start t)), (truthyNum (reconstruct_start t)); cbn [negb andb]; cbn;
    try done; intros Hp; (destruct (truthyNum (reconstruct_end t)); [specialize (Hr eq_refl)|]; done).
Qed.

Lemma doneBefore_trans a b c : doneBefore a b -> doneBefore b c -> doneBefore a c.
Proof. unfold doneBefore. intros H1 H2 Hc. apply H1. by rewrite H2. Qed.

Lemma doneBefore_loading l : StronglySorted doneBefore l -> countIf (fun s => bool_decide (s = LOADING)) l <= 1.
Proof.
  unfold countIf. induction 1 as [|a l Hs IH Hall]; cbn; [lia|]. case_bool_decide as Ha; [|done]. subst.
  rewrite filter_false_nil; [done|]. intros x Hx. rewrite Forall_forall in Hall. specialize (Hall x Hx).
  apply bool_decide_eq_false. intros ->. by specialize (Hall ltac:(done)).
Qed.

(** The total of an epoch step is there exactly when it is done. *)
Definition totalShown (e : EpochStep) : Prop :=
  epochTotalTime e = if bool_decide (epochState e = SUCCESS)
                     then Some (sumNull (fetchHashesDuration (snarked e)) (fetchAccountsDuration (snarked e)))
                     else None.

Lemma step_total now st (b : bool) :
  totalShown (if b then getSnarkedLedgerStep now st else finishEpoch (getSnarkedLedgerStep now st)).
Proof. destruct b; [|done]. destruct st as [st|]; [|done]. cbn. unfold totalShown. cbn. by destruct (noneOfStepsCompleted st). Qed.

Lemma getRoot_total now r : totalShown (getRoot now r).1.
Proof.
  destruct r as [[s t]|]; [|done]. unfold getRoot. cbn [fst].
  apply (step_total now (Some s) (bool_decide _)).
Qed.

Lemma getLedgers_order now l :
  (forall s t, root l = Some (s, t) -> truthyNum (reconstruct_end t) = true -> truthyNum (reconstruct_start t) = true) ->
  StronglySorted doneBefore (stepStates (getLedgers now l)).
Proof.
  intros Hr. pose proof (getRoot_order now (root l) Hr) as H3.
  unfold getLedgers. destruct (getRoot now (root l)) as [rs rg]. cbn [fst snd] in *.
  set (ne := if bool_decide (epochState rs = PENDING) then _ else _).
  set (se := if bool_decide (epochState ne = PENDING) then _ else _).
  assert (doneBefore (epochState ne) (epochState rs)) as H2.
  { intros Hp. subst ne. by rewrite bool_decide_false. }
  assert (doneBefore (epochState se) (epochState ne)) as H1.
  { intros Hp. subst se. by rewrite bool_decide_false. }
  unfold stepStates. cbn [stakingEpoch nextEpoch rootSnarked rootStaged].
  repeat constructor; eauto using doneBefore_trans.
Qed.

(** The ledger steps shown for a node are in order: staking epoch, next epoch,
    snarked root, staged root; a step that has begun has all steps before it done,
    so at most one is loading, and a finished epoch step shows the sum of its two
    durations. *)
Theorem ledger_steps_in_order now l :
  (forall s t, root l = Some (s, t) -> truthyNum (reconstruct_end t) = true -> truthyNum (reconstruct_start t) = true) ->
  let ls := getLedgers now l in
  StronglySorted doneBefore (stepStates ls) /\
  countIf (fun s => bool_decide (s = LOADING)) (stepStates ls) <= 1 /\
  Forall totalShown [stakingEpoch ls; nextEpoch ls; rootSnarked ls].
Proof.
  intros Hr ls. pose proof (getLedgers_order now l Hr) as Hs. split; [done|]. split; [by apply doneBefore_loading|].
  pose proof (getRoot_total now (root l)) as Ht. subst ls. unfold getLedgers.
  destruct (getRoot now (root l)) as [rs rg]. cbn [stakingEpoch nextEpoch rootSnarked fst] in *.
  repeat constructor; [apply step_total|apply step_total|done].
Qed.

(** * Examples *)

#[local] Instance plainFormat : DateFormat := fun _ _ => "".
#[local] Instance demoLC : LocaleCompare := codeUnitCompare.

Definition demoConfig : AppConfig.MinaEnv :=
  AppConfig.mkMinaEnv
    [AppConfig.mkMinaNode "a" None None None None None None; AppConfig.mkMinaNode "b" None None None None None None] None.

Lemma overview_one_row_per_node_witness :
  NoDup (name <$> nodes (reducer demoConfig (initialState demoConfig) (NodesOverviewSortNodes (mkTableSort fName DSC)))).
Proof.
  refine (proj1 (overview_one_row_per_node demoConfig _ _ _)).
  - apply (bool_decide_unpack _). vm_compute. exact I.
  - apply reachable_step; [apply reachable_init|exact I].
Defined.

Definition demoAnswers : list (AppConfig.MinaNode * exec (list SyncTip * AppStore.NodeDetailsResponse)) :=
  [(AppConfig.mkMinaNode "b" None None None None None None, Throw (ErrorMsg "offline"))].

Lemma overview_poll_shows_answers_witness :
  NoDup (name <$> nodes (run (reducer demoConfig) (initialState demoConfig) (statusSuccess 0 <$> demoAnswers))) /\
  (kind <$> nodes (run (reducer demoConfig) (initialState demoConfig) (statusSuccess 0 <$> demoAnswers)))
    = ["Pending"; "Offline"].
Proof.
  split; [|vm_compute; reflexivity].
  refine (proj1 (overview_poll_shows_answers demoConfig 0 (initialState demoConfig) demoAnswers _ _));
    apply (bool_decide_unpack _); vm_compute; exact I.
Defined.

Definition demoLedgers : RawLedgers :=
  mkRawLedgers None (Some (mkRawSnarked (Some 1000000000%Z) (Some 2500000000%Z) None None))
    (Some (mkRawSnarked (Some 3000000000%Z) None None None, mkRawStaged None None None None)).

Lemma ledger_steps_in_order_witness :
  stepStates (getLedgers 10000 demoLedgers) = [SUCCESS; SUCCESS; LOADING; PENDING] /\
  StronglySorted doneBefore (stepStates (getLedgers 10000 demoLedgers)).
Proof.
  split; [vm_compute; reflexivity|].
  refine (proj1 (ledger_steps_in_order 10000 demoLedgers _)).
  intros s t E. injection E as <- <-. discriminate.
Defined.

End NodesOverview.
