(* ===== verification/NodesLive.v ===== *)
(** Nodes live (frontend/src/app/features/nodes/live): the tips of one node with
    the events of their blocks, polled every two seconds. *)

From S2P Require Import Prelude JsRuntime TableSort AppStore NodesOverview.

Module NodesLive.
Import NodesOverview.

(** * Data *)

Record NodesLiveBlockEvent := mkEvent {
  datetime : string;
  timestamp : Z;
  eventHeight : Z;
  message : string;
  eventStatus : string;
  elapsed : option Z;
  eventIsBestTip : bool
}.

Record NodesLiveNode := mkLiveNode { node : NodesOverviewNode; index : nat; events : list NodesLiveBlockEvent }.

Inductive EventField := fDatetime | fTimestamp | fEventHeight | fMessage | fStatus | fElapsed.

#[export] Instance EventField_eq_dec : EqDecision EventField.
Proof. solve_decision. Defined.

#[export] Instance Event_row : Row NodesLiveBlockEvent EventField := fun f e =>
  match f with
  | fDatetime => VStr (datetime e)
  | fTimestamp => vZ (timestamp e)
  | fEventHeight => vZ (eventHeight e)
  | fMessage => VStr (message e)
  | fStatus => VStr (eventStatus e)
  | fElapsed => ofOption vZ (elapsed e)
  end.

(** * Service *)

Definition STARTED : string := "Started".
Definition COMPLETED : string := "Completed".

Section Service.
Context `{DateFormat}.

(** An event of a block, when its time is there. *)
Definition blockEvent (block : NodesOverviewBlock) (bestTip : bool) (time : option Z) (msg st : string)
    (duration : option Z) : list NodesLiveBlockEvent :=
  if truthyNum time then
    [ mkEvent (toReadableDate (inject_Z (default 0%Z time) / inject_Z ONE_MILLION) None) (default 0%Z time)
        (blockHeight block) msg st duration bestTip ]
  else [].

Definition blockEvents (i : nat) (block : NodesOverviewBlock) : list NodesLiveBlockEvent :=
  let bestTip := i =? 0 in
  blockEvent block bestTip (fetchStart block) FETCHING STARTED None ++
  blockEvent block bestTip (fetchEnd block) FETCHED COMPLETED (fetchDuration block) ++
  blockEvent block bestTip (applyStart block) APPLYING STARTED None ++
  blockEvent block bestTip (applyEnd block) APPLIED COMPLETED (applyDuration block).

Definition getEvents (n : NodesOverviewNode) : list NodesLiveBlockEvent :=
  concat (mapi blockEvents (blocks n)).

Definition mapLiveNodes (ns : list NodesOverviewNode) : list NodesLiveNode :=
  mapi (fun i n => mkLiveNode n i (getEvents n))
    (reverse (List.filter (fun n => negb (bool_decide (kind n = OFFLINE))) ns)).

(** The request never fails: a failure of the two requests behind it gives an
    offline node, which is left out. *)
Definition getLiveNodeTips (now : Z) (nodeName : string)
    (answer : exec (list SyncTip * AppStore.NodeDetailsResponse)) : list NodesLiveNode :=
  mapLiveNodes (getNodeTips now nodeName answer).

End Service.

(** * Reducer *)

Record NodesLiveState := mkState {
  nodes : list NodesLiveNode;
  activeNode : option NodesLiveNode;
  openSidePanel : bool;
  tableSort : TableSort EventField;
  filteredEvents : list NodesLiveBlockEvent;
  filters : list string
}.

#[export, refine] Instance State_copy : RecordCopy NodesLiveState := {
  record_copy s := mkState (nodes s) (activeNode s) (openSidePanel s) (tableSort s) (filteredEvents s) (filters s) }.
Proof. by intros []. Defined.

Inductive NodesLiveActions :=
| NodesLiveInit
| NodesLiveGetNodes (force : bool)
| NodesLiveGetNodesSuccess (payload : list NodesLiveNode)
| NodesLiveSortEvents (payload : TableSort EventField)
| NodesLiveSetActiveNode (hash : option string)
| NodesLiveToggleSidePanel
| NodesLiveToggleFilter (payload : string)
| NodesLiveClose.

Definition bestTipOf (n : NodesLiveNode) : option string := bestTip (node n).

Definition isStatusFilter (f : string) : bool := includes blockStatuses f.

Definition filterEvents (evs : list NodesLiveBlockEvent) (fs : list string) : list NodesLiveBlockEvent :=
  if length fs =? 0 then evs
  else
    let evs := if includes fs "best tip" then List.filter eventIsBestTip evs else evs in
    if existsb isStatusFilter fs then List.filter (fun e => includes fs (message e)) evs else evs.

Section Reducer.
Context {LC : LocaleCompare} (desktop : bool).

Definition initialState : NodesLiveState :=
  mkState [] None desktop (mkTableSort fTimestamp DSC) [] [].

Definition sortEvents (evs : list NodesLiveBlockEvent) (ts : TableSort EventField) : list NodesLiveBlockEvent :=
  sort evs ts [fMessage; fStatus] false.

Definition noActiveNode : JsError := TypeError "Cannot read properties of undefined (reading 'events')".

Definition reducer (state : NodesLiveState) (action : NodesLiveActions) : exec NodesLiveState :=
  match action with
  | NodesLiveGetNodesSuccess payload =>
      let active := match activeNode state with
                    | Some a => List.find (fun n => bool_decide (bestTipOf n = bestTipOf a)) payload
                    | None => lastItem payload
                    end in
      Ret (state <| nodes := payload |> <| activeNode := active |>
                 <| filteredEvents := filterEvents (sortEvents (default [] (option_map events active)) (tableSort state))
                                        (filters state) |>)
  | NodesLiveSetActiveNode h =>
      match List.find (fun n => bool_decide (bestTipOf n = h)) (nodes state) with
      | None => Ret state
      | Some a => Ret (state <| activeNode := Some a |>
                             <| filteredEvents := filterEvents (sortEvents (events a) (tableSort state)) (filters state) |>)
      end
  | NodesLiveSortEvents ts =>
      match activeNode state with
      | None => Throw noActiveNode
      | Some a => Ret (state <| tableSort := ts |>
                             <| filteredEvents := filterEvents (sortEvents (events a) ts) (filters state) |>)
      end
  | NodesLiveToggleSidePanel =>
      Ret (state <| openSidePanel := negb (openSidePanel state) |>
                 <| activeNode := if openSidePanel state then None else activeNode state |>)
  | NodesLiveToggleFilter f =>
      let fs := toggle (filters state) f in
      match activeNode state with
      | None => Throw noActiveNode
      | Some a => Ret (state <| filters := fs |>
                             <| filteredEvents := filterEvents (sortEvents (events a) (tableSort state)) fs |>)
      end
  | NodesLiveClose => Ret initialState
  | NodesLiveInit | NodesLiveGetNodes _ => Ret state
  end.

(** * Effects *)

(** The request of [getNodes$] in progress, of which there is at most one. *)
Record World := mkWorld { state : NodesLiveState; pendingRequest : bool; inFlight : bool }.

#[export, refine] Instance World_copy : RecordCopy World := {
  record_copy w := mkWorld (state w) (pendingRequest w) (inFlight w) }.
Proof. by intros []. Defined.

Inductive Event := Dispatch (a : NodesLiveActions) | Answer (payload : list NodesLiveNode).

(** The actions that pass the filter of the effect start a request or, when the
    page is closed, stop the one in progress. *)
Definition getNodesEffect (w : World) (a : NodesLiveActions) : World :=
  match a with
  | NodesLiveGetNodes force =>
      if force || negb (pendingRequest w) then w <| pendingRequest := true |> <| inFlight := true |> else w
  | NodesLiveClose => if negb (pendingRequest w) then w <| inFlight := false |> else w
  | _ => w
  end.

Definition step (w : World) (e : Event) : exec World :=
  match e with
  | Dispatch a => s ← reducer (state w) a; Ret (getNodesEffect (w <| state := s |>) a)
  | Answer payload =>
      if inFlight w
      then s ← reducer (state w) (NodesLiveGetNodesSuccess payload);
           Ret (w <| state := s |> <| pendingRequest := false |> <| inFlight := false |>)
      else Ret w
  end.

Definition initialWorld : World := mkWorld initialState false false.

(** * The view of the blocks: nodes-live-blocks-map *)

Record BlocksMap := mkBlocksMap {
  mapBlocks : list NodesOverviewBlock;
  rootBlock : option NodesOverviewBlock;
  bestTipBlock : option NodesOverviewBlock
}.

Definition listenToBestTip (n : option NodesLiveNode) : BlocksMap :=
  let bs := reverse (default [] (option_map (fun n => blocks (node n)) n)) in
  let '(rootB, bs) := if length bs =? 291 then (firstItem bs, sliceFrom 1 bs) else (None, bs) in
  if 0 <? length bs then mkBlocksMap (removeLast bs) rootB (lastItem bs) else mkBlocksMap bs rootB None.

(** ** The toolbar: the tip before or after the shown one. *)
Definition tipIndex (ns : list NodesLiveNode) (shown : NodesLiveNode) : option nat :=
  findIndex (fun n => bool_decide (bestTipOf n = bestTipOf shown)) ns.

Definition selectPreviousNode (ns : list NodesLiveNode) (shown : NodesLiveNode) : option NodesLiveNode :=
  match tipIndex ns shown with Some (S i) => ns !! i | _ => None end.

(** [findIndex] gives -1 for a tip that is gone, so the next one is the first. *)
Definition selectNextNode (ns : list NodesLiveNode) (shown : NodesLiveNode) : option NodesLiveNode :=
  match tipIndex ns shown with Some i => ns !! S i | None => ns !! 0 end.

(** * Theorems *)

(** What the active filters let through: the best tip filter and the filters by
    message both have to. *)
Definition passes (fs : list string) (e : NodesLiveBlockEvent) : Prop :=
  ("best tip" ∈ fs -> eventIsBestTip e = true) /\
  (forall f, f ∈ fs -> f ∈ blockStatuses -> message e ∈ fs).

Lemma filterEvents_elem evs fs e : e ∈ filterEvents evs fs <-> e ∈ evs /\ passes fs e.
Proof.
  unfold filterEvents, passes. destruct (length fs =? 0) eqn:Hl.
  { apply Nat.eqb_eq, nil_length_inv in Hl. subst. set_solver. }
  assert (existsb isStatusFilter fs = true <-> exists f, f ∈ fs /\ f ∈ blockStatuses) as Hs.
  { rewrite existsb_exists. setoid_rewrite <- list_elem_of_In. unfold isStatusFilter. setoid_rewrite includes_true. done. }
  assert (e ∈ (if includes fs "best tip" then List.filter eventIsBestTip evs else evs) <->
          e ∈ evs /\ ("best tip" ∈ fs -> eventIsBestTip e = true)) as Hb.
  { destruct (includes fs "best tip") eqn:E.
    - apply includes_true in E. rewrite elem_of_list_filter. naive_solver.
    - apply includes_false in E. naive_solver. }
  destruct (existsb isStatusFilter fs).
  - rewrite elem_of_list_filter, Hb, includes_true. destruct Hs as [Hs _]. destruct (Hs eq_refl) as (f & Hf & Hf').
    naive_solver.
  - rewrite Hb. assert (~ exists f, f ∈ fs /\ f ∈ blockStatuses) as Hn by (intros Hn; by apply Hs in Hn).
    naive_solver.
Qed.

(** The events of the active node are displayed, filtered and in the order of the
    sort. *)
Definition displayed (s : NodesLiveState) : Prop :=
  forall n, activeNode s = Some n ->
    n ∈ nodes s /\ filteredEvents s = filterEvents (sortEvents (events n) (tableSort s)) (filters s).

Lemma reducer_displayed s a s' : displayed s -> reducer s a = Ret s' -> displayed s'.
Proof.
  intros Hs. destruct a as [|force|payload|ts|h| |f|]; cbn; intros E; try (by injection E as <-).
  - injection E as <-. intros n Hn. cbn in *. rewrite Hn. split; [|done].
    destruct (activeNode s) as [a|].
    + by apply find_Some_iff in Hn as [? _].
    + rewrite lastItem_last in Hn. by apply last_Some_elem_of.
  - destruct (activeNode s) as [a|] eqn:Ha; [|done]. injection E as <-. intros n Hn. cbn in *.
    destruct (Hs a Ha). rewrite Ha in Hn. injection Hn as <-. done.
  - destruct (List.find _ _) as [a|] eqn:Hf.
    + injection E as <-. intros n [= <-]. split; [|done]. by apply find_Some_iff in Hf as [? _].
    + by injection E as <-.
  - injection E as <-. intros n Hn. cbn in *. destruct (openSidePanel s); [done|]. by apply Hs.
  - destruct (activeNode s) as [a|] eqn:Ha; [|done]. injection E as <-. intros n Hn. cbn in *.
    destruct (Hs a Ha). rewrite Ha in Hn. injection Hn as <-. done.
Qed.

(** In every reachable state of the live page the events shown for the active
    node are its events that pass the active filters, in the order of the table,
    and the active node is one of the loaded tips; sorting and filtering throw a
    TypeError exactly when no node is active, as after closing the side panel or
    when a load no longer has the tip, and nothing else throws. *)
Theorem live_events_displayed s : reachable_exec reducer initialState (fun _ _ => True) s ->
  (forall n, activeNode s = Some n ->
     n ∈ nodes s /\
     filteredEvents s = filterEvents (sortEvents (events n) (tableSort s)) (filters s) /\
     forall e, e ∈ filteredEvents s <-> e ∈ events n /\ passes (filters s) e) /\
  (forall a, (exists err, reducer s a = Throw err) <->
     activeNode s = None /\ ((exists ts, a = NodesLiveSortEvents ts) \/ exists f, a = NodesLiveToggleFilter f)).
Proof.
  intros Hr. assert (displayed s) as Hd.
  { revert s Hr. apply reachable_exec_inv; [done|]. intros s a s' Hs _. by apply reducer_displayed. }
  split.
  - intros n Hn. destruct (Hd n Hn) as [H1 H2]. split; [done|]. split; [done|]. intros e.
    rewrite H2, filterEvents_elem. unfold sortEvents. by rewrite sort_elem.
  - intros a. destruct a; cbn; repeat case_match; naive_solver.
Qed.

Lemma live_step_flight w e w' : pendingRequest w = inFlight w -> step w e = Ret w' -> pendingRequest w' = inFlight w'.
Proof.
  intros Hw. destruct e as [a|payload]; cbn [step].
  - intros (s & _ & E)%exec_bind_Ret. injection E as <-. destruct a as [|[]| | | | | |]; cbn; try done; destruct (pendingRequest w) eqn:Hp; cbn; congruence.
  - destruct (inFlight w) eqn:Hf; [|intros [= <-]; congruence]. intros (s & _ & E)%exec_bind_Ret. by injection E as <-.
Qed.

(** Closing the live page does not stop a request in progress, because the
    close action is dropped while one is pending: its answer is stored after the
    page was closed and reset.  Only when nothing is pending does the page stay
    reset. *)
Theorem live_answer_after_close w payload : reachable_exec step initialWorld (fun _ _ => True) w ->
  exists w1 w2, step w (Dispatch NodesLiveClose) = Ret w1 /\ state w1 = initialState /\
    step w1 (Answer payload) = Ret w2 /\
    (if pendingRequest w
     then nodes (state w2) = payload /\ activeNode (state w2) = lastItem payload
     else state w2 = initialState).
Proof.
  intros Hr. assert (pendingRequest w = inFlight w) as Hf.
  { revert w Hr. apply reachable_exec_inv; [done|]. intros w e w' Hw _. by apply live_step_flight. }
  destruct (pendingRequest w) eqn:Hp; eexists _, _; (split; [done|]); cbn; rewrite Hp; cbn; [|done].
  by rewrite <- Hf.
Qed.

(** The blocks of the map are those of the node, oldest first, with the best tip
    and, in a complete frontier, the root apart. *)
Lemma listenToBestTip_blocks n :
  let m := listenToBestTip (Some n) in
  option_list (rootBlock m) ++ mapBlocks m ++ option_list (bestTipBlock m) = reverse (blocks (node n)).
Proof.
  unfold listenToBestTip. cbn [option_map default from_option id]. set (bs := reverse _).
  assert (forall l : list NodesOverviewBlock, 0 < length l -> removeLast l ++ option_list (lastItem l) = l) as Hl.
  { intros l Hlen. unfold removeLast, sliceTo, lastItem.
    destruct (lookup_lt_is_Some_2 l (length l - 1)) as [x Hx]; [lia|]. rewrite Hx. cbn.
    rewrite <- (take_S_r l (length l - 1) x) by done. apply take_ge. lia. }
  destruct (length bs =? 291) eqn:E.
  - apply Nat.eqb_eq in E. destruct bs as [|b bs']; [done|]. cbn in E.
    unfold sliceFrom, firstItem. change (drop 1 (b :: bs')) with bs'. cbn [head].
    destruct (0 <? length bs') eqn:E2; [|apply Nat.ltb_ge in E2; lia].
    cbn [rootBlock mapBlocks bestTipBlock option_list app]. f_equal. apply Hl. by apply Nat.ltb_lt in E2.
  - destruct (0 <? length bs) eqn:E2; cbn.
    + apply Hl. by apply Nat.ltb_lt in E2.
    + apply app_nil_r.
Qed.

End Reducer.

(** * Examples *)

#[local] Instance demoLC : LocaleCompare := codeUnitCompare.
#[local] Instance plainFormat : DateFormat := fun _ _ => "".

Definition demoBlock (h : string) (s : string) (t : Z) : NodesOverviewBlock :=
  mapBlock (mkSyncBlock 1 1 h "" s (Some t) (Some (t + 2000000000)%Z) None None).
Definition demoNode (tip : string) : NodesOverviewNode :=
  mkNode "n" SYNCED None None None None (Some tip) None None None None None None None None
    [demoBlock tip FETCHED 5; demoBlock "old" FETCHED 3].
Definition demoPayload : list NodesLiveNode := mapLiveNodes [demoNode "b"; demoNode "a"].

Definition demoState : NodesLiveState :=
  match runM (reducer true) (initialState true)
          [NodesLiveGetNodesSuccess demoPayload; NodesLiveToggleFilter "best tip"] with
  | Ret s => s
  | Throw _ => initialState true
  end.

Lemma demo_reachable : reachable_exec (reducer true) (initialState true) (fun _ _ => True) demoState.
Proof.
  eapply (reachable_exec_step _ _ _ _ (NodesLiveToggleFilter "best tip")).
  - eapply (reachable_exec_step _ _ _ _ (NodesLiveGetNodesSuccess demoPayload)); [apply reachable_exec_init|done|reflexivity].
  - done.
  - vm_compute. reflexivity.
Qed.

Lemma live_events_displayed_witness :
  (message <$> filteredEvents demoState) = [FETCHED; FETCHING] /\
  forall a, (exists err, reducer true demoState a = Throw err) <->
     activeNode demoState = None /\ ((exists ts, a = NodesLiveSortEvents ts) \/ exists f, a = NodesLiveToggleFilter f).
Proof.
  split; [vm_compute; reflexivity|]. exact (proj2 (live_events_displayed true demoState demo_reachable)).
Defined.

Definition demoWorld : World := getNodesEffect (initialWorld true) (NodesLiveGetNodes false).

Lemma live_answer_after_close_witness :
  exists w1 w2, step true demoWorld (Dispatch NodesLiveClose) = Ret w1 /\ state w1 = initialState true /\
    step true w1 (Answer demoPayload) = Ret w2 /\ nodes (state w2) = demoPayload /\
    activeNode (state w2) = lastItem demoPayload.
Proof.
  refine (live_answer_after_close true demoWorld demoPayload _).
  eapply (reachable_exec_step _ _ _ _ (Dispatch (NodesLiveGetNodes false))); [apply reachable_exec_init|exact I|reflexivity].
Defined.

End NodesLive.
