(* ===== verification/NodesBootstrap.v ===== *)
(** Nodes bootstrap (frontend/src/app/features/nodes/bootstrap): how long the
    blocks of each tip took to fetch and to apply. *)

From S2P Require Import Prelude JsRuntime TableSort AppStore NodesOverview.

Module NodesBootstrap.
Import NodesOverview.

(** * Service *)

(** A tip with the statistics of its fetched and applied blocks, which replace
    the counts of the overview. *)
Record NodesBootstrapNode := mkBootstrapNode {
  overviewNode : NodesOverviewNode;
  index : nat;
  fetchedCount : nat;
  appliedBlocksAvg : Q;
  appliedBlocksMin : Z;
  appliedBlocksMax : Z;
  appliedCount : nat;
  fetchedBlocksAvg : Q;
  fetchedBlocksMin : Z;
  fetchedBlocksMax : Z;
  tipGlobalSlot : option Z;
  tipHeight : option Z
}.

(** A missing duration counts as zero in sums and extrema. *)
Definition durations (f : NodesOverviewBlock -> option Z) (bs : list NodesOverviewBlock) : list Z :=
  (fun b => default 0%Z (f b)) <$> bs.

(** [bs.reduce((sum, b) => sum + duration, 0) / (bs.length || 1)] *)
Definition average (ds : list Z) : Q :=
  (inject_Z (fold_left Z.add ds 0%Z) / inject_Z (if length ds =? 0 then 1 else Z.of_nat (length ds)))%Q.

(** [ds.length ? Math.min(...ds) : 0] *)
Definition minimum (ds : list Z) : Z :=
  match ds with [] => 0%Z | d :: ds => fold_left Z.min ds d end.

(** [Math.max(...ds, 0)] *)
Definition maximum (ds : list Z) : Z := fold_right Z.max 0%Z ds.

Definition mapNode (i : nat) (n : NodesOverviewNode) : NodesBootstrapNode :=
  let applied := List.filter (fun b => bool_decide (status b = APPLIED) && bool_decide (is_Some (applyStart b))) (blocks n) in
  let fetched := List.filter (fun b => bool_decide (status b = FETCHED) && bool_decide (is_Some (fetchStart b))) (blocks n) in
  let applyDs := durations applyDuration applied in
  let fetchDs := durations fetchDuration fetched in
  mkBootstrapNode n i (length fetched) (average applyDs) (minimum applyDs) (maximum applyDs) (length applied)
    (average fetchDs) (minimum fetchDs) (maximum fetchDs)
    (option_map blockGlobalSlot (head (blocks n))) (option_map blockHeight (head (blocks n))).

Definition getBootstrapNodeTips `{DateFormat} (now : Z) (nodeName : string)
    (answer : exec (list SyncTip * AppStore.NodeDetailsResponse)) : list NodesBootstrapNode :=
  mapi mapNode (List.filter (fun n => negb (bool_decide (kind n = OFFLINE))) (getNodeTips now nodeName answer)).

(** * Reducer *)

Inductive BootstrapField :=
| fIndex | fGlobalSlot | fHeight | fBestTip | fFetchedBlocks | fFetchedBlocksMin | fFetchedBlocksMax | fFetchedBlocksAvg
| fAppliedBlocks | fAppliedBlocksMin | fAppliedBlocksMax | fAppliedBlocksAvg.

#[export] Instance BootstrapField_eq_dec : EqDecision BootstrapField.
Proof. solve_decision. Defined.

#[export] Instance Bootstrap_row : Row NodesBootstrapNode BootstrapField := fun f n =>
  match f with
  | fIndex => vNat (index n)
  | fGlobalSlot => ofOption vZ (tipGlobalSlot n)
  | fHeight => ofOption vZ (tipHeight n)
  | fBestTip => ofOption VStr (bestTip (overviewNode n))
  | fFetchedBlocks => vNat (fetchedCount n)
  | fFetchedBlocksMin => vZ (fetchedBlocksMin n)
  | fFetchedBlocksMax => vZ (fetchedBlocksMax n)
  | fFetchedBlocksAvg => VNum (fetchedBlocksAvg n)
  | fAppliedBlocks => vNat (appliedCount n)
  | fAppliedBlocksMin => vZ (appliedBlocksMin n)
  | fAppliedBlocksMax => vZ (appliedBlocksMax n)
  | fAppliedBlocksAvg => VNum (appliedBlocksAvg n)
  end.

Record NodesBootstrapState := mkState {
  nodes : list NodesBootstrapNode;
  activeNode : option NodesBootstrapNode;
  openSidePanel : bool;
  tableSort : TableSort BootstrapField
}.

#[export, refine] Instance State_copy : RecordCopy NodesBootstrapState := {
  record_copy s := mkState (nodes s) (activeNode s) (openSidePanel s) (tableSort s) }.
Proof. by intros []. Defined.

Inductive NodesBootstrapActions :=
| NodesBootstrapInit
| NodesBootstrapGetNodes (force : bool)
| NodesBootstrapGetNodesSuccess (payload : list NodesBootstrapNode)
| NodesBootstrapSortNodes (payload : TableSort BootstrapField)
| NodesBootstrapSetActiveBlock (payload : option NodesBootstrapNode)
| NodesBootstrapToggleSidePanel
| NodesBootstrapClose.

Section Reducer.
Context {LC : LocaleCompare} (desktop : bool).

Definition initialState : NodesBootstrapState := mkState [] None desktop (mkTableSort fIndex ASC).

Definition sortNodes (ns : list NodesBootstrapNode) (ts : TableSort BootstrapField) : list NodesBootstrapNode :=
  sort ns ts [fBestTip] false.

Definition reducer (state : NodesBootstrapState) (action : NodesBootstrapActions) : NodesBootstrapState :=
  match action with
  | NodesBootstrapGetNodesSuccess payload =>
      state <| nodes := sortNodes payload (tableSort state) |>
            <| activeNode := activeNode state ≫= (fun a => List.find (fun n => index n =? index a) payload) |>
  | NodesBootstrapSetActiveBlock n =>
      state <| activeNode := n |>
            <| openSidePanel := match n with Some _ => true | None => openSidePanel state end |>
  | NodesBootstrapSortNodes ts => state <| tableSort := ts |> <| nodes := sortNodes (nodes state) ts |>
  | NodesBootstrapToggleSidePanel =>
      state <| openSidePanel := negb (openSidePanel state) |>
            <| activeNode := if openSidePanel state then None else activeNode state |>
  | NodesBootstrapClose => initialState
  | NodesBootstrapInit | NodesBootstrapGetNodes _ => state
  end.

End Reducer.

(** * The summary above the table: nodes-bootstrap-overview *)

Record Summary := mkSummary {
  fetchedTotal : nat; fetchedAvg : Q; fetchedMax : Z; fetchedMin : Z;
  appliedTotal : nat; appliedAvg : Q; appliedMax : Z; appliedMin : Z
}.

(** [acc > n.max ? acc : n.max] and [acc < n.min ? acc : n.min], from zero. *)
Definition foldMax (vs : list Z) : Z := fold_left (fun acc v => if (v <? acc)%Z then acc else v) vs 0%Z.
Definition foldMin (vs : list Z) : Z := fold_left (fun acc v => if (acc <? v)%Z then acc else v) vs 0%Z.
Definition meanOf (vs : list Q) : Q := (fold_left Qplus vs 0 / inject_Z (Z.of_nat (length vs)))%Q.

(** For a list of nodes that is not empty. *)
Definition listenToNodes (ns : list NodesBootstrapNode) : Summary :=
  mkSummary
    (fold_left Nat.add (fetchedCount <$> ns) 0) (meanOf (fetchedBlocksAvg <$> ns))
    (foldMax (fetchedBlocksMax <$> ns)) (foldMin (fetchedBlocksMin <$> ns))
    (fold_left Nat.add (appliedCount <$> ns) 0) (meanOf (appliedBlocksAvg <$> ns))
    (foldMax (appliedBlocksMax <$> ns)) (foldMin (appliedBlocksMin <$> ns)).

(** * Bounds *)

Lemma fold_min_le (ds : list Z) : forall d, (fold_left Z.min ds d <= d)%Z /\ Forall (fun x => fold_left Z.min ds d <= x)%Z ds.
Proof.
  induction ds as [|x ds IH]; intros d; cbn; [split; [lia|constructor]|].
  destruct (IH (Z.min d x)) as [H1 H2]. split; [lia|]. constructor; [lia|done].
Qed.

Lemma minimum_le ds : Forall (fun x => minimum ds <= x)%Z ds.
Proof. destruct ds as [|d ds]; [constructor|]. cbn. destruct (fold_min_le ds d). by constructor. Qed.

Lemma fold_min_in (ds : list Z) : forall d, fold_left Z.min ds d ∈ d :: ds.
Proof.
  induction ds as [|x ds IH]; intros d; cbn; [by left|]. specialize (IH (Z.min d x)).
  apply elem_of_cons in IH as [->|IH]; [|set_solver]. destruct (Z.min_spec d x) as [[_ ->]|[_ ->]]; set_solver.
Qed.

Lemma minimum_nonneg ds : Forall (fun d => 0 <= d)%Z ds -> (0 <= minimum ds)%Z.
Proof.
  destruct ds as [|d ds]; [done|]. rewrite Forall_forall. intros H. apply H. apply fold_min_in.
Qed.

Lemma maximum_ge ds : Forall (fun x => x <= maximum ds)%Z ds /\ (0 <= maximum ds)%Z.
Proof.
  induction ds as [|d ds [IH1 IH2]]; [split; [constructor|done]|].
  change (maximum (d :: ds)) with (Z.max d (maximum ds)). split; [|lia].
  constructor; [lia|]. eapply Forall_impl; [exact IH1|]. cbn. intros; lia.
Qed.

Lemma fold_add_bounds (lo hi : Z) (ds : list Z) : Forall (fun x => lo <= x <= hi)%Z ds ->
  forall a, (a + lo * Z.of_nat (length ds) <= fold_left Z.add ds a <= a + hi * Z.of_nat (length ds))%Z.
Proof.
  induction 1 as [|d ds Hd Hds IH]; intros a; cbn [fold_left length]; [lia|].
  specialize (IH (a + d)%Z). rewrite Nat2Z.inj_succ. nia.
Qed.

Lemma average_bounds (lo hi : Z) (ds : list Z) : Forall (fun x => lo <= x <= hi)%Z ds -> (lo <= 0 <= hi)%Z \/ ds <> [] ->
  (inject_Z lo <= average ds /\ average ds <= inject_Z hi)%Q.
Proof.
  intros Hds Hz. unfold average. pose proof (fold_add_bounds lo hi ds Hds 0) as H.
  destruct (length ds =? 0) eqn:E.
  - apply Nat.eqb_eq, nil_length_inv in E. subst. destruct Hz as [Hz|]; [|done]. cbn.
    unfold Qle, Qdiv, inject_Z. cbn. lia.
  - apply Nat.eqb_neq in E. assert (0 < inject_Z (Z.of_nat (length ds)))%Q as Hn.
    { change 0%Q with (inject_Z 0). rewrite <- Zlt_Qlt. lia. }
    split; [apply Qle_shift_div_l|apply Qle_shift_div_r]; try done; rewrite <- inject_Z_mult, <- Zle_Qle; lia.
Qed.

(** No negative duration, as when blocks end after they start
    ([getDuration_nonneg]). *)
Definition timesInOrder (b : NodesOverviewBlock) : Prop :=
  (default 0 (fetchDuration b) >= 0)%Z /\ (default 0 (applyDuration b) >= 0)%Z.

Lemma durations_nonneg f bs : Forall (fun b => default 0 (f b) >= 0)%Z bs -> Forall (fun d => 0 <= d)%Z (durations f bs).
Proof. unfold durations. rewrite Forall_fmap. intros H. eapply Forall_impl; [exact H|]. cbn. intros; lia. Qed.

Lemma statistics_bounds (ds : list Z) : Forall (fun d => 0 <= d)%Z ds ->
  (0 <= minimum ds)%Z /\ (inject_Z (minimum ds) <= average ds)%Q /\ (average ds <= inject_Z (maximum ds))%Q.
Proof.
  intros Hn. split; [by apply minimum_nonneg|]. apply average_bounds.
  - destruct (maximum_ge ds) as [H _]. pose proof (minimum_le ds) as Hm. rewrite !Forall_forall in *. auto.
  - destruct ds as [|d ds]; [left; done|by right].
Qed.

Lemma Forall_filter_sub {A} (P : A -> Prop) p (l : list A) : Forall P l -> Forall P (List.filter p l).
Proof. rewrite !Forall_forall. intros H x [Hx _]%elem_of_list_filter. auto. Qed.

Lemma getDuration_nonneg s e : (default 0 s <= default 0 e)%Z -> (default 0 (getDuration s e) >= 0)%Z.
Proof.
  unfold getDuration, ceilDiv. destruct s as [s|], e as [e|]; cbn; try lia.
  destruct ((s =? 0)%Z || (e =? 0)%Z); cbn; [lia|]. intros H.
  assert ((- (e - s)) / ONE_BILLION <= 0)%Z; [|lia]. apply Z.div_le_upper_bound; unfold ONE_BILLION; lia.
Qed.

Lemma foldMin_zero vs : Forall (fun v => 0 <= v)%Z vs -> foldMin vs = 0%Z.
Proof.
  unfold foldMin. induction 1 as [|v vs Hv Hvs IH]; [done|]. cbn [fold_left].
  destruct (0 <? v)%Z eqn:E; [done|]. apply Z.ltb_ge in E. by replace v with 0%Z by lia.
Qed.

Lemma foldMax_ge vs : forall a, (a <= fold_left (fun acc v => if v <? acc then acc else v) vs a)%Z /\
  Forall (fun v => v <= fold_left (fun acc v => if v <? acc then acc else v) vs a)%Z vs.
Proof.
  induction vs as [|v vs IH]; intros a; cbn [fold_left]; [split; [lia|constructor]|].
  destruct (IH (if (v <? a)%Z then a else v)) as [H1 H2].
  destruct (v <? a)%Z eqn:E; [apply Z.ltb_lt in E|apply Z.ltb_ge in E]; (split; [lia|]; constructor; [lia|done]).
Qed.

Lemma fold_plus_bound (hi : Q) vs : Forall (fun v => 0 <= v /\ v <= hi)%Q vs ->
  forall a, (a <= fold_left Qplus vs a /\ fold_left Qplus vs a <= a + hi * inject_Z (Z.of_nat (length vs)))%Q.
Proof.
  induction 1 as [|v vs Hv Hvs IH]; intros a; cbn [fold_left length].
  - change (inject_Z (Z.of_nat 0)) with 0%Q. lra.
  - destruct (IH (a + v)%Q) as [H1 H2]. rewrite Nat2Z.inj_succ, <- Z.add_1_r, inject_Z_plus.
    change (inject_Z 1) with 1%Q. split; lra.
Qed.

Lemma meanOf_bounds (hi : Q) vs : vs <> [] -> Forall (fun v => 0 <= v /\ v <= hi)%Q vs -> (0 <= meanOf vs /\ meanOf vs <= hi)%Q.
Proof.
  intros Hne Hvs. destruct (fold_plus_bound hi vs Hvs 0%Q) as [H1 H2]. unfold meanOf.
  assert (0 < inject_Z (Z.of_nat (length vs)))%Q as Hn.
  { change 0%Q with (inject_Z 0). rewrite <- Zlt_Qlt. destruct vs; [done|]. cbn. lia. }
  split; [apply Qle_shift_div_l|apply Qle_shift_div_r]; try done; lra.
Qed.

(** The statistics of the bootstrap page are bounded: for every tip without
    negative durations, zero <= minimum <= average <= maximum, for fetched
    and for applied blocks; the averages of the summary lie between zero and its
    maxima.  The minima of the summary are always zero, whatever the blocks. *)
Theorem bootstrap_statistics_bounded (ns : list NodesOverviewNode) :
  Forall (fun n => Forall timesInOrder (blocks n)) ns -> ns <> [] ->
  let rows := mapi mapNode ns in
  Forall (fun r =>
    (0 <= fetchedBlocksMin r)%Z /\ (inject_Z (fetchedBlocksMin r) <= fetchedBlocksAvg r)%Q /\
    (fetchedBlocksAvg r <= inject_Z (fetchedBlocksMax r))%Q /\
    (0 <= appliedBlocksMin r)%Z /\ (inject_Z (appliedBlocksMin r) <= appliedBlocksAvg r)%Q /\
    (appliedBlocksAvg r <= inject_Z (appliedBlocksMax r))%Q) rows /\
  (0 <= fetchedAvg (listenToNodes rows) /\ fetchedAvg (listenToNodes rows) <= inject_Z (fetchedMax (listenToNodes rows)))%Q /\
  (0 <= appliedAvg (listenToNodes rows) /\ appliedAvg (listenToNodes rows) <= inject_Z (appliedMax (listenToNodes rows)))%Q /\
  fetchedMin (listenToNodes rows) = 0%Z /\ appliedMin (listenToNodes rows) = 0%Z.
Proof.
  intros Hns Hne rows.
  assert (Forall (fun r =>
    ((0 <= fetchedBlocksMin r)%Z /\ (inject_Z (fetchedBlocksMin r) <= fetchedBlocksAvg r)%Q /\
     (fetchedBlocksAvg r <= inject_Z (fetchedBlocksMax r))%Q) /\
    ((0 <= appliedBlocksMin r)%Z /\ (inject_Z (appliedBlocksMin r) <= appliedBlocksAvg r)%Q /\
     (appliedBlocksAvg r <= inject_Z (appliedBlocksMax r))%Q)) rows) as Hrows.
  { apply Forall_lookup. intros i r Hr. unfold rows, mapi in Hr. rewrite list_lookup_imap in Hr.
    apply fmap_Some in Hr as (n & Hn & ->). rewrite Forall_lookup in Hns. specialize (Hns i n Hn).
    split; apply statistics_bounds, durations_nonneg, Forall_filter_sub;
      (eapply Forall_impl; [exact Hns|]); by intros b []. }
  assert (rows <> []) as Hrne.
  { intros E. apply Hne. apply (f_equal length) in E. unfold rows, mapi in E. rewrite length_imap in E.
    by apply nil_length_inv in E. }
  assert (forall (avg : NodesBootstrapNode -> Q) (mx : NodesBootstrapNode -> Z),
    (forall r, r ∈ rows -> (0 <= avg r /\ avg r <= inject_Z (mx r))%Q) ->
    (0 <= meanOf (avg <$> rows) /\ meanOf (avg <$> rows) <= inject_Z (foldMax (mx <$> rows)))%Q) as Hmean.
  { intros avg mx Hb. apply meanOf_bounds; [by destruct rows|]. apply Forall_fmap, Forall_forall. intros r Hr.
    destruct (Hb r Hr) as [H1 H2]. split; [done|]. eapply Qle_trans; [exact H2|]. rewrite <- Zle_Qle.
    destruct (foldMax_ge (mx <$> rows) 0) as [_ H]. rewrite Forall_fmap, Forall_forall in H. by apply H. }
  assert (forall z : Z, (0 <= z)%Z -> (0 <= inject_Z z)%Q) as Hinj.
  { intros z Hz. change 0%Q with (inject_Z 0). by rewrite <- Zle_Qle. }
  rewrite Forall_forall in Hrows. split; [|split; [|split; [|split]]].
  - apply Forall_forall. intros r Hr. destruct (Hrows r Hr) as [[? []] [? []]]. done.
  - apply Hmean. intros r Hr. destruct (Hrows r Hr) as [(H1 & H2 & H3) _]. apply Hinj in H1. lra.
  - apply Hmean. intros r Hr. destruct (Hrows r Hr) as [_ (H1 & H2 & H3)]. apply Hinj in H1. lra.
  - apply foldMin_zero, Forall_fmap, Forall_forall. intros r Hr. by destruct (Hrows r Hr) as [[] _].
  - apply foldMin_zero, Forall_fmap, Forall_forall. intros r Hr. by destruct (Hrows r Hr) as [_ []].
Qed.

(** * Examples *)

Definition demoBlock (s : string) (start end_ : Z) : NodesOverviewBlock :=
  mapBlock (mkSyncBlock 1 1 "h" "" s (Some start) (Some end_) (Some start) (Some end_)).
Definition demoNode : NodesOverviewNode :=
  mkNode "n" SYNCED None None None None None None None None None None None None None
    [demoBlock FETCHED 1000000000 3000000000; demoBlock FETCHED 1000000000 6000000000; demoBlock APPLIED 1000000000 2000000000].

Lemma bootstrap_statistics_bounded_witness :
  fetchedBlocksMin <$> head (mapi mapNode [demoNode]) = Some 2%Z /\
  fetchedBlocksMax <$> head (mapi mapNode [demoNode]) = Some 5%Z /\
  Forall (fun r =>
    (0 <= fetchedBlocksMin r)%Z /\ (inject_Z (fetchedBlocksMin r) <= fetchedBlocksAvg r)%Q /\
    (fetchedBlocksAvg r <= inject_Z (fetchedBlocksMax r))%Q /\
    (0 <= appliedBlocksMin r)%Z /\ (inject_Z (appliedBlocksMin r) <= appliedBlocksAvg r)%Q /\
    (appliedBlocksAvg r <= inject_Z (appliedBlocksMax r))%Q) (mapi mapNode [demoNode]).
Proof.
  split; [vm_compute; reflexivity|]. split; [vm_compute; reflexivity|].
  refine (proj1 (bootstrap_statistics_bounded [demoNode] _ _)); [|discriminate].
  repeat constructor; vm_compute; discriminate.
Defined.

End NodesBootstrap.
