(* ===== verification/BpOverview.v ===== *)
(** Block production overview (frontend/src/app/features/block-production/overview):
    the epochs of a producer, the slots of the active epoch with their colours and
    positions, and the effects that load them. *)

From S2P Require Import Prelude JsRuntime TableSort.

Module BpOverview.

(** * Data *)

Inductive BlockStatus :=
| Empty | ToBeProduced | Orphaned | OrphanedPending | Canonical | CanonicalPending | Foreign | Missed.

#[export] Instance BlockStatus_eq_dec : EqDecision BlockStatus.
Proof. solve_decision. Defined.

Record BlockProductionOverviewSlot := mkSlot {
  slot : Z;
  globalSlot : Z;
  height : option Z;
  time : Z;
  status : BlockStatus;
  finished : bool;
  canonical : bool;
  orphaned : bool;
  missed : bool;
  futureRights : bool;
  hash : option string;
  active : bool
}.

Record Window := mkWindow {
  start : Z; end_ : Z; wCanonical : Z; wOrphaned : Z; wMissed : Z; wFutureRights : Z; interval : Z * Z
}.

Record EpochDetails := mkDetails {
  dEpochNumber : Z;
  totalSlots : Z;
  wonSlots : Z;
  dCanonical : Z;
  dOrphaned : Z;
  dMissed : Z;
  dFutureRights : Z;
  slotStart : Z;
  slotEnd : Z;
  expectedRewards : option string;
  earnedRewards : option string;
  balanceDelegated : option string;
  balanceProducer : option string;
  balanceStaked : option string
}.

(** An epoch of the list; the active epoch is put together from several answers
    and can lack any of them. *)
Record Epoch := mkEpoch {
  epochNumber : Z;
  windows : list Window;
  finishedWindows : nat;
  isLastEpoch : bool
}.
Record ActiveEpoch := mkActiveEpoch {
  epoch : option Epoch;
  details : option EpochDetails;
  slots : option (list BlockProductionOverviewSlot)
}.

Record AllStats := mkAllStats {
  aWonSlots : Z; aTotalSlots : Z; aCanonical : Z; aOrphaned : Z; aMissed : Z; aFutureRights : Z;
  aExpectedRewards : string; aEarnedRewards : string
}.

Record Filters := mkFilters { fCanonical : bool; fOrphaned : bool; fMissed : bool; fFuture : bool }.

Inductive Scale := Linear | Adaptive.

Definition SLOTS_PER_EPOCH : Z := 7140.

(** * Service *)

Record SlotResponse := mkSlotResponse {
  rslot : Z; rglobal_slot : Z; block_status : BlockStatus; timestamp : Z; state_hash : option string; rheight : option Z
}.

Definition mapSlot (activeSlotIndex : option nat) (i : nat) (s : SlotResponse) : BlockProductionOverviewSlot :=
  let has st := bool_decide (block_status s = st) in
  mkSlot (rslot s) (rglobal_slot s) (rheight s) (timestamp s) (block_status s)
    (match activeSlotIndex with Some a => i <? a | None => false end && negb (has Empty))
    (has Canonical || has CanonicalPending) (has Orphaned || has OrphanedPending) (has Missed) (has ToBeProduced)
    (state_hash s) (bool_decide (activeSlotIndex = Some i)).

Definition mapSlots (response : list SlotResponse) (currentSlot : Z) : list BlockProductionOverviewSlot :=
  let activeSlotIndex := findIndex (fun s => bool_decide (rglobal_slot s = currentSlot)) response in
  mapi (mapSlot activeSlotIndex) response.

Record WindowResponse := mkWindowResponse {
  w_won_slots : Z; w_canonical : Z; w_orphaned : Z; w_missed : Z; w_future_rights : Z;
  w_slot_start : Z; w_slot_end : Z; w_expected_rewards : Z; w_earned_rewards : Z; is_current : bool
}.

Record EpochResponse := mkEpochResponse {
  epoch_number : Z;
  balance_delegated : Z;
  balance_producer : Z;
  balance_staked : Z;
  summary : option WindowResponse;
  sub_windows : list WindowResponse
}.

Definition mapWindow (w : WindowResponse) : Window :=
  mkWindow (w_slot_start w) (w_slot_end w) (w_canonical w) (w_orphaned w) (w_missed w) (w_future_rights w)
    (w_slot_start w, w_slot_end w).

Definition mapEpoch (e : EpochResponse) : Epoch :=
  mkEpoch (epoch_number e) (mapWindow <$> sub_windows e)
    (match findIndex is_current (sub_windows e) with Some i => i + 1 | None => 0 end)
    (existsb (fun w => 0 <? w_future_rights w)%Z (sub_windows e)).

Definition mapEpochs (response : list EpochResponse) : list Epoch := mapEpoch <$> reverse response.

(** The query of the epochs around one: its number and the limit. *)
Definition epochsQuery (number : option Z) (limit : Z) : option Z * Z :=
  match number with
  | Some n => (Some (Z.max (n + 3) 6), (limit + 2)%Z)
  | None => (None, (limit + 2)%Z)
  end.

Section Service.
(** [Intl.NumberFormat] with at most two digits. *)
Context (format : Q -> string).

Definition inMina (nano : Z) : string := format (inject_Z nano / inject_Z ONE_BILLION).

Definition totalOf (w : WindowResponse) : Z := (w_canonical w + w_orphaned w + w_missed w + w_future_rights w)%Z.

Definition mapDetails (r : EpochResponse) : EpochDetails :=
  match summary r with
  | None => mkDetails (epoch_number r) 0 0 0 0 0 0 0 0 None None None None None
  | Some w =>
      mkDetails (epoch_number r) (totalOf w) (w_won_slots w) (w_canonical w) (w_orphaned w) (w_missed w)
        (w_future_rights w) (w_slot_start w) (w_slot_end w) (Some (inMina (w_expected_rewards w)))
        (Some (inMina (w_earned_rewards w))) (Some (inMina (balance_delegated r))) (Some (inMina (balance_producer r)))
        (Some (inMina (balance_staked r)))
  end.

(** The answer is an epoch or an array with it; an empty array throws. *)
Definition getEpochDetails (response : EpochResponse + list EpochResponse) : exec EpochDetails :=
  match response with
  | inl r => Ret (mapDetails r)
  | inr (r :: _) => Ret (mapDetails r)
  | inr [] => Throw (TypeError "Cannot read properties of undefined (reading 'summary')")
  end.

Definition mapAllStats (w : WindowResponse) : AllStats :=
  mkAllStats (w_won_slots w) (totalOf w) (w_canonical w) (w_orphaned w) (w_missed w) (w_future_rights w)
    (inMina (w_expected_rewards w)) (inMina (w_earned_rewards w)).

End Service.

(** * Reducer *)

Record State := mkState {
  epochs : list Epoch;
  activeEpoch : option ActiveEpoch;
  allTimeStats : option AllStats;
  activeEpochNumber : option Z;
  filters : Filters;
  activeSlot : option BlockProductionOverviewSlot;
  activeSlotRoute : option Z;
  scale : Scale;
  isLoading : bool;
  isCalculatingVRF : bool
}.

#[export, refine] Instance State_copy : RecordCopy State := {
  record_copy s := mkState (epochs s) (activeEpoch s) (allTimeStats s) (activeEpochNumber s) (filters s) (activeSlot s)
    (activeSlotRoute s) (scale s) (isLoading s) (isCalculatingVRF s) }.
Proof. by intros []. Defined.
#[export, refine] Instance ActiveEpoch_copy : RecordCopy ActiveEpoch := {
  record_copy e := mkActiveEpoch (epoch e) (details e) (slots e) }.
Proof. by intros []. Defined.

Inductive Actions :=
| init
| close
| getEpochs (number : Z)
| getEpochsSuccess (es : list Epoch)
| getSlots (number : Z)
| getSlotsSuccess (ss : list BlockProductionOverviewSlot)
| getEpochDetailsAction (number : option Z)
| getEpochDetailsSuccess (d : option EpochDetails)
| getRewardsStats
| getRewardsStatsSuccess (stats : option AllStats)
| changeFilters (fs : Filters)
| changeScale (sc : Scale)
| setActiveSlot (s : option Z).

Definition initialState : State :=
  mkState [] None None None (mkFilters true true true true) None None Adaptive true false.

(** [{ ...state.activeEpoch }] *)
Definition spreadEpoch (e : option ActiveEpoch) : ActiveEpoch := default (mkActiveEpoch None None None) e.

(** [a || b] of numbers that may be missing. *)
Definition orNum (a b : option Z) : option Z := if truthyNum a then a else b.

Definition findSlot (s : option Z) (ss : list BlockProductionOverviewSlot) : option BlockProductionOverviewSlot :=
  List.find (fun x => bool_decide (Some (slot x) = s)) ss.

Definition reducer (state : State) (action : Actions) : exec State :=
  match action with
  | getEpochsSuccess es =>
      let found := List.find (fun e => bool_decide (Some (epochNumber e) = activeEpochNumber state)) es in
      let e := spreadEpoch (activeEpoch state) in
      Ret (state <| epochs := es |>
                 <| activeEpoch := Some (match found with Some f => e <| epoch := Some f |> | None => e end) |>)
  | getEpochDetailsAction n => Ret (state <| activeEpochNumber := n |>)
  | getEpochDetailsSuccess d =>
      Ret (state <| activeEpoch := Some ((spreadEpoch (activeEpoch state)) <| details := d |>) |>
                 <| activeEpochNumber := orNum (activeEpochNumber state) (option_map dEpochNumber d) |>)
  | getSlotsSuccess ss =>
      Ret (state <| activeEpoch := Some ((spreadEpoch (activeEpoch state)) <| slots := Some ss |>) |>
                 <| activeSlot := findSlot (activeSlotRoute state) ss |>
                 <| isLoading := false |>
                 <| isCalculatingVRF := negb (length ss =? 0) && negb (Z.of_nat (length ss) =? SLOTS_PER_EPOCH)%Z |>)
  | changeFilters fs => Ret (state <| filters := fs |>)
  | getRewardsStatsSuccess stats => Ret (state <| allTimeStats := stats |>)
  | changeScale sc => Ret (state <| scale := sc |>)
  | setActiveSlot s =>
      match activeEpoch state with
      | None => Ret (state <| activeSlotRoute := s |> <| activeSlot := None |>)
      | Some e => match slots e with
                  | None => Throw (TypeError "Cannot read properties of undefined (reading 'find')")
                  | Some ss => Ret (state <| activeSlotRoute := s |> <| activeSlot := findSlot s ss |>)
                  end
      end
  | close => Ret initialState
  | init | getEpochs _ | getSlots _ | getRewardsStats => Ret state
  end.

(** * Effects *)

(** The requests in progress: at most one of each kind, as a later one replaces
    it; the details are asked for an epoch or the latest one. *)
Record World := mkWorld {
  state : State;
  detailsRequest : option (option Z);
  epochsRequest : option Z;
  slotsRequest : option (option Z);
  navigations : list (list Z)
}.

#[export, refine] Instance World_copy : RecordCopy World := {
  record_copy w := mkWorld (state w) (detailsRequest w) (epochsRequest w) (slotsRequest w) (navigations w) }.
Proof. by intros []. Defined.

Inductive Event :=
| Dispatch (a : Actions)
| DetailsAnswer (d : EpochDetails)
| DetailsFailure
| EpochsAnswer (es : list Epoch)
| SlotsAnswer (ss : list BlockProductionOverviewSlot)
| SlotsFailure.

Definition reduceW (w : World) (a : Actions) : exec World := s ← reducer (state w) a; Ret (w <| state := s |>).

(** The effects of an action of a component. *)
Definition effects (w : World) (a : Actions) : World :=
  match a with
  | getEpochDetailsAction n => w <| detailsRequest := Some n |>
  | getEpochs n => w <| epochsRequest := Some n |>
  | getSlots _ => w <| slotsRequest := Some (activeEpochNumber (state w)) |>
  | close => w <| detailsRequest := None |> <| epochsRequest := None |> <| slotsRequest := None |>
  | _ => w
  end.

Definition dispatch (w : World) (a : Actions) : exec World := w' ← reduceW w a; Ret (effects w' a).

Definition step (w : World) (e : Event) : exec World :=
  match e with
  | Dispatch a => dispatch w a
  | DetailsAnswer d =>
      match detailsRequest w with
      | None => Ret w
      | Some _ =>
          let route := dEpochNumber d ::
            (if truthyNum (activeSlotRoute (state w)) then option_list (activeSlotRoute (state w)) else []) in
          w ← dispatch (w <| detailsRequest := None |> <| navigations := route :: navigations w |>)
                (getEpochDetailsSuccess (Some d));
          w ← dispatch w (getEpochs (dEpochNumber d));
          dispatch w (getSlots (dEpochNumber d))
      end
  | DetailsFailure =>
      match detailsRequest w with
      | None => Ret w
      | Some _ => dispatch (w <| detailsRequest := None |>) (getEpochDetailsSuccess None)
      end
  | EpochsAnswer es =>
      match epochsRequest w with
      | None => Ret w
      | Some _ => dispatch (w <| epochsRequest := None |>) (getEpochsSuccess es)
      end
  | SlotsAnswer ss =>
      match slotsRequest w with
      | None => Ret w
      | Some _ => dispatch (w <| slotsRequest := None |>) (getSlotsSuccess ss)
      end
  | SlotsFailure =>
      match slotsRequest w with
      | None => Ret w
      | Some _ => dispatch (w <| slotsRequest := None |>) (getSlotsSuccess [])
      end
  end.

Definition initialWorld : World := mkWorld initialState None None None [].

(** * The slots of an epoch: block-production-overview-slots *)

Definition getSlotColor (d : BlockProductionOverviewSlot) (fs : option Filters) : string :=
  let on (f : Filters -> bool) := default false (option_map f fs) in
  let color :=
    if active d then "selected-primary"
    else if canonical d then "success-" +:+ (if on fCanonical then "primary" else "tertiary")
    else if orphaned d then "special-selected-alt-1-" +:+ (if on fOrphaned then "primary" else "tertiary")
    else if missed d then "warn-" +:+ (if on fMissed then "primary" else "tertiary")
    else if futureRights d then "base-" +:+ (if on fFuture then "secondary" else "divider")
    else if finished d then "selected-tertiary" else "base-container" in
  "var(--" +:+ color +:+ ")".

Definition getSlotText (d : BlockProductionOverviewSlot) : string :=
  if active d then "Currently producing"
  else if canonical d then "Canonical Block Produced"
  else if orphaned d then "Orphaned Block Produced"
  else if missed d then "Missed Block"
  else if futureRights d then "Right to produce a block"
  else if finished d then "Block by another producer"
  else "Empty Slot".

Definition slotWidth : Z := 8.
Definition slotHeight : Z := 8.
Definition slotMargin : Z := 1.

Definition slotsPerRow (width : Z) : Z := (width / (slotWidth + slotMargin))%Z.
Definition setX (perRow i : Z) : Z := ((i mod perRow) * (slotWidth + slotMargin))%Z.
Definition setY (perRow i : Z) : Z := ((i / perRow) * (slotHeight + slotMargin))%Z.

(** The slots behind the drawn rectangles after an answer: with rectangles there
    already, the new slots are bound to them one by one. *)
Definition drawSlots (rects ss : list BlockProductionOverviewSlot) : list BlockProductionOverviewSlot :=
  if length rects =? 0 then ss
  else if length ss =? 0 then []
  else take (length rects) ss ++ drop (length ss) rects.

(** The totals of the toolbar. *)
Definition totals (ss : list BlockProductionOverviewSlot) : nat * nat * nat * nat :=
  (countIf canonical ss, countIf orphaned ss, countIf missed ss, countIf futureRights ss).

(** * The slots shown *)

Notation activeIndex response current := (findIndex (fun s => bool_decide (rglobal_slot s = current)) response).

(** What the page says of a slot that is not the current one; [passed] when the
    epoch has a current slot behind it. *)
Definition describe (st : BlockStatus) (passed : bool) : string :=
  match st with
  | Canonical | CanonicalPending => "Canonical Block Produced"
  | Orphaned | OrphanedPending => "Orphaned Block Produced"
  | Missed => "Missed Block"
  | ToBeProduced => "Right to produce a block"
  | Foreign => if passed then "Block by another producer" else "Empty Slot"
  | Empty => "Empty Slot"
  end.

Definition passedBy (a : option nat) (i : nat) : bool := match a with Some a => i <? a | None => false end.

Lemma mapSlot_text a i s :
  getSlotText (mapSlot a i s) =
  if bool_decide (a = Some i) then "Currently producing" else describe (block_status s) (passedBy a i).
Proof.
  unfold getSlotText, mapSlot, describe, passedBy.
  cbn [active canonical orphaned missed futureRights finished]. destruct (bool_decide (a = Some i)); [done|].
  destruct (match a with Some a => _ | None => _ end), (block_status s); reflexivity.
Qed.

Lemma countIf_imap_one {A B} (p : B -> bool) (f : nat -> A -> B) (l : list A) : forall k j,
  (forall i x, p (f i x) = bool_decide (j = Some i)) -> countIf p (imap (fun i => f (k + i)) l) <= 1.
Proof.
  induction l as [|x l IH]; intros k j Hp; [cbn; lia|].
  unfold countIf in *. cbn. rewrite Nat.add_0_r, Hp.
  assert (imap ((fun i => f (k + i)) ∘ S) l = imap (fun i => f (S k + i)) l) as ->.
  { apply imap_ext. intros i y _. unfold compose. by rewrite Nat.add_succ_comm. }
  destruct (bool_decide (j = Some k)) eqn:E; [|by apply (IH (S k) j)].
  apply bool_decide_eq_true in E. subst j. cbn. apply le_n_S.
  rewrite filter_false_nil; [done|]. intros y (i & x' & -> & _)%elem_of_lookup_imap.
  rewrite Hp. apply bool_decide_eq_false. intros [= E]. lia.
Qed.

(** Every slot of an answer is shown with its numbers and the text of its
    status; at most one is shown as current, the one whose number is the current
    slot.  A block of another producer is named only when the epoch contains the
    current slot and it comes before it: in an epoch without the current slot, as
    every past one, these are all shown as empty. *)
Theorem overview_slots_described response current :
  let ss := mapSlots response current in
  length ss = length response /\ countIf active ss <= 1 /\
  (forall i s d, response !! i = Some s -> ss !! i = Some d ->
     slot d = rslot s /\ globalSlot d = rglobal_slot s /\
     active d = bool_decide (activeIndex response current = Some i) /\
     (active d = true -> rglobal_slot s = current) /\
     getSlotText d = if active d then "Currently producing"
                     else describe (block_status s) (passedBy (activeIndex response current) i)) /\
  (current ∉ (rglobal_slot <$> response) ->
     Forall2 (fun s d => block_status s = Foreign -> getSlotText d = "Empty Slot") response ss).
Proof.
  intros ss. unfold ss, mapSlots, mapi. split; [apply length_imap|]. split.
  { apply (countIf_imap_one active (mapSlot (activeIndex response current)) response 0 (activeIndex response current)).
    done. }
  split.
  - intros i s d Hs Hd. rewrite list_lookup_imap, Hs in Hd. injection Hd as <-.
    split; [done|]. split; [done|]. split; [done|]. split; [|apply mapSlot_text].
    cbn. intros E%bool_decide_eq_true. apply findIndex_Some in E as [(x & Hx & He) _].
    rewrite Hs in Hx. injection Hx as <-. by apply bool_decide_eq_true in He.
  - intros Hc. assert (activeIndex response current = None) as ->.
    { apply findIndex_None. intros x Hx. apply bool_decide_eq_false. intros <-. apply Hc. by apply list_elem_of_fmap_2. }
    apply Forall2_same_length_lookup. split; [by rewrite length_imap|].
    intros i s d Hs Hd. rewrite list_lookup_imap, Hs in Hd. injection Hd as <-. intros Hf.
    rewrite mapSlot_text, Hf. done.
Qed.

(** ** Positions *)

(** In an element at least one slot wide every slot lies within the width, and
    different slots are at least a margin apart in a row or in different rows. *)
Theorem overview_slots_grid width i j :
  (slotWidth + slotMargin <= width)%Z -> (0 <= i)%Z -> (0 <= j)%Z ->
  let n := slotsPerRow width in
  (0 <= setX n i)%Z /\ (setX n i + slotWidth <= width)%Z /\ (0 <= setY n i)%Z /\
  (i <> j -> (slotWidth + slotMargin <= Z.abs (setX n i - setX n j))%Z \/
             (slotHeight + slotMargin <= Z.abs (setY n i - setY n j))%Z).
Proof.
  intros Hw Hi Hj. cbn zeta. unfold setX, setY, slotsPerRow, slotWidth, slotMargin, slotHeight in *.
  change (8 + 1)%Z with 9%Z in *. set (n := (width / 9)%Z).
  assert (0 < n)%Z as Hn by (apply Z.div_str_pos; lia).
  assert (9 * n <= width)%Z as Hnw by (apply Z.mul_div_le; lia).
  pose proof (Z.mod_pos_bound i n Hn) as Mi. pose proof (Z.mod_pos_bound j n Hn) as Mj.
  pose proof (Z.div_pos i n Hi Hn) as Di. pose proof (Z.div_mod i n ltac:(lia)) as Ei.
  pose proof (Z.div_mod j n ltac:(lia)) as Ej. clearbody n.
  generalize dependent (i mod n)%Z. generalize dependent (j mod n)%Z.
  generalize dependent (i / n)%Z. generalize dependent (j / n)%Z. intros qj qi Di mj Mj Ej mi Mi Ei. cbn zeta.
  split; [lia|]. split; [lia|]. split; [lia|]. intros Hij.
  destruct (Z.eq_dec qi qj) as [Hd|Hd]; [|right; lia]. left. subst qi. lia.
Qed.

(** ** Redrawing *)

(** After an answer the rectangles show the slots of the epoch exactly when
    there were none before, none are needed, or the numbers agree; with more slots
    than rectangles the rest is missing, with fewer the old ones stay. *)
Theorem overview_slots_redrawn rects ss :
  (rects = [] \/ ss = [] \/ length rects = length ss -> drawSlots rects ss = ss) /\
  (rects <> [] -> length rects < length ss -> drawSlots rects ss = take (length rects) ss /\ drawSlots rects ss <> ss) /\
  (ss <> [] -> length ss < length rects -> drawSlots rects ss = ss ++ drop (length ss) rects /\ drawSlots rects ss <> ss).
Proof.
  unfold drawSlots. split; [|split].
  - intros [->|[->|E]]; [done| |].
    + by destruct (length rects =? 0).
    + rewrite E. destruct (length ss =? 0) eqn:Z; [done|]. rewrite take_ge, drop_ge by lia. by rewrite app_nil_r.
  - intros Hr Hl. destruct rects as [|r rects]; [done|]. destruct ss as [|x ss]; [cbn in Hl; lia|].
    change (length (r :: rects) =? 0) with false. change (length (x :: ss) =? 0) with false. cbv iota.
    rewrite (drop_ge (r :: rects)) by lia. rewrite app_nil_r. split; [done|].
    intros E. apply (f_equal length) in E. rewrite length_take in E. lia.
  - intros Hs Hl. destruct ss as [|x ss]; [done|]. destruct rects as [|r rects]; [cbn in Hl; lia|].
    change (length (r :: rects) =? 0) with false. change (length (x :: ss) =? 0) with false. cbv iota.
    rewrite (take_ge (x :: ss)) by lia. split; [done|].
    intros E. apply (f_equal length) in E. rewrite length_app, length_drop in E. lia.
Qed.

(** * The epoch of the slots *)

Section Epochs.
(** The slots the node reports for an epoch. *)
Context (server : Z -> list BlockProductionOverviewSlot).

(** The actions of the components, answers of the node to the requests, and a
    failing request of slots. *)
Definition allowed (w : World) (e : Event) : Prop :=
  match e with
  | Dispatch (getEpochDetailsAction _ | close | changeFilters _ | changeScale _ | setActiveSlot _ | getRewardsStats
             | getRewardsStatsSuccess _ | init) => True
  | Dispatch _ => False
  | DetailsAnswer d => forall n, detailsRequest w = Some (Some n) -> dEpochNumber d = n
  | DetailsFailure => False
  | SlotsAnswer ss => forall n, slotsRequest w = Some (Some n) -> ss = server n
  | EpochsAnswer _ | SlotsFailure => True
  end.

Definition shownSlots (w : World) : option (list BlockProductionOverviewSlot) := activeEpoch (state w) ≫= slots.

(** With no details request in progress the slots shown, or those asked for, are
    those of the active epoch. *)
Definition slotsInv (w : World) : Prop :=
  detailsRequest w = None ->
  match slotsRequest w with
  | Some q => q = activeEpochNumber (state w) /\ is_Some q
  | None => forall ss, shownSlots w = Some ss ->
              exists n, activeEpochNumber (state w) = Some n /\ (ss = server n \/ ss = [])
  end.

Lemma dispatch_inv w a w' : allowed w (Dispatch a) -> slotsInv w -> dispatch w a = Ret w' -> slotsInv w'.
Proof.
  intros Hok Hi (w1 & Hr & [= <-])%exec_bind_Ret. unfold reduceW in Hr. apply exec_bind_Ret in Hr as (s & Hs & [= <-]).
  destruct a; try done; cbn in Hs; try (injection Hs as <-); try exact Hi; try (by intros ?).
  unfold slotsInv, shownSlots in *. cbn in *. destruct (activeEpoch (state w)) as [e|] eqn:He.
  - destruct (slots e) as [ss|] eqn:Hss; [|done]. injection Hs as <-. cbn. rewrite He. cbn in *. by rewrite Hss in *.
  - injection Hs as <-. cbn. by rewrite He.
Qed.

Lemma step_inv w e w' : allowed w e -> slotsInv w -> step w e = Ret w' -> slotsInv w'.
Proof.
  intros Hok Hi. destruct e as [a|d| |es|ss|]; cbn [step].
  - by apply dispatch_inv.
  - destruct (detailsRequest w) as [q|] eqn:Hq; [|intros [= <-]; exact Hi].
    cbn. intros [= <-] _. cbn. split; [done|].
    unfold orNum. destruct (truthyNum _) eqn:E; [|eauto]. destruct (activeEpochNumber _); [eauto|done].
  - done.
  - destruct (epochsRequest w); [|by intros [= <-]]. cbn. intros [= <-]. unfold slotsInv, shownSlots in *. cbn.
    intros Hd. specialize (Hi Hd). destruct (slotsRequest w); [done|]. intros ss Hss. apply Hi.
    rewrite <- Hss. destruct (activeEpoch (state w)); cbn; by case_match.
  - destruct (slotsRequest w) as [q|] eqn:Hq; [|by intros [= <-]]. cbn. intros [= <-] Hd. cbn.
    intros ss' [= <-]. specialize (Hi Hd). rewrite Hq in Hi. destruct Hi as [-> [n Hn]]. exists n. split; [done|].
    left. apply Hok. by rewrite Hn in Hq.
  - destruct (slotsRequest w) as [q|] eqn:Hq; [|by intros [= <-]]. cbn. intros [= <-] Hd. cbn.
    intros ss' [= <-]. specialize (Hi Hd). rewrite Hq in Hi. destruct Hi as [-> [n Hn]]. eauto.
Qed.

(** C39: whenever no request is in progress, the slots shown are those of the
    active epoch, or none after a failed request, whatever the order in which
    epochs were selected and answers arrived.  A failed request of the details
    breaks this: the slots of the epoch before stay under the new number. *)
Theorem overview_slots_match_epoch :
  (forall w ss, reachable_exec step initialWorld allowed w ->
     detailsRequest w = None -> slotsRequest w = None -> shownSlots w = Some ss ->
     exists n, activeEpochNumber (state w) = Some n /\ (ss = server n \/ ss = [])) /\
  (forall w n, exists w1 w2, step w (Dispatch (getEpochDetailsAction (Some n))) = Ret w1 /\
     step w1 DetailsFailure = Ret w2 /\ shownSlots w2 = shownSlots w /\
     (n <> 0%Z -> activeEpochNumber (state w2) = Some n)).
Proof.
  split.
  - intros w ss Hr Hd Hs Hss. assert (slotsInv w) as Hi.
    { revert w Hr Hd Hs Hss. intros w Hr _ _ _. revert w Hr. apply reachable_exec_inv; [done|].
      intros w e w' Hi Hok. by apply step_inv. }
    specialize (Hi Hd). rewrite Hs in Hi. by apply Hi.
  - intros w n. eexists _, _. split; [done|]. split; [done|]. split.
    + unfold shownSlots. cbn. by destruct (activeEpoch (state w)).
    + intros Hn. cbn. unfold orNum. cbn. by rewrite (proj2 (Z.eqb_neq n 0) Hn).
Qed.

End Epochs.

(** Selecting a slot throws exactly while the epoch is there without its slots. *)
Lemma setActiveSlot_throws s a : (exists err, reducer s a = Throw err) <->
  (exists n, a = setActiveSlot n) /\ exists e, activeEpoch s = Some e /\ slots e = None.
Proof. destruct a; cbn; repeat case_match; naive_solver. Qed.

Lemma overview_slots_grid_witness :
  (9 <= 100)%Z /\ (setX (slotsPerRow 100) 25 = 27)%Z /\ (setY (slotsPerRow 100) 25 = 18)%Z /\
  (setX (slotsPerRow 100) 25 + slotWidth <= 100)%Z.
Proof.
  split; [lia|]. split; [reflexivity|]. split; [reflexivity|].
  refine (proj1 (proj2 (overview_slots_grid 100 25 26 _ _ _))); unfold slotWidth, slotMargin; lia.
Defined.

Example past_epoch_shown_empty :
  (getSlotText <$> mapSlots [mkSlotResponse 0 10 Foreign 0 None None; mkSlotResponse 1 11 Canonical 0 None None] 99)
  = ["Empty Slot"; "Canonical Block Produced"].
Proof. reflexivity. Qed.

End BpOverview.
