(* ===== verification/BpOverviewPage.v ===== *)
(** The components of the block production overview
    (frontend/src/app/features/block-production/overview): the page with its address,
    the drawn slots with their highlights, the side panel and the toolbar, around the
    store of BpOverview.v. *)

From S2P Require Import Prelude JsRuntime BpOverview.

Module BpOverviewPage.
Import BpOverview.

#[export] Instance Slot_eq_dec : EqDecision BlockProductionOverviewSlot.
Proof. solve_decision. Defined.

(** * State *)

(** A drawn slot: its datum, its colour, and whether it is highlighted. *)
Record Rect := mkRect { datum : BlockProductionOverviewSlot; fill : string; stroke : bool }.

#[export, refine] Instance Rect_copy : RecordCopy Rect := {
  record_copy r := mkRect (datum r) (fill r) (stroke r) }.
Proof. by intros []. Defined.

(** block-production-overview-slots *)
Record SlotsView := mkView {
  rects : list Rect;
  viewSlots : option (list BlockProductionOverviewSlot);
  viewActive : option BlockProductionOverviewSlot;
  viewEpoch : option ActiveEpoch;
  viewFilters : Filters
}.

#[export, refine] Instance SlotsView_copy : RecordCopy SlotsView := {
  record_copy v := mkView (rects v) (viewSlots v) (viewActive v) (viewEpoch v) (viewFilters v) }.
Proof. by intros []. Defined.

(** block-production-overview-side-panel *)
Record Extras := mkExtras {
  x_balanceProducer : option string;
  x_balanceDelegated : option string;
  x_balanceStaked : option string;
  epochStarted : string;
  epochEnds : string;
  x_slotsUsed : string
}.

(** [singleEpochStats] copies the counters and rewards of the details. *)
Record Panel := mkPanel {
  activeScreen : nat;
  activeTab : nat;
  panelEpoch : option ActiveEpoch;
  panelSlot : option BlockProductionOverviewSlot;
  activeSlotStatus : string;
  activeSlotColor : string;
  extras : option Extras;
  singleEpochStats : option EpochDetails;
  p_allTimeStats : option AllStats
}.

#[export, refine] Instance Panel_copy : RecordCopy Panel := {
  record_copy p := mkPanel (activeScreen p) (activeTab p) (panelEpoch p) (panelSlot p) (activeSlotStatus p)
    (activeSlotColor p) (extras p) (singleEpochStats p) (p_allTimeStats p) }.
Proof. by intros []. Defined.

(** [hovered] is the slot under the mouse; [params] are the numbers of the epoch
    and the slot in the address, [None] where [Number] gives NaN. *)
Record Page := mkPage {
  world : World;
  view : SlotsView;
  panel : Panel;
  showSidePanel : bool;
  hovered : option nat;
  params : option Z * option Z
}.

#[export, refine] Instance Page_copy : RecordCopy Page := {
  record_copy p := mkPage (world p) (view p) (panel p) (showSidePanel p) (hovered p) (params p) }.
Proof. by intros []. Defined.

(** * The drawn slots *)

(** [d.slot === this.activeSlot?.slot] *)
Definition isActiveSlot (active : option BlockProductionOverviewSlot) (r : Rect) : bool :=
  bool_decide (Some (slot (datum r)) = slot <$> active).

Definition setStroke (b : bool) (p : Rect -> bool) (rs : list Rect) : list Rect :=
  (fun r => if p r then r <| stroke := b |> else r) <$> rs.

Definition newRect (fs : Filters) (d : BlockProductionOverviewSlot) : Rect := mkRect d (getSlotColor d (Some fs)) false.

(** The data are bound to the rectangles one by one; those beyond the data stay. *)
Definition changeSlotsColors (fs : Filters) (ss : list BlockProductionOverviewSlot) (rs : list Rect) : list Rect :=
  zip_with (fun r d => r <| datum := d |> <| fill := getSlotColor d (Some fs) |>) rs ss ++ drop (length ss) rs.

(** [listenToEpochs], for an epoch with slots. *)
Definition listenToEpochs (e : option ActiveEpoch) (v : SlotsView) : SlotsView :=
  match e ≫= slots with
  | None => v
  | Some ss =>
      v <| viewSlots := Some ss |>
        <| rects := if length (rects v) =? 0 then newRect (viewFilters v) <$> ss
                    else if length ss =? 0 then [] else changeSlotsColors (viewFilters v) ss (rects v) |>
  end.

Definition listenToActiveSlot (a : option BlockProductionOverviewSlot) (v : SlotsView) : SlotsView :=
  v <| viewActive := a |> <| rects := setStroke true (isActiveSlot a) (rects v) |>.

Definition listenToFilters (fs : Filters) (v : SlotsView) : SlotsView :=
  let v := v <| viewFilters := fs |> in
  match viewSlots v with
  | Some (s :: ss) => v <| rects := changeSlotsColors fs (s :: ss) (rects v) |>
  | _ => v
  end.

(** * The side panel *)

Section Page.
(** [toReadableDate(time, noMillisFormat)] *)
Context (readable : Z -> string).

(** [Math.round(used / total * 100) + '%'] of whole numbers; without slots the
    quotient is NaN, or infinite. *)
Definition slotsUsed (d : EpochDetails) : string :=
  let used := (dCanonical d + dOrphaned d + dMissed d)%Z in
  (if (totalSlots d =? 0)%Z
   then if (used =? 0)%Z then "NaN" else if (used <? 0)%Z then "-Infinity" else "Infinity"
   else showZ (Qfloor (inject_Z used / inject_Z (totalSlots d) * 100 + (1 # 2))%Q)) +:+ "%".

Definition dateOf (global : Z) (ss : list BlockProductionOverviewSlot) : string :=
  match List.find (fun s => bool_decide (globalSlot s = global)) ss with
  | Some s => readable (time s * ONE_THOUSAND)
  | None => "-"
  end.

Definition epochExtras (d : EpochDetails) (ss : list BlockProductionOverviewSlot) : Extras :=
  mkExtras (balanceProducer d) (balanceDelegated d) (balanceStaked d) (dateOf (slotStart d) ss) (dateOf (slotEnd d) ss)
    (slotsUsed d).

(** [listenToActiveEpoch], for an epoch with slots and details. *)
Definition panelActiveEpoch (e : option ActiveEpoch) (p : Panel) : Panel :=
  match e with
  | None => p
  | Some e =>
      match slots e, details e with
      | Some (s :: ss), Some d => p <| panelEpoch := Some e |> <| singleEpochStats := Some d |>
                                     <| extras := Some (epochExtras d (s :: ss)) |>
      | _, _ => p
      end
  end.

Definition panelActiveSlot (a : option BlockProductionOverviewSlot) (p : Panel) : Panel :=
  match a with
  | None => p <| panelSlot := None |> <| activeScreen := 0 |>
  | Some s => p <| panelSlot := Some s |> <| activeScreen := 1 |> <| activeSlotStatus := getSlotText s |>
                <| activeSlotColor := getSlotColor s (Some (mkFilters true true true true)) |>
  end.

Definition listenToAllTimeStats (stats : option AllStats) (p : Panel) : Panel :=
  match stats with Some st => p <| p_allTimeStats := Some st |> | None => p end.

(** * Steps *)

(** The events of the store that assign the active epoch, and those that put new
    slots into it: every slot of an answer is a new object. *)
Definition assignsEpoch (w : World) (e : Event) : bool :=
  match e with
  | Dispatch (getEpochsSuccess _ | getEpochDetailsSuccess _ | getSlotsSuccess _) => true
  | Dispatch _ => false
  | DetailsAnswer _ | DetailsFailure => bool_decide (is_Some (detailsRequest w))
  | EpochsAnswer _ => bool_decide (is_Some (epochsRequest w))
  | SlotsAnswer _ | SlotsFailure => bool_decide (is_Some (slotsRequest w))
  end.
Definition newSlots (e : Event) : bool :=
  match e with Dispatch (getSlotsSuccess _) | SlotsAnswer _ | SlotsFailure => true | _ => false end.
Definition assignsStats (e : Event) : bool :=
  match e with Dispatch (getRewardsStatsSuccess _) => true | _ => false end.
Definition assignsFilters (e : Event) : bool :=
  match e with Dispatch (changeFilters _) => true | _ => false end.

(** The subscriptions report what changed, in the order they were made. *)
Definition notify (p : Page) (w : World) (e : Event) : Page :=
  let onFilters v := if assignsFilters e then listenToFilters (filters (state w)) v else v in
  let onEpoch {T} (f : option ActiveEpoch -> T -> T) x :=
    if assignsEpoch (world p) e then f (activeEpoch (state w)) x else x in
  let changed := newSlots e || negb (bool_decide (activeSlot (state (world p)) = activeSlot (state w))) in
  let onSlot {T} (f : option BlockProductionOverviewSlot -> T -> T) x :=
    if changed then f (activeSlot (state w)) x else x in
  p <| world := w |>
    <| view := onEpoch (fun e v => v <| viewEpoch := e |>)
                 (onSlot listenToActiveSlot (onEpoch listenToEpochs (onFilters (view p)))) |>
    <| panel := let q := onSlot panelActiveSlot (onEpoch panelActiveEpoch (panel p)) in
                if assignsStats e then listenToAllTimeStats (allTimeStats (state w)) q else q |>.

Definition store (p : Page) (e : Event) : exec Page := w ← BpOverview.step (world p) e; Ret (notify p w e).

(** [epochNumber] of the active epoch, which only an answer with the epochs gives;
    without it [router.navigate] throws and the address stays. *)
Definition navigate (p : Page) (e : option ActiveEpoch) (s : option Z) : Page :=
  match e ≫= epoch with
  | Some ep => p <| params := (Some (epochNumber ep), s) |>
  | None => p
  end.

(** A click on the slot under the mouse. *)
Definition onSlotClick (p : Page) (d : BlockProductionOverviewSlot) : exec Page :=
  let p := p <| view := (view p) <| rects := setStroke false (isActiveSlot (viewActive (view p))) (rects (view p)) |> |> in
  p ← store p (Dispatch (setActiveSlot (Some (slot d))));
  Ret (navigate p (viewEpoch (view p)) (Some (slot d))).

Definition removeActiveSlot (p : Page) : exec Page :=
  p ← store p (Dispatch (setActiveSlot None));
  Ret (navigate p (panelEpoch (panel p)) None).

(** [listenToNodeChange] and [listenToRoute] of the page. *)
Definition listenToNodeChange (p : Page) : exec Page :=
  p ← store p (Dispatch getRewardsStats);
  p ← store p (Dispatch (setActiveSlot (params p).2));
  store p (Dispatch (getEpochDetailsAction (params p).1)).

Inductive PageEvent :=
| Store (e : Event)
| HoverIn (i : nat)
| HoverOut
| Click
| CloseDetails
| SwitchNode
| ChangeFilter (f : Filters -> Filters)
| ChangeActiveEpoch (n : Z)
| SelectTab (t : nat)
| Resize (desktop : bool).

Definition setAt (i : nat) (b : bool) (rs : list Rect) : list Rect :=
  match rs !! i with Some r => <[i := r <| stroke := b |>]> rs | None => rs end.

Definition mouseOut (p : Page) : Page :=
  match hovered p with
  | None => p
  | Some i =>
      let out := match rects (view p) !! i with
                 | Some r => negb (isActiveSlot (viewActive (view p)) r)
                 | None => false
                 end in
      p <| hovered := None |>
        <| view := if out then (view p) <| rects := setAt i false (rects (view p)) |> else view p |>
  end.

Definition mouseOverHandle (p : Page) (i : nat) : Page :=
  let p := mouseOut p in
  p <| hovered := Some i |> <| view := (view p) <| rects := setAt i true (rects (view p)) |> |>.

Definition pageStep (p : Page) (e : PageEvent) : exec Page :=
  match e with
  | Store e => store p e
  | HoverIn i => Ret (if i <? length (rects (view p)) then mouseOverHandle p i else p)
  | HoverOut => Ret (mouseOut p)
  | Click => match hovered p ≫= fun i => rects (view p) !! i with
             | Some r => onSlotClick p (datum r)
             | None => Ret p
             end
  | CloseDetails => removeActiveSlot p
  | SwitchNode => listenToNodeChange p
  | ChangeFilter f => store p (Dispatch (changeFilters (f (filters (state (world p))))))
  | ChangeActiveEpoch n => store p (Dispatch (getEpochDetailsAction (Some n)))
  | SelectTab t => Ret (p <| panel := (panel p) <| activeTab := t |> |>)
  | Resize desktop => Ret (p <| showSidePanel := desktop |>)
  end.

(** The page at an address. *)
Definition openPage (desktop : bool) (address : option Z * option Z) : exec Page :=
  listenToNodeChange
    (mkPage initialWorld (mkView [] None None None (filters initialState))
      (mkPanel 0 1 None None "" "" None None None) desktop None address).

End Page.

(** * The highlighted slots *)

Section Strokes.
Context (readable : Z -> string).

(** The slots of the store are drawn, each once, and the selection is one of them. *)
Record Drawn (ss : list BlockProductionOverviewSlot) (p : Page) : Prop := {
  drawn_store : exists e, activeEpoch (state (world p)) = Some e /\ slots e = Some ss;
  drawn_view : viewSlots (view p) = Some ss;
  drawn_rects : datum <$> rects (view p) = ss;
  drawn_once : NoDup (slot <$> ss);
  drawn_active : viewActive (view p) = activeSlot (state (world p));
  drawn_select a : viewActive (view p) = Some a -> a ∈ ss
}.

(** Highlighted are the selected slot and the one under the mouse. *)
Definition clean (p : Page) : Prop := forall i r, rects (view p) !! i = Some r ->
  stroke r = true <-> isActiveSlot (viewActive (view p)) r = true \/ hovered p = Some i.

Lemma findSlot_once ss d : NoDup (slot <$> ss) -> d ∈ ss -> findSlot (Some (slot d)) ss = Some d.
Proof.
  unfold findSlot. induction ss as [|x ss IH]; intros Hn Hd; [by apply elem_of_nil in Hd|].
  rewrite fmap_cons in Hn. apply NoDup_cons in Hn as [Hx Hn]. cbn. case_bool_decide as E.
  - apply elem_of_cons in Hd as [->|Hd]; [done|]. injection E as E. rewrite E in Hx.
    by destruct Hx; apply list_elem_of_fmap_2.
  - apply elem_of_cons in Hd as [->|Hd]; [done|]. by apply IH.
Qed.

Lemma setStroke_lookup b q rs i : setStroke b q rs !! i = (fun r => if q r then r <| stroke := b |> else r) <$> rs !! i.
Proof. apply list_lookup_fmap. Qed.

Lemma setStroke_datum b q rs : datum <$> setStroke b q rs = datum <$> rs.
Proof. unfold setStroke. rewrite <- list_fmap_compose. apply list_fmap_ext. intros i r _. cbn. by destruct (q r). Qed.

Lemma setAt_lookup i b rs k :
  setAt i b rs !! k = if bool_decide (k = i) then (fun r => r <| stroke := b |>) <$> rs !! k else rs !! k.
Proof.
  unfold setAt. destruct (rs !! i) as [r|] eqn:E; case_bool_decide as Hk; subst.
  - rewrite list_lookup_insert_eq by (by eapply lookup_lt_Some). by rewrite E.
  - by rewrite list_lookup_insert_ne.
  - by rewrite E.
  - done.
Qed.

Lemma setAt_datum i b rs : datum <$> setAt i b rs = datum <$> rs.
Proof.
  apply list_eq. intros k. rewrite !list_lookup_fmap, setAt_lookup. case_bool_decide; [|done]. by destruct (rs !! k).
Qed.

Lemma recolor_same fs rs : changeSlotsColors fs (datum <$> rs) rs
  = (fun r => r <| fill := getSlotColor (datum r) (Some fs) |>) <$> rs.
Proof.
  unfold changeSlotsColors. rewrite drop_ge by (by rewrite length_fmap). rewrite app_nil_r.
  induction rs as [|[d f b] rs IH]; [done|]. rewrite !fmap_cons. cbn. by rewrite IH.
Qed.

Lemma isActiveSlot_datum a r1 r2 : datum r1 = datum r2 -> isActiveSlot a r1 = isActiveSlot a r2.
Proof. unfold isActiveSlot. by intros ->. Qed.

Lemma mouseOut_spec ss p : Drawn ss p -> clean p -> Drawn ss (mouseOut p) /\ clean (mouseOut p) /\ hovered (mouseOut p) = None.
Proof.
  intros Hd Hc. unfold mouseOut. destruct (hovered p) as [i|] eqn:Eh; [|done].
  destruct (rects (view p) !! i) as [r|] eqn:Er.
  2:{ split; [by destruct Hd; split|]. split; [|done]. intros k r Hk. cbn in *. rewrite (Hc k r Hk), Eh.
      split; [intros [H|[= <-]]; [by left|congruence]|intros [H|H]; [by left|done]]. }
  destruct (isActiveSlot (viewActive (view p)) r) eqn:Ea; cbn [negb].
  - split; [by destruct Hd; split|]. split; [|done]. intros k r' Hk. cbn in *. rewrite (Hc k r' Hk), Eh.
    split; [intros [H|[= <-]]; [by left|left; congruence]|intros [H|H]; [by left|done]].
  - split; [|split; [|done]].
    + destruct Hd. split; try done. cbn. by rewrite setAt_datum.
    + intros k r' Hk. cbn in Hk. rewrite setAt_lookup in Hk. cbn. case_bool_decide as E; subst.
      * rewrite Er in Hk. injection Hk as <-. cbn. rewrite (isActiveSlot_datum _ _ r) by done. rewrite Ea. naive_solver.
      * rewrite (Hc k r' Hk), Eh. naive_solver.
Qed.

Lemma mouseOver_spec ss p i : Drawn ss p -> clean p -> Drawn ss (mouseOverHandle p i) /\ clean (mouseOverHandle p i).
Proof.
  intros Hd Hc. destruct (mouseOut_spec ss p Hd Hc) as (Hd' & Hc' & Hh). unfold mouseOverHandle.
  revert Hd' Hc' Hh. generalize (mouseOut p). intros q Hd' Hc' Hh. split.
  - destruct Hd'. split; try done. cbn. by rewrite setAt_datum.
  - intros k r Hk. cbn in Hk |- *. rewrite setAt_lookup in Hk. case_bool_decide as E; subst.
    + apply fmap_Some in Hk as (r' & Hr & ->). cbn. split; [by right|done].
    + rewrite (Hc' k r Hk), Hh. naive_solver.
Qed.

(** Selecting a slot of the store reaches the reducer without an exception. *)
Lemma select_step w e ss s : activeEpoch (state w) = Some e -> slots e = Some ss ->
  exists w', BpOverview.step w (Dispatch (setActiveSlot s)) = Ret w' /\ activeEpoch (state w') = Some e /\
    activeSlot (state w') = findSlot s ss.
Proof. intros He Hs. cbn. unfold dispatch, reduceW. cbn. rewrite He, Hs. cbn. by eexists. Qed.

(** What a selection does to the page: the subscriptions run when it changed. *)
Lemma select_store ss p s : Drawn ss p -> exists w', let changed := activeSlot (state (world p)) <> findSlot s ss in
  store readable p (Dispatch (setActiveSlot s)) = Ret (notify readable p w' (Dispatch (setActiveSlot s))) /\
  (exists e, activeEpoch (state w') = Some e /\ slots e = Some ss) /\ activeSlot (state w') = findSlot s ss /\
  (changed -> view (notify readable p w' (Dispatch (setActiveSlot s))) = listenToActiveSlot (findSlot s ss) (view p)) /\
  (~ changed -> view (notify readable p w' (Dispatch (setActiveSlot s))) = view p).
Proof.
  intros Hd. destruct (drawn_store _ _ Hd) as (e & He & Hs).
  destruct (select_step (world p) e ss s He Hs) as (w' & Hw & He' & Ha). exists w'. cbn zeta.
  unfold store. rewrite Hw. split; [done|]. split; [eauto|]. split; [done|].
  unfold notify. cbn. rewrite Ha. case_bool_decide; cbn; naive_solver.
Qed.

Lemma navigate_view p e s : view (navigate p e s) = view p /\ world (navigate p e s) = world p /\
  hovered (navigate p e s) = hovered p.
Proof. unfold navigate. by destruct (e ≫= epoch). Qed.

Lemma findSlot_elem s ss a : findSlot s ss = Some a -> a ∈ ss.
Proof. intros H. by apply find_Some_iff in H as [H _]. Qed.

Lemma isActiveSlot_once ss a r : NoDup (slot <$> ss) -> a ∈ ss -> datum r ∈ ss ->
  isActiveSlot (Some a) r = true -> datum r = a.
Proof.
  intros Hn Ha Hr H%bool_decide_eq_true. injection H as H.
  pose proof (findSlot_once ss a Hn Ha) as E1. pose proof (findSlot_once ss (datum r) Hn Hr) as E2. congruence.
Qed.

Lemma drawn_datum ss p i r : Drawn ss p -> rects (view p) !! i = Some r -> datum r ∈ ss.
Proof. intros Hd Hr. rewrite <- (drawn_rects _ _ Hd). eapply list_elem_of_lookup_2. by rewrite list_lookup_fmap, Hr. Qed.

(** Clicking a slot that is not selected selects it, and moves the highlight. *)
Lemma click_other ss p i r : Drawn ss p -> clean p -> hovered p = Some i -> rects (view p) !! i = Some r ->
  isActiveSlot (viewActive (view p)) r = false ->
  exists p', pageStep readable p Click = Ret p' /\ Drawn ss p' /\ clean p' /\
    activeSlot (state (world p')) = Some (datum r).
Proof.
  intros Hd Hc Hh Hr Ha. cbn [pageStep]. rewrite Hh. cbn [mbind option_bind]. rewrite Hr. unfold onSlotClick. cbv zeta.
  match goal with |- context [store readable ?x _] => set (q := x) end. assert (Drawn ss q) as Hq.
  { destruct Hd. split; try done. cbn. by rewrite setStroke_datum. }
  assert (forall k, rects (view q) !! k = (fun x => if isActiveSlot (viewActive (view p)) x then x <| stroke := false |> else x)
    <$> rects (view p) !! k) as Hrects by (intros k; apply setStroke_lookup).
  assert (viewActive (view q) = viewActive (view p) /\ hovered q = Some i) as [Hqa Hqh] by by split.
  clearbody q. destruct (select_store ss q (Some (slot (datum r))) Hq) as (w' & -> & Hst & Hw & Hch & _).
  pose proof (drawn_datum _ _ _ _ Hd Hr) as Hin. pose proof (drawn_once _ _ Hd) as Hno.
  rewrite (findSlot_once ss (datum r) Hno Hin) in Hw, Hch.
  assert (view (notify readable q w' (Dispatch (setActiveSlot (Some (slot (datum r))))))
    = listenToActiveSlot (Some (datum r)) (view q)) as Hv.
  { apply Hch. rewrite <- (drawn_active _ _ Hq), Hqa. intros E. rewrite E in Ha. unfold isActiveSlot in Ha.
    by rewrite bool_decide_true in Ha. }
  cbn [mbind exec_bind]. eexists. split; [reflexivity|].
  match goal with |- context [navigate ?x ?e ?s] => destruct (navigate_view x e s) as (N1 & N2 & N3);
    revert N1 N2 N3; generalize (navigate x e s) end.
  intros p' N1 N2 N3. rewrite Hv in N1. cbn in N2, N3. split; [|split; [|by rewrite N2]].
  - destruct Hq as [_ Hv1 Hv2 _ _ _]. split; rewrite ?N1, ?N2; cbn; try done.
    + by rewrite setStroke_datum.
    + by intros a [= <-].
  - intros k x. rewrite N1, N3, Hqh. cbn. rewrite setStroke_lookup, Hrects.
    destruct (rects (view p) !! k) as [y|] eqn:Ey; [|done]. cbn. intros [= <-].
    assert (isActiveSlot (Some (datum r)) y = true <-> k = i) as Hki.
    { split; [|intros ->; rewrite Hr in Ey; injection Ey as <-; by apply bool_decide_eq_true].
      intros H. apply (isActiveSlot_once ss) in H; [|done|done|exact (drawn_datum _ _ _ _ Hd Ey)].
      eapply (NoDup_lookup (slot <$> ss)); [done| |]; rewrite <- (drawn_rects _ _ Hd), !list_lookup_fmap.
      - by rewrite Ey.
      - rewrite Hr. cbn. by rewrite H. }
    pose proof (Hc k y Ey) as Hy. rewrite Hh in Hy.
    destruct (isActiveSlot (viewActive (view p)) y) eqn:Eay, (isActiveSlot (Some (datum r)) y) eqn:Eny;
      rewrite ?(isActiveSlot_datum _ (y <| stroke := false |>) y) by done; rewrite ?Eny; cbn;
      rewrite ?(isActiveSlot_datum _ (y <| stroke := true |>) y) by done; rewrite ?Eny;
      try (rewrite (isActiveSlot_datum _ _ y) by done; rewrite Eny); naive_solver.
Qed.

(** Clicking the selected slot selects it again, which no subscription reports
    after the highlight was removed. *)
Lemma click_selected ss p i r : Drawn ss p -> hovered p = Some i -> rects (view p) !! i = Some r ->
  isActiveSlot (viewActive (view p)) r = true ->
  exists p', pageStep readable p Click = Ret p' /\ viewActive (view p') = Some (datum r) /\
    activeSlot (state (world p')) = Some (datum r) /\ rects (view p') !! i = Some (r <| stroke := false |>).
Proof.
  intros Hd Hh Hr Ha. cbn [pageStep]. rewrite Hh. cbn [mbind option_bind]. rewrite Hr. unfold onSlotClick. cbv zeta.
  match goal with |- context [store readable ?x _] => set (q := x) end. assert (Drawn ss q) as Hq.
  { destruct Hd. split; try done. cbn. by rewrite setStroke_datum. }
  assert (rects (view q) !! i = Some (r <| stroke := false |>)) as Hqr.
  { unfold q. cbn. rewrite setStroke_lookup, Hr. cbn. by rewrite Ha. }
  assert (viewActive (view q) = viewActive (view p)) as Hqa by done. clearbody q.
  pose proof (drawn_datum _ _ _ _ Hd Hr) as Hin. pose proof (drawn_once _ _ Hd) as Hno.
  destruct (select_store ss q (Some (slot (datum r))) Hq) as (w' & -> & _ & Hw & _ & Hsame).
  rewrite (findSlot_once ss (datum r) Hno Hin) in Hw, Hsame.
  assert (viewActive (view p) = Some (datum r)) as Hact.
  { destruct (viewActive (view p)) as [a|] eqn:E; [|done].
    by rewrite (isActiveSlot_once ss a r Hno (drawn_select _ _ Hd a E) Hin Ha). }
  specialize (Hsame ltac:(rewrite <- (drawn_active _ _ Hq), Hqa, Hact; tauto)).
  cbn [mbind exec_bind]. eexists. split; [reflexivity|].
  match goal with |- context [navigate ?x ?e ?s] => destruct (navigate_view x e s) as (-> & -> & _) end.
  rewrite Hsame, Hqa. done.
Qed.

(** Closing the details of a slot leaves its highlight. *)
Lemma close_details ss p a : Drawn ss p -> clean p -> viewActive (view p) = Some a ->
  exists p' i r, pageStep readable p CloseDetails = Ret p' /\ viewActive (view p') = None /\
    activeSlot (state (world p')) = None /\ rects (view p') !! i = Some r /\ datum r = a /\ stroke r = true.
Proof.
  intros Hd Hc Ha. cbn [pageStep]. unfold removeActiveSlot.
  destruct (select_store ss p None Hd) as (w' & -> & _ & Hw & Hch & _).
  assert (findSlot None ss = None) as Hn.
  { unfold findSlot. apply find_None_iff. intros x _. by apply bool_decide_eq_false. }
  rewrite Hn in Hw, Hch. specialize (Hch ltac:(by rewrite <- (drawn_active _ _ Hd), Ha)).
  pose proof (drawn_select _ _ Hd a Ha) as Hin. rewrite <- (drawn_rects _ _ Hd) in Hin.
  apply list_elem_of_fmap in Hin as (r & -> & [i Hi]%list_elem_of_lookup).
  cbn [mbind exec_bind]. eexists _, i, r. split; [reflexivity|].
  match goal with |- context [navigate ?x ?e ?s] => destruct (navigate_view x e s) as (-> & -> & _) end.
  rewrite Hch. cbn. rewrite setStroke_lookup, Hi. split_and!; try done.
  apply (Hc i r Hi). left. rewrite Ha. by apply bool_decide_eq_true.
Qed.

Lemma filter_step ss p f : Drawn ss p -> clean p ->
  exists p', pageStep readable p (ChangeFilter f) = Ret p' /\ Drawn ss p' /\ clean p'.
Proof.
  intros Hd Hc. cbn [pageStep]. unfold store. cbn. eexists. split; [reflexivity|].
  set (fs := f (filters (state (world p)))). unfold notify. cbn. rewrite bool_decide_true by done. cbn.
  destruct Hd as [H1 H2 H3 H4 H5 H6]. unfold listenToFilters. cbn -[changeSlotsColors]. rewrite H2. destruct ss as [|s ss].
  - by split; [split|].
  - cbn -[changeSlotsColors]. rewrite <- H3, recolor_same. split.
    + split; cbn; first [by rewrite <- list_fmap_compose|by rewrite ?H3].
    + intros k r. cbn. rewrite list_lookup_fmap. intros (r' & Hr & ->)%fmap_Some. cbn.
      rewrite (isActiveSlot_datum _ _ r') by done. by apply Hc.
Qed.

(** The first answer draws its slots, and highlights the one of the address. *)
Lemma first_draw p ss : rects (view p) = [] -> hovered p = None -> is_Some (slotsRequest (world p)) ->
  NoDup (slot <$> ss) -> exists p', pageStep readable p (Store (SlotsAnswer ss)) = Ret p' /\ Drawn ss p' /\ clean p' /\
    activeSlot (state (world p')) = findSlot (activeSlotRoute (state (world p))) ss.
Proof.
  intros Hr Hh [q Hq] Hn. cbn [pageStep]. unfold store. cbn [BpOverview.step]. rewrite Hq. cbn.
  eexists. split; [reflexivity|]. unfold notify. cbn [assignsEpoch newSlots assignsFilters]. rewrite Hq.
  rewrite (bool_decide_true (is_Some (Some q))) by (by eexists). cbn -[setStroke newRect]. rewrite Hr.
  cbn -[setStroke newRect]. split; [|split; [|done]].
  - split; cbn -[setStroke newRect]; [eauto|done| |done|done|apply findSlot_elem].
    rewrite setStroke_datum, <- list_fmap_compose. apply list_fmap_id.
  - intros k r. cbn -[setStroke newRect]. rewrite setStroke_lookup, list_lookup_fmap, Hh.
    destruct (ss !! k) as [d|]; [|done]. cbn -[newRect]. intros [= <-].
    destruct (isActiveSlot _ (newRect _ d)) eqn:E.
    + rewrite (isActiveSlot_datum _ _ (newRect (viewFilters (view p)) d)) by done. rewrite E. cbn. naive_solver.
    + rewrite E. cbn. naive_solver.
Qed.

(** The mouse, the filters, the tabs, and clicks on slots that are not selected. *)
Definition gentle (p : Page) (e : PageEvent) : Prop :=
  match e with
  | HoverIn _ | HoverOut | ChangeFilter _ | SelectTab _ | Resize _ => True
  | Click => forall i r, hovered p = Some i -> rects (view p) !! i = Some r -> isActiveSlot (viewActive (view p)) r = false
  | _ => False
  end.

Lemma gentle_step ss p e : Drawn ss p -> clean p -> gentle p e ->
  exists p', pageStep readable p e = Ret p' /\ Drawn ss p' /\ clean p'.
Proof.
  intros Hd Hc He. destruct e as [| i| | | | |f| |t|d]; try done.
  - cbn [pageStep]. eexists. split; [reflexivity|]. destruct (i <? _); [by apply mouseOver_spec|done].
  - cbn [pageStep]. eexists. split; [reflexivity|]. destruct (mouseOut_spec ss p Hd Hc) as (? & ? & _). done.
  - destruct (hovered p ≫= fun i => rects (view p) !! i) as [r|] eqn:E.
    + apply bind_Some in E as (i & Hi & Hr). destruct (click_other ss p i r Hd Hc Hi Hr (He i r Hi Hr)) as (p' & ? & ? & ? & _).
      by exists p'.
    + exists p. cbn [pageStep]. by rewrite E.
  - by apply filter_step.
  - eexists. split; [reflexivity|]. by split; [destruct Hd; split|].
  - eexists. split; [reflexivity|]. by split; [destruct Hd; split|].
Qed.

(** C38: from the first answer with slots on, while the user moves the mouse, filters
    and selects other slots, exactly the selected slot and the one under the mouse
    are highlighted, and nothing throws.  Two clicks break this: a click on the
    selected slot removes its highlight, and closing the details leaves the highlight
    of a slot that is no longer selected. *)
Theorem overview_highlight p0 p1 p ss :
  rects (view p0) = [] -> hovered p0 = None -> is_Some (slotsRequest (world p0)) -> NoDup (slot <$> ss) ->
  pageStep readable p0 (Store (SlotsAnswer ss)) = Ret p1 -> reachable_exec (pageStep readable) p1 gentle p ->
  (datum <$> rects (view p) = ss /\ viewActive (view p) = activeSlot (state (world p)) /\
   forall i r, rects (view p) !! i = Some r ->
     stroke r = true <-> isActiveSlot (activeSlot (state (world p))) r = true \/ hovered p = Some i) /\
  (forall e, gentle p e -> exists p', pageStep readable p e = Ret p') /\
  (forall i r, hovered p = Some i -> rects (view p) !! i = Some r ->
     isActiveSlot (activeSlot (state (world p))) r = true -> exists p', pageStep readable p Click = Ret p' /\
       activeSlot (state (world p')) = Some (datum r) /\ rects (view p') !! i = Some (r <| stroke := false |>)) /\
  (forall a, activeSlot (state (world p)) = Some a -> exists p' i r, pageStep readable p CloseDetails = Ret p' /\
     activeSlot (state (world p')) = None /\ rects (view p') !! i = Some r /\ datum r = a /\ stroke r = true).
Proof.
  intros H1 H2 H3 H4 Hs Hr. destruct (first_draw p0 ss H1 H2 H3 H4) as (q & Hq & Hd & Hc & _).
  rewrite Hs in Hq. injection Hq as <-.
  assert (Drawn ss p /\ clean p) as [Hdp Hcp].
  { revert p Hr. apply reachable_exec_inv; [done|]. intros p e p' [Hdp Hcp] He Hp.
    destruct (gentle_step ss p e Hdp Hcp He) as (p2 & E & ? & ?). rewrite Hp in E. by injection E as ->. }
  rewrite <- (drawn_active _ _ Hdp). split_and!.
  - apply Hdp.
  - done.
  - apply Hcp.
  - intros e He. destruct (gentle_step ss p e Hdp Hcp He) as (p' & ? & _). by exists p'.
  - intros i r Hi Hri Ha. destruct (click_selected ss p i r Hdp Hi Hri Ha) as (p' & ? & _ & ? & ?). by exists p'.
  - intros a Ha. destruct (close_details ss p a Hdp Hcp Ha) as (p' & i & r & ? & _ & ? & ? & ? & ?). by exists p', i, r.
Qed.

(** Switching the node throws exactly between the answer with the details or the
    epochs and the one with the slots: the selection of the address is then looked
    up in slots that are not there. *)
Theorem overview_switch_throws p :
  (exists err, pageStep readable p SwitchNode = Throw err) <->
  exists e, activeEpoch (state (world p)) = Some e /\ slots e = None.
Proof.
  cbn [pageStep]. unfold listenToNodeChange, store. cbn.
  destruct (activeEpoch (state (world p))) as [e|] eqn:E; [|cbn; naive_solver].
  destruct (slots e) eqn:Es; cbn; naive_solver.
Qed.

(** The share of the slots that were used is a percentage between 0 and 100 of
    details the service made from counters, and no number without slots. *)
Theorem slots_used_bounded format r : forall w, summary r = Some w ->
  (0 <= w_canonical w)%Z -> (0 <= w_orphaned w)%Z -> (0 <= w_missed w)%Z -> (0 <= w_future_rights w)%Z ->
  if (totalOf w =? 0)%Z then slotsUsed (mapDetails format r) = "NaN%"
  else exists z, slotsUsed (mapDetails format r) = showZ z +:+ "%" /\ (0 <= z <= 100)%Z.
Proof.
  intros w Hw H1 H2 H3 H4. unfold slotsUsed, mapDetails. rewrite Hw. cbn [totalSlots dCanonical dOrphaned dMissed].
  unfold totalOf. destruct (_ =? 0)%Z eqn:E.
  - apply Z.eqb_eq in E. by rewrite (proj2 (Z.eqb_eq _ _)) by lia.
  - apply Z.eqb_neq in E. eexists. split; [reflexivity|].
    set (u := (w_canonical w + w_orphaned w + w_missed w)%Z). set (f := w_future_rights w) in *.
    assert (0 <= u)%Z as Hu by (unfold u; lia).
    assert (0 <= inject_Z u / inject_Z (u + f) <= 1)%Q as [Hq1 Hq2].
    { assert (0 < inject_Z (u + f))%Q as Hp by (change 0%Q with (inject_Z 0); rewrite <- Zlt_Qlt; lia).
      split.
      - apply Qle_shift_div_l; [done|]. rewrite Qmult_0_l. change 0%Q with (inject_Z 0). rewrite <- Zle_Qle. done.
      - apply Qle_shift_div_r; [done|]. rewrite Qmult_1_l. rewrite <- Zle_Qle. lia. }
    split.
    + rewrite <- (Qfloor_Z 0). apply Qfloor_resp_le. change (inject_Z 0) with 0%Q. lra.
    + apply Z.lt_succ_r. rewrite Zlt_Qlt. eapply Qle_lt_trans; [apply Qfloor_le|]. change (inject_Z (Z.succ 100)) with 101%Q. lra.
Qed.

End Strokes.

(** * Concrete pages *)

Definition demoSlot (n : Z) : BlockProductionOverviewSlot :=
  mkSlot n n None n Canonical true true false false false None false.
Definition demoDetails : EpochDetails := mkDetails 3 2 2 2 0 0 0 0 1 None None None None None.

Notation demoStep := (pageStep (fun _ => "")).

Definition blankPage : Page :=
  mkPage initialWorld (mkView [] None None None (filters initialState)) (mkPanel 0 1 None None "" "" None None None) true None (None, None).
Definition shown (m : exec Page) : Page := match m with Ret p => p | Throw _ => blankPage end.

(** The address of slot 1 of epoch 3, its details, its slots, and the mouse over slot 0. *)
Definition demoLoading : Page :=
  shown (p ← openPage (fun _ => "") true (Some 3, Some 1)%Z; demoStep p (Store (DetailsAnswer demoDetails))).
Definition demoLoaded : Page := shown (demoStep demoLoading (Store (SlotsAnswer [demoSlot 0; demoSlot 1]))).
Definition demoHovered : Page := shown (demoStep demoLoaded (HoverIn 0)).

(** The slot of the address is highlighted; closing its details leaves it so. *)
Lemma overview_highlight_witness : stroke <$> rects (view demoHovered) = [true; true] /\
  exists p' i r, demoStep demoHovered CloseDetails = Ret p' /\ activeSlot (state (world p')) = None /\
    rects (view p') !! i = Some r /\ datum r = demoSlot 1 /\ stroke r = true.
Proof.
  split; [vm_compute; reflexivity|].
  apply (overview_highlight (fun _ => "") demoLoading demoLoaded demoHovered [demoSlot 0; demoSlot 1]).
  - vm_compute. reflexivity.
  - vm_compute. reflexivity.
  - eexists. vm_compute. reflexivity.
  - apply (bool_decide_unpack _). vm_compute. reflexivity.
  - vm_compute. reflexivity.
  - apply (reachable_exec_step _ _ _ demoLoaded (HoverIn 0)); [apply reachable_exec_init|exact I|vm_compute; reflexivity].
  - vm_compute. reflexivity.
Defined.

Definition demoWindow : WindowResponse := mkWindowResponse 4 1 0 0 2 0 9 0 0 false.

Lemma slots_used_bounded_witness : exists z,
  slotsUsed (mapDetails (fun _ => "") (mkEpochResponse 1 0 0 0 (Some demoWindow) [])) = showZ z +:+ "%" /\ (0 <= z <= 100)%Z.
Proof.
  refine (slots_used_bounded (fun _ => "") (mkEpochResponse 1 0 0 0 (Some demoWindow) []) demoWindow eq_refl _ _ _ _);
    vm_compute; discriminate.
Defined.

End BpOverviewPage.
