(* ===== verification/Mempool.v ===== *)
(** Mempool (frontend/src/app/features/mempool): the transactions waiting in the
    node's pool, their decoded memos, the filters of the table and the effects that
    poll the pool; with shared/helpers/transaction.helper.ts, which decodes memos. *)

From S2P Require Import Prelude JsRuntime.

Module Mempool.

(** * Memos: transaction.helper.ts *)

(** [bs58check.decode], a third-party function: the bytes of the text, or an
    exception when its checksum is wrong. *)
Class Bs58check := bs58decode : string -> exec (list Z).

Definition hexDigit (d : Z) : Ascii.ascii :=
  Ascii.ascii_of_nat (Z.to_nat (if (d <? 10)%Z then 48 + d else 87 + d)).

(** [('0' + (byte & 0xff).toString(16)).slice(-2)], joined. *)
Fixpoint toHexString (bytes : list Z) : string :=
  match bytes with
  | [] => ""
  | b :: bytes =>
      let b := Z.land b 255 in
      String (hexDigit (b / 16)) (String (hexDigit (b mod 16)) (toHexString bytes))
  end.

(** A decoded memo is a JavaScript text, the list of its UTF-16 code units; these
    are the units of a text of characters below 256. *)
Definition bytesOf (text : string) : list Z := (fun c => Z.of_N (Ascii.N_of_ascii c)) <$> String.list_ascii_of_string text.

(** [String.fromCharCode] takes its argument modulo 2^16, and [undefined] as 0. *)
Definition fromCharCode (b : option Z) : Z := (default 0 b mod 65536)%Z.

(** [for (let i = 2; i < len + 2; i++) result += String.fromCharCode(payload[i])] *)
Fixpoint readChars (payload : list Z) (i n : nat) : list Z :=
  match n with
  | O => []
  | S n => fromCharCode (payload !! i) :: readChars payload (S i) n
  end.

Definition decodePayload (payload : list Z) : list Z :=
  if bool_decide (payload !! 0 = Some 0%Z) then bytesOf (toHexString payload)
  else readChars payload 2 (Z.to_nat (default 0%Z (payload !! 1))).

Definition decodeMemo `{Bs58check} (memo : string) : exec (list Z) :=
  buffer ← bs58decode memo; Ret (decodePayload (sliceFrom 1 buffer)).

Definition between (lo hi u : Z) : bool := ((lo <=? u) && (u <=? hi))%Z.
Definition isHexChar (u : Z) : bool := between 48 57 u || between 97 102 u || between 65 70 u.
(** [[a-zA-Z0-9,\.]] *)
Definition isMemoChar (u : Z) : bool :=
  between 97 122 u || between 65 90 u || between 48 57 u || between 44 44 u || between 46 46 u.

(** The text starts with units that satisfy the tests, one after the other. *)
Fixpoint matches (ps : list (Z -> bool)) (l : list Z) : bool :=
  match ps, l with
  | [], _ => true
  | p :: ps, u :: l => p u && matches ps l
  | _ :: _, [] => false
  end.

(** [str.replace(/\\u[0-9a-fA-F]{4}/g, '')]: after a match, the [skip] units that
    are left of it are dropped too. *)
Definition escapeTail : list (Z -> bool) := [Z.eqb 117; isHexChar; isHexChar; isHexChar; isHexChar].
Fixpoint dropEscapesGo (skip : nat) (l : list Z) : list Z :=
  match l with
  | [] => []
  | u :: l =>
      match skip with
      | S skip => dropEscapesGo skip l
      | O => if (92 =? u)%Z && matches escapeTail l then dropEscapesGo 5 l else u :: dropEscapesGo 0 l
      end
  end.
Definition dropEscapes (l : list Z) : list Z := dropEscapesGo 0 l.

(** [str.replace(/[^a-zA-Z0-9,\.]/g, '')] *)
Definition keepChars (l : list Z) : list Z := List.filter isMemoChar l.

Definition removeUnicodeEscapes (str : list Z) : list Z := keepChars (dropEscapes str).

(** [str.includes(p)] *)
Fixpoint unitsInclude (l p : list Z) : bool :=
  matches (Z.eqb <$> p) l || match l with [] => false | _ :: l => unitsInclude l p end.

(** * Data *)

Inductive MempoolTransactionKind := ZK_APP | PAYMENT | DELEGATION.

#[export] Instance Kind_eq_dec : EqDecision MempoolTransactionKind.
Proof. solve_decision. Defined.

Record MempoolFilters := mkFilters { zkApp : bool; payment : bool; delegation : bool; search : string }.

(** A signed command: the second part of its body has an amount when it is a
    payment, and none when it is a delegation. *)
Record SignedCommand := mkSigned {
  fee_payer_pk : string; signedFee : string; signedNonce : string; signedMemo : string;
  bodyTag : string; bodyAmount : option string
}.
Record ZkappCommand := mkZkapp { public_key : string; zkFee : string; zkNonce : string; zkMemo : string }.

Inductive Command := Signed_command (c : SignedCommand) | Zkapp_command (c : ZkappCommand).

Record MempoolTransactionResponse := mkResponse { data : Command; hash : option string }.

(** [None] stands for NaN in [amount] of a payment and for [null] in that of a
    zkApp command. *)
Record MempoolTransaction := mkTx {
  kind : MempoolTransactionKind;
  txHash : option string;
  sender : string;
  fee : option Q;
  amount : option Q;
  nonce : option Q;
  memo : list Z;
  transactionData : Command;
  sentFromStressingTool : bool;
  sentByMyBrowser : bool
}.

(** * Service *)

(** [Number(s)] on the decimal text of the node, as an exact fraction; [None]
    stands for NaN. *)
Definition Number (s : option string) : option Q :=
  s ≫= fun s =>
    match splitFirst (Ascii.ascii_of_nat 46) s with
    | (a, None) => inject_Z <$> digitsValue 0 a
    | (a, Some b) =>
        if String.length a + String.length b =? 0 then None
        else x ← digitsValue 0 a; y ← digitsValue 0 b;
             Some (inject_Z x + inject_Z y / inject_Z (10 ^ Z.of_nat (String.length b)))%Q
    end.

(** What [memo.includes(getLocalStorage()?.getItem('browserId'))] looks for: the
    argument is converted to text. *)
Definition searchedId (browserId : nullable string) : string :=
  match browserId with Undef => "undefined" | Null => "null" | Val s => s end.

Section Service.
Context `{Bs58check} (browserId : nullable string).

Definition mapTx (tx : MempoolTransactionResponse) : exec MempoolTransaction :=
  match data tx with
  | Signed_command c =>
      m ← decodeMemo (signedMemo c);
      Ret (mkTx PAYMENT (hash tx) (fee_payer_pk c) (Number (Some (signedFee c)))
             ((fun q => q / inject_Z ONE_BILLION)%Q <$> Number (bodyAmount c)) (Number (Some (signedNonce c)))
             (removeUnicodeEscapes m) (data tx) (unitsInclude m (bytesOf "S.T."))
             (unitsInclude m (bytesOf (searchedId browserId))))
  | Zkapp_command c =>
      m ← decodeMemo (zkMemo c);
      Ret (mkTx ZK_APP (hash tx) (public_key c) (Number (Some (zkFee c))) None (Number (Some (zkNonce c)))
             (removeUnicodeEscapes m) (data tx) (unitsInclude m (bytesOf "S.T."))
             (unitsInclude m (bytesOf (searchedId browserId))))
  end.

Definition mapTxPoolResponse (response : list MempoolTransactionResponse) : exec (list MempoolTransaction) :=
  exec_map mapTx response.

Definition getTransactionPool (answer : exec (list MempoolTransactionResponse)) : exec (list MempoolTransaction) :=
  data ← answer; mapTxPoolResponse data.

End Service.

(** * Reducer *)

Record MempoolState := mkState {
  allTxs : list MempoolTransaction;
  txs : list MempoolTransaction;
  activeTx : option MempoolTransaction;
  filters : MempoolFilters;
  emptyInDatabase : bool;
  isLoading : bool
}.

#[export, refine] Instance State_copy : RecordCopy MempoolState := {
  record_copy s := mkState (allTxs s) (txs s) (activeTx s) (filters s) (emptyInDatabase s) (isLoading s) }.
Proof. by intros []. Defined.

Definition initialState : MempoolState := mkState [] [] None (mkFilters true true true "") false true.

Inductive MempoolActions :=
| init
| close
| getTxs
| getTxsSuccess (txs : list MempoolTransaction)
| changeFilters (filters : MempoolFilters)
| setActiveTx (tx : option MempoolTransaction)
| toggleSidePanel.

Definition noHash : JsError := TypeError "Cannot read properties of undefined (reading 'toLowerCase')".

Definition kindHidden (filters : MempoolFilters) (tx : MempoolTransaction) : bool :=
  match kind tx with
  | DELEGATION => negb (delegation filters)
  | PAYMENT => negb (payment filters)
  | ZK_APP => negb (zkApp filters)
  end.

Definition keepTx (filters : MempoolFilters) (tx : MempoolTransaction) : exec bool :=
  if kindHidden filters tx then Ret false
  else if 2 <? String.length (search filters) then
    let searchTerm := toLowerCase (search filters) in
    match txHash tx with
    | None => Throw noHash
    | Some h => Ret (strIncludes (toLowerCase h) searchTerm || strIncludes (toLowerCase (sender tx)) searchTerm)
    end
  else Ret true.

(** [Array.prototype.filter] with a callback that can throw. *)
Fixpoint exec_filter {A} (p : A -> exec bool) (l : list A) : exec (list A) :=
  match l with
  | [] => Ret []
  | x :: l => b ← p x; l' ← exec_filter p l; Ret (if b : bool then x :: l' else l')
  end.

Definition filterTxs (txs : list MempoolTransaction) (filters : MempoolFilters) : exec (list MempoolTransaction) :=
  exec_filter (keepTx filters) txs.

Definition reducer (state : MempoolState) (action : MempoolActions) : exec MempoolState :=
  match action with
  | getTxsSuccess l =>
      shown ← filterTxs l (filters state);
      Ret (state <| emptyInDatabase := length l =? 0 |> <| isLoading := false |> <| allTxs := l |> <| txs := shown |>)
  | changeFilters f =>
      shown ← filterTxs (allTxs state) f;
      Ret (state <| filters := f |> <| txs := shown |>)
  | setActiveTx tx => Ret (state <| activeTx := tx |>)
  | close => Ret initialState
  | init | getTxs | toggleSidePanel => Ret state
  end.

(** * Effects *)

(** [getTxs$] switches: a new request drops the one in progress, and closing the
    page drops it too.  A request that fails, or whose answer cannot be mapped,
    adds an error and loads an empty list. *)
Record World := mkWorld { state : MempoolState; inFlight : bool; errors : list (MinaErrorType * JsError) }.

#[export, refine] Instance World_copy : RecordCopy World := {
  record_copy w := mkWorld (state w) (inFlight w) (errors w) }.
Proof. by intros []. Defined.

Inductive Event := Dispatch (a : MempoolActions) | Answer (a : exec (list MempoolTransactionResponse)).

Definition getTxsEffect (w : World) (a : MempoolActions) : World :=
  match a with
  | init | getTxs => w <| inFlight := true |>
  | close => w <| inFlight := false |>
  | _ => w
  end.

Section Effects.
Context `{Bs58check} (browserId : nullable string).

Definition step (w : World) (e : Event) : exec World :=
  match e with
  | Dispatch a => s ← reducer (state w) a; Ret (getTxsEffect (w <| state := s |>) a)
  | Answer answer =>
      if inFlight w then
        match getTransactionPool browserId answer with
        | Ret l => s ← reducer (state w) (getTxsSuccess l); Ret (w <| state := s |> <| inFlight := false |>)
        | Throw e =>
            s ← reducer (state w) (getTxsSuccess []);
            Ret (w <| state := s |> <| inFlight := false |> <| errors := errors w ++ [(GENERIC, e)] |>)
        end
      else Ret w
  end.

End Effects.

Definition initialWorld : World := mkWorld initialState false [].

(** * Components *)

(** The numbers beside the filters: mempool-filters.component.ts. *)
Definition listenToActiveEpoch (l : list MempoolTransaction) : nat * nat * nat :=
  (countIf (fun tx => bool_decide (kind tx = ZK_APP)) l,
   countIf (fun tx => bool_decide (kind tx = PAYMENT)) l,
   countIf (fun tx => bool_decide (kind tx = DELEGATION)) l).

Definition inRange (lo hi : nat) (c : Ascii.ascii) : bool :=
  (lo <=? Ascii.nat_of_ascii c) && (Ascii.nat_of_ascii c <=? hi).

(** [value.trim()] on ASCII text. *)
Definition isSpace (c : Ascii.ascii) : bool := inRange 9 13 c || inRange 32 32 c || inRange 160 160 c.
Fixpoint trimStart (s : string) : string :=
  match s with String c s' => if isSpace c then trimStart s' else s | EmptyString => EmptyString end.
Fixpoint strRev (s acc : string) : string :=
  match s with EmptyString => acc | String c s => strRev s (String c acc) end.
Definition trim (s : string) : string := strRev (trimStart (strRev (trimStart s) "")) "".

(** Both sides of the length test of [listenToSearchChanges] dispatch this. *)
Definition changeSearch (f : MempoolFilters) (value : string) : MempoolActions :=
  changeFilters (mkFilters (zkApp f) (payment f) (delegation f) (trim value)).

Definition clearFilters : MempoolActions := changeFilters (mkFilters true true true "").

(** The table: mempool-table.component.ts.  [fromRoute] is the hash of the address,
    looked up once the rows are there. *)
Record Table := mkTable {
  rows : list MempoolTransaction; fromRoute : option string; activeRow : option MempoolTransaction;
  emptyBecauseOfFilters : bool }.

Definition onRowClick (t : Table) (tx : option MempoolTransaction) : list MempoolActions :=
  match tx with
  | None => []
  | Some x => if bool_decide ((activeRow t ≫= txHash) = txHash x) then [] else [setActiveTx (Some x)]
  end.

Definition listenToTxsChanges (t : Table) (l : list MempoolTransaction) : Table * list MempoolActions :=
  if truthyStr (fromRoute t) && (0 <? length l) then
    (mkTable l None (activeRow t) (length l =? 0),
     onRowClick t (List.find (fun x => bool_decide (txHash x = fromRoute t)) l))
  else (mkTable l (fromRoute t) (activeRow t) (length l =? 0), []).

Definition listenToActiveTxChange (t : Table) (tx : option MempoolTransaction) : Table :=
  mkTable (rows t) (match activeRow t with None => tx ≫= txHash | Some _ => fromRoute t end) tx
    (emptyBecauseOfFilters t).

(** * Theorems *)

(** ** Memos *)

(** ** Encodings of a text of Unicode code points *)

Definition codePoint (c : Z) : Prop := (0 <= c < 1114112)%Z.

Definition utf8 (c : Z) : list Z :=
  if (c <? 128)%Z then [c]
  else if (c <? 2048)%Z then [192 + c / 64; 128 + c mod 64]%Z
  else if (c <? 65536)%Z then [224 + c / 4096; 128 + (c / 64) mod 64; 128 + c mod 64]%Z
  else [240 + c / 262144; 128 + (c / 4096) mod 64; 128 + (c / 64) mod 64; 128 + c mod 64]%Z.
Definition utf16 (c : Z) : list Z :=
  if (c <? 65536)%Z then [c]
  else [55296 + (c - 65536) / 1024; 56320 + (c - 65536) mod 1024]%Z.
Definition toUtf8 (text : list Z) : list Z := concat (utf8 <$> text).
Definition toUtf16 (text : list Z) : list Z := concat (utf16 <$> text).

(** Both write an ASCII character as itself, and another one by units that are no
    ASCII characters. *)
Definition asciiExact (f : Z -> list Z) : Prop := forall c,
  (0 <= c)%Z -> ((c < 128)%Z -> f c = [c]) /\ ((128 <= c)%Z -> f c <> [] /\ Forall (fun u => 128 <= u)%Z (f c)).

Lemma utf8_asciiExact : asciiExact utf8.
Proof.
  intros c Hc. unfold utf8. destruct (Z.ltb_spec c 128); split; try lia; [done|]. intros _.
  destruct (c <? 2048)%Z, (c <? 65536)%Z; split; try done; repeat constructor;
    pose proof (Z.div_pos c 64); pose proof (Z.div_pos c 4096); pose proof (Z.div_pos c 262144);
    pose proof (Z.mod_pos_bound c 64); pose proof (Z.mod_pos_bound (c / 64) 64);
    pose proof (Z.mod_pos_bound (c / 4096) 64); lia.
Qed.

Lemma utf16_asciiExact : asciiExact utf16.
Proof.
  intros c Hc. unfold utf16. destruct (Z.ltb_spec c 65536); (split; intros Hl; [done || lia|split; [done|]]).
  - by constructor.
  - pose proof (Z.div_pos (c - 65536) 1024). pose proof (Z.mod_pos_bound (c - 65536) 1024). repeat constructor; lia.
Qed.

Lemma utf8_units c : (if (c <? 65536)%Z then 1 else 2) <= length (utf8 c) /\
  (length (utf8 c) = (if (c <? 65536)%Z then 1 else 2) <-> (c < 128)%Z).
Proof.
  unfold utf8. destruct (Z.ltb_spec c 128), (Z.ltb_spec c 2048), (Z.ltb_spec c 65536); cbn; lia.
Qed.

(** A text is written the same in bytes and in units when it is ASCII, and only then. *)
Lemma utf8_utf16 text : Forall codePoint text ->
  length (toUtf16 text) <= length (toUtf8 text) /\
  (Forall (fun c => c < 128)%Z text -> toUtf8 text = toUtf16 text) /\
  (length (toUtf8 text) = length (toUtf16 text) -> Forall (fun c => c < 128)%Z text).
Proof.
  induction 1 as [|c text Hc Ht (IH1 & IH2 & IH3)]; [done|]. rewrite Forall_cons.
  change (toUtf8 (c :: text)) with (utf8 c ++ toUtf8 text). change (toUtf16 (c :: text)) with (utf16 c ++ toUtf16 text).
  rewrite !length_app. destruct (utf8_units c) as [H1 H2].
  assert (length (utf16 c) = if (c <? 65536)%Z then 1 else 2) as -> by (unfold utf16; by destruct (c <? 65536)%Z).
  split_and!; [lia| |].
  - intros [Hl Hr]. rewrite IH2 by done. f_equal. unfold codePoint in Hc.
    by rewrite (proj1 (utf8_asciiExact c ltac:(lia))), (proj1 (utf16_asciiExact c ltac:(lia))).
  - intros E. rewrite <- H2. split; [lia|]. apply IH3. lia.
Qed.

(** ** Cleaning and searching do not see how other characters are written *)

Definition asciiTest (p : Z -> bool) : Prop := forall u, p u = true -> (u < 128)%Z.

Section Encoded.
Context (f : Z -> list Z) (Hf : asciiExact f).
Notation encode text := (concat (f <$> text)).

Lemma encode_cases c text : (0 <= c)%Z ->
  ((c < 128)%Z /\ encode (c :: text) = c :: encode text) \/
  ((128 <= c)%Z /\ exists h hs, (128 <= h)%Z /\ Forall (fun u => 128 <= u)%Z hs /\
     encode (c :: text) = h :: hs ++ encode text).
Proof.
  intros Hc. destruct (Hf c Hc) as [H1 H2]. cbn [fmap list_fmap concat].
  destruct (Z.lt_ge_cases c 128) as [Hl|Hl]; [left; by rewrite H1|right; split; [done|]].
  destruct (H2 Hl) as [Hn Ha]. destruct (f c) as [|h hs]; [done|]. apply Forall_cons in Ha as [Hh Hs]. by exists h, hs.
Qed.

Lemma matches_encode ps text : Forall asciiTest ps -> Forall (fun c => 0 <= c)%Z text ->
  matches ps (encode text) = matches ps text.
Proof.
  intros Hp. revert text. induction Hp as [|p ps Hp Hps IH]; intros text Ht; [done|].
  destruct Ht as [|c text Hc Ht]; [done|].
  destruct (encode_cases c text Hc) as [[Hl ->]|[Hl (h & hs & Hh & _ & ->)]]; cbn [matches]; [by rewrite IH|].
  destruct (p c) eqn:E1; [apply Hp in E1; lia|]. destruct (p h) eqn:E2; [apply Hp in E2; lia|done].
Qed.

Lemma matches_high ps u l : ps <> [] -> Forall asciiTest ps -> (128 <= u)%Z -> matches ps (u :: l) = false.
Proof.
  intros Hn Hp Hu. destruct Hp as [|p ps Hp Hps]; [done|]. cbn. destruct (p u) eqn:E; [apply Hp in E; lia|done].
Qed.

Lemma dropEscapes_high hs l : Forall (fun u => 128 <= u)%Z hs ->
  keepChars (dropEscapesGo 0 (hs ++ l)) = keepChars (dropEscapesGo 0 l).
Proof.
  induction 1 as [|u hs Hu Hs IH]; [done|]. cbn [app dropEscapesGo].
  destruct (Z.eqb_spec 92 u); [lia|]. cbn [andb]. unfold keepChars. cbn [List.filter].
  destruct (isMemoChar u) eqn:E; [|exact IH]. unfold isMemoChar, between in E. lia.
Qed.

Lemma escapeTail_ascii : Forall asciiTest escapeTail.
Proof. repeat constructor; intros u; unfold isHexChar, between; lia. Qed.

Lemma matches_low ps l : Forall asciiTest ps -> matches ps l = true ->
  length ps <= length l /\ Forall (fun u => u < 128)%Z (take (length ps) l).
Proof.
  intros Hp. revert l. induction Hp as [|p ps Hp Hps IH]; intros l; [cbn; intros _; split; [lia|constructor]|].
  destruct l as [|u l]; [done|]. cbn [matches length take]. intros [Hu Hm]%andb_true_iff.
  destruct (IH l Hm) as [H1 H2]. split; [lia|]. constructor; [by apply Hp|done].
Qed.

Lemma dropEscapes_encode text : Forall (fun c => 0 <= c)%Z text -> forall k,
  k <= length text -> Forall (fun u => u < 128)%Z (take k text) ->
  keepChars (dropEscapesGo k (encode text)) = keepChars (dropEscapesGo k text).
Proof.
  induction 1 as [|c text Hc Ht IH]; intros k Hk Hl; [by destruct k|].
  destruct k as [|k]; cbn [take length] in Hk, Hl.
  - assert (keepChars (dropEscapesGo 0 (encode text)) = keepChars (dropEscapesGo 0 text)) as IH0.
    { apply IH; [lia|constructor]. }
    destruct (encode_cases c text Hc) as [[Hc' ->]|[Hc' (h & hs & Hh & Hs & ->)]].
    + cbn [dropEscapesGo]. rewrite matches_encode by (try apply escapeTail_ascii; done).
      destruct ((92 =? c)%Z && matches escapeTail text) eqn:E.
      * apply andb_true_iff in E as [_ E]. apply matches_low in E; [|apply escapeTail_ascii]. destruct E as [E1 E2]. apply IH; [exact E1|exact E2].
      * unfold keepChars in *. cbn [List.filter]. by rewrite IH0.
    + change (h :: hs ++ encode text) with ((h :: hs) ++ encode text).
      rewrite dropEscapes_high, IH0 by by constructor. symmetry.
      apply (dropEscapes_high [c] text). by constructor.
  - apply Forall_cons in Hl as [Hc' Hl].
    destruct (encode_cases c text Hc) as [[_ ->]|[? _]]; [|lia]. cbn [dropEscapesGo]. apply IH; [lia|done].
Qed.

Lemma removeUnicodeEscapes_encode text : Forall (fun c => 0 <= c)%Z text ->
  removeUnicodeEscapes (encode text) = removeUnicodeEscapes text.
Proof. intros Ht. apply dropEscapes_encode; [done|lia|constructor]. Qed.

Lemma eqb_asciiTests p : Forall (fun u => u < 128)%Z p -> Forall asciiTest (Z.eqb <$> p).
Proof.
  intros Hp. apply Forall_fmap. eapply Forall_impl; [exact Hp|]. intros x Hx y Hy%Z.eqb_eq. cbn in Hx. lia.
Qed.

Lemma unitsInclude_high p hs l : p <> [] -> Forall (fun u => u < 128)%Z p -> Forall (fun u => 128 <= u)%Z hs ->
  unitsInclude (hs ++ l) p = unitsInclude l p.
Proof.
  intros Hn Hp. induction 1 as [|u hs Hu Hs IH]; [done|]. cbn [app unitsInclude].
  rewrite matches_high; [exact IH|by destruct p| |done].
  by apply eqb_asciiTests.
Qed.

Lemma unitsInclude_encode p text : Forall (fun u => u < 128)%Z p -> Forall (fun c => 0 <= c)%Z text ->
  unitsInclude (encode text) p = unitsInclude text p.
Proof.
  intros Hp Ht. destruct (decide (p = [])) as [->|Hn]; [by destruct text, (encode _)|].
  assert (Forall asciiTest (Z.eqb <$> p)) as Hps.
  { by apply eqb_asciiTests. }
  induction Ht as [|c text Hc Ht IH]; [done|].
  destruct (encode_cases c text Hc) as [[Hc' E]|[Hc' (h & hs & Hh & Hs & E)]].
  - pose proof (matches_encode (Z.eqb <$> p) (c :: text) Hps ltac:(by constructor)) as Hm.
    rewrite E in Hm |- *. cbn [unitsInclude]. by rewrite Hm, IH.
  - rewrite E. change (h :: hs ++ encode text) with ((h :: hs) ++ encode text).
    rewrite unitsInclude_high by (done || by constructor). rewrite IH. symmetry.
    apply (unitsInclude_high p [c] text); [done|done|by constructor].
Qed.

End Encoded.

Lemma readChars_bytes bs pad pre : Forall (fun b => 0 <= b < 65536)%Z bs ->
  readChars (pre ++ bs ++ pad) (length pre) (length bs) = bs.
Proof.
  intros Hb. revert pre. induction Hb as [|b bs Hb Hbs IH]; intros pre; [done|].
  rewrite <- app_comm_cons. cbn [readChars length]. rewrite list_lookup_middle by done. f_equal.
  - unfold fromCharCode. cbn. by apply Z.mod_small.
  - specialize (IH (pre ++ [b])). rewrite length_app in IH. cbn in IH. rewrite Nat.add_1_r in IH.
    by rewrite <- app_assoc in IH.
Qed.

Lemma utf8_bytes text : Forall codePoint text -> Forall (fun b => 0 <= b < 65536)%Z (toUtf8 text).
Proof.
  induction 1 as [|c text Hc Ht IH]; [constructor|]. change (toUtf8 (c :: text)) with (utf8 c ++ toUtf8 text).
  apply Forall_app. split; [|done]. unfold codePoint in Hc. unfold utf8.
  destruct (Z.ltb_spec c 128), (Z.ltb_spec c 2048), (Z.ltb_spec c 65536); repeat constructor;
    Z.div_mod_to_equations; lia.
Qed.

Lemma dropEscapes_id l : forallb isMemoChar l = true -> dropEscapes l = l.
Proof.
  unfold dropEscapes. induction l as [|u l IH]; [done|]. cbn [forallb dropEscapesGo]. intros [Hu Hl]%andb_true_iff.
  destruct (Z.eqb_spec 92 u) as [<-|]; [done|]. cbn [andb]. by rewrite IH.
Qed.

Lemma keepChars_id l : forallb isMemoChar l = true -> keepChars l = l.
Proof.
  unfold keepChars. induction l as [|u l IH]; [done|]. cbn. intros [Hu Hl]%andb_true_iff. by rewrite Hu, IH.
Qed.

Lemma removeUnicodeEscapes_id l : forallb isMemoChar l = true -> removeUnicodeEscapes l = l.
Proof. intros H. unfold removeUnicodeEscapes. by rewrite dropEscapes_id, keepChars_id. Qed.

Lemma removeUnicodeEscapes_all l : forallb isMemoChar (removeUnicodeEscapes l) = true.
Proof. apply forallb_forall. intros u Hu. apply (List.filter_In isMemoChar) in Hu. apply Hu. Qed.

(** C34: a memo encoded as Mina encodes it, a version byte, the tag 1, the length
    and the UTF-8 bytes of a text followed by any padding, decodes to one character
    per byte: to the text itself exactly when the text is ASCII.  The row of the table does not
    show the difference: cleaning the decoded memo gives what cleaning the text would
    give, and any ASCII mark is found in the one exactly when it is in the other.  The
    shown memo is the text only when that has only letters, digits, commas and
    dots, and a second cleaning leaves it alone. *)
Theorem memo_round_trip `{Bs58check} m v text pad : Forall codePoint text ->
  bs58decode m = Ret (v :: 1%Z :: Z.of_nat (length (toUtf8 text)) :: toUtf8 text ++ pad) ->
  exists d, decodeMemo m = Ret d /\
  (d = toUtf16 text <-> Forall (fun c => c < 128)%Z text) /\
  removeUnicodeEscapes d = removeUnicodeEscapes (toUtf16 text) /\
  (forall p, Forall (fun u => u < 128)%Z p -> unitsInclude d p = unitsInclude (toUtf16 text) p) /\
  (removeUnicodeEscapes d = toUtf16 text <-> forallb isMemoChar (toUtf16 text) = true) /\
  removeUnicodeEscapes (removeUnicodeEscapes d) = removeUnicodeEscapes d.
Proof.
  intros Hc E. assert (Forall (fun c => 0 <= c)%Z text) as H0.
  { eapply Forall_impl; [exact Hc|]. unfold codePoint. intros; lia. }
  assert (removeUnicodeEscapes (toUtf8 text) = removeUnicodeEscapes (toUtf16 text)) as Hr.
  { unfold toUtf8, toUtf16. rewrite !removeUnicodeEscapes_encode; [done|..]; auto using utf8_asciiExact, utf16_asciiExact. }
  exists (toUtf8 text). split_and!; [| |done| | |].
  - unfold decodeMemo. rewrite E. cbn [mbind exec_bind sliceFrom drop]. f_equal. unfold decodePayload.
    rewrite bool_decide_eq_false_2 by done.
    change ((_ :: _ :: ?l) !! 1) with (Some (Z.of_nat (length (toUtf8 text)))). cbn [default from_option id].
    rewrite Nat2Z.id. apply (readChars_bytes (toUtf8 text) pad [1%Z; Z.of_nat (length (toUtf8 text))]).
    by apply utf8_bytes.
  - destruct (utf8_utf16 text Hc) as (_ & H1 & H2). split; [|done]. intros Ed. apply H2. by rewrite Ed.
  - intros p Hp. unfold toUtf8, toUtf16. rewrite !unitsInclude_encode; auto using utf8_asciiExact, utf16_asciiExact.
  - rewrite Hr. split; [|by apply removeUnicodeEscapes_id]. intros Ht. rewrite <- Ht. apply removeUnicodeEscapes_all.
  - apply removeUnicodeEscapes_id, removeUnicodeEscapes_all.
Qed.

(** ** Rows *)

(** What the filters let through. *)
Definition passes (f : MempoolFilters) (tx : MempoolTransaction) : bool :=
  negb (kindHidden f tx) &&
  ((String.length (search f) <=? 2) ||
   strIncludes (toLowerCase (default "" (txHash tx))) (toLowerCase (search f)) ||
   strIncludes (toLowerCase (sender tx)) (toLowerCase (search f))).

(** The transactions whose missing hash the search would read. *)
Definition breaksSearch (f : MempoolFilters) (tx : MempoolTransaction) : Prop :=
  kindHidden f tx = false /\ 2 < String.length (search f) /\ txHash tx = None.

Lemma keepTx_spec f tx : (keepTx f tx = Throw noHash /\ breaksSearch f tx) \/
  (keepTx f tx = Ret (passes f tx) /\ ~ breaksSearch f tx).
Proof.
  unfold keepTx, passes, breaksSearch. destruct (kindHidden f tx); [right; naive_solver|].
  rewrite Nat.leb_antisym.
  destruct (2 <? String.length (search f)) eqn:El; [apply Nat.ltb_lt in El|apply Nat.ltb_ge in El]; cbn.
  - destruct (txHash tx); naive_solver.
  - right. split; [done|]. lia.
Qed.

Lemma filterTxs_spec f l :
  (filterTxs l f = Throw noHash /\ Exists (breaksSearch f) l) \/
  (filterTxs l f = Ret (List.filter (passes f) l) /\ ~ Exists (breaksSearch f) l).
Proof.
  unfold filterTxs. induction l as [|x l IH]; cbn.
  - right. split; [done|]. intros Hn. by apply Exists_nil in Hn.
  - rewrite Exists_cons. destruct (keepTx_spec f x) as [[-> Hb]|[-> Hb]]; [left; cbn; auto|].
    cbn. destruct IH as [[-> Ht]|[-> Ht]]; cbn; [left; auto|right]. destruct (passes f x); naive_solver.
Qed.

Lemma filterTxs_Ret f l l' : filterTxs l f = Ret l' -> l' = List.filter (passes f) l.
Proof. intros E. destruct (filterTxs_spec f l) as [[? _]|[? _]]; congruence. Qed.

Definition inv (s : MempoolState) : Prop :=
  txs s = List.filter (passes (filters s)) (allTxs s) /\
  (isLoading s = true -> allTxs s = []) /\ (emptyInDatabase s = true -> allTxs s = []).

Lemma reducer_inv s a s' : inv s -> reducer s a = Ret s' -> inv s'.
Proof.
  intros Hs. destruct a; cbn; intros E; try (by injection E as <-).
  - apply exec_bind_Ret in E as (l & Hl & E). injection E as <-. apply filterTxs_Ret in Hl. split; [done|].
    split; [done|]. cbn. intros Hlen%Nat.eqb_eq. by apply nil_length_inv.
  - apply exec_bind_Ret in E as (l & Hl & E). injection E as <-. apply filterTxs_Ret in Hl.
    destruct Hs as (_ & ? & ?). done.
Qed.

Lemma mempool_step_inv `{Bs58check} b w e w' : inv (state w) -> step b w e = Ret w' -> inv (state w').
Proof.
  intros Hw. destruct e as [a|answer]; cbn [step].
  - intros (s & Hs & E)%exec_bind_Ret. injection E as <-. destruct a; by eapply reducer_inv.
  - destruct (inFlight w); [|by intros [= <-]].
    destruct (getTransactionPool b answer); intros (s & Hs & E)%exec_bind_Ret; injection E as <-;
      by eapply reducer_inv.
Qed.

(** C3: whatever is dispatched and answered, the rows of the mempool table are
    exactly the loaded transactions that the current filters let through, in the
    order of the pool; nothing is shown while the first load is awaited or when the
    pool is said to be empty; changing the filters shows the rows of the new ones,
    and throws exactly when a text of three characters or more meets a transaction
    of a shown kind that has no hash. *)
Theorem mempool_rows_match_filters `{Bs58check} b w :
  reachable_exec (step b) initialWorld (fun _ _ => True) w ->
  let s := state w in
  txs s = List.filter (passes (filters s)) (allTxs s) /\
  (isLoading s = true \/ emptyInDatabase s = true -> txs s = []) /\
  (forall f, (exists err, reducer s (changeFilters f) = Throw err) <-> Exists (breaksSearch f) (allTxs s)) /\
  (forall f s', reducer s (changeFilters f) = Ret s' ->
     allTxs s' = allTxs s /\ txs s' = List.filter (passes f) (allTxs s)).
Proof.
  intros Hr s. assert (inv s) as (H1 & H2 & H3).
  { revert w Hr s. apply (reachable_exec_inv _ _ _ (fun w => inv (state w))); [done|]. intros w e w' Hw _.
    by apply mempool_step_inv. }
  split; [done|]. split.
  { rewrite H1. intros [E|E]; [rewrite H2 by done|rewrite H3 by done]; done. }
  split.
  - intros f. cbn [reducer]. destruct (filterTxs_spec f (allTxs s)) as [[-> ?]|[-> ?]]; cbn; naive_solver.
  - intros f s' (l & Hl & E)%exec_bind_Ret. injection E as <-. by apply filterTxs_Ret in Hl.
Qed.

(** ** Loading *)

Definition memoOf (c : Command) : string :=
  match c with Signed_command c => signedMemo c | Zkapp_command c => zkMemo c end.

Lemma mapTx_spec `{Bs58check} b tx :
  (exists e, decodeMemo (memoOf (data tx)) = Throw e /\ mapTx b tx = Throw e) \/
  (exists m row, decodeMemo (memoOf (data tx)) = Ret m /\ mapTx b tx = Ret row /\
     transactionData row = data tx /\ txHash row = hash tx /\ kind row <> DELEGATION).
Proof.
  unfold mapTx. destruct (data tx) as [c|c]; cbn [memoOf];
    (destruct (decodeMemo _) as [m|e]; [right; eexists m, _|left; eauto]; split_and!; done).
Qed.

Lemma mapTxPoolResponse_spec `{Bs58check} b resp :
  (exists e, mapTxPoolResponse b resp = Throw e /\
     Exists (fun tx => decodeMemo (memoOf (data tx)) = Throw e) resp) \/
  (exists rows, mapTxPoolResponse b resp = Ret rows /\
     Forall (fun tx => exists m, decodeMemo (memoOf (data tx)) = Ret m) resp /\
     Forall2 (fun tx row => transactionData row = data tx /\ txHash row = hash tx /\ kind row <> DELEGATION) resp rows).
Proof.
  unfold mapTxPoolResponse. induction resp as [|tx resp IH]; cbn.
  - right. exists []. by split_and!.
  - destruct (mapTx_spec b tx) as [(e & He & ->)|(m & row & Hm & -> & Hrow)]; cbn.
    + left. exists e. split; [done|]. by left.
    + destruct IH as [(e & -> & Ht)|(rows & -> & Hf & Hf2)]; cbn; [left|right].
      * exists e. split; [done|]. by right.
      * exists (row :: rows). split; [done|]. split; constructor; eauto.
Qed.

Lemma Forall_Exists_absurd {A} (P Q : A -> Prop) l :
  (forall x, P x -> Q x -> False) -> Forall P l -> Exists Q l -> False.
Proof. intros HPQ Hf. induction 1; inversion Hf; subst; eauto. Qed.

Definition noDelegation (l : list MempoolTransaction) : Prop := (listenToActiveEpoch l).2 = 0.

Lemma noDelegation_intro l : Forall (fun tx => kind tx <> DELEGATION) l -> noDelegation l.
Proof.
  intros Hl. unfold noDelegation, listenToActiveEpoch, countIf. cbn. rewrite filter_false_nil; [done|].
  intros x Hx. rewrite Forall_forall in Hl. apply bool_decide_eq_false_2. auto.
Qed.

(** The answer of the pool is stored whole, one row per transaction in the
    order of the pool, when every memo can be decoded, and none of the rows is ever
    counted as a delegation; a single memo that cannot be decoded empties the
    table, which then says that the pool is empty, and adds one error. *)
Theorem mempool_bad_memo_empties_pool `{Bs58check} b w resp :
  inFlight w = true -> Forall (fun tx => hash tx <> None) resp ->
  exists w', step b w (Answer (Ret resp)) = Ret w' /\ inFlight w' = false /\ isLoading (state w') = false /\
    (Forall (fun tx => exists m, decodeMemo (memoOf (data tx)) = Ret m) resp ->
       (transactionData <$> allTxs (state w')) = data <$> resp /\ noDelegation (allTxs (state w')) /\
       errors w' = errors w) /\
    (Exists (fun tx => exists e, decodeMemo (memoOf (data tx)) = Throw e) resp ->
       allTxs (state w') = [] /\ txs (state w') = [] /\ emptyInDatabase (state w') = true /\
       exists e, errors w' = errors w ++ [(GENERIC, e)]).
Proof.
  intros Hf Hh. cbn [step]. rewrite Hf. cbn [getTransactionPool mbind exec_bind].
  destruct (mapTxPoolResponse_spec b resp) as [(e & -> & Hex)|(rows & -> & Hall & Hrows)].
  - eexists. split; [done|]. cbn. split_and!; [done|done| |eauto].
    intros Hok. exfalso. eapply Forall_Exists_absurd; [|exact Hok|exact Hex]. cbn. intros x [m Hm] He. congruence.
  - destruct (filterTxs_spec (filters (state w)) rows) as [[_ Hb]|[Hfil _]].
    { exfalso. apply Exists_exists in Hb as (x & Hx & _ & _ & Hnone). apply list_elem_of_lookup in Hx as [i Hi].
      destruct (Forall2_lookup_r _ _ _ _ _ Hrows Hi) as (tx & Htx & _ & E & _).
      eapply Forall_lookup_1 in Hh; [|exact Htx]. congruence. }
    cbn [reducer]. rewrite Hfil. eexists. split; [done|]. cbn. split_and!; [done|done| |].
    + intros _. split_and!; [| |done].
      * symmetry. apply list_eq_Forall2. apply Forall2_fmap. eapply Forall2_impl; [exact Hrows|]. naive_solver.
      * apply noDelegation_intro. eapply Forall2_Forall_r; [exact Hrows|]. apply Forall_true. naive_solver.
    + intros Hex. exfalso. eapply Forall_Exists_absurd; [|exact Hall|exact Hex]. cbn. naive_solver congruence.
Qed.

(** Searching twice and going back shows the same rows. *)
Lemma clearFilters_shows_all s :
  exists s', reducer s clearFilters = Ret s' /\ txs s' = allTxs s.
Proof.
  cbn. destruct (filterTxs_spec (mkFilters true true true "") (allTxs s)) as [[_ Hb]|[-> _]].
  - apply Exists_exists in Hb as (x & _ & _ & Hl & _). cbn in Hl. lia.
  - eexists. split; [done|]. cbn. apply filter_true_id. intros x _. unfold passes, kindHidden. by destruct (kind x).
Qed.

(** The transaction of the address is opened once, when it is among the rows. *)
Lemma listenToTxsChanges_opens t l tx :
  activeRow t = None -> fromRoute t = txHash tx -> truthyStr (txHash tx) = true ->
  List.find (fun x => bool_decide (txHash x = txHash tx)) l = Some tx ->
  let '(t', acts) := listenToTxsChanges t l in
  acts = [setActiveTx (Some tx)] /\ fromRoute t' = None /\ (listenToTxsChanges t' l).2 = [].
Proof.
  intros Ha Hr Ht Hf. unfold listenToTxsChanges. rewrite Hr, Ht.
  destruct l as [|x l]; [done|]. cbn [length Nat.ltb Nat.leb andb]. rewrite Hf. cbn. rewrite Ha. cbn.
  rewrite bool_decide_eq_false_2; [done|]. intros E. by rewrite <- E in Ht.
Qed.

(** * Examples *)

(** The decoder of the examples reads the text "good" as the memo "ok, S.T.1", the
    text "accent" as the memo e with an acute accent followed by "t", and refuses
    every other text. *)
#[local] Instance demoDecode : Bs58check := fun s =>
  if String.eqb s "good" then Ret (20%Z :: 1%Z :: 9%Z :: bytesOf "ok, S.T.1" ++ [0; 0]%Z)
  else if String.eqb s "accent" then Ret (20%Z :: 1%Z :: 3%Z :: toUtf8 [233; 116]%Z ++ [0; 0]%Z)
  else Throw (ErrorMsg "Invalid checksum").

Definition demoPayment (h m : string) : MempoolTransactionResponse :=
  mkResponse (Signed_command (mkSigned "B62sender" "0.5" "7" m "Payment" (Some "3000000000"))) (Some h).
Definition demoPool : list MempoolTransactionResponse :=
  [ demoPayment "5Ja" "good"; mkResponse (Zkapp_command (mkZkapp "B62zk" "1" "0" "good")) (Some "5Jb") ].

Example demo_row : mapTx Null (demoPayment "5Ja" "good") =
  Ret (mkTx PAYMENT (Some "5Ja") "B62sender" (Some (0 + 5 / 10)%Q) (Some (3000000000 / 1000000000)%Q) (Some 7%Q)
         (bytesOf "ok,S.T.1") (data (demoPayment "5Ja" "good")) true false).
Proof. vm_compute. reflexivity. Qed.

(** The accent decodes to two characters, neither of which is shown. *)
Lemma memo_round_trip_witness : decodeMemo "good" = Ret (bytesOf "ok, S.T.1") /\
  exists d, decodeMemo "accent" = Ret d /\ d = [195; 169; 116]%Z /\ d <> toUtf16 [233; 116]%Z /\
    removeUnicodeEscapes d = removeUnicodeEscapes (toUtf16 [233; 116]%Z).
Proof.
  destruct (memo_round_trip "good" 20%Z (bytesOf "ok, S.T.1") [0; 0]%Z) as (d & H1 & H2 & _).
  { repeat constructor; cbn; lia. }
  { reflexivity. }
  split; [rewrite H1; f_equal; apply H2; repeat constructor|].
  destruct (memo_round_trip "accent" 20%Z [233; 116]%Z [0; 0]%Z) as (d' & E1 & _ & E3 & _).
  { repeat constructor; cbn; lia. }
  { reflexivity. }
  exists d'. split; [exact E1|]. vm_compute in E1. injection E1 as <-. split; [done|]. split; [done|exact E3].
Defined.

Definition demoWorld : World :=
  match runM (step Null) initialWorld
          [Dispatch init; Answer (Ret demoPool); Dispatch (changeSearch (filters initialState) " B62Z ")] with
  | Ret w => w
  | Throw _ => initialWorld
  end.

Lemma mempool_demo_reachable : reachable_exec (step Null) initialWorld (fun _ _ => True) demoWorld.
Proof.
  eapply (runM_reachable _ _ _ initialWorld _
    [Dispatch init; Answer (Ret demoPool); Dispatch (changeSearch (filters initialState) " B62Z ")]).
  - done.
  - apply reachable_exec_init.
  - vm_compute. reflexivity.
Qed.

Lemma mempool_rows_match_filters_witness :
  (sender <$> txs (state demoWorld)) = ["B62zk"] /\
  txs (state demoWorld) = List.filter (passes (filters (state demoWorld))) (allTxs (state demoWorld)).
Proof.
  split; [vm_compute; reflexivity|]. exact (proj1 (mempool_rows_match_filters Null demoWorld mempool_demo_reachable)).
Defined.

Lemma mempool_bad_memo_empties_pool_witness :
  exists w', step Null (getTxsEffect initialWorld getTxs) (Answer (Ret (demoPool ++ [demoPayment "5Jc" "bad"]))) = Ret w' /\
    allTxs (state w') = [] /\ emptyInDatabase (state w') = true.
Proof.
  destruct (mempool_bad_memo_empties_pool Null (getTxsEffect initialWorld getTxs)
    (demoPool ++ [demoPayment "5Jc" "bad"])) as (w' & Hs & _ & _ & _ & Hbad).
  - reflexivity.
  - repeat constructor; discriminate.
  - exists w'. split; [exact Hs|]. destruct Hbad as (H1 & _ & H2 & _); [|done].
    right. right. left. eexists. vm_compute. reflexivity.
Defined.

End Mempool.
