(* ===== verification/Dashboard.v ===== *)
(** Dashboard (frontend/src/app/features/dashboard): the peers of the node, the
    download of its ledgers and of its blocks.  This file has the service, the
    reducer, the effects and the page component; DashboardProgress.v the components
    of the ledgers and of the blocks. *)

From S2P Require Import Prelude JsRuntime TableSort NodesOverview.

Module Dashboard.
Import NodesOverview.

(** * Data *)

Inductive DashboardPeerStatus := CONNECTED | CONNECTING | DISCONNECTED.

#[export] Instance PeerStatus_eq_dec : EqDecision DashboardPeerStatus.
Proof. solve_decision. Defined.

Definition statusText (s : DashboardPeerStatus) : string :=
  match s with CONNECTED => "Connected" | CONNECTING => "Connecting" | DISCONNECTED => "Disconnected" end.

Record PeersResponse := mkPeerResponse {
  peer_id : string;
  best_tip : option string;
  time : Z;
  best_tip_height : option Z;
  best_tip_global_slot : option Z;
  best_tip_timestamp : option Z;
  connection_status : DashboardPeerStatus;
  raw_address : option string
}.

Record DashboardPeer := mkPeer {
  peerId : string;
  peerStatus : DashboardPeerStatus;
  datetime : string;
  timestamp : Z;
  address : option string;
  peerBestTip : option string;
  peerGlobalSlot : option Z;
  bestTipTimestamp : option Z;
  bestTipDatetime : string;
  peerHeight : option Z;
  requests : Z
}.

#[export, refine] Instance Peer_copy : RecordCopy DashboardPeer := {
  record_copy r := mkPeer (peerId r) (peerStatus r) (datetime r) (timestamp r) (address r) (peerBestTip r)
    (peerGlobalSlot r) (bestTipTimestamp r) (bestTipDatetime r) (peerHeight r) (requests r) }.
Proof. by intros []. Defined.

Inductive PeerField := fPeerId | fPeerStatus | fPeerTimestamp | fAddress | fPeerBestTip | fPeerHeight | fRequests.

#[export] Instance PeerField_eq_dec : EqDecision PeerField.
Proof. solve_decision. Defined.

#[export] Instance Peer_row : Row DashboardPeer PeerField := fun f p =>
  match f with
  | fPeerId => VStr (peerId p)
  | fPeerStatus => VStr (statusText (peerStatus p))
  | fPeerTimestamp => vZ (timestamp p)
  | fAddress => ofOption VStr (address p)
  | fPeerBestTip => ofOption VStr (peerBestTip p)
  | fPeerHeight => ofOption vZ (peerHeight p)
  | fRequests => vZ (requests p)
  end.

(** What is fetched of a ledger and the estimate of its size. *)
Record LedgerStats := mkStats { fetched : option Z; estimation : option Z }.

Record DashboardRpcStats := mkRpcStats {
  peerResponses : list (string * Z);
  stakingLedger : option LedgerStats;
  nextLedger : option LedgerStats;
  snarkedRootLedger : option LedgerStats;
  stagedRootLedger : option LedgerStats
}.

(** * Service *)

Record MessageProgressResponse := mkProgress {
  messages_stats : list (string * list (string * Z));
  staking_ledger_sync : option LedgerStats;
  next_epoch_ledger_sync : option LedgerStats;
  root_ledger_sync : option (LedgerStats * option LedgerStats)
}.

Definition sumResponses (responses : list (string * Z)) : Z :=
  fold_left (fun sum kv => (sum + kv.2)%Z) responses 0%Z.

(** The staged part of the root ledger is there, with missing numbers, even when
    there is no root ledger. *)
Definition mapMessageProgressResponse (progress : MessageProgressResponse) : DashboardRpcStats :=
  let stagedStats := match root_ledger_sync progress with Some (_, s) => s | None => None end in
  mkRpcStats (List.map (fun '(id, responses) => (id, sumResponses responses)) (messages_stats progress))
    (staking_ledger_sync progress) (next_epoch_ledger_sync progress) (option_map fst (root_ledger_sync progress))
    (Some (mkStats (stagedStats ≫= fetched) (stagedStats ≫= estimation))).

Section Service.
Context `{DateFormat}.

Definition mapPeer (p : PeersResponse) : DashboardPeer :=
  mkPeer (peer_id p) (connection_status p) (toReadableDate (inject_Z (time p) / inject_Z ONE_MILLION) None) (time p)
    (raw_address p) (best_tip p) (best_tip_global_slot p) (best_tip_timestamp p)
    (if truthyNum (best_tip_timestamp p)
     then toReadableDate (inject_Z (default 0%Z (best_tip_timestamp p)) / inject_Z ONE_MILLION) None else "-")
    (best_tip_height p) 0.

Definition getPeers (answer : exec (list PeersResponse)) : exec (list DashboardPeer) :=
  response ← answer; Ret (List.map mapPeer response).

(** A failure of the request, or an empty answer, gives one offline node. *)
Definition getTips (now : Z) (name : string) (answer : exec (list SyncTip)) : list NodesOverviewNode :=
  match (tips ← answer; mapNodeTipsResponse now tips None name) with
  | Ret ns => ns
  | Throw _ => mapNodeTipsErrorResponse now name
  end.

Definition getRpcCalls (answer : exec MessageProgressResponse) : exec DashboardRpcStats :=
  response ← answer; Ret (mapMessageProgressResponse response).

End Service.

(** * Reducer *)

Record DashboardPeersStats := mkPeersStats { connected : nat; connecting : nat; disconnected : nat }.

Record DashboardState := mkState {
  peers : list DashboardPeer;
  peersStats : DashboardPeersStats;
  peersSort : TableSort PeerField;
  nodes : list NodesOverviewNode;
  rpcStats : DashboardRpcStats
}.

#[export, refine] Instance State_copy : RecordCopy DashboardState := {
  record_copy s := mkState (peers s) (peersStats s) (peersSort s) (nodes s) (rpcStats s) }.
Proof. by intros []. Defined.

Definition initialState : DashboardState :=
  mkState [] (mkPeersStats 0 0 0) (mkTableSort fPeerHeight DSC) [] (mkRpcStats [] None None None None).

Inductive DashboardActions :=
| DashboardInit
| DashboardGetData (force : bool)
| DashboardGetDataSuccess (peers : list DashboardPeer) (ledger : list NodesOverviewNode) (rpc : DashboardRpcStats)
| DashboardPeersSort (payload : TableSort PeerField)
| DashboardClose.

Section Reducer.
Context {LC : LocaleCompare}.

Definition sortPeers (ps : list DashboardPeer) (ts : TableSort PeerField) : list DashboardPeer :=
  sort ps ts [fPeerId; fPeerStatus; fPeerBestTip; fAddress] false.

(** [peerResponses.find(r => r.peerId === peer.peerId)?.requestsMade || 0] *)
Definition requestsOf (responses : list (string * Z)) (id : string) : Z :=
  match List.find (fun kv => bool_decide (kv.1 = id)) responses with Some kv => kv.2 | None => 0%Z end.

Definition countPeers (s : DashboardPeerStatus) (ps : list DashboardPeer) : nat :=
  countIf (fun p => bool_decide (peerStatus p = s)) ps.

Definition reducer (state : DashboardState) (action : DashboardActions) : DashboardState :=
  match action with
  | DashboardGetData force => if force then initialState <| peersSort := peersSort state |> else state
  | DashboardPeersSort ts => state <| peersSort := ts |> <| peers := sortPeers (peers state) ts |>
  | DashboardGetDataSuccess ps ledger rpc =>
      let ps := sortPeers ((fun p => p <| requests := requestsOf (peerResponses rpc) (peerId p) |>) <$> ps)
                  (peersSort state) in
      state <| peers := ps |>
            <| peersStats := mkPeersStats (countPeers CONNECTED ps) (countPeers CONNECTING ps) (countPeers DISCONNECTED ps) |>
            <| nodes := ledger |> <| rpcStats := rpc |>
  | DashboardClose => initialState
  | DashboardInit => state
  end.

(** * Effects *)

Record World := mkWorld {
  state : DashboardState; pendingRequest : bool; inFlight : bool; errors : list (MinaErrorType * JsError) }.

#[export, refine] Instance World_copy : RecordCopy World := {
  record_copy w := mkWorld (state w) (pendingRequest w) (inFlight w) (errors w) }.
Proof. by intros []. Defined.

(** The three requests, answered together: the peers, the tips, the calls. *)
Definition Data : Type := list DashboardPeer * list NodesOverviewNode * DashboardRpcStats.

Inductive Event := Dispatch (a : DashboardActions) | Answer (a : exec Data).

Definition emptyRpcStats : DashboardRpcStats := mkRpcStats [] None None None None.

Definition getDataEffect (w : World) (a : DashboardActions) : World :=
  match a with
  | DashboardInit => if negb (pendingRequest w) then w <| pendingRequest := true |> <| inFlight := true |> else w
  | DashboardGetData force =>
      if force || negb (pendingRequest w) then w <| pendingRequest := true |> <| inFlight := true |> else w
  | DashboardClose => if negb (pendingRequest w) then w <| inFlight := false |> else w
  | _ => w
  end.

Definition step (w : World) (e : Event) : World :=
  match e with
  | Dispatch a => getDataEffect (w <| state := reducer (state w) a |>) a
  | Answer answer =>
      if inFlight w then
        let w := w <| pendingRequest := false |> <| inFlight := false |> in
        match answer with
        | Ret (ps, ledger, rpc) => w <| state := reducer (state w) (DashboardGetDataSuccess ps ledger rpc) |>
        | Throw e => w <| state := reducer (state w) (DashboardGetDataSuccess [] [] emptyRpcStats) |>
                       <| errors := errors w ++ [(GENERIC, e)] |>
        end
      else w
  end.

Definition initialWorld : World := mkWorld initialState false false [].

(** [combineLatest] of the three requests: one failure fails all; the request of
    the tips does not fail. *)
Definition getData `{DateFormat} (now : Z) (name : string) (peersAnswer : exec (list PeersResponse))
    (tipsAnswer : exec (list SyncTip)) (callsAnswer : exec MessageProgressResponse) : exec Data :=
  ps ← getPeers peersAnswer; rpc ← getRpcCalls callsAnswer; Ret (ps, getTips now name tipsAnswer, rpc).

End Reducer.

(** * The page: dashboard.component.ts *)

(** A percentage: a division by zero gives infinity. *)
Inductive Num := Fin (q : Q) | Infinity.

Definition addNum (a b : Num) : Num := match a, b with Fin x, Fin y => Fin (x + y) | _, _ => Infinity end.
Definition scaleNum (k : Q) (a : Num) : Num := match a with Fin x => Fin (x * k) | Infinity => Infinity end.

(** [(s?.fetched / s?.estimation) * 100 || 0]: NaN becomes 0. *)
Definition percent (s : option LedgerStats) : Num :=
  match s ≫= fetched, s ≫= estimation with
  | Some f, Some e =>
      if (e =? 0)%Z then (if (f =? 0)%Z then Fin 0 else Infinity)
      else Fin (inject_Z f / inject_Z e * inject_Z 100)
  | _, _ => Fin 0
  end.

Record Page := mkPage {
  updateAction : string;
  connectedProgress : Q;
  ledgerProgress : Num;
  blockSyncProgress : Q;
  pageConnected : bool
}.

#[export, refine] Instance Page_copy : RecordCopy Page := {
  record_copy p := mkPage (updateAction p) (connectedProgress p) (ledgerProgress p) (blockSyncProgress p)
    (pageConnected p) }.
Proof. by intros []. Defined.

Definition initialPage : Page := mkPage "Connecting to peers" 0 (Fin 0) 0 false.

Definition connectingText (stats : DashboardPeersStats) : string :=
  if 0 <? connected stats then "Downloading Staking Epoch Ledger"
  else if 0 <? connecting stats
  then "Connecting to " +:+ showNat (connecting stats) +:+ " peer" +:+ (if connecting stats =? 1 then "" else "s")
  else "Looking for peers".

Definition listenToPeersChanges (p : Page) (stats : DashboardPeersStats) : Page :=
  let p' :=
    if (pageConnected p && (connected stats =? 0)) || negb (pageConnected p) then
      let p := p <| updateAction := connectingText stats |> in
      if 0 <? connected stats then p <| connectedProgress := 33%Q |>
      else p <| connectedProgress := 0%Q |> <| ledgerProgress := Fin 0 |> <| blockSyncProgress := 0%Q |>
    else p in
  p' <| pageConnected := 0 <? connected stats |>.

(** [Math.round(a / b)] for non-negative [a] and positive [b]. *)
Definition roundDiv (a b : Z) : Z := ((2 * a + b) / (2 * b))%Z.

Definition isFetched (b : NodesOverviewBlock) : bool := negb (includes [MISSING; FETCHING] (status b)).
Definition isApplied (b : NodesOverviewBlock) : bool := bool_decide (status b = APPLIED).

Definition percentOf291 (n : nat) : Z := roundDiv (Z.of_nat n * 100) 291.

(** The four percentages, 100 for a finished step, and the text of the last step
    found finished. *)
Definition finishStep (st : StepState) (text : string) (p : Num * string) : Num * string :=
  if bool_decide (st = SUCCESS) then (Fin 100, text) else p.

Definition ledgerTotal (l : NodesOverviewLedger) (rpc : DashboardRpcStats) (action : string) : Num * string :=
  let '(staking, action) :=
    finishStep (epochState (stakingEpoch l)) "Downloading Next Epoch Ledger" (percent (stakingLedger rpc), action) in
  let '(next, action) :=
    finishStep (epochState (nextEpoch l)) "Downloading Root Snarked Ledger" (percent (nextLedger rpc), action) in
  let '(rootSn, action) :=
    finishStep (epochState (rootSnarked l)) "Downloading Root Staged Ledger" (percent (snarkedRootLedger rpc), action) in
  let '(rootSt, action) :=
    finishStep (stagedState (rootStaged l)) "Fetching Blocks" (percent (stagedRootLedger rpc), action) in
  (scaleNum (1 # 4) (addNum (addNum (addNum staking next) rootSn) rootSt), action).

Definition is100 (n : Num) : bool := match n with Fin q => Qeq_bool q 100 | Infinity => false end.

Definition blocksText (fetchedPercentage appliedPercentage : Z) : string :=
  if (fetchedPercentage <? 100)%Z then "Fetching Blocks (" +:+ showZ fetchedPercentage +:+ "%)"
  else if (appliedPercentage <? 100)%Z then "Applying Blocks (" +:+ showZ appliedPercentage +:+ "%)"
  else "".

Definition listenToNodesChanges (p : Page) (ns : list NodesOverviewNode) (rpc : DashboardRpcStats) : exec Page :=
  match ns with
  | [] => Ret (p <| ledgerProgress := Fin 0 |> <| blockSyncProgress := 0%Q |>)
  | n :: _ =>
      match ledgers n with
      | None => Throw (TypeError "Cannot read properties of undefined (reading 'stakingEpoch')")
      | Some l =>
          let '(total, action) := ledgerTotal l rpc (updateAction p) in
          let p := p <| updateAction := action |> <| ledgerProgress := scaleNum (33 # 100) total |> in
          if negb (is100 total) then Ret (p <| blockSyncProgress := 0%Q |>)
          else
            let bs := sliceFrom 1 (blocks n) in
            let fetchedPercentage := percentOf291 (countIf isFetched bs) in
            let appliedPercentage := percentOf291 (countIf isApplied bs) in
            Ret (p <| blockSyncProgress := (inject_Z appliedPercentage * (34 # 100))%Q |>
                   <| updateAction := blocksText fetchedPercentage appliedPercentage |>)
      end
  end.

(** The period of the poll, by the status of the node. *)
Definition timerInterval (status : option string) : Z :=
  if bool_decide (status = Some "Synced") || bool_decide (status = Some "Offline") then 5000 else 1000.

(** * Theorems *)

(** ** The store *)

Definition statsOf (ps : list DashboardPeer) : DashboardPeersStats :=
  mkPeersStats (countPeers CONNECTED ps) (countPeers CONNECTING ps) (countPeers DISCONNECTED ps).

Lemma countPeers_total ps : countPeers CONNECTED ps + countPeers CONNECTING ps + countPeers DISCONNECTED ps = length ps.
Proof.
  unfold countPeers, countIf. induction ps as [|p ps IH]; [done|]. cbn.
  destruct (peerStatus p); repeat case_bool_decide; try done; cbn; lia.
Qed.

Lemma statsOf_perm ps ps' : Permutation ps ps' -> statsOf ps = statsOf ps'.
Proof. intros Hp. unfold statsOf, countPeers. f_equal; by apply countIf_Permutation. Qed.

Section StoreTheorems.
Context {LC : LocaleCompare}.

Definition storeInv (s : DashboardState) : Prop :=
  peersStats s = statsOf (peers s) /\
  (exists l, peers s = sortPeers l (peersSort s)) /\
  forall p, p ∈ peers s -> requests p = requestsOf (peerResponses (rpcStats s)) (peerId p).

Lemma initial_storeInv ts : storeInv (initialState <| peersSort := ts |>).
Proof. split; [done|]. split; [exists []; cbn; unfold sortPeers; by rewrite sort_nil|]. intros p Hp. set_solver. Qed.

Lemma reducer_storeInv s a : storeInv s -> storeInv (reducer s a).
Proof.
  intros Hs. destruct a as [|[]|ps l rpc|ts|]; cbn [reducer]; try done.
  - apply initial_storeInv.
  - split; [done|]. split; [eexists; done|]. cbn [peers rpcStats field_update record_copy peerResponses].
    intros p Hp. cbn in Hp. unfold sortPeers in Hp. rewrite sort_elem in Hp.
    apply list_elem_of_fmap in Hp as (q & -> & _). done.
  - destruct Hs as (H1 & _ & H3). split; [|split; [eexists; done|]].
    + cbn. rewrite H1. apply statsOf_perm. apply sort_perm.
    + intros p Hp. apply H3. cbn in Hp. unfold sortPeers in Hp. by rewrite sort_elem in Hp.
  - exact (initial_storeInv (mkTableSort fPeerHeight DSC)).
Qed.

Lemma step_storeInv w e : storeInv (state w) -> storeInv (state (step w e)).
Proof.
  intros Hw. destruct e as [a|answer]; cbn [step].
  - pose proof (reducer_storeInv (state w) a Hw) as H.
    destruct a as [|[]| | |]; cbn in *; try exact H; destruct (pendingRequest w); exact H.
  - destruct (inFlight w); [|done]. destruct answer as [[[ps l] rpc]|e].
    + exact (reducer_storeInv (state w) (DashboardGetDataSuccess ps l rpc) Hw).
    + exact (reducer_storeInv (state w) (DashboardGetDataSuccess [] [] emptyRpcStats) Hw).
Qed.

(** In every reachable state of the dashboard the numbers of connected,
    connecting and disconnected peers are those of the shown peers and add up to
    all of them, the peers are in the order of the table, and each shows the sum
    of the responses it gave; a failure of a request empties the page and adds one
    error. *)
Theorem dashboard_peers_consistent w : reachable_by step initialWorld (fun _ _ => True) w ->
  let s := state w in
  peersStats s = statsOf (peers s) /\
  connected (peersStats s) + connecting (peersStats s) + disconnected (peersStats s) = length (peers s) /\
  (exists l, peers s = sortPeers l (peersSort s)) /\
  (forall p, p ∈ peers s -> requests p = requestsOf (peerResponses (rpcStats s)) (peerId p)) /\
  (forall e, inFlight w = true ->
     let w' := step w (Answer (Throw e)) in
     peers (state w') = [] /\ nodes (state w') = [] /\ peersStats (state w') = mkPeersStats 0 0 0 /\
     errors w' = errors w ++ [(GENERIC, e)]).
Proof.
  intros Hr s. assert (storeInv s) as (H1 & H2 & H3).
  { subst s. revert w Hr. apply (reachable_by_inv _ _ _ (fun w => storeInv (state w))).
    - exact (initial_storeInv (mkTableSort fPeerHeight DSC)).
    - intros w e Hw _. by apply step_storeInv. }
  split_and!; [done| |done|done|].
  - rewrite H1. apply countPeers_total.
  - intros e Hf. cbn. rewrite Hf. cbn. unfold sortPeers. by rewrite sort_nil.
Qed.

End StoreTheorems.

(** ** The percentages *)

Definition numWithin (hi : Q) (n : Num) : Prop := match n with Fin q => (0 <= q <= hi)%Q | Infinity => False end.

(** What is fetched is not more than the estimate. *)
Definition statsOk (s : option LedgerStats) : Prop :=
  forall f e, s ≫= fetched = Some f -> s ≫= estimation = Some e -> (0 <= f <= e)%Z.
Definition rpcOk (rpc : DashboardRpcStats) : Prop :=
  Forall statsOk [stakingLedger rpc; nextLedger rpc; snarkedRootLedger rpc; stagedRootLedger rpc].

Lemma percent_within s : statsOk s -> numWithin 100 (percent s).
Proof.
  unfold statsOk, percent. intros H. destruct (s ≫= fetched) as [f|]; [|cbn; lra].
  destruct (s ≫= estimation) as [e|]; [|cbn; lra]. specialize (H f e eq_refl eq_refl).
  destruct (Z.eqb_spec e 0) as [->|He].
  - replace f with 0%Z by lia. cbn. lra.
  - cbn. assert (0 < inject_Z e)%Q by (rewrite <- (Zlt_Qlt 0); lia).
    assert (0 <= inject_Z f)%Q by (rewrite <- (Zle_Qle 0); lia).
    assert (inject_Z f <= inject_Z e)%Q by (rewrite <- Zle_Qle; lia).
    assert (0 <= inject_Z f / inject_Z e)%Q by (apply Qle_shift_div_l; lra).
    assert (inject_Z f / inject_Z e <= 1)%Q by (apply Qle_shift_div_r; lra).
    change (inject_Z 100) with 100%Q. split; lra.
Qed.

(** The four steps of a report with what is fetched for each. *)
Definition stepsOf (l : NodesOverviewLedger) (rpc : DashboardRpcStats) : list (StepState * option LedgerStats) :=
  [ (epochState (stakingEpoch l), stakingLedger rpc); (epochState (nextEpoch l), nextLedger rpc);
    (epochState (rootSnarked l), snarkedRootLedger rpc); (stagedState (rootStaged l), stagedRootLedger rpc) ].

Definition stepNum (s : StepState * option LedgerStats) : Num :=
  if bool_decide (s.1 = SUCCESS) then Fin 100 else percent s.2.

(** A step is finished, or no more is fetched than its estimate. *)
Definition stepOk (s : StepState * option LedgerStats) : Prop := s.1 = SUCCESS \/ statsOk s.2.
(** A step is finished, or all of its estimate is fetched. *)
Definition stepFull (s : StepState * option LedgerStats) : Prop :=
  s.1 = SUCCESS \/
  exists f e, s.2 ≫= fetched = Some f /\ s.2 ≫= estimation = Some e /\ (0 <= e <= f)%Z /\ (0 < f)%Z.
(** A step is not finished and more is fetched than its estimate. *)
Definition stepOver (s : StepState * option LedgerStats) : Prop :=
  s.1 <> SUCCESS /\ exists f e, s.2 ≫= fetched = Some f /\ s.2 ≫= estimation = Some e /\ (0 <= e < f)%Z.

Definition numAtLeast (lo : Q) (n : Num) : Prop := match n with Fin q => (lo <= q)%Q | Infinity => True end.
Definition numAbove (lo : Q) (n : Num) : Prop := match n with Fin q => (lo < q)%Q | Infinity => True end.

Lemma stepNum_within s : stepOk s -> numWithin 100 (stepNum s).
Proof. unfold stepNum. intros [E|H]; case_bool_decide; try done; [cbn; lra..|by apply percent_within]. Qed.

Lemma stepNum_full s : stepFull s -> numAtLeast 100 (stepNum s).
Proof.
  unfold stepNum. intros [E|(f & e & Hf & He & Hle & H0)]; case_bool_decide; try done; [cbn; lra..|].
  unfold percent. rewrite Hf, He. destruct (Z.eqb_spec e 0) as [->|Hne].
  - by destruct (Z.eqb_spec f 0); [lia|].
  - cbn. assert (0 < inject_Z e)%Q by (rewrite <- (Zlt_Qlt 0); lia).
    assert (inject_Z e <= inject_Z f)%Q by (rewrite <- Zle_Qle; lia).
    assert (1 <= inject_Z f / inject_Z e)%Q by (apply Qle_shift_div_l; lra).
    change (inject_Z 100) with 100%Q. lra.
Qed.

Lemma stepNum_over s : stepOver s -> numAbove 100 (stepNum s).
Proof.
  unfold stepNum. intros (Hs & f & e & Hf & He & Hlt). rewrite bool_decide_false by done.
  unfold percent. rewrite Hf, He. destruct (Z.eqb_spec e 0) as [->|Hne].
  - by destruct (Z.eqb_spec f 0); [lia|].
  - cbn. assert (0 < inject_Z e)%Q by (rewrite <- (Zlt_Qlt 0); lia).
    assert (inject_Z e < inject_Z f)%Q by (rewrite <- Zlt_Qlt; lia).
    assert (1 < inject_Z f / inject_Z e)%Q by (apply Qlt_shift_div_l; lra).
    change (inject_Z 100) with 100%Q. lra.
Qed.

Lemma ledgerTotal_fst l rpc a :
  (ledgerTotal l rpc a).1 =
  match stepNum <$> stepsOf l rpc with
  | [n1; n2; n3; n4] => scaleNum (1 # 4) (addNum (addNum (addNum n1 n2) n3) n4)
  | _ => Infinity
  end.
Proof. unfold ledgerTotal, finishStep, stepsOf, stepNum. cbn. by repeat case_bool_decide. Qed.

Lemma ledgerTotal_within l rpc a : Forall stepOk (stepsOf l rpc) -> numWithin 100 (ledgerTotal l rpc a).1.
Proof.
  rewrite ledgerTotal_fst. unfold stepsOf. rewrite !Forall_cons. intros (H1 & H2 & H3 & H4 & _).
  apply stepNum_within in H1, H2, H3, H4. cbn [fmap list_fmap].
  destruct (stepNum _), (stepNum _), (stepNum _), (stepNum _); cbn in *; try done. lra.
Qed.

Lemma average_over n1 n2 n3 n4 :
  numAtLeast 100 n1 -> numAtLeast 100 n2 -> numAtLeast 100 n3 -> numAtLeast 100 n4 ->
  numAbove 100 n1 \/ numAbove 100 n2 \/ numAbove 100 n3 \/ numAbove 100 n4 ->
  numAbove 100 (scaleNum (1 # 4) (addNum (addNum (addNum n1 n2) n3) n4)).
Proof. destruct n1, n2, n3, n4; cbn; try done. lra. Qed.

Lemma ledgerTotal_over l rpc a :
  Forall stepFull (stepsOf l rpc) -> Exists stepOver (stepsOf l rpc) -> numAbove 100 (ledgerTotal l rpc a).1.
Proof.
  rewrite ledgerTotal_fst. unfold stepsOf. rewrite !Forall_cons, !Exists_cons, Exists_nil.
  intros (H1 & H2 & H3 & H4 & _) Hover. cbn [fmap list_fmap].
  apply average_over; try (by apply stepNum_full). naive_solver eauto using stepNum_over.
Qed.

Lemma percentOf291_bounds n : (0 <= percentOf291 n)%Z /\ ((percentOf291 n <= 100)%Z <-> n <= 292).
Proof.
  unfold percentOf291, roundDiv. split; [apply Z.div_pos; lia|]. split; intros H.
  - destruct (decide (n <= 292)); [done|]. exfalso.
    assert (101 <= (2 * (Z.of_nat n * 100) + 291) / (2 * 291))%Z by (apply Z.div_le_lower_bound; lia). lia.
  - apply Z.lt_succ_r, Z.div_lt_upper_bound; lia.
Qed.

Definition pageOk (p : Page) : Prop :=
  (connectedProgress p = 0%Q \/ connectedProgress p = 33%Q) /\ numWithin 33 (ledgerProgress p) /\
  (0 <= blockSyncProgress p <= 34)%Q.

Lemma listenToPeersChanges_ok p stats : pageOk p -> pageOk (listenToPeersChanges p stats).
Proof.
  intros (H1 & H2 & H3). unfold listenToPeersChanges.
  destruct (_ || _); [destruct (0 <? connected stats)|]; cbn; split_and!; auto; cbn; lra.
Qed.

Lemma scale33_within n : numWithin 100 n -> numWithin 33 (scaleNum (33 # 100) n).
Proof. destruct n as [q|]; [|done]. cbn. lra. Qed.

Inductive PageEvent := PeersChanged (stats : DashboardPeersStats)
| NodesChanged (ns : list NodesOverviewNode) (rpc : DashboardRpcStats).

Definition pageStep (p : Page) (e : PageEvent) : exec Page :=
  match e with
  | PeersChanged stats => Ret (listenToPeersChanges p stats)
  | NodesChanged ns rpc => listenToNodesChanges p ns rpc
  end.

(** The blocks below the best tip that are applied. *)
Definition appliedBelow (n : NodesOverviewNode) : nat := countIf isApplied (sliceFrom 1 (blocks n)).

Definition withinEstimates (e : PageEvent) : Prop :=
  match e with
  | NodesChanged (n :: _) rpc =>
      (forall l, ledgers n = Some l -> Forall stepOk (stepsOf l rpc)) /\ appliedBelow n <= 292
  | _ => True
  end.

Lemma listenToNodesChanges_cons p n ns rpc l : ledgers n = Some l ->
  exists p', listenToNodesChanges p (n :: ns) rpc = Ret p' /\ connectedProgress p' = connectedProgress p /\
    ledgerProgress p' = scaleNum (33 # 100) (ledgerTotal l rpc (updateAction p)).1 /\
    blockSyncProgress p' =
      (if is100 (ledgerTotal l rpc (updateAction p)).1 then inject_Z (percentOf291 (appliedBelow n)) * (34 # 100) else 0)%Q.
Proof.
  intros Hl. unfold listenToNodesChanges. rewrite Hl. destruct (ledgerTotal _ _ _) as [total action]. cbn [fst].
  by destruct (is100 total); cbn [negb]; eexists.
Qed.

Lemma listenToNodesChanges_ok p ns rpc p' :
  pageOk p -> withinEstimates (NodesChanged ns rpc) -> listenToNodesChanges p ns rpc = Ret p' -> pageOk p'.
Proof.
  intros (H1 & H2 & H3) Hn. destruct ns as [|n ns]; [intros [= <-]; split_and!; cbn; auto; cbn; lra|].
  destruct (ledgers n) as [l|] eqn:Hl; [|cbn; by rewrite Hl]. destruct Hn as [Hs Hb]. specialize (Hs l Hl).
  destruct (listenToNodesChanges_cons p n ns rpc l Hl) as (q & -> & Hc & Hq & Hbs). intros [= <-]. unfold pageOk.
  rewrite Hc, Hq, Hbs. split; [done|]. split; [by apply scale33_within, ledgerTotal_within|].
  destruct (is100 _); [|lra]. destruct (percentOf291_bounds (appliedBelow n)) as [Hlo Hhi%proj2].
  specialize (Hhi Hb). rewrite Zle_Qle in Hlo, Hhi. change (inject_Z 0) with 0%Q in Hlo.
  change (inject_Z 100) with 100%Q in Hhi. lra.
Qed.

Section ProgressBounds.
Context `{DateFormat}.

(** What the effects put into the store: no node after a failed request, or the
    nodes the service makes of an answer. *)
Definition reported (e : PageEvent) : Prop :=
  match e with
  | PeersChanged _ => True
  | NodesChanged ns _ => ns = [] \/ exists now name answer, ns = getTips now name answer
  end.

Lemma getTips_ledgers now name answer : Forall (fun n => is_Some (ledgers n)) (getTips now name answer).
Proof.
  unfold getTips. destruct answer as [tips|e]; cbn [mbind exec_bind]; [|by repeat constructor].
  unfold mapNodeTipsResponse. destruct (_ =? 0); [by repeat constructor|].
  apply Forall_fmap, Forall_true. intros tip. by eexists.
Qed.

Lemma reported_ledgers n ns rpc : reported (NodesChanged (n :: ns) rpc) -> is_Some (ledgers n).
Proof.
  intros [E|(now & name & answer & E)]; [done|]. pose proof (getTips_ledgers now name answer) as Hf.
  rewrite <- E in Hf. by apply Forall_cons in Hf as [? _].
Qed.

Lemma pageStep_returns p e : reported e -> exists p', pageStep p e = Ret p'.
Proof.
  destruct e as [stats|[|n ns] rpc]; [by eexists..|]. intros [l Hl]%reported_ledgers.
  destruct (listenToNodesChanges_cons p n ns rpc l Hl) as (q & Hq & _). by exists q.
Qed.

Lemma pageStep_connected p e p' :
  (connectedProgress p = 0%Q \/ connectedProgress p = 33%Q) -> pageStep p e = Ret p' ->
  connectedProgress p' = 0%Q \/ connectedProgress p' = 33%Q.
Proof.
  destruct e as [stats|[|n ns] rpc]; cbn [pageStep]; [|by intros Hp [= <-]|].
  - intros Hp [= <-]. unfold listenToPeersChanges.
    destruct (_ || _); [destruct (0 <? connected stats)|]; cbn; auto.
  - destruct (ledgers n) as [l|] eqn:Hl; [|cbn; by rewrite Hl].
    destruct (listenToNodesChanges_cons p n ns rpc l Hl) as (q & -> & Hq & _). by intros Hp [= <-]; rewrite Hq.
Qed.

Lemma runM_page_spec evs p :
  Forall reported evs -> connectedProgress p = 0%Q \/ connectedProgress p = 33%Q ->
  exists p', runM pageStep p evs = Ret p' /\ (connectedProgress p' = 0%Q \/ connectedProgress p' = 33%Q) /\
    (pageOk p -> Forall withinEstimates evs -> pageOk p').
Proof.
  revert p. induction evs as [|e evs IH]; intros p Hr Hp; [by eexists|]. apply Forall_cons in Hr as [He Hr].
  destruct (pageStep_returns p e He) as [q Hq]. destruct (IH q Hr (pageStep_connected p e q Hp Hq)) as (p' & Hrun & Hc & Hok).
  exists p'. cbn [runM]. rewrite Hq. split; [exact Hrun|]. split; [done|]. intros Hpok [Hw1 Hw]%Forall_cons.
  apply Hok; [|done]. destruct e as [stats|ns rpc]; cbn [pageStep] in Hq.
  - injection Hq as <-. by apply listenToPeersChanges_ok.
  - by apply (listenToNodesChanges_ok p ns rpc).
Qed.

Lemma over_escapes p n ns rpc l p' :
  ledgers n = Some l -> listenToNodesChanges p (n :: ns) rpc = Ret p' ->
  Forall stepFull (stepsOf l rpc) -> Exists stepOver (stepsOf l rpc) -> numAbove 33 (ledgerProgress p').
Proof.
  intros Hl Hp Hf He. destruct (listenToNodesChanges_cons p n ns rpc l Hl) as (q & Hq & _ & Hlp & _).
  rewrite Hq in Hp. injection Hp as <-.
  rewrite Hlp. pose proof (ledgerTotal_over l rpc (updateAction p) Hf He) as Ht.
  destruct (ledgerTotal _ _ _) as [[t|] a]; cbn in *; [lra|done].
Qed.

Lemma long_chain_escapes p n ns rpc l p' :
  ledgers n = Some l -> listenToNodesChanges p (n :: ns) rpc = Ret p' ->
  Forall (fun s => s.1 = SUCCESS) (stepsOf l rpc) -> (blockSyncProgress p' <= 34)%Q <-> appliedBelow n <= 292.
Proof.
  intros Hl Hp Hf. destruct (listenToNodesChanges_cons p n ns rpc l Hl) as (q & Hq & _ & _ & Hb).
  rewrite Hq in Hp. injection Hp as <-.
  rewrite Hb, ledgerTotal_fst. unfold stepsOf in *. rewrite !Forall_cons in Hf. cbn in Hf. destruct Hf as (F1 & F2 & F3 & F4 & _).
  unfold stepNum. cbn [fmap list_fmap fst snd]. rewrite F1, F2, F3, F4.
  change (is100 _) with true. rewrite <- (proj2 (percentOf291_bounds (appliedBelow n))). rewrite Zle_Qle.
  change (inject_Z 100) with 100%Q. cbv iota. split; lra.
Qed.

(** C5: whatever the peers report and whatever the service makes of the answers of
    the node, no report makes the page throw and the part of the peers is 0 or 33.
    As long as no more is fetched of an unfinished ledger than its estimate and at
    most 292 blocks below the best tip are applied, the parts of the ledgers and of
    the blocks stay within 33 and 34 percent, so the bar stays within 0 and 100.
    The page does not enforce these two conditions: once every ledger is finished or
    fetched to its estimate and one of them beyond it, the part of the ledgers is
    above 33, and with all ledgers finished the part of the blocks is within 34
    exactly when at most 292 blocks are applied. *)
Theorem dashboard_progress_bounded evs : Forall reported evs ->
  exists p, runM pageStep initialPage evs = Ret p /\
    (connectedProgress p = 0%Q \/ connectedProgress p = 33%Q) /\
    (Forall withinEstimates evs ->
       exists ledger, ledgerProgress p = Fin ledger /\ (0 <= ledger <= 33)%Q /\ (0 <= blockSyncProgress p <= 34)%Q /\
         (0 <= connectedProgress p + ledger + blockSyncProgress p <= 100)%Q) /\
    (forall n ns rpc, reported (NodesChanged (n :: ns) rpc) ->
       exists l p', ledgers n = Some l /\ listenToNodesChanges p (n :: ns) rpc = Ret p' /\
         (Forall stepFull (stepsOf l rpc) -> Exists stepOver (stepsOf l rpc) -> numAbove 33 (ledgerProgress p')) /\
         (Forall (fun s => s.1 = SUCCESS) (stepsOf l rpc) -> (blockSyncProgress p' <= 34)%Q <-> appliedBelow n <= 292)).
Proof.
  intros Hr. destruct (runM_page_spec evs initialPage Hr (or_introl eq_refl)) as (p & Hp & Hc & Hok).
  exists p. split; [done|]. split; [done|]. split.
  - intros Hw. destruct Hok as (_ & H2 & H3); [split_and!; cbn; auto; lra|done|].
    destruct (ledgerProgress p) as [q|]; [|done]. exists q. cbn in H2. split; [done|].
    destruct Hc as [-> | ->]; split_and!; lra.
  - intros n ns rpc Hn. destruct (reported_ledgers n ns rpc Hn) as [l Hl].
    destruct (pageStep_returns p _ Hn) as [p' Hp']. exists l, p'. split; [done|]. split; [exact Hp'|].
    split; [by apply (over_escapes p n ns)|by apply (long_chain_escapes p n ns)].
Qed.

End ProgressBounds.

(** ** The text *)

Definition ledgerTexts : list string :=
  ["Downloading Next Epoch Ledger"; "Downloading Root Snarked Ledger"; "Downloading Root Staged Ledger"; "Fetching Blocks"].

Definition unfinished (s : StepState) : bool := negb (bool_decide (s = SUCCESS)).

(** The text after the first [i] steps are finished. *)
Definition textAfter (a : string) (i : nat) : string :=
  match i with O => a | S i => nth i ledgerTexts "" end.

Lemma finishStep_snd st text n a : (finishStep st text (n, a)).2 = if unfinished st then a else text.
Proof. unfold finishStep, unfinished. by destruct (bool_decide _). Qed.

Lemma finishStep_fst st text n a : (finishStep st text (n, a)).1 = if unfinished st then n else Fin 100.
Proof. unfold finishStep, unfinished. by destruct (bool_decide _). Qed.

Lemma ledgerTotal_text l rpc a : StronglySorted doneBefore (stepStates l) ->
  (ledgerTotal l rpc a).2 = textAfter a (default 4 (findIndex unfinished (stepStates l))) /\
  (findIndex unfinished (stepStates l) = None -> is100 (ledgerTotal l rpc a).1 = true).
Proof.
  unfold stepStates, ledgerTotal, finishStep. intros Hs.
  inversion Hs as [|? ? Hs1 Hf1]; subst. inversion Hs1 as [|? ? Hs2 Hf2]; subst. inversion Hs2 as [|? ? Hs3 Hf3]; subst.
  rewrite !Forall_cons in Hf1, Hf2, Hf3. unfold doneBefore in *.
  destruct (epochState (stakingEpoch l)), (epochState (nextEpoch l)), (epochState (rootSnarked l)),
    (stagedState (rootStaged l)); cbn; try (split; done); exfalso; naive_solver.
Qed.

(** While the ledgers of a node are not all there, the dashboard names the
    first step that is not finished, in the order staking epoch, next epoch,
    snarked root, staged root (before the first is finished the text of the peers
    stays); once all four are finished the bar of the ledgers is full and the text
    is that of the blocks. *)
Theorem dashboard_names_first_unfinished now l p n ns rpc :
  (forall s t, root l = Some (s, t) -> truthyNum (reconstruct_end t) = true -> truthyNum (reconstruct_start t) = true) ->
  ledgers n = Some (getLedgers now l) ->
  let states := stepStates (getLedgers now l) in
  exists p', listenToNodesChanges p (n :: ns) rpc = Ret p' /\
    match findIndex unfinished states with
    | Some i =>
        updateAction p' = textAfter (updateAction p) i \/
        (is100 (ledgerTotal (getLedgers now l) rpc (updateAction p)).1 = true)
    | None =>
        updateAction p' = blocksText (percentOf291 (countIf isFetched (sliceFrom 1 (blocks n))))
                                     (percentOf291 (countIf isApplied (sliceFrom 1 (blocks n))))
    end.
Proof.
  intros Hr Hl states.
  destruct (ledgerTotal_text (getLedgers now l) rpc (updateAction p) (getLedgers_order now l Hr)) as [Ht Hn].
  unfold listenToNodesChanges. rewrite Hl. fold states in Ht, Hn.
  destruct (ledgerTotal (getLedgers now l) rpc (updateAction p)) as [total action]. cbn [fst snd] in *.
  destruct (findIndex unfinished states) as [i|].
  - cbn [default from_option id] in Ht. destruct (is100 total); cbn [negb]; eexists; (split; [done|]); [by right|by left].
  - rewrite (Hn eq_refl). cbn [negb]. eexists. split; [done|]. done.
Qed.

(** * Examples *)

#[local] Instance demoLC : LocaleCompare := codeUnitCompare.
#[local] Instance plainFormat : DateFormat := fun _ _ => "".

Definition demoPeer (id : string) (s : DashboardPeerStatus) : PeersResponse :=
  mkPeerResponse id None 1000000 (Some 5%Z) None None s None.
Definition demoCalls : MessageProgressResponse :=
  mkProgress [("a", [("ping", 2%Z); ("block", 3%Z)])] (Some (mkStats (Some 50%Z) (Some 200%Z))) None None.
Definition demoTip : SyncTip :=
  mkSyncTip [] "Bootstrap" None 0 (mkRawLedgers (Some (mkRawSnarked (Some 1%Z) None None None)) None None).
Definition demoWorld : World :=
  run step initialWorld
    [ Dispatch DashboardInit;
      Answer (getData 0 "n" (Ret [demoPeer "a" CONNECTED; demoPeer "b" CONNECTING]) (Ret [demoTip]) (Ret demoCalls));
      Dispatch (DashboardGetData false) ].

Lemma dashboard_demo_reachable : reachable_by step initialWorld (fun _ _ => True) demoWorld.
Proof. unfold demoWorld, run. cbn [fold_left]. repeat (apply reachable_step; [|done]). apply reachable_init. Qed.

Lemma dashboard_peers_consistent_witness :
  (requests <$> peers (state demoWorld)) = [5; 0]%Z /\
  peers (state (step demoWorld (Answer (Throw (ErrorMsg "offline"))))) = [].
Proof.
  split; [vm_compute; reflexivity|].
  pose proof (dashboard_peers_consistent demoWorld dashboard_demo_reachable) as H.
  destruct H as (_ & _ & _ & _ & H). exact (proj1 (H (ErrorMsg "offline") eq_refl)).
Defined.

Definition demoTips : list NodesOverviewNode := getTips 0 "n" (Ret [demoTip]).
Definition demoEvents : list PageEvent :=
  [ PeersChanged (peersStats (state demoWorld)); NodesChanged demoTips (rpcStats (state demoWorld)) ].
(** All four ledgers fetched beyond their estimates. *)
Definition overRpc : DashboardRpcStats :=
  let over := Some (mkStats (Some 110%Z) (Some 100%Z)) in mkRpcStats [] over over over over.

Lemma dashboard_progress_bounded_witness :
  exists p, runM pageStep initialPage demoEvents = Ret p /\ connectedProgress p = 33%Q /\
    (exists ledger, ledgerProgress p = Fin ledger /\ (0 <= ledger <= 33)%Q) /\
    exists p', listenToNodesChanges p demoTips overRpc = Ret p' /\ numAbove 33 (ledgerProgress p').
Proof.
  destruct (dashboard_progress_bounded demoEvents) as (p & Hp & _ & Hb & Hover).
  - apply Forall_cons; split; [exact I|]. apply Forall_cons; split; [|apply Forall_nil_2].
    right. exists 0%Z, "n", (Ret [demoTip]). reflexivity.
  - exists p. split; [exact Hp|]. split; [vm_compute in Hp; injection Hp as <-; reflexivity|]. split.
    + destruct Hb as (q & Hq & Hb & _); [|exists q; split; [exact Hq|exact Hb]].
      apply Forall_cons; split; [exact I|]. apply Forall_cons; split; [|apply Forall_nil_2].
      split; [intros l Hl; injection Hl as <-|vm_compute; lia].
      unfold stepsOf. rewrite !Forall_cons. split_and!; try apply Forall_nil_2;
        right; intros f e Hf He; vm_compute in Hf, He; simplify_eq; lia.
    + destruct (Hover (mapTip 0 "n" None demoTip) [] overRpc) as (l & p' & Hl & Hp' & Habove & _).
      { right. exists 0%Z, "n", (Ret [demoTip]). reflexivity. }
      exists p'. split; [exact Hp'|]. injection Hl as <-. apply Habove.
      * unfold stepsOf. rewrite !Forall_cons. split_and!; try apply Forall_nil_2;
          right; exists 110%Z, 100%Z; split_and!; reflexivity || lia.
      * apply Exists_cons_hd. split; [vm_compute; discriminate|]. exists 110%Z, 100%Z. split_and!; reflexivity || lia.
Defined.

Lemma dashboard_names_first_unfinished_witness :
  exists p', listenToNodesChanges initialPage (nodes (state demoWorld)) emptyRpcStats = Ret p' /\
    updateAction p' = "Connecting to peers".
Proof.
  destruct (dashboard_names_first_unfinished 0 (tipLedgers demoTip) initialPage (mapTip 0 "n" None demoTip) [] emptyRpcStats)
    as (p' & Hp & Ht); [done|reflexivity|].
  exists p'. split; [exact Hp|]. vm_compute in Ht. destruct Ht as [Ht|Ht]; [exact Ht|discriminate].
Defined.

End Dashboard.
