(* ===== verification/DashboardProgress.v ===== *)
(** The components of the dashboard that show the download of the ledgers
    (dashboard-ledger.component.ts) and of the blocks
    (dashboard-blocks-sync.component.ts). *)

From S2P Require Import Prelude JsRuntime TableSort NodesOverview Dashboard.

Module DashboardProgress.
Import NodesOverview Dashboard.

(** * Times ago *)

(** [calculateProgressTime]: [None] stands for NaN, which every comparison
    refuses. *)
Definition agoText (now : Z) (timestamp : option Q) : string :=
  match timestamp with
  | None => "<1m ago"
  | Some t =>
      let millisecondsAgo := (now - Qceiling (t / inject_Z ONE_MILLION))%Z in
      let minutesAgo := (millisecondsAgo / 60000)%Z in
      let hoursAgo := (minutesAgo / 60)%Z in
      let daysAgo := (hoursAgo / 24)%Z in
      if (0 <? daysAgo)%Z then showZ daysAgo +:+ "d ago"
      else if (0 <? hoursAgo)%Z then showZ hoursAgo +:+ "h ago"
      else if (0 <? minutesAgo)%Z then showZ minutesAgo +:+ "m ago"
      else "<1m ago"
  end.

(** * Ledgers: dashboard-ledger.component.ts *)

(** The seconds left for a ledger and what was fetched of it at the last report;
    [None] stands for [undefined] and NaN. *)
Record Estimate := mkEstimate { remaining : option Z; previous : option Z }.

(** The interval of the countdown: never started, running, or cleared.  Its handle
    stays set once it was started. *)
Inductive Timer := NoTimer | Running | Cleared.

#[export] Instance Timer_eq_dec : EqDecision Timer.
Proof. solve_decision. Defined.

Record LedgerView := mkView {
  shownLedgers : NodesOverviewLedger;
  progress : option string;
  undefinedConfigs : list bool;
  stakingProgress : Num;
  nextProgress : Num;
  rootSnarkedProgress : Num;
  rootStagedProgress : Num;
  totalProgress : option Num;
  isWebNode : bool;
  fetchedParts : option Z * option Z;
  stakingEstimate : Estimate;
  nextEstimate : Estimate;
  rootSnarkedEstimate : Estimate;
  rootStagedEstimate : Estimate;
  remainingReconstruct : Z;
  reconstructTimer : Timer
}.

#[export, refine] Instance View_copy : RecordCopy LedgerView := {
  record_copy v := mkView (shownLedgers v) (progress v) (undefinedConfigs v) (stakingProgress v) (nextProgress v)
    (rootSnarkedProgress v) (rootStagedProgress v) (totalProgress v) (isWebNode v) (fetchedParts v)
    (stakingEstimate v) (nextEstimate v) (rootSnarkedEstimate v) (rootStagedEstimate v) (remainingReconstruct v)
    (reconstructTimer v) }.
Proof. by intros []. Defined.

Definition initialSnarked : EpochStep :=
  mkEpochStep PENDING (mkSnarked (Some 0%Z) (Some 0%Z) (Some 0%Z) (Some 0%Z) None None None None) None.
Definition initialStaged : RootStagedStep :=
  mkRootStaged PENDING (mkStaged (Some 0%Z) (Some 0%Z) (Some 0%Z) (Some 0%Z) None None None None) None.
Definition initialLedgers : NodesOverviewLedger := mkLedger initialSnarked initialSnarked initialSnarked initialStaged.
Definition noEstimate : Estimate := mkEstimate None None.

Definition initialView : LedgerView :=
  mkView initialLedgers None [false; false; false; false] (Fin 0) (Fin 0) (Fin 0) (Fin 0) None false (Some 0%Z, Some 0%Z)
    noEstimate noEstimate noEstimate noEstimate 20 NoTimer.

(** One of the four blocks that estimate the time left: [null] as a start counts
    as zero. *)
Definition updateEstimate (now : Z) (start : option Z) (stats : option LedgerStats) (e : Estimate) : Estimate :=
  let startTime := (inject_Z (default 0%Z start) / inject_Z ONE_MILLION)%Q in
  let downloaded := stats ≫= fetched in
  let rest :=
    if truthyNum (previous e) && truthyNum downloaded && negb (Qle_bool (inject_Z now) startTime) then
      match stats ≫= estimation, downloaded with
      | Some est, Some d =>
          Some (Qfloor (inject_Z (est - d) / inject_Z d * (inject_Z now - startTime) / inject_Z 1000))
      | _, _ => None
      end
    else remaining e in
  mkEstimate rest downloaded.

(** [setProgressTime] *)
Definition setProgressTime (now : Z) (v : LedgerView) : LedgerView :=
  let l := shownLedgers v in
  if negb (truthyNum (fetchHashesStart (snarked (stakingEpoch l)))) then v
  else if bool_decide (stagedState (rootStaged l) = SUCCESS)
  then v <| progress := Some ("finished " +:+ agoText now (inject_Z <$> reconstructEnd (staged (rootStaged l)))) |>
  else v <| progress := Some ("started " +:+ agoText now (inject_Z <$> fetchHashesStart (snarked (stakingEpoch l)))) |>.

Definition isLoading (s : StepState) : bool := bool_decide (s = LOADING).
Definition whenDone (s : StepState) (p : Num) : Num := if bool_decide (s = SUCCESS) then Fin 100 else p.

Definition stagedParts (l : NodesOverviewLedger) : Q :=
  let st := staged (rootStaged l) in
  ((if truthyNum (fetchPartsEnd st) then 50 else 0) + (if truthyNum (reconstructEnd st) then 50 else 0))%Q.

Definition reconstructTimerAfter (v : LedgerView) (l : NodesOverviewLedger) : Timer :=
  if negb (Qle_bool 100 (stagedParts l)) && isWebNode v && truthyNum (fetchPartsEnd (staged (rootStaged l)))
     && bool_decide (reconstructTimer v = NoTimer) then Running
  else if Qeq_bool (stagedParts l) 100
  then (if bool_decide (reconstructTimer v = NoTimer) then NoTimer else Cleared)
  else reconstructTimer v.

Definition resetView (v : LedgerView) : LedgerView :=
  v <| shownLedgers := initialLedgers |> <| undefinedConfigs := [false; false; false; false] |> <| progress := None |>
    <| stakingProgress := Fin 0 |> <| nextProgress := Fin 0 |> <| rootSnarkedProgress := Fin 0 |>
    <| rootStagedProgress := Fin 0 |> <| totalProgress := Some (Fin 0) |> <| fetchedParts := (Some 0%Z, Some 0%Z) |>.

Definition updateEstimates (now : Z) (v : LedgerView) (l : NodesOverviewLedger) (rpc : DashboardRpcStats) : LedgerView :=
  let v := v <| stakingEstimate := updateEstimate now (fetchHashesStart (snarked (stakingEpoch l))) (stakingLedger rpc)
                                     (stakingEstimate v) |>
             <| nextEstimate := updateEstimate now (fetchHashesStart (snarked (nextEpoch l))) (nextLedger rpc)
                                  (nextEstimate v) |>
             <| rootSnarkedEstimate := updateEstimate now (fetchHashesStart (snarked (rootSnarked l)))
                                         (snarkedRootLedger rpc) (rootSnarkedEstimate v) |> in
  if isWebNode v
  then v <| rootStagedEstimate := updateEstimate now (fetchPartsStart (staged (rootStaged l))) (stagedRootLedger rpc)
                                    (rootStagedEstimate v) |>
  else v.

Definition updateProgress (v : LedgerView) (l : NodesOverviewLedger) (rpc : DashboardRpcStats) : LedgerView :=
  let staking := whenDone (epochState (stakingEpoch l)) (percent (stakingLedger rpc)) in
  let next := whenDone (epochState (nextEpoch l)) (percent (nextLedger rpc)) in
  let rootSn := whenDone (epochState (rootSnarked l)) (percent (snarkedRootLedger rpc)) in
  let rootSt := whenDone (stagedState (rootStaged l)) (Fin (stagedParts l)) in
  v <| fetchedParts := if truthyNum (stagedRootLedger rpc ≫= estimation)
                       then (stagedRootLedger rpc ≫= fetched, stagedRootLedger rpc ≫= estimation) else fetchedParts v |>
    <| reconstructTimer := reconstructTimerAfter v l |>
    <| stakingProgress := staking |> <| nextProgress := next |> <| rootSnarkedProgress := rootSn |>
    <| rootStagedProgress := rootSt |>
    <| totalProgress := Some (scaleNum (1 # 4) (addNum (addNum (addNum staking next) rootSn) rootSt)) |>.

Definition ledgerNodesChanged (now : Z) (v : LedgerView) (ns : list NodesOverviewNode) (rpc : DashboardRpcStats)
  : exec LedgerView :=
  match ns with
  | [] => Ret (resetView v)
  | n :: _ =>
      match ledgers n with
      | None => Throw (TypeError "Cannot read properties of undefined (reading 'stakingEpoch')")
      | Some l =>
          let v := v <| shownLedgers := l |> <| undefinedConfigs := isLoading <$> stepStates l |> in
          Ret (updateProgress (updateEstimates now (setProgressTime now v) l rpc) l rpc)
      end
  end.

(** One second of the countdown; [draw] is [Math.floor(Math.random() * 2) + 2]. *)
Definition reconstructTick (v : LedgerView) (draw : Z) : LedgerView :=
  match reconstructTimer v with
  | Running =>
      let v := v <| remainingReconstruct := (remainingReconstruct v - 1)%Z |> in
      if (remainingReconstruct v =? draw)%Z then v <| reconstructTimer := Cleared |> else v
  | _ => v
  end.

(** * Blocks: dashboard-blocks-sync.component.ts *)

Record SyncView := mkSync {
  fetchedCount : option nat;
  fetchedPercentage : string;
  appliedCount : option nat;
  appliedPercentage : option Z;
  rootHeight : option Z;
  rootText : string;
  bestTipBlock : option Z;
  bestTipBlockSyncedText : string;
  targetBlock : option Z;
  syncProgress : option string;
  remainingTime : option Z;
  lengthWithoutRoot : option nat
}.

#[export, refine] Instance Sync_copy : RecordCopy SyncView := {
  record_copy v := mkSync (fetchedCount v) (fetchedPercentage v) (appliedCount v) (appliedPercentage v) (rootHeight v)
    (rootText v) (bestTipBlock v) (bestTipBlockSyncedText v) (targetBlock v) (syncProgress v) (remainingTime v)
    (lengthWithoutRoot v) }.
Proof. by intros []. Defined.

Definition PENDING_TEXT : string := "Pending".

Definition initialSync : SyncView :=
  mkSync None "-" None None None PENDING_TEXT None PENDING_TEXT None None None None.

(** [s.slice(n)] *)
Fixpoint strDrop (n : nat) (s : string) : string :=
  match n, s with S n, String _ s => strDrop n s | _, _ => s end.

(** [calculateProgressTime]: zero, missing and NaN are pending. *)
Definition syncedAgo (now : Z) (timestamp : option Q) : string :=
  match timestamp with
  | Some t => if Qeq_bool t 0 then PENDING_TEXT else "Synced " +:+ agoText now (Some t)
  | None => PENDING_TEXT
  end.

(** The peer with the greatest height; [null] counts as zero. *)
Definition extractPeersData (ps : list DashboardPeer) (v : SyncView) : SyncView :=
  v <| targetBlock := Some (fold_left (fun acc p => if (acc <? default 0 (peerHeight p))%Z
                                                    then default 0%Z (peerHeight p) else acc) ps 0%Z) |>.

Definition syncedTexts (now : Z) (n : NodesOverviewNode) (v : SyncView) : SyncView :=
  match blocks n with
  | [] => v
  | b :: _ =>
      let text := "Fetched " +:+ strDrop 7 (syncedAgo now ((fun t => t * inject_Z ONE_MILLION)%Q <$>
                                                            bestTipReceivedTimestamp n)) in
      v <| bestTipBlock := Some (blockHeight b) |> <| bestTipBlockSyncedText := text |>
        <| syncProgress := Some (if match lastElem (blocks n) with Some b => isApplied b | None => false end
                                 then strDrop 8 text else "Pending") |>
  end.

Definition rootTexts (now : Z) (n : NodesOverviewNode) (v : SyncView) : SyncView :=
  match length (blocks n) =? 291, blocks n, lastElem (blocks n) with
  | true, b :: _, Some r =>
      let v := v <| rootHeight := Some (blockHeight r) |> <| rootText := syncedAgo now (inject_Z <$> applyEnd r) |> in
      if isApplied b then v <| bestTipBlockSyncedText := "Synced" +:+ " " +:+ strDrop 7 (bestTipBlockSyncedText v) |>
      else v
  | _, _, _ => v <| rootHeight := None |> <| rootText := PENDING_TEXT |>
  end.

(** [Math.floor((n * 100) / (length || 100))] *)
Definition floorPercent (n len : nat) : Z := (Z.of_nat n * 100 / Z.of_nat (if (len =? 0)%nat then 100%nat else len))%Z.

Definition extractNodesData (now : Z) (n : NodesOverviewNode) (v : SyncView) : SyncView :=
  let v := rootTexts now n (syncedTexts now n v) in
  let bs := sliceFrom 1 (blocks n) in
  let f := countIf isFetched bs in
  let a := countIf isApplied bs in
  v <| lengthWithoutRoot := Some (length bs) |> <| fetchedCount := Some f |> <| appliedCount := Some a |>
    <| fetchedPercentage := showZ (floorPercent f (length bs)) +:+ "%" |>
    <| appliedPercentage := Some (floorPercent a (length bs)) |>.

(** [Math.min(...l)]; [None] stands for infinity. *)
Fixpoint minOf (l : list Z) : option Z :=
  match l with
  | [] => None
  | x :: l => Some (match minOf l with Some m => Z.min x m | None => x end)
  end.

(** The seconds left: a fetched block weighs 1 and an applied one 5. *)
Definition estimateRemaining (now : Z) (bs : list NodesOverviewBlock) (old : option Z) : option Z :=
  let f := countIf (fun b => truthyNum (fetchEnd b)) bs in
  let a := countIf (fun b => truthyNum (applyEnd b)) bs in
  if a <? 291 then
    let weighted := inject_Z (Z.of_nat (f + 5 * a)) in
    match minOf (default 0%Z <$> List.filter truthyNum (fetchStart <$> bs)) with
    | None => old
    | Some start =>
        let secondsPassed := ((inject_Z now - inject_Z start / inject_Z ONE_MILLION) / inject_Z 1000)%Q in
        if Qle_bool weighted 0 || negb (Qle_bool 0 secondsPassed) then old
        else if Qeq_bool secondsPassed 0 then Some 0%Z
        else Some (Qceiling ((inject_Z (291 + 291 * 5) - weighted) / (weighted / secondsPassed)))
    end
  else None.

(** The flag tells whether the details of the node are asked for. *)
Definition syncNodesChanged (now : Z) (v : SyncView) (ns : list NodesOverviewNode) (ps : list DashboardPeer)
  : SyncView * bool :=
  match ns with
  | [] =>
      (mkSync None "-" None None None PENDING_TEXT None PENDING_TEXT None None (remainingTime v) (lengthWithoutRoot v), false)
  | n :: _ =>
      let v := v <| remainingTime := estimateRemaining now (blocks n) (remainingTime v) |> in
      let v := extractPeersData ps (extractNodesData now n v) in
      (v, bool_decide (appliedPercentage v = Some 100%Z))
  end.

(** * Theorems *)

(** The text names the largest unit that fits, rounded down. *)
Lemma agoText_unit now t :
  let ms := (now - Qceiling (t / inject_Z ONE_MILLION))%Z in
  agoText now (Some t) =
    (if (ms <? 60000)%Z then "<1m ago"
     else if (ms <? 3600000)%Z then showZ (ms / 60000) +:+ "m ago"
     else if (ms <? 86400000)%Z then showZ (ms / 3600000) +:+ "h ago"
     else showZ (ms / 86400000) +:+ "d ago").
Proof.
  intros ms. cbn [agoText]. fold ms. rewrite !Z.div_div by lia. change (60000 * 60)%Z with 3600000%Z.
  change (60000 * (60 * 24))%Z with 86400000%Z.
  assert (forall d, (0 < d)%Z -> (0 <? ms / d)%Z = negb (ms <? d)%Z) as H.
  { intros d Hd. destruct (Z.ltb_spec ms d) as [Hlt|Hge]; cbn.
    - apply Z.ltb_ge. apply Z.lt_succ_r. apply Z.div_lt_upper_bound; lia.
    - apply Z.ltb_lt. apply Z.div_str_pos. lia. }
  rewrite !H by lia.
  clearbody ms. destruct (Z.ltb_spec ms 60000), (Z.ltb_spec ms 3600000), (Z.ltb_spec ms 86400000); cbn [negb]; try done; lia.
Qed.

(** ** Ledgers *)

Lemma whenDone_within s p : numWithin 100 p -> numWithin 100 (whenDone s p).
Proof. unfold whenDone. destruct (bool_decide _); [cbn; lra|done]. Qed.

Lemma stagedParts_within l : numWithin 100 (Fin (stagedParts l)).
Proof. unfold stagedParts. cbn. destruct (truthyNum _), (truthyNum _); lra. Qed.

(** The estimate of a ledger extrapolates what was fetched so far: it is never
    negative, and zero once everything is there. *)
Lemma updateEstimate_spec now start f est e :
  (0 < f <= est)%Z -> truthyNum (previous e) = true -> (default 0 start < now * ONE_MILLION)%Z ->
  exists r, remaining (updateEstimate now start (Some (mkStats (Some f) (Some est))) e) = Some r /\ (0 <= r)%Z /\
    (f = est -> r = 0%Z) /\
    (inject_Z r * inject_Z f * inject_Z 1000 <=
       inject_Z (est - f) * (inject_Z now - inject_Z (default 0%Z start) / inject_Z ONE_MILLION))%Q.
Proof.
  intros Hf Hp Hs. unfold updateEstimate. cbn [mbind option_bind fetched estimation remaining]. rewrite Hp. cbn [andb].
  replace (truthyNum (Some f)) with true by (symmetry; apply negb_true_iff, Z.eqb_neq; lia).
  set (t := (inject_Z now - inject_Z (default 0%Z start) / inject_Z ONE_MILLION)%Q).
  assert (0 < t)%Q as Ht.
  { subst t. assert (inject_Z (default 0%Z start) / inject_Z ONE_MILLION < inject_Z now)%Q; [|lra].
    apply Qlt_shift_div_r; [done|]. rewrite <- inject_Z_mult, <- Zlt_Qlt. done. }
  replace (Qle_bool (inject_Z now) (inject_Z (default 0%Z start) / inject_Z ONE_MILLION)) with false.
  2: { symmetry. apply not_true_is_false. rewrite Qle_bool_iff. unfold t in Ht. lra. }
  cbn [negb]. eexists. split; [done|].
  set (x := (inject_Z (est - f) / inject_Z f * t / inject_Z 1000)%Q).
  assert (0 < inject_Z f)%Q as Hfq by (rewrite <- (Zlt_Qlt 0); lia).
  assert (0 <= inject_Z (est - f))%Q as Hdq by (rewrite <- (Zle_Qle 0); lia).
  assert (x * inject_Z f * inject_Z 1000 == inject_Z (est - f) * t)%Q as Hx by (unfold x; field; lra).
  assert (0 <= x)%Q as Hx0.
  { unfold x. apply Qle_shift_div_l; [done|]. rewrite Qmult_0_l. apply Qmult_le_0_compat; [|lra].
    apply Qle_shift_div_l; lra. }
  pose proof (Qfloor_le x) as Hfl. split_and!.
  - change 0%Z with (Qfloor 0). by apply Qfloor_resp_le.
  - intros ->. unfold x. rewrite Z.sub_diag. change (inject_Z 0) with 0%Q.
    rewrite (Qfloor_comp _ 0); [done|]. field. lra.
  - rewrite <- Hx. apply Qmult_le_compat_r; [|done]. apply Qmult_le_compat_r; [done|lra].
Qed.

(** What the view keeps after a report. *)
Definition viewWithin (v : LedgerView) : Prop :=
  numWithin 100 (stakingProgress v) /\ numWithin 100 (nextProgress v) /\ numWithin 100 (rootSnarkedProgress v) /\
  numWithin 100 (rootStagedProgress v).

Lemma updateProgress_within v l rpc : rpcOk rpc -> let v' := updateProgress v l rpc in
  viewWithin v' /\ exists t, totalProgress v' = Some t /\ numWithin 100 t.
Proof.
  intros Hr v'. unfold rpcOk in Hr. rewrite !Forall_cons in Hr. destruct Hr as (H1 & H2 & H3 & _).
  assert (viewWithin v') as Hv.
  { unfold viewWithin. split_and!; cbn; apply whenDone_within; auto using percent_within, stagedParts_within. }
  split; [done|]. eexists. split; [done|]. destruct Hv as (W1 & W2 & W3 & W4). cbn in W1, W2, W3, W4.
  destruct (whenDone _ _), (whenDone _ _), (whenDone _ _), (whenDone _ _); cbn in *; try done. lra.
Qed.

(** All four steps are finished exactly when the total is full by their states. *)
Definition allDone (l : NodesOverviewLedger) : Prop := Forall (eq SUCCESS) (stepStates l).

Lemma allDone_states l : allDone l <->
  epochState (stakingEpoch l) = SUCCESS /\ epochState (nextEpoch l) = SUCCESS /\
  epochState (rootSnarked l) = SUCCESS /\ stagedState (rootStaged l) = SUCCESS.
Proof. unfold allDone, stepStates. rewrite !Forall_cons, Forall_nil. naive_solver. Qed.

(** For every report of the node in which no more of a ledger is fetched than
    its estimate, the four percentages of the ledgers and their total stay within 0
    and 100, and when the four steps are finished both the total here and the third
    of the page's progress bar are full; a report with no node empties the
    percentages, but keeps the estimates and the countdown of the last one. *)
Theorem dashboard_ledger_progress now v ns rpc p :
  rpcOk rpc -> (forall n ns', ns = n :: ns' -> is_Some (ledgers n)) ->
  exists v', ledgerNodesChanged now v ns rpc = Ret v' /\ viewWithin v' /\
    (exists t, totalProgress v' = Some t /\ numWithin 100 t) /\
    match ns with
    | [] => totalProgress v' = Some (Fin 0) /\ stakingEstimate v' = stakingEstimate v /\
            reconstructTimer v' = reconstructTimer v /\ remainingReconstruct v' = remainingReconstruct v
    | n :: _ =>
        forall l, ledgers n = Some l -> allDone l ->
          (exists t, totalProgress v' = Some (Fin t) /\ (t == 100)%Q) /\
          exists p' q, listenToNodesChanges p ns rpc = Ret p' /\ ledgerProgress p' = Fin q /\ (q == 33)%Q
    end.
Proof.
  intros Hr Hns. destruct ns as [|n ns].
  - eexists. split; [done|]. split; [unfold viewWithin; cbn; lra|]. split; [|by split_and!].
    eexists. split; [done|]. cbn. lra.
  - destruct (Hns n ns eq_refl) as [l Hl]. cbn [ledgerNodesChanged]. rewrite Hl. eexists. split; [done|].
    set (v0 := updateEstimates _ _ _ _). destruct (updateProgress_within v0 l rpc Hr) as [H1 H2].
    split; [done|]. split; [done|]. intros l' [= <-] Hd. apply allDone_states in Hd as (S1 & S2 & S3 & S4).
    split.
    + eexists. split; [cbn; unfold whenDone; rewrite S1, S2, S3, S4; reflexivity|]. reflexivity.
    + unfold listenToNodesChanges. rewrite Hl. unfold ledgerTotal, finishStep. rewrite S1, S2, S3, S4. cbn.
      eexists _, _. split; [done|]. split; [done|]. reflexivity.
Qed.

(** ** The countdown *)

Definition caughtAt3 (draws : list Z) : bool := bool_decide (draws !! 16 = Some 3%Z).
Definition caughtAt2 (draws : list Z) : bool := bool_decide (draws !! 17 = Some 2%Z).

(** Where the countdown is after [n] seconds. *)
Definition countdownAt (draws : list Z) : Z * Timer :=
  let n := Z.of_nat (length draws) in
  if caughtAt3 draws then (3%Z, Cleared)
  else if caughtAt2 draws then (2%Z, Cleared)
  else ((20 - n)%Z, Running).

Lemma reconstructTick_spec v d :
  (remainingReconstruct (reconstructTick v d), reconstructTimer (reconstructTick v d)) =
  match reconstructTimer v with
  | Running => ((remainingReconstruct v - 1)%Z, if (remainingReconstruct v - 1 =? d)%Z then Cleared else Running)
  | t => (remainingReconstruct v, t)
  end.
Proof.
  unfold reconstructTick. destruct (reconstructTimer v) eqn:E; try (by rewrite E).
  cbn -[Z.sub Z.eqb]. destruct (_ =? _)%Z; cbn; by rewrite ?E.
Qed.

Lemma caught_snoc (k : nat) (c : Z) draws (d : Z) : length draws <> k ->
  bool_decide ((draws ++ [d]) !! k = Some c) = bool_decide (draws !! k = Some c).
Proof.
  intros Hk. apply bool_decide_ext. destruct (decide (k < length draws)) as [Hlt|Hge].
  - by rewrite lookup_app_l.
  - rewrite lookup_app_r by lia. rewrite (lookup_ge_None_2 draws) by lia.
    rewrite lookup_ge_None_2 by (cbn; lia). done.
Qed.

Lemma caught_snoc_here (k : nat) (c : Z) draws (d : Z) : length draws = k ->
  bool_decide ((draws ++ [d]) !! k = Some c) = (d =? c)%Z /\ bool_decide (draws !! k = Some c) = false.
Proof.
  intros <-. rewrite list_lookup_middle by done. rewrite (lookup_ge_None_2 draws) by lia. split; [|done].
  destruct (Z.eqb_spec d c) as [-> |Hne]; [by rewrite bool_decide_eq_true_2|].
  apply bool_decide_eq_false_2. congruence.
Qed.

Lemma countdownAt_snoc draws d : d = 2%Z \/ d = 3%Z ->
  countdownAt (draws ++ [d]) =
  match countdownAt draws with
  | (r, Running) => ((r - 1)%Z, if (r - 1 =? d)%Z then Cleared else Running)
  | s => s
  end.
Proof.
  intros Hd. unfold countdownAt. rewrite length_app. cbn [length]. unfold caughtAt3, caughtAt2.
  destruct (decide (length draws = 16)) as [E|N16].
  - destruct (caught_snoc_here 16 3 draws d E) as [-> ->]. rewrite !(caught_snoc 17) by lia.
    rewrite (lookup_ge_None_2 draws 17) by lia. rewrite (bool_decide_eq_false_2 (None = _)) by done.
    rewrite E. destruct Hd as [-> | ->]; done.
  - rewrite !(caught_snoc 16) by done. destruct (bool_decide (draws !! 16 = Some 3%Z)); [done|].
    destruct (decide (length draws = 17)) as [E|N17].
    + destruct (caught_snoc_here 17 2 draws d E) as [-> ->]. rewrite E. destruct Hd as [-> | ->]; done.
    + rewrite !(caught_snoc 17) by done. destruct (bool_decide (draws !! 17 = Some 2%Z)); [done|].
      replace (20 - Z.of_nat (length draws) - 1 =? d)%Z with false by (symmetry; apply Z.eqb_neq; lia).
      f_equal. lia.
Qed.

(** What reaches the component while the countdown runs: its seconds, with their
    draws, and the reports of the store. *)
Inductive LedgerEvent := Second (draw : Z) | StoreReport (now : Z) (ns : list NodesOverviewNode) (rpc : DashboardRpcStats).

Definition ledgerEvent (v : LedgerView) (e : LedgerEvent) : exec LedgerView :=
  match e with
  | Second draw => Ret (reconstructTick v draw)
  | StoreReport now ns rpc => ledgerNodesChanged now v ns rpc
  end.

(** A report of a staged ledger that is fetched and reconstructed. *)
Definition reconstructed (e : LedgerEvent) : bool :=
  match e with
  | StoreReport _ (n :: _) _ => match ledgers n with Some l => Qeq_bool (stagedParts l) 100 | None => false end
  | _ => false
  end.

(** The draws up to the first such report. *)
Fixpoint drawsBefore (evs : list LedgerEvent) : list Z :=
  match evs with
  | [] => []
  | Second d :: evs => d :: drawsBefore evs
  | e :: evs => if reconstructed e then [] else drawsBefore evs
  end.

Definition timerStep (s : Z * Timer) (e : LedgerEvent) : Z * Timer :=
  match e, s with
  | Second d, (r, Running) => ((r - 1)%Z, if (r - 1 =? d)%Z then Cleared else Running)
  | Second _, _ => s
  | StoreReport _ _ _, (r, t) => if reconstructed e then (r, Cleared) else s
  end.

Lemma drawsBefore_snoc evs e :
  drawsBefore (evs ++ [e]) =
  if existsb reconstructed evs then drawsBefore evs
  else match e with Second d => drawsBefore evs ++ [d] | _ => drawsBefore evs end.
Proof.
  induction evs as [|e' evs IH]; cbn [app existsb drawsBefore].
  - destruct e as [d|now ns rpc]; [done|]. by destruct (reconstructed _).
  - destruct e' as [d'|now ns rpc]; cbn [reconstructed orb]; rewrite ?IH.
    + by destruct (existsb _ _), e.
    + fold (reconstructed (StoreReport now ns rpc)). by destruct (reconstructed (StoreReport now ns rpc)), (existsb _ _), e.
Qed.

Section CountdownTheorem.
Context `{DateFormat}.

(** A draw is 2 or 3, and the store reports what the service makes of an answer. *)
Definition ledgerEventOk (e : LedgerEvent) : Prop :=
  match e with
  | Second d => d = 2%Z \/ d = 3%Z
  | StoreReport _ ns rpc => reported (NodesChanged ns rpc)
  end.

Lemma drawsBefore_ok evs : Forall ledgerEventOk evs -> Forall (fun d => d = 2 \/ d = 3)%Z (drawsBefore evs).
Proof.
  induction 1 as [|e evs He Hevs IH]; [constructor|]. destruct e; cbn [drawsBefore]; [by constructor|].
  destruct (reconstructed _); [constructor|done].
Qed.

Lemma ledgerEvent_timer v e :
  ledgerEventOk e -> reconstructTimer v <> NoTimer ->
  exists v', ledgerEvent v e = Ret v' /\
    (remainingReconstruct v', reconstructTimer v') = timerStep (remainingReconstruct v, reconstructTimer v) e.
Proof.
  destruct e as [d|now ns rpc]; cbn [ledgerEventOk ledgerEvent]; intros He Ht.
  - eexists. split; [done|]. rewrite reconstructTick_spec. cbn [timerStep]. by destruct (reconstructTimer v).
  - destruct ns as [|n ns]; [by eexists|]. destruct (reported_ledgers n ns rpc He) as [l Hl].
    cbn [ledgerNodesChanged timerStep reconstructed]. rewrite Hl. eexists. split; [done|].
    unfold updateProgress, reconstructTimerAfter. set (u := updateEstimates _ _ _ _).
    assert (reconstructTimer u = reconstructTimer v /\ remainingReconstruct u = remainingReconstruct v) as [E1 E2].
    { subst u. unfold updateEstimates, setProgressTime.
      repeat match goal with |- context [if ?b then _ else _] => destruct b end; done. }
    cbn. rewrite E1, E2, (bool_decide_false (_ = NoTimer)), andb_false_r by done. by destruct (Qeq_bool _ _).
Qed.

Lemma timerStep_started s e : s.2 <> NoTimer -> (timerStep s e).2 <> NoTimer.
Proof. destruct s as [r []], e; cbn; try done; repeat (case_match; try done). Qed.

Lemma runM_timer evs v :
  Forall ledgerEventOk evs -> reconstructTimer v <> NoTimer ->
  exists v', runM ledgerEvent v evs = Ret v' /\
    (remainingReconstruct v', reconstructTimer v')
    = fold_left timerStep evs (remainingReconstruct v, reconstructTimer v).
Proof.
  revert v. induction evs as [|e evs IH]; intros v Hok Ht; [by eexists|]. apply Forall_cons in Hok as [He Hok].
  destruct (ledgerEvent_timer v e He Ht) as (u & Hu & Hs). destruct (IH u Hok) as (v' & Hv' & Hf).
  { pose proof (timerStep_started (remainingReconstruct v, reconstructTimer v) e Ht) as H'. by rewrite <- Hs in H'. }
  exists v'. cbn [runM fold_left]. rewrite Hu. split; [exact Hv'|]. by rewrite <- Hs.
Qed.

Lemma timerStep_run evs :
  Forall ledgerEventOk evs ->
  fold_left timerStep evs (20%Z, Running) =
  if existsb reconstructed evs then ((countdownAt (drawsBefore evs)).1, Cleared) else countdownAt (drawsBefore evs).
Proof.
  induction evs as [|e evs IH] using rev_ind; [done|]. intros [Hok He]%Forall_app. specialize (IH Hok).
  rewrite fold_left_app, existsb_app, drawsBefore_snoc. cbn [fold_left existsb]. rewrite IH, orb_false_r.
  apply Forall_cons in He as [He _]. destruct (existsb reconstructed evs); cbn [orb].
  - destruct e as [d|now ns rpc]; [done|]. cbn [timerStep]. by destruct (reconstructed _).
  - destruct e as [d|now ns rpc]; cbn [reconstructed timerStep].
    + rewrite countdownAt_snoc by done. by destruct (countdownAt _) as [r []].
    + by destruct (countdownAt (drawsBefore evs)) as [r t].
Qed.

Lemma countdownAt_negative draws :
  Forall (fun d => d = 2 \/ d = 3)%Z draws ->
  ((countdownAt draws).1 < 0)%Z <-> 20 < length draws /\ draws !! 16 = Some 2%Z /\ draws !! 17 = Some 3%Z.
Proof.
  intros Hd. unfold countdownAt, caughtAt3, caughtAt2. split.
  - repeat case_bool_decide; cbn [fst]; try lia. intros Hn. assert (20 < length draws) as Hl by lia. split; [done|].
    destruct (lookup_lt_is_Some_2 draws 16 ltac:(lia)) as [d16 H16], (lookup_lt_is_Some_2 draws 17 ltac:(lia)) as [d17 H17].
    pose proof (Forall_lookup_1 _ _ _ _ Hd H16) as [-> | ->]; pose proof (Forall_lookup_1 _ _ _ _ Hd H17) as [-> | ->];
      rewrite H16, H17 in *; done.
  - intros (Hl & -> & ->). repeat case_bool_decide; try done. cbn [fst]. lia.
Qed.

(** C4: the countdown of the reconstruction, from its start at 20, under any
    interleaving of its seconds with the reports of the store.  It is stopped by a
    report of a staged ledger that is fetched and reconstructed, or before by the
    seventeenth draw, if it is 3, at 3, or by the eighteenth, if it is 2, at 2; as
    long as none of these has happened it runs and has gone down by one for every
    second.  So it goes below zero exactly when more than twenty seconds pass before
    such a report and the two draws, 2 and then 3, both missed it; nothing but such a
    report stops it then. *)
Theorem reconstruct_countdown v evs :
  remainingReconstruct v = 20%Z -> reconstructTimer v = Running -> Forall ledgerEventOk evs ->
  let draws := drawsBefore evs in
  exists v', runM ledgerEvent v evs = Ret v' /\
    (remainingReconstruct v', reconstructTimer v') =
      (if existsb reconstructed evs then ((countdownAt draws).1, Cleared) else countdownAt draws) /\
    ((remainingReconstruct v' < 0)%Z <->
       20 < length draws /\ draws !! 16 = Some 2%Z /\ draws !! 17 = Some 3%Z).
Proof.
  intros Hv Ht Hok draws. destruct (runM_timer evs v Hok) as (v' & Hrun & Hs); [by rewrite Ht|].
  rewrite Hv, Ht, timerStep_run in Hs by done. exists v'. split; [done|]. split; [done|].
  rewrite <- countdownAt_negative by (by apply drawsBefore_ok).
  assert (remainingReconstruct v' = (countdownAt draws).1) as -> by (apply (f_equal fst) in Hs; by destruct (existsb _ _)).
  done.
Qed.

End CountdownTheorem.

(** ** Blocks *)

Lemma applied_fetched b : isApplied b = true -> isFetched b = true.
Proof. unfold isApplied, isFetched. intros H%bool_decide_eq_true. rewrite H. reflexivity. Qed.

Lemma countIf_all {A} (p : A -> bool) l : countIf p l = length l <-> Forall (fun x => p x = true) l.
Proof.
  unfold countIf. induction l as [|x l IH]; [done|]. rewrite Forall_cons. cbn.
  pose proof (List.filter_length_le p l). destruct (p x); cbn; [rewrite <- IH; naive_solver lia|].
  split; [lia|]. by intros [? _].
Qed.

Lemma floorPercent_bounds n len : n <= len -> (0 <= floorPercent n len <= 100)%Z.
Proof.
  intros Hn. unfold floorPercent. destruct (Nat.eqb_spec len 0) as [->|Hne].
  - replace n with 0 by lia. by vm_compute.
  - split; [apply Z.div_pos; lia|]. apply Z.div_le_upper_bound; lia.
Qed.

Lemma floorPercent_full n len : n <= len -> floorPercent n len = 100%Z <-> 0 < len /\ n = len.
Proof.
  intros Hn. unfold floorPercent. destruct (Nat.eqb_spec len 0) as [->|Hne].
  - replace n with 0 by lia. split; [by vm_compute|lia].
  - split.
    + intros E. split; [lia|]. destruct (decide (n = len)); [done|].
      assert (Z.of_nat n * 100 / Z.of_nat len < 100)%Z; [apply Z.div_lt_upper_bound|]; lia.
    + intros [_ ->]. rewrite Z.mul_comm. apply Z.div_mul. lia.
Qed.

Lemma floorPercent_mono a f len : a <= f -> (floorPercent a len <= floorPercent f len)%Z.
Proof. intros H. unfold floorPercent. apply Z.div_le_mono; [|lia]. destruct (Nat.eqb_spec len 0); lia. Qed.

(** The percentages of the blocks are those of the blocks after the best tip:
    applied is at most fetched, both are within 0 and 100, and the applied one is
    100, and the details of the node are asked for, exactly when there is such a
    block and all of them are applied. *)
Theorem blocks_sync_percentages now v n ns ps :
  let '(v', details) := syncNodesChanged now v (n :: ns) ps in
  let bs := sliceFrom 1 (blocks n) in
  exists f a : Z,
    fetchedPercentage v' = showZ f +:+ "%" /\ appliedPercentage v' = Some a /\ (0 <= a <= f)%Z /\ (f <= 100)%Z /\
    (a = 100%Z <-> bs <> [] /\ Forall (fun b => status b = APPLIED) bs) /\
    (details = true <-> bs <> [] /\ Forall (fun b => status b = APPLIED) bs).
Proof.
  cbn [syncNodesChanged]. set (bs := sliceFrom 1 (blocks n)).
  assert (countIf isApplied bs <= length bs) as Ha by apply countIf_le.
  assert (floorPercent (countIf isApplied bs) (length bs) = 100%Z <-> bs <> [] /\ Forall (fun b => status b = APPLIED) bs) as Hf.
  { rewrite floorPercent_full, countIf_all by done. unfold isApplied. setoid_rewrite bool_decide_eq_true.
    destruct bs; cbn; naive_solver lia. }
  eexists (floorPercent (countIf isFetched bs) (length bs)), (floorPercent (countIf isApplied bs) (length bs)).
  split; [done|]. split; [done|]. split_and!; [by apply floorPercent_bounds| | |exact Hf|].
  - apply floorPercent_mono, countIf_mono. apply applied_fetched.
  - apply floorPercent_bounds, countIf_le.
  - rewrite bool_decide_eq_true, <- Hf.
    change (Some (floorPercent (countIf isApplied bs) (length bs)) = Some 100%Z <->
            floorPercent (countIf isApplied bs) (length bs) = 100%Z). split; congruence.
Qed.

Lemma percentOf291_low n : n <= 289 -> (percentOf291 n < 100)%Z.
Proof. intros Hn. unfold percentOf291, roundDiv. apply Z.div_lt_upper_bound; lia. Qed.

(** A chain with fewer than 291 blocks never finishes on the dashboard: with
    every ledger and every block there the component of the blocks shows 100
    percent and asks for the details of the node, while the page still says that
    blocks are being fetched and its bar is not full. *)
Theorem dashboard_short_chain now v p n ns ps rpc l :
  ledgers n = Some l -> allDone l -> 2 <= length (blocks n) <= 290 ->
  Forall (fun b => status b = APPLIED) (blocks n) ->
  let '(v', details) := syncNodesChanged now v (n :: ns) ps in
  appliedPercentage v' = Some 100%Z /\ details = true /\
  exists p' k, listenToNodesChanges p (n :: ns) rpc = Ret p' /\ (k < 100)%Z /\
    updateAction p' = "Fetching Blocks (" +:+ showZ k +:+ "%)" /\ (blockSyncProgress p' < 34)%Q.
Proof.
  intros Hl Hd Hlen Hb. cbn [syncNodesChanged]. apply allDone_states in Hd as (S1 & S2 & S3 & S4).
  set (bs := sliceFrom 1 (blocks n)).
  assert (length bs = length (blocks n) - 1) as Hbs by apply length_drop.
  assert (countIf isApplied bs = length bs) as Ha.
  { apply countIf_all. subst bs. unfold sliceFrom. apply Forall_drop. eapply Forall_impl; [exact Hb|].
    intros b E. by apply bool_decide_eq_true. }
  assert (countIf isFetched bs = length bs) as Hf.
  { pose proof (countIf_le isFetched bs). pose proof (countIf_mono isApplied isFetched bs applied_fetched). lia. }
  assert (floorPercent (countIf isApplied bs) (length bs) = 100%Z) as Hfull by (apply floorPercent_full; lia).
  split; [cbn; by f_equal|]. split; [apply bool_decide_eq_true; cbn; by f_equal|].
  assert (percentOf291 (length bs) < 100)%Z as Hlow by (apply percentOf291_low; lia).
  unfold listenToNodesChanges. rewrite Hl. unfold ledgerTotal, finishStep. rewrite S1, S2, S3, S4.
  change (negb (is100 (scaleNum _ _))) with false. cbv iota beta zeta. eexists _, (percentOf291 (length bs)).
  split; [reflexivity|]. split; [done|]. fold bs. rewrite Hf, Ha. split.
  - cbn [updateAction field_update record_copy]. unfold blocksText. apply Z.ltb_lt in Hlow. by rewrite Hlow.
  - change (inject_Z (percentOf291 (length bs)) * (34 # 100) < 34)%Q.
    rewrite Zlt_Qlt in Hlow. change (inject_Z 100) with 100%Q in Hlow. lra.
Qed.

(** * Examples *)

#[local] Instance plainFormat : DateFormat := fun _ _ => "".

Definition demoBlock (s : string) : SyncBlock := mkSyncBlock 1 1 "h" "" s (Some 1%Z) (Some 2%Z) (Some 3%Z) (Some 4%Z).
Definition demoDone : RawLedgers :=
  mkRawLedgers None None
    (Some (mkRawSnarked (Some 1%Z) (Some 2%Z) None None, mkRawStaged (Some 3%Z) (Some 4%Z) (Some 5%Z) (Some 6%Z))).
Definition demoNode : NodesOverviewNode :=
  mapTip 0 "n" None (mkSyncTip [demoBlock APPLIED; demoBlock APPLIED; demoBlock APPLIED] "Synced" None 0 demoDone).

Lemma demo_done : allDone (getLedgers 0 demoDone).
Proof. apply allDone_states. vm_compute. done. Qed.

Lemma emptyRpc_ok : rpcOk emptyRpcStats.
Proof. unfold rpcOk. rewrite !Forall_cons, Forall_nil. split_and!; try exact I; intros f e Hf; discriminate. Qed.

Lemma dashboard_ledger_progress_witness :
  exists v', ledgerNodesChanged 10 initialView [demoNode] emptyRpcStats = Ret v' /\ viewWithin v' /\
    exists t, totalProgress v' = Some (Fin t) /\ (t == 100)%Q.
Proof.
  destruct (dashboard_ledger_progress 10 initialView [demoNode] emptyRpcStats initialPage emptyRpc_ok)
    as (v' & Hv & Hw & _ & Hd).
  - intros n ns' E. injection E as <- _. eexists. reflexivity.
  - exists v'. split; [exact Hv|]. split; [exact Hw|]. exact (proj1 (Hd _ eq_refl demo_done)).
Defined.

Definition demoRunning : LedgerView := initialView <| reconstructTimer := Running |>.

(** A node that still reconstructs, reported in the middle of the countdown. *)
Definition demoReport : LedgerEvent := StoreReport 10 (getTips 0 "n" (Throw (ErrorMsg "offline"))) emptyRpcStats.
Definition demoMissed : list LedgerEvent := replicate 17 (Second 2) ++ demoReport :: replicate 10 (Second 3).

Lemma reconstruct_countdown_witness :
  (exists v', runM ledgerEvent demoRunning demoMissed = Ret v' /\
     remainingReconstruct v' = (-7)%Z /\ reconstructTimer v' = Running) /\
  (exists v', runM ledgerEvent demoRunning (replicate 17 (Second 3)) = Ret v' /\ reconstructTimer v' = Cleared).
Proof.
  assert (forall n d, d = 2%Z \/ d = 3%Z -> Forall ledgerEventOk (replicate n (Second d))) as Hd.
  { intros n d Hd. by apply Forall_replicate. }
  destruct (reconstruct_countdown demoRunning demoMissed eq_refl eq_refl) as (v1 & H1 & Hs1 & _).
  { apply Forall_app. split; [apply Hd; left; reflexivity|]. apply Forall_cons. split; [|apply Hd; right; reflexivity].
    right. exists 0%Z, "n", (Throw (ErrorMsg "offline")). reflexivity. }
  destruct (reconstruct_countdown demoRunning (replicate 17 (Second 3)) eq_refl eq_refl) as (v2 & H2 & Hs2 & _).
  { apply Hd. right. reflexivity. }
  split; [exists v1|exists v2].
  - split; [exact H1|]. clear H1. vm_compute in Hs1. injection Hs1 as E1 E2. split; [exact E1|exact E2].
  - split; [exact H2|]. clear H2. vm_compute in Hs2. injection Hs2 as E1 E2. exact E2.
Defined.

Lemma dashboard_short_chain_witness :
  (syncNodesChanged 10 initialSync [demoNode] []).2 = true /\
  exists p' k, listenToNodesChanges initialPage [demoNode] emptyRpcStats = Ret p' /\ (k < 100)%Z /\
    updateAction p' = "Fetching Blocks (" +:+ showZ k +:+ "%)" /\ (blockSyncProgress p' < 34)%Q.
Proof.
  pose proof (dashboard_short_chain 10 initialSync initialPage demoNode [] [] emptyRpcStats (getLedgers 0 demoDone)
    eq_refl demo_done) as H.
  destruct (syncNodesChanged 10 initialSync [demoNode] []) as [v' d].
  destruct H as (_ & Hd & Hp); [cbn; lia|repeat constructor|]. split; [exact Hd|exact Hp].
Defined.

End DashboardProgress.
