(* ===== verification/Fuzzing.v ===== *)
(** Fuzzing (frontend/src/app/features/fuzzing): the reports of the fuzzer, by
    directory and file, and the source of a file with its covered columns
    coloured. *)

From S2P Require Import Prelude JsRuntime TableSort.

Module Fuzzing.

(** * Data *)

Record FuzzingDirectory := mkDirectory { dirName : string; date : string; dateNumber : option Z; fullName : string }.
Record FuzzingFile := mkFile { coverage : Q; name : string; path : string }.
Record FuzzingLineCounter := mkCounter { colStart : nat; colEnd : nat; count : Z }.

(** The color of a line; a line without counters gets the line object itself. *)
Inductive LineColor := Color (s : string) | LineObject.

Record FuzzingLine := mkLine {
  line : string; counters : list FuzzingLineCounter; lineColor : LineColor; lineHits : option Z; html : string }.
Record FuzzingFileDetails := mkDetails { filename : string; lines : list FuzzingLine; executedLines : nat }.

#[export] Instance Directory_eq_dec : EqDecision FuzzingDirectory.
Proof. solve_decision. Defined.
#[export] Instance Q_eq_dec : EqDecision Q.
Proof. solve_decision. Defined.
#[export] Instance File_eq_dec : EqDecision FuzzingFile.
Proof. solve_decision. Defined.
#[export] Instance Counter_eq_dec : EqDecision FuzzingLineCounter.
Proof. solve_decision. Defined.
#[export] Instance LineColor_eq_dec : EqDecision LineColor.
Proof. solve_decision. Defined.
#[export] Instance Line_eq_dec : EqDecision FuzzingLine.
Proof. solve_decision. Defined.
#[export] Instance Details_eq_dec : EqDecision FuzzingFileDetails.
Proof. solve_decision. Defined.

Inductive FileField := fCoverage | fPath.

#[export] Instance FileField_eq_dec : EqDecision FileField.
Proof. solve_decision. Defined.

#[export] Instance File_row : Row FuzzingFile FileField := fun f x =>
  match f with fCoverage => VNum (coverage x) | fPath => VStr (path x) end.

(** * Service *)

(** [toReadableDate] of a text, which throws when it is not a date, and
    [new Date(text).getTime()], NaN when it cannot be read; both belong to the
    host. *)
Class TextDates := { readableText : string -> exec string; getTime : string -> option Z }.

Definition underscore : Ascii.ascii := Ascii.ascii_of_nat 95.

Definition mapDirectory `{TextDates} (directory : string) : FuzzingDirectory :=
  let '(before, after) := splitFirst underscore directory in
  let '(d, n) := match readableText before with Ret d => (d, getTime d) | Throw _ => ("-", Some 0%Z) end in
  mkDirectory (default directory after) d n directory.

(** [b.dateNumber - a.dateNumber], NaN compared as equal. *)
Definition newestFirst (a b : FuzzingDirectory) : comparison :=
  match dateNumber b, dateNumber a with Some x, Some y => Z.compare x y | _, _ => Eq end.

Definition mapGetDirectoryNamesResponse `{TextDates} (dirNames : list string) : list FuzzingDirectory :=
  arraySort newestFirst (List.map mapDirectory dirNames).

Definition mapFile (file : string * Q * string) : FuzzingFile :=
  let '(n, c, p) := file in mkFile c n p.

(** ** Source lines *)

Record RawLine := mkRawLine { rawText : string; rawCounters : list FuzzingLineCounter }.
Record RawFile := mkRawFile { rawFilename : string; rawLines : list RawLine }.

(** The loop of [getLineColor] with its breaks. *)
Fixpoint colorLoop (color : string) (cs : list FuzzingLineCounter) : string :=
  match cs with
  | [] => color
  | c :: cs =>
      if (0 <? count c)%Z then (if String.eqb color "warn" then "aware" else colorLoop "success" cs)
      else (if String.eqb color "success" then "aware" else colorLoop "warn" cs)
  end.

Definition getLineColor (l : RawLine) : LineColor :=
  match rawCounters l with [] => LineObject | cs => Color (colorLoop "aware" cs) end.

Inductive Piece := OpenSpan (n : Z) | Char (c : Ascii.ascii) | CloseSpan.

Definition quote : string := String (Ascii.ascii_of_nat 34) EmptyString.

Definition charCode (n : nat) (c : Ascii.ascii) : bool := Ascii.nat_of_ascii c =? n.

Definition renderPiece (p : Piece) : string :=
  match p with
  | OpenSpan n =>
      "<span style=" +:+ quote +:+ "color:var(--base-primary);background:var(--" +:+
      (if (n =? 0)%Z then "warn" else "success") +:+ "-secondary)" +:+ quote +:+ " h=" +:+ quote +:+ showZ n +:+ quote +:+ ">"
  | Char c =>
      if charCode 32 c then "&nbsp;" else if charCode 60 c then "&lt;" else if charCode 62 c then "&gt;"
      else String c EmptyString
  | CloseSpan => "</span>"
  end.

Definition render (ps : list Piece) : string := fold_right (fun p acc => renderPiece p +:+ acc) EmptyString ps.

Definition covers (column : nat) (c : FuzzingLineCounter) : bool := (colStart c <=? column) && (column <=? colEnd c).

Definition counterAt (cs : list FuzzingLineCounter) (column : nat) : option FuzzingLineCounter :=
  List.find (covers column) cs.

Definition columnPieces (cs : list FuzzingLineCounter) (column : nat) (c : Ascii.ascii) : list Piece :=
  match counterAt cs column with
  | None => [Char c]
  | Some k =>
      (if column =? colStart k then [OpenSpan (count k)] else []) ++ [Char c] ++
      (if column =? colEnd k then [CloseSpan] else [])
  end.

Fixpoint linePieces (cs : list FuzzingLineCounter) (column : nat) (text : string) : list Piece :=
  match text with
  | EmptyString => []
  | String c text => columnPieces cs column c ++ linePieces cs (S column) text
  end.

(** [line.replace(/</g, '&lt;').replace(/>/g, '&gt;')] *)
Fixpoint escapeTags (text : string) : string :=
  match text with
  | EmptyString => EmptyString
  | String c text =>
      (if charCode 60 c then "&lt;" else if charCode 62 c then "&gt;" else String c EmptyString) +:+ escapeTags text
  end.

Definition colorLineCounters (text : string) (cs : list FuzzingLineCounter) : string :=
  if length cs =? 0 then escapeTags text else render (linePieces cs 0 text).

(** [Math.max(...l)] of a list that is not empty. *)
Definition maxOf (l : list Z) : option Z :=
  match l with [] => None | x :: l => Some (fold_left Z.max l x) end.

Definition mapLine (l : RawLine) : FuzzingLine :=
  let cs := List.map (fun c => mkCounter (colStart c) (colEnd c) (Z.abs (count c))) (rawCounters l) in
  mkLine (rawText l) cs (getLineColor l) (maxOf (count <$> cs)) (colorLineCounters (rawText l) cs).

(** [line.counters[0]] is an object, so a line with any counter is counted. *)
Definition mapFileDetails (f : RawFile) : FuzzingFileDetails :=
  mkDetails (rawFilename f) (List.map mapLine (rawLines f))
    (countIf (fun l => negb (length (rawCounters l) =? 0)) (rawLines f)).

(** * Reducer *)

(** [activeFile]: [Some None] stands for the empty object [{ ...undefined }]. *)
Record FuzzingState := mkState {
  directories : list FuzzingDirectory;
  activeDirectory : option FuzzingDirectory;
  files : list FuzzingFile;
  filteredFiles : list FuzzingFile;
  activeFile : option (option FuzzingFile);
  activeFileDetails : option FuzzingFileDetails;
  tableSort : TableSort FileField;
  filterText : option string
}.

#[export, refine] Instance State_copy : RecordCopy FuzzingState := {
  record_copy s := mkState (directories s) (activeDirectory s) (files s) (filteredFiles s) (activeFile s)
    (activeFileDetails s) (tableSort s) (filterText s) }.
Proof. by intros []. Defined.

Definition initialState : FuzzingState := mkState [] None [] [] None None (mkTableSort fPath ASC) None.

Inductive FuzzingActions :=
| FuzzingInit
| FuzzingClose
| FuzzingGetDirectories
| FuzzingGetDirectoriesSuccess (payload : list FuzzingDirectory)
| FuzzingSetActiveDirectory (payload : FuzzingDirectory)
| FuzzingGetFiles
| FuzzingGetFilesSuccess (payload : list FuzzingFile)
| FuzzingGetFileDetails (payload : option (option FuzzingFile))
| FuzzingGetFileDetailsSuccess (payload : FuzzingFileDetails)
| FuzzingSort (payload : TableSort FileField)
| FuzzingFilterFiles (payload : string).

Definition filterFiles (fs : list FuzzingFile) (text : option string) : list FuzzingFile :=
  List.filter (fun f => negb (truthyStr text) || strIncludes (toLowerCase (path f)) (default "" text)) fs.

Section Reducer.
Context {LC : LocaleCompare}.

Definition sortFiles (fs : list FuzzingFile) (ts : TableSort FileField) : list FuzzingFile := sort fs ts [fPath] false.

(** The texts of JSON.stringify are equal when the values are (numbers in lowest
    terms). *)
Definition reducer (state : FuzzingState) (action : FuzzingActions) : FuzzingState :=
  match action with
  | FuzzingGetDirectoriesSuccess p =>
      if bool_decide (p = directories state) then state else state <| directories := p |>
  | FuzzingSetActiveDirectory p =>
      if bool_decide (Some (fullName p) = (fullName <$> activeDirectory state)) then state
      else state <| activeDirectory := Some p |> <| activeFile := None |> <| activeFileDetails := None |>
  | FuzzingGetFilesSuccess p =>
      let fs := sortFiles p (tableSort state) in
      let filtered := filterFiles fs (filterText state) in
      if bool_decide (filtered = filteredFiles state) then state
      else state <| files := fs |> <| filteredFiles := filtered |>
  | FuzzingGetFileDetails p => state <| activeFile := p |>
  | FuzzingGetFileDetailsSuccess p =>
      if bool_decide (Some p = activeFileDetails state) then state
      else state <| activeFile := Some (default None (activeFile state)) |> <| activeFileDetails := Some p |>
  | FuzzingSort ts => state <| filteredFiles := sortFiles (filteredFiles state) ts |> <| tableSort := ts |>
  | FuzzingFilterFiles text =>
      state <| filterText := Some text |>
            <| filteredFiles := sortFiles (filterFiles (files state) (Some text)) (tableSort state) |>
  | FuzzingClose => initialState
  | FuzzingInit | FuzzingGetDirectories | FuzzingGetFiles => state
  end.

(** * Effects *)

Record World := mkWorld {
  state : FuzzingState;
  filesRequest : option string;
  detailsRequest : option (string * option string);
  errors : list (MinaErrorType * JsError)
}.

#[export, refine] Instance World_copy : RecordCopy World := {
  record_copy w := mkWorld (state w) (filesRequest w) (detailsRequest w) (errors w) }.
Proof. by intros []. Defined.

Inductive Event :=
| Dispatch (a : FuzzingActions)
| FilesAnswer (a : exec (list FuzzingFile))
| DetailsAnswer (a : exec FuzzingFileDetails).

Definition noDirectory : JsError := TypeError "Cannot read properties of undefined (reading 'fullName')".
Definition emptyDetails : FuzzingFileDetails := mkDetails "" [] 0.

(** The action that ends a request, after which the request is over. *)
Definition endFiles (w : World) (a : exec (list FuzzingFile)) : World :=
  match a with
  | Ret fs => w <| state := reducer (state w) (FuzzingGetFilesSuccess fs) |> <| filesRequest := None |>
  | Throw e => w <| state := reducer (state w) (FuzzingGetFilesSuccess []) |> <| filesRequest := None |>
                 <| errors := errors w ++ [(GENERIC, e)] |>
  end.

Definition endDetails (w : World) (a : exec FuzzingFileDetails) : World :=
  match a with
  | Ret d => w <| state := reducer (state w) (FuzzingGetFileDetailsSuccess d) |> <| detailsRequest := None |>
  | Throw e => w <| state := reducer (state w) (FuzzingGetFileDetailsSuccess emptyDetails) |> <| detailsRequest := None |>
                 <| errors := errors w ++ [(GENERIC, e)] |>
  end.

(** A new request takes the place of the one in progress; without an active
    directory the request fails at once. *)
Definition effects (w : World) (a : FuzzingActions) : World :=
  match a with
  | FuzzingGetFiles | FuzzingSetActiveDirectory _ =>
      match activeDirectory (state w) with
      | Some d => w <| filesRequest := Some (fullName d) |>
      | None => endFiles w (Throw noDirectory)
      end
  | FuzzingGetFileDetails (Some f) =>
      match activeDirectory (state w) with
      | Some d => w <| detailsRequest := Some (fullName d, name <$> f) |>
      | None => endDetails w (Throw noDirectory)
      end
  | _ => w
  end.

Definition step (w : World) (e : Event) : World :=
  match e with
  | Dispatch a => effects (w <| state := reducer (state w) a |>) a
  | FilesAnswer a => if filesRequest w then endFiles w a else w
  | DetailsAnswer a => if detailsRequest w then endDetails w a else w
  end.

Definition initialWorld : World := mkWorld initialState None None [].

End Reducer.

(** * Toolbar *)

(** The mean of the coverage of the shown files; [None] stands for NaN. *)
Definition overallCoverage (fs : list FuzzingFile) : option Q :=
  match fs with
  | [] => None
  | _ => Some (fold_left (fun acc f => acc + coverage f) fs 0 / inject_Z (Z.of_nat (length fs)))%Q
  end.

Definition coverageColor (c : option Q) : string :=
  match c with
  | Some q => if negb (Qle_bool q 80) then "success" else if negb (Qle_bool q 50) then "aware" else "warn"
  | None => "warn"
  end.

(** * Theorems *)

(** ** Coloured source lines *)

(** Reading the pieces back: every character with the count of the span around it.
    Nested spans, a span closed twice or left open are refused. *)
Fixpoint highlight (cur : option Z) (ps : list Piece) : option (list (Ascii.ascii * option Z)) :=
  match ps with
  | [] => match cur with None => Some [] | Some _ => None end
  | OpenSpan n :: ps => match cur with None => highlight (Some n) ps | Some _ => None end
  | CloseSpan :: ps => match cur with Some _ => highlight None ps | None => None end
  | Char c :: ps => cons (c, cur) <$> highlight cur ps
  end.

(** What should be read: the count of the counter of each column. *)
Fixpoint annotated (cs : list FuzzingLineCounter) (column : nat) (text : string) : list (Ascii.ascii * option Z) :=
  match text with
  | EmptyString => []
  | String c text => (c, count <$> counterAt cs column) :: annotated cs (S column) text
  end.

Definition disjoint (cs : list FuzzingLineCounter) : Prop :=
  forall i c d, c ∈ cs -> d ∈ cs -> covers i c = true -> covers i d = true -> c = d.
Definition withinLine (n : nat) (cs : list FuzzingLineCounter) : Prop :=
  Forall (fun c => colStart c <= colEnd c /\ colEnd c < n) cs.

Lemma covers_true i c : covers i c = true <-> colStart c <= i <= colEnd c.
Proof. unfold covers. rewrite andb_true_iff, !Nat.leb_le. done. Qed.

(** The span open before column [i]: that of a counter which started earlier. *)
Definition openBefore (cs : list FuzzingLineCounter) (i : nat) : option Z :=
  match counterAt cs i with
  | Some k => if colStart k <? i then Some (count k) else None
  | None => None
  end.

Lemma counterAt_Some cs i k : disjoint cs -> k ∈ cs -> covers i k = true -> counterAt cs i = Some k.
Proof.
  intros Hd Hk Hc. unfold counterAt. destruct (List.find _ _) as [k'|] eqn:E.
  - apply find_Some_iff in E as [Hk' Hc']. f_equal. by eapply Hd.
  - rewrite find_None_iff in E. rewrite E in Hc; done.
Qed.

(** After column [i] the span of its counter stays open unless it ends there. *)
Lemma openBefore_S cs i : disjoint cs ->
  openBefore cs (S i) =
  match counterAt cs i with Some k => if i =? colEnd k then None else Some (count k) | None => None end.
Proof.
  intros Hd. unfold openBefore. destruct (counterAt cs i) as [k|] eqn:E.
  - apply find_Some_iff in E as [Hk Hc]. apply covers_true in Hc as Hc'.
    destruct (Nat.eqb_spec i (colEnd k)) as [Heq|Hne].
    + destruct (counterAt cs (S i)) as [k'|] eqn:E'; [|done]. apply find_Some_iff in E' as [Hk' Hcov].
      destruct (Nat.ltb_spec (colStart k') (S i)); [|done]. apply covers_true in Hcov.
      assert (k' = k) as ->; [|lia]. apply (Hd i); [done|done| |done]. apply covers_true. lia.
    + rewrite (counterAt_Some cs (S i) k Hd Hk) by (apply covers_true; lia).
      destruct (Nat.ltb_spec (colStart k) (S i)); [done|lia].
  - destruct (counterAt cs (S i)) as [k'|] eqn:E'; [|done]. apply find_Some_iff in E' as [Hk' Hcov].
    destruct (Nat.ltb_spec (colStart k') (S i)); [|done]. apply covers_true in Hcov.
    unfold counterAt in E. rewrite find_None_iff in E. specialize (E k' Hk').
    assert (covers i k' = true) by (apply covers_true; lia). congruence.
Qed.

Lemma highlight_column cs i c ps : disjoint cs ->
  highlight (openBefore cs i) (columnPieces cs i c ++ ps) =
  cons (c, count <$> counterAt cs i) <$> highlight (openBefore cs (S i)) ps.
Proof.
  intros Hd. rewrite openBefore_S by done. unfold columnPieces, openBefore.
  destruct (counterAt cs i) as [k|] eqn:E; [|done].
  apply find_Some_iff in E as [_ Hc]. apply covers_true in Hc.
  destruct (Nat.eqb_spec i (colStart k)), (Nat.ltb_spec (colStart k) i); try lia;
    destruct (i =? colEnd k); done.
Qed.

Lemma highlight_line cs i text :
  disjoint cs -> withinLine (i + String.length text) cs ->
  highlight (openBefore cs i) (linePieces cs i text) = Some (annotated cs i text).
Proof.
  intros Hd. revert i. induction text as [|c text IH]; intros i Hw; cbn [linePieces annotated].
  - cbn [String.length] in Hw. rewrite Nat.add_0_r in Hw. unfold openBefore.
    destruct (counterAt cs i) as [k|] eqn:E; [|done]. apply find_Some_iff in E as [Hk Hc].
    apply covers_true in Hc. unfold withinLine in Hw. rewrite Forall_forall in Hw. specialize (Hw k Hk). lia.
  - rewrite highlight_column by done. rewrite IH; [done|]. cbn [String.length] in Hw. by rewrite Nat.add_succ_r in Hw.
Qed.

Lemma openBefore_0 cs : openBefore cs 0 = None.
Proof. unfold openBefore. by destruct (counterAt cs 0). Qed.

(** The colour of a line with counters: all positive, none positive, or mixed. *)
Definition expectedColor (cs : list FuzzingLineCounter) : string :=
  if forallb (fun c => 0 <? count c)%Z cs then "success"
  else if forallb (fun c => negb (0 <? count c)%Z) cs then "warn" else "aware".

Lemma colorLoop_success cs : colorLoop "success" cs = if forallb (fun c => 0 <? count c)%Z cs then "success" else "aware".
Proof. induction cs as [|c cs IH]; [done|]. cbn. destruct (0 <? count c)%Z; [exact IH|done]. Qed.

Lemma colorLoop_warn cs : colorLoop "warn" cs = if forallb (fun c => negb (0 <? count c)%Z) cs then "warn" else "aware".
Proof. induction cs as [|c cs IH]; [done|]. cbn. destruct (0 <? count c)%Z; [done|exact IH]. Qed.

Lemma colorLoop_expected c cs : colorLoop "aware" (c :: cs) = expectedColor (c :: cs).
Proof.
  unfold expectedColor. cbn. destruct (0 <? count c)%Z; cbn.
  - rewrite colorLoop_success. done.
  - rewrite colorLoop_warn. done.
Qed.

(** A source line whose counters lie within it and do not overlap is shown with
    every one of its characters, in order, each inside exactly the span of the
    counter of its column and outside of any span where there is none, no span
    nested or left open; the line has the colour of its counters: success when all
    are positive, warn when none is, aware when they are mixed. *)
Theorem code_line_highlighted l :
  rawCounters l <> [] -> disjoint (rawCounters l) -> withinLine (String.length (rawText l)) (rawCounters l) ->
  let shown := mapLine l in
  exists ps, html shown = render ps /\ highlight None ps = Some (annotated (counters shown) 0 (rawText l)) /\
    lineColor shown = Color (expectedColor (rawCounters l)).
Proof.
  intros Hne Hd Hw shown. exists (linePieces (counters shown) 0 (rawText l)). split_and!.
  - unfold shown, mapLine, colorLineCounters. cbn [html counters]. rewrite length_map.
    by destruct (rawCounters l).
  - rewrite <- (openBefore_0 (counters shown)). apply highlight_line.
    + intros i c d Hc Hd'. cbn [counters shown mapLine] in Hc, Hd'.
      apply list_elem_of_fmap in Hc as (c' & -> & Hc). apply list_elem_of_fmap in Hd' as (d' & -> & Hd').
      intros H1 H2. f_equal; by rewrite (Hd i c' d').
    + unfold withinLine, shown, mapLine. cbn [counters]. apply Forall_fmap. exact Hw.
  - unfold shown, mapLine, getLineColor. cbn [lineColor]. destruct (rawCounters l) as [|c cs]; [done|].
    by rewrite colorLoop_expected.
Qed.

(** A counter that ends behind the line leaves its span open. *)
Lemma open_span_example :
  highlight None (linePieces [mkCounter 0 3 1] 0 "abc") = None.
Proof. reflexivity. Qed.

(** ** Files *)

Section FileTheorems.
Context {LC : LocaleCompare}.

Definition rowsInv (s : FuzzingState) : Prop :=
  Permutation (filteredFiles s) (filterFiles (files s) (filterText s)).

Lemma reducer_rowsInv s a : rowsInv s -> rowsInv (reducer s a).
Proof.
  unfold rowsInv. intros Hs. destruct a; cbn [reducer]; try done.
  - by destruct (bool_decide _).
  - by destruct (bool_decide _).
  - by destruct (bool_decide _).
  - by destruct (bool_decide _).
  - cbn. rewrite <- Hs. symmetry. apply sort_perm.
  - cbn. symmetry. apply sort_perm.
Qed.

Lemma endFiles_rowsInv w a : rowsInv (state w) -> rowsInv (state (endFiles w a)).
Proof. intros Hw. destruct a; cbn [endFiles state field_update record_copy]; by apply reducer_rowsInv. Qed.

Lemma endDetails_rowsInv w a : rowsInv (state w) -> rowsInv (state (endDetails w a)).
Proof. intros Hw. destruct a; cbn [endDetails state field_update record_copy]; by apply reducer_rowsInv. Qed.

Lemma effects_rowsInv w a : rowsInv (state w) -> rowsInv (state (effects w a)).
Proof.
  intros Hw. destruct a as [| | | |d| | |[f|]| | |]; cbn [effects]; try done;
    destruct (activeDirectory (state w)); try exact Hw; [by apply endFiles_rowsInv..|by apply endDetails_rowsInv].
Qed.

Lemma step_rowsInv w e : rowsInv (state w) -> rowsInv (state (step w e)).
Proof.
  intros Hw. destruct e as [a|a|a]; cbn [step].
  - apply effects_rowsInv. by apply reducer_rowsInv.
  - destruct (filesRequest w); [by apply endFiles_rowsInv|done].
  - destruct (detailsRequest w); [by apply endDetails_rowsInv|done].
Qed.

Lemma filterFiles_nil_text fs : filterFiles fs (Some "") = fs.
Proof. unfold filterFiles. apply filter_true_id. done. Qed.

Lemma clear_search s : Permutation (files s) (filteredFiles (reducer s (FuzzingFilterFiles ""))).
Proof.
  change (Permutation (files s) (sortFiles (filterFiles (files s) (Some "")) (tableSort s))).
  rewrite filterFiles_nil_text. apply sort_perm.
Qed.

(** The rows of the files table are always the stored files that match the
    search text; but when the search text gives the same rows for two directories,
    as one that matches nothing, the files of the new directory are not stored, and
    clearing the search shows the files of the old directory. *)
Theorem fuzzing_stale_files w payload : reachable_by step initialWorld (fun _ _ => True) w ->
  Permutation (filteredFiles (state w)) (filterFiles (files (state w)) (filterText (state w))) /\
  let s := reducer (state w) (FuzzingGetFilesSuccess payload) in
  let shown := filterFiles (sortFiles payload (tableSort (state w))) (filterText (state w)) in
  (if bool_decide (shown = filteredFiles (state w)) then files s = files (state w) else Permutation payload (files s)) /\
  filteredFiles s = shown /\
  Permutation (files s) (filteredFiles (reducer s (FuzzingFilterFiles ""))).
Proof.
  intros Hr. split.
  { revert w Hr. apply (reachable_by_inv _ _ _ (fun w => rowsInv (state w))); [constructor|].
    intros w e Hw _. by apply step_rowsInv. }
  cbn zeta. cbn [reducer]. destruct (bool_decide _) eqn:E.
  - apply bool_decide_eq_true in E. split_and!; [done|by symmetry|apply clear_search].
  - split_and!; [apply sort_perm|done|apply clear_search].
Qed.

(** Choosing another directory does not stop the request for the source of a
    file: its answer is shown as the source of a file of the new directory, with an
    active file that has no name. *)
Theorem fuzzing_source_of_old_directory w f d d' (details : FuzzingFileDetails) :
  activeDirectory (state w) = Some d -> fullName d' <> fullName d ->
  let w' := run step w
    [Dispatch (FuzzingGetFileDetails (Some (Some f))); Dispatch (FuzzingSetActiveDirectory d'); DetailsAnswer (Ret details)] in
  detailsRequest (run step w [Dispatch (FuzzingGetFileDetails (Some (Some f))); Dispatch (FuzzingSetActiveDirectory d')])
    = Some (fullName d, Some (name f)) /\
  activeDirectory (state w') = Some d' /\ filesRequest w' = Some (fullName d') /\
  activeFile (state w') = Some None /\ activeFileDetails (state w') = Some details.
Proof.
  intros Hd Hne. unfold run. cbn [fold_left].
  set (w1 := step w (Dispatch (FuzzingGetFileDetails (Some (Some f))))).
  assert (activeDirectory (state w1) = Some d /\ detailsRequest w1 = Some (fullName d, Some (name f))) as [H1 H2].
  { subst w1. cbn. rewrite Hd. cbn. by rewrite Hd. }
  clearbody w1. set (w2 := step w1 (Dispatch (FuzzingSetActiveDirectory d'))).
  assert (activeDirectory (state w2) = Some d' /\ filesRequest w2 = Some (fullName d') /\ activeFile (state w2) = None /\
          activeFileDetails (state w2) = None /\ detailsRequest w2 = Some (fullName d, Some (name f)))
    as (H3 & H4 & H5 & H6 & H7).
  { subst w2. cbn. rewrite H1. cbn. rewrite bool_decide_eq_false_2 by congruence. cbn. by rewrite H2. }
  clearbody w2. cbn [step]. rewrite H7. cbn. rewrite H6. cbn. by rewrite H5.
Qed.

End FileTheorems.

(** ** Directories *)

#[export] Instance newestFirst_consistent : ConsistentOn newestFirst (fun d => is_Some (dateNumber d)).
Proof.
  unfold newestFirst. split.
  - intros x y [a ->] [b ->]. apply Z.compare_antisym.
  - unfold cle. intros x y z [a ->] [b ->] [c ->]. rewrite !Z.compare_gt_iff. lia.
Qed.

(** The directories are listed newest first, those of the same time in the order
    of the index, each once; a name that does not begin with a date is put last. *)
Lemma directories_newest_first `{TextDates} names :
  Forall (fun n => is_Some (dateNumber (mapDirectory n))) names ->
  StableSortOf newestFirst (List.map mapDirectory names) (mapGetDirectoryNamesResponse names).
Proof.
  intros Hn. apply (arraySort_StableSortOf newestFirst (P := fun d => is_Some (dateNumber d))).
  by apply Forall_fmap.
Qed.

(** * Examples *)

#[local] Instance demoLC : LocaleCompare := codeUnitCompare.

Definition demoLine : RawLine := mkRawLine "if a < b" [mkCounter 0 1 3; mkCounter 3 7 (-2)].

Example demo_html : html (mapLine (mkRawLine "a b" [mkCounter 0 0 1])) =
  "<span style=" +:+ quote +:+ "color:var(--base-primary);background:var(--success-secondary)" +:+ quote +:+
  " h=" +:+ quote +:+ "1" +:+ quote +:+ ">a</span>&nbsp;b".
Proof. reflexivity. Qed.

Lemma code_line_highlighted_witness :
  exists ps, html (mapLine demoLine) = render ps /\
    highlight None ps = Some (annotated (counters (mapLine demoLine)) 0 "if a < b") /\
    lineColor (mapLine demoLine) = Color "aware".
Proof.
  refine (code_line_highlighted demoLine _ _ _).
  - discriminate.
  - intros i c d Hc Hd H1 H2. apply covers_true in H1, H2. cbn [rawCounters demoLine] in Hc, Hd.
    rewrite !elem_of_cons, elem_of_nil in Hc, Hd.
    destruct Hc as [-> |[-> |[]]], Hd as [-> |[-> |[]]]; try reflexivity; cbn in *; lia.
  - repeat constructor; cbn; lia.
Defined.

Definition demoDir (n : string) : FuzzingDirectory := mkDirectory n "-" (Some 0%Z) n.
Definition demoFile (p : string) : FuzzingFile := mkFile 50 p p.
Definition demoWorld : World :=
  run step initialWorld
    [ Dispatch (FuzzingSetActiveDirectory (demoDir "old")); FilesAnswer (Ret [demoFile "a.rs"]);
      Dispatch (FuzzingFilterFiles "zz"); Dispatch (FuzzingSetActiveDirectory (demoDir "new")) ].

Lemma fuzzing_demo_reachable : reachable_by step initialWorld (fun _ _ => True) demoWorld.
Proof. unfold demoWorld, run. cbn [fold_left]. repeat (apply reachable_step; [|done]). apply reachable_init. Qed.

Lemma fuzzing_stale_files_witness :
  let s := reducer (state demoWorld) (FuzzingGetFilesSuccess [demoFile "b.rs"]) in
  files s = [demoFile "a.rs"] /\ activeDirectory s = Some (demoDir "new") /\
  Permutation (files s) (filteredFiles (reducer s (FuzzingFilterFiles ""))).
Proof.
  split; [vm_compute; reflexivity|]. split; [vm_compute; reflexivity|].
  exact (proj2 (proj2 (proj2 (fuzzing_stale_files demoWorld [demoFile "b.rs"] fuzzing_demo_reachable)))).
Defined.

Lemma fuzzing_source_of_old_directory_witness :
  let w' := run step demoWorld
    [Dispatch (FuzzingGetFileDetails (Some (Some (demoFile "b.rs")))); Dispatch (FuzzingSetActiveDirectory (demoDir "old"));
     DetailsAnswer (Ret emptyDetails)] in
  activeDirectory (state w') = Some (demoDir "old") /\ activeFileDetails (state w') = Some emptyDetails.
Proof.
  destruct (fuzzing_source_of_old_directory demoWorld (demoFile "b.rs") (demoDir "new") (demoDir "old") emptyDetails)
    as (_ & H1 & _ & _ & H2); [vm_compute; reflexivity|discriminate|]. split; [exact H1|exact H2].
Defined.

End Fuzzing.
