(* ===== verification/NetworkConnections.v ===== *)
(** Network connections (frontend/src/app/features/network/connections): the
    connections the debugger recorded, polled every ten seconds while the stream
    is live. *)

From S2P Require Import Prelude JsRuntime NetworkMessages.

Module Connections.
Import Messages.

(** * Data *)

Record RawConnection := mkRawConnection {
  rawId : Z;
  secs_since_epoch : Z;
  nanos_since_epoch : Z;
  rawIncoming : bool;
  rawAddr : string;
  rawPid : Z;
  rawFd : Z;
  rawAlias : string;
  rawStatsIn : Json;
  rawStatsOut : Json
}.

Record NetworkConnection := mkConnection {
  connectionId : Z;
  addr : string;
  pid : Z;
  fd : Z;
  incoming : string;
  date : string;
  timestamp : Q;
  alias : string;
  stats_in : Json;
  stats_out : Json
}.

(** * Service *)

Definition connectionsUrl (debugger : string) (limit : Z) (id : option Z) (direction : NetworkMessagesDirection) : string :=
  debugger +:+ "/connections?limit=" +:+ showZ limit +:+ "&direction=" +:+ directionText (Some direction) +:+
  (if truthyNum id then "&id=" +:+ showZ (default 0%Z id) else "").

Section Service.
Context `{DateFormat}.

Definition mapConnection (item : RawConnection) : NetworkConnection :=
  let t := (inject_Z (secs_since_epoch item * ONE_THOUSAND) + inject_Z (nanos_since_epoch item) / inject_Z ONE_MILLION)%Q in
  mkConnection (rawId item) (rawAddr item) (rawPid item) (rawFd item)
    (if rawIncoming item then "Incoming" else "Outgoing") (toReadableDate t None) t (rawAlias item)
    (rawStatsIn item) (rawStatsOut item).

Definition mapNetworkConnectionsResponse (l : list RawConnection) (direction : NetworkMessagesDirection)
  : list NetworkConnection :=
  List.map mapConnection (if bool_decide (direction = REVERSE) then reverse l else l).

End Service.

(** * Reducer *)

Record NetworkConnectionsState := mkState {
  connections : list NetworkConnection;
  activeConnection : option NetworkConnection;
  stream : bool;
  limit : Z;
  direction : NetworkMessagesDirection
}.

#[export, refine] Instance State_copy : RecordCopy NetworkConnectionsState := {
  record_copy s := mkState (connections s) (activeConnection s) (stream s) (limit s) (direction s) }.
Proof. by intros []. Defined.

Inductive NetworkConnectionsActions :=
| NetworkConnectionsInit
| NetworkConnectionsClose
| NetworkConnectionsGetConnections
| NetworkConnectionsGetConnectionsSuccess (payload : list NetworkConnection)
| NetworkConnectionsSelectConnection (payload : option NetworkConnection)
| NetworkConnectionsGoLive
| NetworkConnectionsPause.

Definition initialState : NetworkConnectionsState := mkState [] None false ONE_THOUSAND REVERSE.

Definition reducer (state : NetworkConnectionsState) (action : NetworkConnectionsActions) : NetworkConnectionsState :=
  match action with
  | NetworkConnectionsGetConnectionsSuccess p => state <| connections := p |>
  | NetworkConnectionsSelectConnection p => state <| activeConnection := p |>
  | NetworkConnectionsInit | NetworkConnectionsGoLive => state <| stream := true |>
  | NetworkConnectionsPause => state <| stream := false |>
  | NetworkConnectionsClose => initialState
  | NetworkConnectionsGetConnections => state
  end.

(** * Effects *)

(** The fields of the effects object, which outlives the page, and the timer and
    the request in progress. *)
Record World := mkWorld {
  state : NetworkConnectionsState;
  streamActive : bool;
  waitingForServer : bool;
  timer : bool;
  inFlight : bool;
  errors : list (MinaErrorType * JsError)
}.

#[export, refine] Instance World_copy : RecordCopy World := {
  record_copy w := mkWorld (state w) (streamActive w) (waitingForServer w) (timer w) (inFlight w) (errors w) }.
Proof. by intros []. Defined.

Inductive Event :=
| Dispatch (a : NetworkConnectionsActions)
| Tick
| Answer (a : exec (list RawConnection)).

Definition initialWorld : World := mkWorld initialState false false false false [].

(** [getConnections$] up to its request. *)
Definition getConnections (w : World) : World :=
  w <| streamActive := stream (state w) |> <| waitingForServer := true |> <| inFlight := true |>.

Definition dispatch (w : World) (a : NetworkConnectionsActions) : World :=
  let w := w <| state := reducer (state w) a |> in
  match a with
  | NetworkConnectionsInit => w <| streamActive := stream (state w) |> <| timer := true |>
  | NetworkConnectionsGetConnections => getConnections w
  | NetworkConnectionsGoLive => getConnections (getConnections w <| streamActive := true |>)
  | NetworkConnectionsPause => w <| streamActive := false |>
  | NetworkConnectionsClose => w <| streamActive := false |> <| timer := false |>
  | _ => w
  end.

Definition step `{DateFormat} (w : World) (e : Event) : World :=
  match e with
  | Dispatch a => dispatch w a
  | Tick =>
      if timer w && streamActive w && negb (waitingForServer w)
      then dispatch w NetworkConnectionsGetConnections else w
  | Answer a =>
      if inFlight w then
        match a with
        | Ret l =>
            dispatch (w <| waitingForServer := false |> <| inFlight := false |>)
              (NetworkConnectionsGetConnectionsSuccess (mapNetworkConnectionsResponse l (direction (state w))))
        | Throw e =>
            dispatch (w <| inFlight := false |> <| errors := errors w ++ [(DEBUGGER, e)] |>)
              (NetworkConnectionsGetConnectionsSuccess [])
        end
      else w
  end.

(** * Table *)

Definition onRowClick (active : option NetworkConnection) (row : NetworkConnection) : list NetworkConnectionsActions :=
  if bool_decide (Some (connectionId row) = (connectionId <$> active)) then []
  else [NetworkConnectionsSelectConnection (Some row)].

(** * Theorems *)

Section Theorems.
Context `{DateFormat}.

(** A request in progress is always waited for. *)
Lemma step_waiting w e : (inFlight w = true -> waitingForServer w = true) ->
  inFlight (step w e) = true -> waitingForServer (step w e) = true.
Proof.
  intros Hw. destruct e as [a| |a]; cbn [step].
  - by destruct a; cbn.
  - destruct (timer w && streamActive w && negb (waitingForServer w)); [done|exact Hw].
  - destruct (inFlight w) eqn:E; [|intros; congruence]. by destruct a; cbn.
Qed.

Lemma reachable_waiting w : reachable_by step initialWorld (fun _ _ => True) w ->
  inFlight w = true -> waitingForServer w = true.
Proof.
  revert w. apply (reachable_by_inv _ _ _ (fun w => inFlight w = true -> waitingForServer w = true)); [done|].
  intros w e Hw _. by apply step_waiting.
Qed.

(** The events that do not ask for the connections themselves. *)
Definition passive (e : Event) : Prop :=
  match e with
  | Dispatch NetworkConnectionsGoLive | Dispatch NetworkConnectionsGetConnections => False
  | _ => True
  end.

Lemma stalled_step w e : passive e -> inFlight w = false -> waitingForServer w = true ->
  inFlight (step w e) = false /\ waitingForServer (step w e) = true.
Proof.
  intros Hp Hf Hw. destruct e as [a| |a]; cbn [step].
  - by destruct a; cbn.
  - rewrite Hw, andb_false_r. done.
  - by rewrite Hf.
Qed.

Lemma stalled_run w es : Forall passive es -> inFlight w = false -> waitingForServer w = true ->
  inFlight (run step w es) = false /\ waitingForServer (run step w es) = true.
Proof.
  revert w. induction es as [|e es IH]; intros w Hes Hf Hw; [done|].
  apply Forall_cons in Hes as [He Hes]. destruct (stalled_step w e He Hf Hw) as [Hf' Hw'].
  exact (IH (step w e) Hes Hf' Hw').
Qed.

(** The poll of the connections never has two requests at once, and after an
    answer the next tick asks again; but after one failed request no tick and no
    reopening of the page asks again until the stream is made live by hand, and
    closing the page does not stop a request: its answer is stored afterwards. *)
Theorem connections_poll w : reachable_by step initialWorld (fun _ _ => True) w ->
  (inFlight w = true -> step w Tick = w) /\
  (forall l, inFlight w = true -> timer w = true -> streamActive w = true ->
     inFlight (step (step w (Answer (Ret l))) Tick) = true) /\
  (forall e es, inFlight w = true -> Forall passive es ->
     let w' := run step (step w (Answer (Throw e))) es in
     inFlight w' = false /\ inFlight (step w' (Dispatch NetworkConnectionsGoLive)) = true) /\
  (forall l, inFlight w = true ->
     connections (state (run step w [Dispatch NetworkConnectionsClose; Answer (Ret l)])) =
       mapNetworkConnectionsResponse l REVERSE).
Proof.
  intros Hr. pose proof (reachable_waiting w Hr) as Hw. split_and!.
  - intros Hf. cbn. by rewrite (Hw Hf), andb_false_r.
  - intros l Hf Ht Hs. cbn. rewrite Hf. cbn. rewrite Ht, Hs. done.
  - intros e es Hf Hes w'. assert (inFlight w' = false) as Hf'; [|done].
    subst w'. apply stalled_run; [done| |]; cbn; rewrite Hf; [done|]. cbn. auto.
  - intros l Hf. unfold run. cbn. rewrite Hf. reflexivity.
Qed.

(** The answer is shown whole; in the reverse direction, newest last. *)
Lemma mapNetworkConnectionsResponse_ids l d :
  (connectionId <$> mapNetworkConnectionsResponse l d) =
  if bool_decide (d = REVERSE) then reverse (rawId <$> l) else rawId <$> l.
Proof.
  unfold mapNetworkConnectionsResponse. destruct (bool_decide _).
  - rewrite <- fmap_reverse. change (List.map ?f ?l) with (f <$> l). by rewrite <- list_fmap_compose.
  - change (List.map ?f ?l) with (f <$> l). by rewrite <- list_fmap_compose.
Qed.

End Theorems.

(** * Examples *)

#[local] Instance plainFormat : DateFormat := fun _ _ => "".

Definition demoWorld : World := run step initialWorld [Dispatch NetworkConnectionsInit; Tick].

Lemma networkConnections_demo_reachable : reachable_by step initialWorld (fun _ _ => True) demoWorld.
Proof. unfold demoWorld, run. cbn [fold_left]. repeat (apply reachable_step; [|done]). apply reachable_init. Qed.

Lemma connections_poll_witness :
  inFlight demoWorld = true /\
  inFlight (run step (step demoWorld (Answer (Throw (ErrorMsg "offline"))))
    [Tick; Dispatch NetworkConnectionsClose; Dispatch NetworkConnectionsInit; Tick]) = false.
Proof.
  split; [reflexivity|].
  destruct (connections_poll demoWorld networkConnections_demo_reachable) as (_ & _ & Hstall & _).
  refine (proj1 (Hstall (ErrorMsg "offline") _ eq_refl _)). repeat constructor.
Defined.

End Connections.
