(* ===== verification/NetworkBootstrapStats.v ===== *)
(** Network bootstrap stats (frontend/src/app/features/network/bootstrap-stats):
    the requests of the Kademlia bootstrap of the node, polled every three
    seconds. *)

From S2P Require Import Prelude JsRuntime TableSort NodesOverview.

Module BootstrapStats.

(** * Data *)

Inductive NetworkBootstrapPeerType := NEW | EXISTING.

#[export] Instance PeerType_eq_dec : EqDecision NetworkBootstrapPeerType.
Proof. solve_decision. Defined.

Record BootstrapStatsRequest := mkRawRequest {
  rawType : string;
  rawAddress : string;
  rawStart : Z;
  rawFinish : option Z;
  peer_id : string;
  rawError : option string;
  closest_peers : option (list (string * NetworkBootstrapPeerType))
}.

Record NetworkBootstrapStatsRequest := mkStatsRequest {
  requestType : string;
  address : string;
  start : Z;
  finish : option Z;
  durationInSecs : option Z;
  peerId : string;
  existingPeers : nat;
  newPeers : nat;
  error : option string;
  typeErr : string;
  closestPeers : list (string * NetworkBootstrapPeerType)
}.

Inductive StatsField :=
| fStart | fFinish | fTypeErr | fDurationInSecs | fPeerId | fAddress | fExistingPeers | fNewPeers.

#[export] Instance StatsField_eq_dec : EqDecision StatsField.
Proof. solve_decision. Defined.

#[export] Instance Stats_row : Row NetworkBootstrapStatsRequest StatsField := fun f r =>
  match f with
  | fStart => vZ (start r)
  | fFinish => ofOption vZ (finish r)
  | fTypeErr => VStr (typeErr r)
  | fDurationInSecs => ofOption vZ (durationInSecs r)
  | fPeerId => VStr (peerId r)
  | fAddress => VStr (address r)
  | fExistingPeers => vZ (Z.of_nat (existingPeers r))
  | fNewPeers => vZ (Z.of_nat (newPeers r))
  end.

(** * Service *)

Definition countType (t : NetworkBootstrapPeerType) (ps : option (list (string * NetworkBootstrapPeerType))) : nat :=
  countIf (fun p => bool_decide (p.2 = t)) (default [] ps).

Definition mapStatsRequest (r : BootstrapStatsRequest) : NetworkBootstrapStatsRequest :=
  mkStatsRequest (rawType r) (rawAddress r) (rawStart r) (rawFinish r)
    (if truthyNum (rawFinish r)
     then Some (NodesOverview.ceilDiv (default 0%Z (rawFinish r) - rawStart r) ONE_BILLION) else None)
    (peer_id r) (countType EXISTING (closest_peers r)) (countType NEW (closest_peers r)) (rawError r)
    (rawType r +:+ (if truthyStr (rawError r) then "- " +:+ default "" (rawError r) else ""))
    (default [] (closest_peers r)).

Definition mapBootstrapStats (response : list BootstrapStatsRequest) : list NetworkBootstrapStatsRequest :=
  mapStatsRequest <$> response.

(** * Reducer *)

Record NetworkBootstrapStatsState := mkState {
  boostrapStats : list NetworkBootstrapStatsRequest;
  activeBootstrapRequest : option NetworkBootstrapStatsRequest;
  tableSort : TableSort StatsField
}.

#[export, refine] Instance State_copy : RecordCopy NetworkBootstrapStatsState := {
  record_copy s := mkState (boostrapStats s) (activeBootstrapRequest s) (tableSort s) }.
Proof. by intros []. Defined.

Inductive NetworkBootstrapStatsActions :=
| NetworkBootstrapStatsInit
| NetworkBootstrapStatsClose
| NetworkBootstrapStatsGetBootstrapStats
| NetworkBootstrapStatsGetBootstrapStatsSuccess (payload : list NetworkBootstrapStatsRequest)
| NetworkBootstrapStatsSort (payload : TableSort StatsField)
| NetworkBootstrapStatsSetActiveBootstrapRequest (payload : option NetworkBootstrapStatsRequest).

Definition initialState : NetworkBootstrapStatsState := mkState [] None (mkTableSort fStart ASC).

Section Reducer.
Context {LC : LocaleCompare}.

Definition sortRequests (rs : list NetworkBootstrapStatsRequest) (ts : TableSort StatsField)
  : list NetworkBootstrapStatsRequest := sort rs ts [fTypeErr; fAddress; fPeerId] false.

Definition reducer (state : NetworkBootstrapStatsState) (action : NetworkBootstrapStatsActions)
  : NetworkBootstrapStatsState :=
  match action with
  | NetworkBootstrapStatsGetBootstrapStatsSuccess p =>
      state <| boostrapStats := sortRequests p (tableSort state) |>
  | NetworkBootstrapStatsSetActiveBootstrapRequest p => state <| activeBootstrapRequest := p |>
  | NetworkBootstrapStatsSort ts =>
      state <| tableSort := ts |> <| boostrapStats := sortRequests (boostrapStats state) ts |>
  | NetworkBootstrapStatsClose => initialState
  | NetworkBootstrapStatsInit | NetworkBootstrapStatsGetBootstrapStats => state
  end.

(** * Effects *)

Record World := mkWorld {
  state : NetworkBootstrapStatsState; pendingRequest : bool; inFlight : bool; errors : list (MinaErrorType * JsError) }.

#[export, refine] Instance World_copy : RecordCopy World := {
  record_copy w := mkWorld (state w) (pendingRequest w) (inFlight w) (errors w) }.
Proof. by intros []. Defined.

Inductive Event := Dispatch (a : NetworkBootstrapStatsActions) | Answer (a : exec (list BootstrapStatsRequest)).

Definition initialWorld : World := mkWorld initialState false false [].

(** Opening the page asks for the statistics, as every tick of its timer does. *)
Definition effects (w : World) (a : NetworkBootstrapStatsActions) : World :=
  match a with
  | NetworkBootstrapStatsInit | NetworkBootstrapStatsGetBootstrapStats =>
      if pendingRequest w then w else w <| pendingRequest := true |> <| inFlight := true |>
  | NetworkBootstrapStatsClose => w <| pendingRequest := false |> <| inFlight := false |>
  | _ => w
  end.

Definition step (w : World) (e : Event) : World :=
  match e with
  | Dispatch a => effects (w <| state := reducer (state w) a |>) a
  | Answer a =>
      if inFlight w then
        match a with
        | Ret l =>
            w <| state := reducer (state w) (NetworkBootstrapStatsGetBootstrapStatsSuccess (mapBootstrapStats l)) |>
              <| pendingRequest := false |> <| inFlight := false |>
        | Throw e =>
            w <| state := reducer (state w) (NetworkBootstrapStatsGetBootstrapStatsSuccess []) |>
              <| inFlight := false |> <| errors := errors w ++ [(RUST, e)] |>
        end
      else w
  end.

End Reducer.

(** * Table and side panel *)

(** A click on a row, or the row of the address once the rows are there. *)
Definition onRowClick (active : option NetworkBootstrapStatsRequest) (row : NetworkBootstrapStatsRequest)
  : list NetworkBootstrapStatsActions :=
  if bool_decide ((peerId <$> active) = Some (peerId row)) then []
  else [NetworkBootstrapStatsSetActiveBootstrapRequest (Some row)].

Definition scrollToElement (rows : list NetworkBootstrapStatsRequest) (idFromRoute : option string)
  : list NetworkBootstrapStatsActions :=
  if truthyStr idFromRoute
  then [NetworkBootstrapStatsSetActiveBootstrapRequest
          (List.find (fun r => bool_decide (Some (peerId r) = idFromRoute)) rows)]
  else [].

(** What the side panel shows: an empty error and the times of a request that has
    not finished are left out. *)
Record PanelRequest := mkPanel { panelError : option string; panelFinish : option Z; panelDuration : option Z }.

Definition listenToActiveRequest (r : option NetworkBootstrapStatsRequest) : PanelRequest :=
  let err := r ≫= error in
  let fin := r ≫= finish in
  mkPanel (if truthyStr err then err else None) (if truthyNum fin then fin else None)
    (if truthyNum fin then r ≫= durationInSecs else None).

(** * Theorems *)

Lemma countType_total ps : countType EXISTING ps + countType NEW ps = length (default [] ps).
Proof.
  unfold countType, countIf. induction (default [] ps) as [|[n t] l IH]; [done|]. cbn.
  destruct t; repeat case_bool_decide; try done; cbn; lia.
Qed.

(** Every request of an answer is shown once; the existing and the new peers
    add up to the closest peers, and the duration of a finished request is the
    smallest whole number of seconds that covers it, none while it has not
    finished. *)
Theorem stats_requests_mapped l :
  length (mapBootstrapStats l) = length l /\
  forall i r, l !! i = Some r -> exists row, mapBootstrapStats l !! i = Some row /\
    peerId row = peer_id r /\ existingPeers row + newPeers row = length (closestPeers row) /\
    (truthyNum (rawFinish r) = false -> durationInSecs row = None) /\
    (forall f, rawFinish r = Some f -> f <> 0%Z -> exists d, durationInSecs row = Some d /\
       ((d - 1) * ONE_BILLION < f - rawStart r <= d * ONE_BILLION)%Z).
Proof.
  split; [apply length_fmap|]. intros i r Hr. exists (mapStatsRequest r).
  split; [unfold mapBootstrapStats; by rewrite list_lookup_fmap, Hr|]. split; [done|]. split; [apply countType_total|].
  cbn [mapStatsRequest durationInSecs]. split; [by intros ->|].
  intros f Hf Hne. rewrite Hf. apply Z.eqb_neq in Hne. cbn [truthyNum]. rewrite Hne. cbn [negb default from_option id].
  eexists. split; [done|]. unfold NodesOverview.ceilDiv, ONE_BILLION.
  pose proof (Z.div_mod (- (f - rawStart r)) 1000000000 ltac:(lia)).
  pose proof (Z.mod_pos_bound (- (f - rawStart r)) 1000000000 ltac:(lia)). lia.
Qed.

Section PollTheorems.
Context {LC : LocaleCompare}.

Definition isClose (e : Event) : bool := match e with Dispatch NetworkBootstrapStatsClose => true | _ => false end.

Lemma stats_step_flight w e : (inFlight w = true -> pendingRequest w = true) ->
  inFlight (step w e) = true -> pendingRequest (step w e) = true.
Proof.
  intros Hw. destruct e as [a|a]; cbn [step].
  - destruct a; cbn; try done; destruct (pendingRequest w) eqn:E; cbn; intros; congruence.
  - destruct (inFlight w) eqn:E; [by destruct a|congruence].
Qed.

Lemma stuck_step w e : isClose e = false -> pendingRequest w = true -> inFlight w = false ->
  pendingRequest (step w e) = true /\ inFlight (step w e) = false.
Proof.
  intros Hc Hp Hf. destruct e as [a|a]; cbn [step]; [|by rewrite Hf].
  destruct a; cbn; try done; by rewrite Hp.
Qed.

Lemma stuck_run w es : Forall (fun e => isClose e = false) es -> pendingRequest w = true -> inFlight w = false ->
  pendingRequest (run step w es) = true /\ inFlight (run step w es) = false.
Proof.
  revert w. induction es as [|e es IH]; intros w Hes Hp Hf; [done|].
  apply Forall_cons in Hes as [He Hes]. destruct (stuck_step w e He Hp Hf) as [Hp' Hf'].
  exact (IH (step w e) Hes Hp' Hf').
Qed.

(** Requests for the bootstrap statistics never overlap; a failed one empties
    the table and stops the poll until the page is closed, and opening it again
    asks anew; unlike on other pages closing drops the request in progress. *)
Theorem stats_poll w : reachable_by step initialWorld (fun _ _ => True) w ->
  (inFlight w = true -> inFlight (step w (Dispatch NetworkBootstrapStatsGetBootstrapStats)) = true /\
     pendingRequest (step w (Dispatch NetworkBootstrapStatsGetBootstrapStats)) = pendingRequest w) /\
  (forall e es, inFlight w = true -> Forall (fun e => isClose e = false) es ->
     boostrapStats (state (step w (Answer (Throw e)))) = [] /\
     inFlight (run step (step w (Answer (Throw e))) es) = false) /\
  inFlight (run step w [Dispatch NetworkBootstrapStatsClose; Dispatch NetworkBootstrapStatsInit]) = true /\
  (forall a, state (run step w [Dispatch NetworkBootstrapStatsClose; Answer a]) = initialState).
Proof.
  intros Hr. assert (inFlight w = true -> pendingRequest w = true) as Hw.
  { revert w Hr. apply (reachable_by_inv _ _ _ (fun w => inFlight w = true -> pendingRequest w = true)); [done|].
    intros w e Hw _. by apply stats_step_flight. }
  split_and!.
  - intros Hf. cbn. rewrite (Hw Hf). cbn. by rewrite (Hw Hf).
  - intros e es Hf Hes. split; [cbn; rewrite Hf; cbn; apply sort_nil|].
    apply stuck_run; [done|cbn; rewrite Hf; by apply Hw|cbn; by rewrite Hf].
  - reflexivity.
  - done.
Qed.

End PollTheorems.

(** * Examples *)

#[local] Instance demoLC : LocaleCompare := codeUnitCompare.

Definition demoRequest : BootstrapStatsRequest :=
  mkRawRequest "FIND_NODE" "1.2.3.4" 5 (Some 2500000000%Z) "p" (Some "timeout") (Some [("a", NEW); ("b", EXISTING); ("c", NEW)]).

Example demo_mapped : mapStatsRequest demoRequest =
  mkStatsRequest "FIND_NODE" "1.2.3.4" 5 (Some 2500000000%Z) (Some 3%Z) "p" 1 2 (Some "timeout") "FIND_NODE- timeout"
    [("a", NEW); ("b", EXISTING); ("c", NEW)].
Proof. reflexivity. Qed.

Definition demoWorld : World := run step initialWorld [Dispatch NetworkBootstrapStatsInit].

Lemma networkBootstrapStats_demo_reachable : reachable_by step initialWorld (fun _ _ => True) demoWorld.
Proof. apply (reachable_step step _ _ initialWorld); [apply reachable_init|done]. Qed.

Lemma stats_poll_witness :
  inFlight (run step (step demoWorld (Answer (Throw (ErrorMsg "offline"))))
    [Dispatch NetworkBootstrapStatsGetBootstrapStats; Dispatch NetworkBootstrapStatsGetBootstrapStats]) = false.
Proof.
  destruct (stats_poll demoWorld networkBootstrapStats_demo_reachable) as (_ & H & _).
  refine (proj2 (H (ErrorMsg "offline") _ eq_refl _)). repeat constructor.
Defined.

End BootstrapStats.
