(* ===== verification/RouteTables.v ===== *)
(** The tables of the pages (the table components under frontend/src/app/features):
    the row named in the address is looked up once the rows are there, a click
    selects a row and puts it into the address, and the selection of the store is
    the highlighted row.  The tables are instances of one flow with a policy per
    page, over the interface [TableStore] of the reducers they listen to. *)

From S2P Require Import Prelude JsRuntime TableSort NodeDht WorkPool AppConfig NodesOverview NodesBootstrap.
From S2P Require Import WonSlots Mempool Fuzzing NetworkMessages NetworkConnections NetworkBootstrapStats.

Module RouteTables.

(** * The interface of a page *)

(** What a table needs of the slice of its page: the rows and the active row, the
    actions that assign the rows, and the action that selects a row.  [rowKey] is
    the property shown in the address. *)
Class TableStore (S A R K : Type) := {
  reduceTable : S -> A -> exec S;
  rowsOf : S -> list R;
  activeOf : S -> option R;
  newRows : S -> A -> bool;
  select : option R -> A;
  rowKey : R -> option K
}.

(** What a table does with the row of the address: it clicks it, with or without a
    test that there is such a row; it dispatches the selection, at once or when the
    row is there; or it only scrolls to it. *)
Inductive Opens := ByClick (guarded : bool) | ByAction (waits : bool) | ScrollOnly.

(** [routeKey] is what the text of the address becomes and [usesKey] the test of
    the listener on it.  [skipsEmpty]: no rows are not reported.  [activeFirst] is
    the order of the subscriptions.  [followsActive]: the first selection becomes
    the row to look for.  [skipsFirst]: the selection at the time of the subscription
    is not reported.  [realClicks]: a click also selects the active row, and
    [navigates]: it also goes to its address. *)
Record Policy (K : Type) := mkPolicy {
  routeKey : string -> option K;
  usesKey : K -> bool;
  opens : Opens;
  skipsEmpty : bool;
  activeFirst : bool;
  followsActive : bool;
  skipsFirst : bool;
  realClicks : bool;
  navigates : bool
}.
Arguments mkPolicy {K}.
Arguments routeKey {K}.
Arguments usesKey {K}.
Arguments opens {K}.
Arguments skipsEmpty {K}.
Arguments activeFirst {K}.
Arguments followsActive {K}.
Arguments skipsFirst {K}.
Arguments realClicks {K}.
Arguments navigates {K}.

(** * The table *)

Record Table (R K : Type) := mkTable {
  rows : list R;
  activeRow : option R;
  fromRoute : option K;
  visited : list (option K)           (* router.navigate([..., key]) *)
}.
Arguments mkTable {R K}.
Arguments rows {R K}.
Arguments activeRow {R K}.
Arguments fromRoute {R K}.
Arguments visited {R K}.

#[export, refine] Instance Table_copy R K : RecordCopy (Table R K) := {
  record_copy t := mkTable (rows t) (activeRow t) (fromRoute t) (visited t) }.
Proof. by intros []. Defined.

Section Flow.
Context {S A R K : Type} `{!EqDecision K} {TS : TableStore S A R K} (p : Policy K).
Implicit Types (s : S) (a : A) (r : R) (k : K) (t : Table R K).

Definition hasKey k r : bool := bool_decide (rowKey r = Some k).

(** [onRowClick]: without a row, the selection is dispatched when there is an
    active row and the navigation then throws, which rxjs reports. *)
Definition onRowClick (guarded real : bool) t (row : option R) : Table R K * list A :=
  match row with
  | None => (t, if guarded || bool_decide (activeRow t ≫= rowKey = None) then [] else [select None])
  | Some r =>
      let other := negb (bool_decide (activeRow t ≫= rowKey = rowKey r)) || (real && realClicks p) in
      ((if other || navigates p then t <| visited := visited t ++ [rowKey r] |> else t),
       if other then [select (Some r)] else [])
  end.

Definition scrollToElement t k : Table R K * list A :=
  let row := List.find (hasKey k) (rows t) in
  let t' := t <| fromRoute := None |> in
  match opens p with
  | ByClick guarded => onRowClick guarded false t' row
  | ByAction waits =>
      match row with
      | Some r => (t', [select (Some r)])
      | None => if waits then (t, []) else (t', [select None])
      end
  | ScrollOnly => (t', [])
  end.

(** The subscription to the rows. *)
Definition listenToRows t (l : list R) : Table R K * list A :=
  match l with
  | [] => (if skipsEmpty p then t else t <| rows := [] |>, [])
  | _ =>
      let t := t <| rows := l |> in
      match fromRoute t with
      | Some k => if usesKey p k then scrollToElement t k else (t, [])
      | None => (t, [])
      end
  end.

(** The subscription to the active row. *)
Definition listenToActive t (row : option R) : Table R K :=
  let t := if followsActive p && bool_decide (is_Some (activeRow t)) then t
           else if followsActive p then t <| fromRoute := row ≫= rowKey |> else t in
  t <| activeRow := row |>.

Definition listenToRouteChange (route : option string) : option K :=
  match route with
  | Some id => if bool_decide (id = "") then None else routeKey p id
  | None => None
  end.

(** * The page *)

Record Page := mkPage { slice : S; table : Table R K }.

(** The subscriptions that an action from [w] to [s] triggers.  The selection is
    reported when it changes; absent before and after, it does not. *)
Definition subscriptions (w : Page) a s : Table R K * list A :=
  let report t := if bool_decide (is_Some (activeOf (slice w))) || bool_decide (is_Some (activeOf s))
                  then listenToActive t (activeOf s) else t in
  let list t := if newRows (slice w) a then listenToRows t (rowsOf s) else (t, []) in
  if activeFirst p then list (report (table w))
  else let '(t, more) := list (table w) in (report t, more).

(** One action; the actions dispatched by the subscriptions wait until all of them
    have run. *)
Definition round (w : Page) a : exec (Page * list A) :=
  s ← reduceTable (slice w) a;
  let '(t, more) := subscriptions w a s in Ret (mkPage s t, more).

(** The selections that a round leaves behind, which leave none themselves
    ([select_round]). *)
Fixpoint rounds (w : Page) (more : list A) : exec Page :=
  match more with
  | [] => Ret w
  | a :: more => r ← round w a; rounds r.1 more
  end.

Definition dispatch (w : Page) a : exec Page := r ← round w a; rounds r.1 r.2.

(** What reaches the page: an action of the page, and a click on a row. *)
Inductive Event := Act (a : A) | Click (i : nat).

Definition step (w : Page) (e : Event) : exec Page :=
  match e with
  | Act a => dispatch w a
  | Click i =>
      match rows (table w) !! i with
      | Some r => let '(t, more) := onRowClick true true (table w) (Some r) in rounds (mkPage (slice w) t) more
      | None => Ret w
      end
  end.

(** The table when it is created: the address, then the state of the slice.  The
    table of the won slots reads the number of an absent selection, which throws
    and leaves the table as it is. *)
Definition mount s (route : option string) : exec Page :=
  let t := mkTable [] None (listenToRouteChange route) [] in
  let '(t, more) :=
    if activeFirst p
    then listenToRows (if bool_decide (is_Some (activeOf s)) && negb (skipsFirst p)
                       then listenToActive t (activeOf s) else t) (rowsOf s)
    else let '(t, more) := listenToRows t (rowsOf s) in (listenToActive t (activeOf s), more) in
  rounds (mkPage s t) more.

(** * Laws *)

(** The selection of a row of the table makes it, or a row with its key, the active
    one, and assigns no rows. *)
Class TableLaws := {
  sound : S -> Prop;
  sound_step s a s' : sound s -> reduceTable s a = Ret s' -> sound s';
  select_quiet s o : newRows s (select o) = false;
  select_row s r : sound s -> r ∈ rowsOf s -> exists s' r',
    reduceTable s (select (Some r)) = Ret s' /\ rowsOf s' = rowsOf s /\
    activeOf s' = Some r' /\ rowKey r' = rowKey r
}.

Context {TL : TableLaws}.

Lemma select_round w o s : reduceTable (slice w) (select o) = Ret s ->
  round w (select o) =
    Ret (mkPage s (if bool_decide (is_Some (activeOf (slice w))) || bool_decide (is_Some (activeOf s))
                   then listenToActive (table w) (activeOf s) else table w), []).
Proof.
  intros E. unfold round, subscriptions. rewrite E. cbn [mbind exec_bind]. rewrite select_quiet.
  by destruct (activeFirst p).
Qed.

(** A selection that waits is carried out, and reported to the table. *)
Lemma rounds_select w r : sound (slice w) -> r ∈ rowsOf (slice w) -> exists w',
  rounds w [select (Some r)] = Ret w' /\ sound (slice w') /\ rowsOf (slice w') = rowsOf (slice w) /\
  is_Some (activeOf (slice w')) /\ activeOf (slice w') ≫= rowKey = rowKey r /\
  table w' = listenToActive (table w) (activeOf (slice w')).
Proof.
  intros Hs Hr. destruct (select_row (slice w) r Hs Hr) as (s' & r' & E & Hrows & Ha & Hk).
  pose proof (select_round w (Some r) s' E) as Et. cbn [rounds]. rewrite Et. cbn [mbind exec_bind]. eexists. split; [done|].
  cbn [slice table fst]. rewrite Ha. rewrite (bool_decide_true (is_Some (Some r'))) by done. rewrite orb_true_r.
  repeat split; try done. by eapply sound_step.
Qed.

Lemma find_hasKey k l r : r ∈ l -> rowKey r = Some k ->
  exists r', List.find (hasKey k) l = Some r' /\ r' ∈ l /\ rowKey r' = Some k.
Proof.
  intros Hr Hk. destruct (List.find (hasKey k) l) as [r'|] eqn:E.
  - apply find_Some_iff in E as [Hin E]. apply bool_decide_eq_true in E. eauto.
  - pose proof (proj1 (find_None_iff _ _) E r Hr) as Hn. unfold hasKey in Hn. by rewrite bool_decide_true in Hn.
Qed.

(** The row of the address is found among the rows. *)
Definition selects : bool := match opens p with ScrollOnly => false | _ => true end.

Lemma listen_selects t l k r : selects = true -> usesKey p k = true -> fromRoute t = Some k ->
  activeRow t ≫= rowKey <> Some k -> r ∈ l -> rowKey r = Some k ->
  exists t' r', listenToRows t l = (t', [select (Some r')]) /\ r' ∈ l /\ rowKey r' = Some k /\ fromRoute t' = None.
Proof.
  intros Hsel Hu Hf Ha Hr Hk. destruct (find_hasKey k l r Hr Hk) as (r' & Hfind & Hr' & Hk').
  destruct l as [|x l]; [by apply elem_of_nil in Hr|]. unfold listenToRows. cbn [fromRoute]. 
  change (fromRoute (t <| rows := x :: l |>)) with (fromRoute t). rewrite Hf, Hu. unfold scrollToElement.
  change (rows (t <| rows := x :: l |>)) with (x :: l). rewrite Hfind.
  unfold selects in Hsel. destruct (opens p) as [g|waits|]; [| |done].
  - unfold onRowClick. change (activeRow ((t <| rows := x :: l |>) <| fromRoute := None |>)) with (activeRow t).
    rewrite Hk', bool_decide_false by done. cbn. by repeat eexists.
  - by repeat eexists.
Qed.

(** A page that waits for the row of the address and has no selection selects it
    with the first rows that contain it. *)
Lemma opens_row w a s k r : selects = true -> usesKey p k = true ->
  fromRoute (table w) = Some k -> activeRow (table w) = None -> activeOf (slice w) = None ->
  sound (slice w) -> reduceTable (slice w) a = Ret s -> newRows (slice w) a = true -> activeOf s = None ->
  r ∈ rowsOf s -> rowKey r = Some k ->
  exists w', dispatch w a = Ret w' /\ rowsOf (slice w') = rowsOf s /\ activeOf (slice w') ≫= rowKey = Some k.
Proof.
  intros Hsel Hu Hf Ha Hn Hs E Hnew Hn' Hr Hk.
  destruct (listen_selects (table w) (rowsOf s) k r Hsel Hu Hf) as (t' & r' & El & Hr' & Hk' & _); [by rewrite Ha|done..|].
  unfold dispatch, round, subscriptions. rewrite E. cbn [mbind exec_bind]. rewrite Hnew, Hn, Hn'. cbn [orb].
  rewrite !(bool_decide_false (is_Some None)) by apply is_Some_None. cbn [orb].
  assert (sound s) as Hs' by (by eapply sound_step).
  destruct (rounds_select (mkPage s t') r' Hs' Hr') as (w' & Ew & _ & Hrows & _ & Hact & _).
  exists w'. rewrite <- Hk'. split; [|done]. destruct (activeFirst p); by rewrite El.
Qed.

(** The same when the rows are there before the table. *)
Lemma mount_row s route k r : selects = true -> usesKey p k = true -> route <> "" -> routeKey p route = Some k ->
  activeOf s = None -> sound s -> r ∈ rowsOf s -> rowKey r = Some k ->
  exists w, mount s (Some route) = Ret w /\ rowsOf (slice w) = rowsOf s /\ activeOf (slice w) ≫= rowKey = Some k.
Proof.
  intros Hsel Hu Hne Hroute Hn Hs Hr Hk. unfold mount, listenToRouteChange.
  rewrite (bool_decide_false (route = "")), Hroute, Hn by done. rewrite (bool_decide_false (is_Some None)) by apply is_Some_None.
  cbn [andb]. set (t0 := mkTable [] None (Some k) []).
  destruct (listen_selects t0 (rowsOf s) k r Hsel Hu) as (t' & r' & El & Hr' & Hk' & _); [done..|]. rewrite El, <- Hk'.
  destruct (activeFirst p).
  - destruct (rounds_select (mkPage s t') r' Hs Hr') as (w' & Ew & _ & Hrows & _ & Hact & _). eauto.
  - destruct (rounds_select (mkPage s (listenToActive t' None)) r' Hs Hr') as (w' & Ew & _ & Hrows & _ & Hact & _). eauto.
Qed.

(** Without rows, a new table only notes the row to look for. *)
Lemma mount_empty s route k : route <> "" -> routeKey p route = Some k -> activeOf s = None -> rowsOf s = [] ->
  followsActive p = false \/ activeFirst p = true ->
  exists w, mount s (Some route) = Ret w /\ slice w = s /\ fromRoute (table w) = Some k /\ activeRow (table w) = None.
Proof.
  intros Hne Hroute Hn Hr Hfol. unfold mount, listenToRouteChange, listenToRows.
  rewrite (bool_decide_false (route = "")), Hroute, Hn, Hr by done. rewrite (bool_decide_false (is_Some None)) by apply is_Some_None.
  cbn [andb]. destruct (activeFirst p).
  - eexists. split; [done|]. by destruct (skipsEmpty p).
  - destruct Hfol as [Hfol|]; [|done]. eexists. split; [done|]. unfold listenToActive. rewrite Hfol. cbn [andb].
    by destruct (skipsEmpty p).
Qed.

(** What a click on a row that is not active does. *)
Lemma click_row w i r k : sound (slice w) -> rows (table w) = rowsOf (slice w) -> rows (table w) !! i = Some r ->
  rowKey r = Some k -> activeRow (table w) ≫= rowKey <> Some k ->
  exists w', step w (Click i) = Ret w' /\ sound (slice w') /\ rowsOf (slice w') = rowsOf (slice w) /\
    is_Some (activeOf (slice w')) /\ activeOf (slice w') ≫= rowKey = Some k /\
    table w' = listenToActive ((table w) <| visited := visited (table w) ++ [Some k] |>) (activeOf (slice w')).
Proof.
  intros Hs Hrows Hi Hk Hact. cbn [step]. rewrite Hi. unfold onRowClick. rewrite Hk, bool_decide_false by done.
  cbn [negb orb]. rewrite <- Hk. destruct (rounds_select (mkPage (slice w) ((table w) <| visited := visited (table w) ++ [rowKey r] |>)) r Hs)
    as (w' & E & H1 & H2 & H3 & H4 & H5).
  { cbn. rewrite <- Hrows. by eapply list_elem_of_lookup_2. }
  exists w'. done.
Qed.

Lemma listen_keeps t o : visited (listenToActive t o) = visited t /\ rows (listenToActive t o) = rows t /\
  activeRow (listenToActive t o) = o.
Proof. unfold listenToActive. by destruct (followsActive p), (bool_decide _). Qed.

(** The table after such a click. *)
Lemma click_table w i r k : sound (slice w) -> rows (table w) = rowsOf (slice w) -> rows (table w) !! i = Some r ->
  rowKey r = Some k -> activeRow (table w) ≫= rowKey <> Some k ->
  exists w', step w (Click i) = Ret w' /\ sound (slice w') /\ rows (table w') = rowsOf (slice w') /\
    rows (table w') = rows (table w) /\ is_Some (activeOf (slice w')) /\ activeOf (slice w') ≫= rowKey = Some k /\
    activeRow (table w') = activeOf (slice w') /\ visited (table w') = visited (table w) ++ [Some k] /\
    fromRoute (table w') = if followsActive p && bool_decide (activeRow (table w) = None) then Some k else fromRoute (table w).
Proof.
  intros Hs Hrows Hi Hk Hact. destruct (click_row w i r k Hs Hrows Hi Hk Hact) as (w' & E & Hs' & Hr' & Hsome & Ha & Ht).
  set (t := (table w) <| visited := visited (table w) ++ [Some k] |>) in Ht.
  destruct (listen_keeps t (activeOf (slice w'))) as (H1 & H2 & H3). rewrite <- Ht in H1, H2, H3.
  exists w'. repeat split; try done; [by rewrite H2, Hr'|]. rewrite Ht. unfold listenToActive.
  change (activeRow t) with (activeRow (table w)). destruct (followsActive p); [|done].
  destruct (activeRow (table w)) as [x|].
  - rewrite bool_decide_true, bool_decide_false by done. done.
  - rewrite bool_decide_false, bool_decide_true by (done || apply is_Some_None). cbn. done.
Qed.

(** A click on a row selects it and puts its key into the address; the address of a
    row, opened on a page without a selection, selects the row: with the first rows,
    reported by one of the actions [reports], when it is among them, or at once when
    the rows are there. *)
Definition Reopens (reports : A -> Prop) : Prop :=
  forall route k, route <> "" -> routeKey p route = Some k ->
  (forall w i r, sound (slice w) -> rows (table w) = rowsOf (slice w) -> rows (table w) !! i = Some r -> rowKey r = Some k ->
     activeRow (table w) ≫= rowKey <> Some k ->
     exists w', step w (Click i) = Ret w' /\ activeOf (slice w') ≫= rowKey = Some k /\
       last (visited (table w')) = Some (Some k)) /\
  (forall s a s' r, sound s -> activeOf s = None -> rowsOf s = [] -> reports a ->
     reduceTable s a = Ret s' -> newRows s a = true -> r ∈ rowsOf s' -> rowKey r = Some k ->
     exists w', (w0 ← mount s (Some route); dispatch w0 a) = Ret w' /\ rowsOf (slice w') = rowsOf s' /\
       activeOf (slice w') ≫= rowKey = Some k) /\
  (forall s r, sound s -> activeOf s = None -> r ∈ rowsOf s -> rowKey r = Some k ->
     exists w', mount s (Some route) = Ret w' /\ rowsOf (slice w') = rowsOf s /\ activeOf (slice w') ≫= rowKey = Some k).

(** The addresses that are written are used. *)
Definition usable : Prop := forall route k, route <> "" -> routeKey p route = Some k -> usesKey p k = true.

(** For a key that no row has, the address need not be used. *)
Definition usableRows : Prop :=
  forall route k r, route <> "" -> routeKey p route = Some k -> rowKey (R := R) r = Some k -> usesKey p k = true.

Lemma reopens_intro reports :
  selects = true -> usableRows -> followsActive p = false \/ activeFirst p = true ->
  (forall s a s', reports a -> activeOf s = None -> newRows s a = true -> reduceTable s a = Ret s' -> activeOf s' = None) ->
  Reopens reports.
Proof.
  intros Hsel Huse Hfol Hquiet route k Hne Hroute. split; [|split].
  - intros w i r Hs Hrows Hi Hk Hact.
    destruct (click_table w i r k Hs Hrows Hi Hk Hact) as (w' & E & _ & _ & _ & _ & Ha & _ & Hv & _).
    exists w'. rewrite Hv. split; [done|]. split; [done|]. apply last_snoc.
  - intros s a s' r Hs Hn Hr0 Hrep E Hnew Hr Hk.
    destruct (mount_empty s route k Hne Hroute Hn Hr0 Hfol) as (w0 & Ew & Hw & Hf & Ha).
    rewrite Ew. cbn. pose proof (Hquiet s a s' Hrep Hn Hnew E) as Hn'. rewrite <- Hw in Hs, Hn, E, Hnew.
    eapply opens_row; eauto.
  - intros s r Hs Hn Hr Hk. eapply mount_row; eauto.
Qed.

(** * Who changes the selection *)

(** A table without a row to look for dispatches nothing, and gets none to look for. *)
Lemma quiet_rows t l : fromRoute t = None -> exists t', listenToRows t l = (t', []) /\ fromRoute t' = None.
Proof.
  intros Ht. unfold listenToRows. destruct l as [|x l]; [destruct (skipsEmpty p); eauto|].
  change (fromRoute (t <| rows := x :: l |>)) with (fromRoute t). rewrite Ht. eauto.
Qed.

Lemma quiet_active t o : followsActive p = false -> fromRoute (listenToActive t o) = fromRoute t.
Proof. intros Hfol. unfold listenToActive. by rewrite Hfol. Qed.

Lemma quiet_report (b : bool) t o : followsActive p = false ->
  fromRoute (if b then listenToActive t o else t) = fromRoute t.
Proof. intros Hfol. destruct b; [by apply quiet_active|done]. Qed.

Lemma quiet_subscriptions w a s : followsActive p = false -> fromRoute (table w) = None ->
  exists t, subscriptions w a s = (t, []) /\ fromRoute t = None.
Proof.
  intros Hfol Hf. unfold subscriptions. destruct (activeFirst p), (newRows (slice w) a).
  - apply quiet_rows. by rewrite quiet_report.
  - eexists. split; [done|]. by rewrite quiet_report.
  - destruct (quiet_rows (table w) (rowsOf s) Hf) as (t & -> & Ht). eexists. split; [done|]. by rewrite quiet_report.
  - eexists. split; [done|]. by rewrite quiet_report.
Qed.

Lemma quiet_dispatch w a s : followsActive p = false -> fromRoute (table w) = None ->
  reduceTable (slice w) a = Ret s -> exists t, dispatch w a = Ret (mkPage s t) /\ fromRoute t = None.
Proof.
  intros Hfol Hf E. unfold dispatch, round. rewrite E. cbn [mbind exec_bind].
  destruct (quiet_subscriptions w a s Hfol Hf) as (t & -> & Ht). eauto.
Qed.

(** The lookup of the address happens once. *)
Lemma looked_up t x l : (forall k, fromRoute t = Some k -> usesKey p k = true) -> opens p <> ByAction true ->
  fromRoute (listenToRows t (x :: l)).1 = None.
Proof.
  intros Hu Ho. unfold listenToRows. change (fromRoute (t <| rows := x :: l |>)) with (fromRoute t).
  destruct (fromRoute t) as [k|] eqn:Hf; [|done]. rewrite (Hu k) by done. unfold scrollToElement.
  destruct (opens p) as [g|[]|]; try done.
  - unfold onRowClick. destruct (List.find _ _); [|done]. cbn. by case_match.
  - by destruct (List.find _ _).
Qed.

(** ** Addresses that are looked up *)

(** The row to look for is the same or none. *)
Definition keepsRoute (t t' : Table R K) : Prop := fromRoute t' = fromRoute t \/ fromRoute t' = None.

Lemma keepsRoute_trans t1 t2 t3 : keepsRoute t1 t2 -> keepsRoute t2 t3 -> keepsRoute t1 t3.
Proof. unfold keepsRoute. intros [-> | ->] [-> | ->]; auto. Qed.

Lemma click_keepsRoute guarded real t o : keepsRoute t (onRowClick guarded real t o).1.
Proof. left. unfold onRowClick. destruct o; [|done]. cbn. by destruct (_ || navigates p). Qed.

Lemma rows_keepsRoute t l : keepsRoute t (listenToRows t l).1.
Proof.
  unfold listenToRows. destruct l as [|x l]; [left; by destruct (skipsEmpty p)|].
  change (fromRoute (t <| rows := x :: l |>)) with (fromRoute t). destruct (fromRoute t) as [k|]; [|by left].
  destruct (usesKey p k); [|by left]. unfold scrollToElement. destruct (opens p) as [g|waits|]; [| |by right].
  - set (t' := (t <| rows := x :: l |>) <| fromRoute := None |>).
    eapply keepsRoute_trans; [|apply click_keepsRoute]. by right.
  - destruct (List.find _ _); [by right|]. destruct waits; [by left|by right].
Qed.

Lemma subscriptions_keepsRoute w a s : followsActive p = false -> keepsRoute (table w) (subscriptions w a s).1.
Proof.
  intros Hfol. unfold subscriptions.
  assert (forall (b : bool) t o, keepsRoute t (if b then listenToActive t o else t)) as Hq.
  { intros b t o. left. by apply quiet_report. }
  assert (forall (b : bool) t l, keepsRoute t (if b then listenToRows t l else (t, [])).1) as Hl.
  { intros [] t l; [apply rows_keepsRoute|by left]. }
  destruct (activeFirst p).
  - eapply keepsRoute_trans; [apply Hq|apply Hl].
  - specialize (Hl (newRows (slice w) a) (table w) (rowsOf s)). destruct (if newRows _ _ then _ else _) as [t more].
    eapply keepsRoute_trans; [exact Hl|apply Hq].
Qed.

Lemma round_keepsRoute w a wm : followsActive p = false -> round w a = Ret wm -> keepsRoute (table w) (table wm.1).
Proof.
  intros Hfol E. unfold round in E. apply exec_bind_Ret in E as (s & _ & E).
  pose proof (subscriptions_keepsRoute w a s Hfol) as Hk. destruct (subscriptions w a s) as [t more].
  injection E as <-. exact Hk.
Qed.

Lemma rounds_keepsRoute w more w' : followsActive p = false -> rounds w more = Ret w' -> keepsRoute (table w) (table w').
Proof.
  intros Hfol. revert w. induction more as [|a more IH]; intros w E; cbn in E; [injection E as <-; by left|].
  apply exec_bind_Ret in E as (r & E1 & E). eapply keepsRoute_trans; [by eapply round_keepsRoute|by apply IH].
Qed.

Lemma step_keepsRoute w e w' : followsActive p = false -> step w e = Ret w' -> keepsRoute (table w) (table w').
Proof.
  intros Hfol E. destruct e as [a|i]; cbn [step] in E.
  - unfold dispatch in E. apply exec_bind_Ret in E as (r & E1 & E).
    eapply keepsRoute_trans; [by eapply round_keepsRoute|by eapply rounds_keepsRoute].
  - destruct (rows (table w) !! i) as [r|]; [|injection E as <-; by left].
    pose proof (click_keepsRoute true true (table w) (Some r)) as Hk. destruct (onRowClick _ _ _ _) as [t more].
    eapply keepsRoute_trans; [exact Hk|]. by apply (rounds_keepsRoute (mkPage (slice w) t) more).
Qed.

(** A page at any time after it was opened. *)
Definition pageOf (w : Page) : Prop :=
  exists s route w0, mount s route = Ret w0 /\ reachable_exec step w0 (fun _ _ => True) w.

Lemma pageOf_usable w k : followsActive p = false -> usable -> pageOf w -> fromRoute (table w) = Some k -> usesKey p k = true.
Proof.
  intros Hfol Hu (s & route & w0 & E0 & Hw).
  assert (forall k, fromRoute (table w0) = Some k -> usesKey p k = true) as H0.
  { unfold mount in E0. set (t := mkTable [] None (listenToRouteChange route) []) in E0.
    assert (forall k, fromRoute t = Some k -> usesKey p k = true) as Ht.
    { intros k' Hk'. change (listenToRouteChange route = Some k') in Hk'. unfold listenToRouteChange in Hk'.
      destruct route as [id|]; [|discriminate]. case_bool_decide as Hid; [discriminate|]. by apply (Hu id). }
    assert (keepsRoute t (table w0)) as Hk; [|intros k'; destruct Hk as [-> | ->]; [apply Ht|done]].
    destruct (activeFirst p).
    - match type of E0 with context [listenToRows ?x ?l] =>
        pose proof (rows_keepsRoute x l) as Hl; assert (keepsRoute t x) as Hx by (left; by apply quiet_report) end.
      destruct (listenToRows _ _) as [t' more]. eapply keepsRoute_trans; [exact Hx|]. eapply keepsRoute_trans; [exact Hl|].
      by apply (rounds_keepsRoute (mkPage s t') more).
    - pose proof (rows_keepsRoute t (rowsOf s)) as Hl. destruct (listenToRows _ _) as [t' more].
      eapply keepsRoute_trans; [exact Hl|]. eapply (keepsRoute_trans _ (listenToActive t' (activeOf s)));
        [left; by apply quiet_active|]. by apply (rounds_keepsRoute (mkPage s (listenToActive t' (activeOf s))) more). }
  revert k. revert w Hw. apply (reachable_exec_inv _ _ _ (fun w => forall k, fromRoute (table w) = Some k -> usesKey p k = true));
    [exact H0|]. intros w1 e w2 IH _ E k. destruct (step_keepsRoute w1 e w2 Hfol E) as [-> | ->]; [apply IH|done].
Qed.

(** The first rows end the lookup of the address, and from then on the page is in
    every state what its reducer makes of the actions, whatever rows arrive. *)
Definition Leaves : Prop :=
  forall w, pageOf w ->
  (forall a s, reduceTable (slice w) a = Ret s -> newRows (slice w) a = true -> rowsOf s <> [] ->
     fromRoute (subscriptions w a s).1 = None) /\
  (fromRoute (table w) = None -> forall acts s,
     runM reduceTable (slice w) acts = Ret s ->
     exists w', runM dispatch w acts = Ret w' /\ slice w' = s /\ fromRoute (table w') = None).

Lemma leaves_intro : followsActive p = false -> usable -> opens p <> ByAction true -> Leaves.
Proof.
  intros Hfol Huse Ho w Hw. split.
  - intros a s E Hnew Hne. assert (forall k, fromRoute (table w) = Some k -> usesKey p k = true) as Hu
      by (intros k; by apply pageOf_usable).
    unfold subscriptions. rewrite Hnew. destruct (rowsOf s) as [|x l]; [done|].
    destruct (activeFirst p).
    + apply looked_up; [|done]. intros k. rewrite quiet_report by done. apply Hu.
    + pose proof (looked_up (table w) x l Hu Ho) as Hl. destruct (listenToRows _ _) as [t more]. cbn in *.
      by rewrite quiet_report.
  - clear Hw. intros Hf acts. revert w Hf. induction acts as [|a acts IH]; intros w Hf s E; cbn in E |- *.
    + injection E as <-. eauto.
    + apply exec_bind_Ret in E as (s1 & E1 & E). destruct (quiet_dispatch w a s1 Hfol Hf E1) as (t & -> & Ht).
      cbn. by apply (IH (mkPage s1 t)).
Qed.

(** The row of the address is looked for in all rows that are reported until they
    contain it, and is then selected, whatever is selected by then. *)
Definition KeepsLooking : Prop :=
  forall w k a s, sound (slice w) -> fromRoute (table w) = Some k -> usesKey p k = true ->
  reduceTable (slice w) a = Ret s -> newRows (slice w) a = true ->
  ((forall r, r ∈ rowsOf s -> rowKey r <> Some k) ->
     exists w', dispatch w a = Ret w' /\ slice w' = s /\ fromRoute (table w') = Some k) /\
  (forall r, r ∈ rowsOf s -> rowKey r = Some k ->
     exists w', dispatch w a = Ret w' /\ activeOf (slice w') ≫= rowKey = Some k /\ fromRoute (table w') = None).

Lemma keeps_looking_intro :
  followsActive p = false -> activeFirst p = false -> opens p = ByAction true -> KeepsLooking.
Proof.
  intros Hfol Hfirst Ho w k a s Hs Hf Hu E Hnew.
  assert (forall t more, listenToRows (table w) (rowsOf s) = (t, more) ->
    exists t', dispatch w a = rounds (mkPage s t') more /\ fromRoute t' = fromRoute t) as Hd.
  { intros t more Et. unfold dispatch, round. rewrite E. cbn [mbind exec_bind]. unfold subscriptions.
    rewrite Hfirst, Hnew, Et. eexists. split; [done|]. by apply quiet_report. }
  assert (forall x l, listenToRows (table w) (x :: l) = scrollToElement ((table w) <| rows := x :: l |>) k) as Hl.
  { intros x l. unfold listenToRows. change (fromRoute ((table w) <| rows := x :: l |>)) with (fromRoute (table w)).
    by rewrite Hf, Hu. }
  split.
  - intros Hno. assert (exists t, listenToRows (table w) (rowsOf s) = (t, []) /\ fromRoute t = Some k) as (t & Et & Ht).
    { destruct (rowsOf s) as [|x l] eqn:Er; [eexists; split; [done|]; by destruct (skipsEmpty p)|]. rewrite Hl.
      unfold scrollToElement. change (rows ((table w) <| rows := x :: l |>)) with (x :: l).
      destruct (List.find (hasKey k) (x :: l)) as [r|] eqn:Ef; [|by rewrite Ho; eexists].
      apply find_Some_iff in Ef as [Hr Hk]. apply bool_decide_eq_true in Hk. by destruct (Hno r). }
    destruct (Hd t [] Et) as (t' & -> & Ht'). eexists. split_and!; [done|done|].
    change (fromRoute t' = Some k). congruence.
  - intros r Hr Hk. destruct (find_hasKey k (rowsOf s) r Hr Hk) as (r' & Hfind & Hr' & Hk').
    assert (exists t, listenToRows (table w) (rowsOf s) = (t, [select (Some r')]) /\ fromRoute t = None) as (t & Et & Ht).
    { destruct (rowsOf s) as [|x l]; [by apply elem_of_nil in Hr|]. rewrite Hl. unfold scrollToElement.
      change (rows ((table w) <| rows := x :: l |>)) with (x :: l). rewrite Hfind, Ho. by eexists. }
    destruct (Hd t _ Et) as (t' & -> & Ht').
    destruct (rounds_select (mkPage s t') r') as (w' & -> & _ & _ & _ & Ha & Htab); [by eapply sound_step|done|].
    exists w'. split; [done|]. rewrite Ha. split; [done|]. rewrite Htab, quiet_active by done. change (fromRoute t' = None). congruence.
Qed.

(** C23: a table that takes over the first selection keeps it as the row to look for:
    after a click on one row and a click on another, the next rows that still
    contain the first one select it again. *)
Theorem table_jumps_back w i j r1 r2 k1 k2 guarded :
  followsActive p = true -> activeFirst p = true -> opens p = ByClick guarded -> usesKey p k1 = true ->
  sound (slice w) -> rows (table w) = rowsOf (slice w) -> activeRow (table w) = None ->
  rows (table w) !! i = Some r1 -> rowKey r1 = Some k1 -> rows (table w) !! j = Some r2 -> rowKey r2 = Some k2 -> k1 <> k2 ->
  exists w2, (w1 ← step w (Click i); step w1 (Click j)) = Ret w2 /\ activeOf (slice w2) ≫= rowKey = Some k2 /\
  forall a s r, reduceTable (slice w2) a = Ret s -> newRows (slice w2) a = true ->
    activeOf s ≫= rowKey = Some k2 -> r ∈ rowsOf s -> rowKey r = Some k1 ->
    exists w3, dispatch w2 a = Ret w3 /\ activeOf (slice w3) ≫= rowKey = Some k1.
Proof.
  intros Hfol Hfirst Hop Hu Hs Hrows Hno Hi Hk1 Hj Hk2 Hne.
  destruct (click_table w i r1 k1 Hs Hrows Hi Hk1) as (w1 & E1 & Hs1 & Hr1 & Hr1' & [x1 Hx1] & Ha1 & Ht1 & _ & Hf1);
    [by rewrite Hno|]. rewrite Hfol, Hno, bool_decide_true in Hf1 by done.
  destruct (click_table w1 j r2 k2 Hs1 Hr1) as (w2 & E2 & Hs2 & _ & _ & [x2 Hx2] & Ha2 & Ht2 & _ & Hf2);
    [by rewrite Hr1'|done|rewrite Ht1, Ha1; congruence|].
  rewrite Hfol, Ht1, Hx1, bool_decide_false in Hf2 by done. cbn in Hf1, Hf2. rewrite Hf1 in Hf2.
  exists w2. rewrite E1. cbn [mbind exec_bind]. split; [done|]. split; [done|].
  intros a s r E Hnew Hact Hr Hk. unfold dispatch, round. rewrite E. cbn [mbind exec_bind].
  unfold subscriptions. rewrite Hfirst, Hnew, Hx2. rewrite (bool_decide_true (is_Some (Some x2))) by done. cbn [orb].
  assert (fromRoute (listenToActive (table w2) (activeOf s)) = Some k1) as Hf3.
  { unfold listenToActive. rewrite Hfol, Ht2, Hx2, (bool_decide_true (is_Some (Some x2))) by done. done. }
  destruct (listen_selects (listenToActive (table w2) (activeOf s)) (rowsOf s) k1 r) as (t3 & r' & -> & Hr' & Hk' & _);
    [by unfold selects; rewrite Hop|done|done| |done|done|].
  { destruct (listen_keeps (table w2) (activeOf s)) as (_ & _ & ->). rewrite Hact. congruence. }
  destruct (rounds_select (mkPage s t3) r') as (w3 & E3 & _ & _ & _ & Ha3 & _); [by eapply sound_step|done|].
  exists w3. cbn [mbind exec_bind fst snd]. rewrite E3. by rewrite Ha3.
Qed.

End Flow.

(** * The pages *)

Definition textId (id : string) : option string := Some id.

(** [Number(id)]: the digits of the address, NaN ([None]) for anything else. *)
Definition numberId (id : string) : option (option Z) := Some (digitsValue 0 id).

(** [if (this.idFromRoute)] *)
Definition truthyText (id : string) : bool := negb (bool_decide (id = "")).
Definition truthyNumber (id : option Z) : bool := match id with Some z => negb (z =? 0)%Z | None => false end.

Definition nodesOverviewPolicy : Policy string :=
  mkPolicy textId truthyText (ByClick false) true false false false false false.
Definition nodesBootstrapPolicy : Policy (option Z) :=
  mkPolicy numberId (fun _ => true) (ByClick false) true false false false false false.
Definition nodeDhtPolicy : Policy string := mkPolicy textId truthyText (ByAction false) true false false false false false.
Definition connectionsPolicy : Policy (option Z) :=
  mkPolicy numberId truthyNumber ScrollOnly true false false false false false.
Definition bootstrapStatsPolicy : Policy string :=
  mkPolicy textId truthyText (ByAction false) true false false false false false.
Definition workPoolPolicy : Policy string := mkPolicy textId truthyText (ByClick true) false false false false false false.
Definition mempoolPolicy : Policy string := mkPolicy textId truthyText (ByClick true) false true true true false false.
Definition wonSlotsPolicy : Policy string := mkPolicy textId truthyText (ByClick true) true true true false true false.
Definition fuzzingPolicy : Policy string := mkPolicy textId truthyText (ByAction true) false false false false false true.

Section Stores.
Context {LC : LocaleCompare}.

#[export] Instance nodesOverviewStore (CONFIG : AppConfig.MinaEnv) :
  TableStore NodesOverview.NodesOverviewState NodesOverview.NodesOverviewActions NodesOverview.NodesOverviewNode string := {
  reduceTable s a := Ret (NodesOverview.reducer CONFIG s a);
  rowsOf := NodesOverview.nodes;
  activeOf := NodesOverview.activeNode;
  newRows _ a := match a with
                 | NodesOverview.NodesOverviewGetNodeStatusSuccess _ | NodesOverview.NodesOverviewSortNodes _
                 | NodesOverview.NodesOverviewClose => true
                 | _ => false
                 end;
  select := NodesOverview.NodesOverviewSetActiveNode;
  rowKey n := Some (NodesOverview.name n)
}.

#[export] Instance nodesBootstrapStore (desktop : bool) :
  TableStore NodesBootstrap.NodesBootstrapState NodesBootstrap.NodesBootstrapActions NodesBootstrap.NodesBootstrapNode (option Z) := {
  reduceTable s a := Ret (NodesBootstrap.reducer desktop s a);
  rowsOf := NodesBootstrap.nodes;
  activeOf := NodesBootstrap.activeNode;
  newRows _ a := match a with
                 | NodesBootstrap.NodesBootstrapGetNodesSuccess _ | NodesBootstrap.NodesBootstrapSortNodes _
                 | NodesBootstrap.NodesBootstrapClose => true
                 | _ => false
                 end;
  select := NodesBootstrap.NodesBootstrapSetActiveBlock;
  rowKey n := Some (Some (Z.of_nat (NodesBootstrap.index n)))
}.

#[export] Instance nodeDhtStore :
  TableStore NodeDht.NetworkNodeDhtState NodeDht.NetworkNodeDhtActions NodeDht.NetworkNodeDhtPeer string := {
  reduceTable s a := Ret (NodeDht.networkDhtReducer s a);
  rowsOf := NodeDht.peers;
  activeOf := NodeDht.activePeer;
  newRows s a := match a with
                 | NodeDht.NetworkNodeDhtGetPeersSuccess payload => negb (NodeDht.sameRecord s payload)
                 | NodeDht.NetworkNodeDhtClose => true
                 | _ => false
                 end;
  select := NodeDht.NetworkNodeDhtSetActivePeer;
  rowKey n := Some (NodeDht.peerId n)
}.

#[export] Instance connectionsStore :
  TableStore Connections.NetworkConnectionsState Connections.NetworkConnectionsActions Connections.NetworkConnection (option Z) := {
  reduceTable s a := Ret (Connections.reducer s a);
  rowsOf := Connections.connections;
  activeOf := Connections.activeConnection;
  newRows _ a := match a with
                 | Connections.NetworkConnectionsGetConnectionsSuccess _ | Connections.NetworkConnectionsClose => true
                 | _ => false
                 end;
  select := Connections.NetworkConnectionsSelectConnection;
  rowKey n := Some (Some (Connections.connectionId n))
}.

#[export] Instance bootstrapStatsStore :
  TableStore BootstrapStats.NetworkBootstrapStatsState BootstrapStats.NetworkBootstrapStatsActions
    BootstrapStats.NetworkBootstrapStatsRequest string := {
  reduceTable s a := Ret (BootstrapStats.reducer s a);
  rowsOf := BootstrapStats.boostrapStats;
  activeOf := BootstrapStats.activeBootstrapRequest;
  newRows _ a := match a with
                 | BootstrapStats.NetworkBootstrapStatsGetBootstrapStatsSuccess _
                 | BootstrapStats.NetworkBootstrapStatsSort _ | BootstrapStats.NetworkBootstrapStatsClose => true
                 | _ => false
                 end;
  select := BootstrapStats.NetworkBootstrapStatsSetActiveBootstrapRequest;
  rowKey n := Some (BootstrapStats.peerId n)
}.

#[export] Instance workPoolStore (desktop : bool) :
  TableStore WorkPools.SnarksWorkPoolState WorkPools.SnarksWorkPoolActions WorkPools.WorkPool string := {
  reduceTable := WorkPools.reducer desktop;
  rowsOf := WorkPools.filteredWorkPools;
  activeOf := WorkPools.activeWorkPool;
  newRows _ a := match a with
                 | WorkPools.SnarksWorkPoolGetWorkPoolSuccess _ | WorkPools.SnarksWorkPoolSortWorkPool _
                 | WorkPools.SnarksWorkPoolToggleFilter _ | WorkPools.SnarksWorkPoolClose => true
                 | _ => false
                 end;
  select o := WorkPools.SnarksWorkPoolSetActiveWorkPool (default "" (WorkPools.id <$> o));
  rowKey n := Some (WorkPools.id n)
}.

#[export] Instance mempoolStore : TableStore Mempool.MempoolState Mempool.MempoolActions Mempool.MempoolTransaction string := {
  reduceTable := Mempool.reducer;
  rowsOf := Mempool.txs;
  activeOf := Mempool.activeTx;
  newRows _ a := match a with
                 | Mempool.getTxsSuccess _ | Mempool.changeFilters _ | Mempool.close => true
                 | _ => false
                 end;
  select := Mempool.setActiveTx;
  rowKey := Mempool.txHash
}.

#[export] Instance wonSlotsStore (isDesktop : bool) :
  TableStore WonSlots.BlockProductionWonSlotsState WonSlots.BlockProductionWonSlotsActions
    WonSlots.BlockProductionWonSlotsSlot string := {
  reduceTable := WonSlots.blockProductionWonSlotsReducer isDesktop;
  rowsOf := WonSlots.filteredSlots;
  activeOf := WonSlots.activeSlot;
  newRows _ a := match a with
                 | WonSlots.getSlotsSuccess _ _ _ | WonSlots.sortAction _ | WonSlots.changeFilters _ | WonSlots.close => true
                 | _ => false
                 end;
  select := WonSlots.setActiveSlot;
  rowKey n := Some (showZ (WonSlots.globalSlot n))
}.

#[local] Existing Instance Fuzzing.File_eq_dec.

#[export] Instance fuzzingStore : TableStore Fuzzing.FuzzingState Fuzzing.FuzzingActions Fuzzing.FuzzingFile string := {
  reduceTable s a := Ret (Fuzzing.reducer s a);
  rowsOf := Fuzzing.filteredFiles;
  activeOf s := mjoin (Fuzzing.activeFile s);
  newRows s a := match a with
                 | Fuzzing.FuzzingGetFilesSuccess p =>
                     negb (bool_decide (Fuzzing.filterFiles (Fuzzing.sortFiles p (Fuzzing.tableSort s)) (Fuzzing.filterText s)
                                        = Fuzzing.filteredFiles s))
                 | Fuzzing.FuzzingSort _ | Fuzzing.FuzzingFilterFiles _ | Fuzzing.FuzzingClose => true
                 | _ => false
                 end;
  select o := Fuzzing.FuzzingGetFileDetails (Some o);
  rowKey n := Some (Fuzzing.path n)
}.

(** ** Their laws *)

#[export, refine] Instance nodesOverviewLaws CONFIG : TableLaws (TS := nodesOverviewStore CONFIG) := { sound _ := True }.
Proof. all: try done. intros s r _ _. cbn. by repeat eexists. Defined.

#[export, refine] Instance nodesBootstrapLaws desktop : TableLaws (TS := nodesBootstrapStore desktop) := { sound _ := True }.
Proof. all: try done. intros s r _ _. cbn. by repeat eexists. Defined.

#[export, refine] Instance nodeDhtLaws : TableLaws (TS := nodeDhtStore) := { sound _ := True }.
Proof. all: try done. intros s r _ _. cbn. by repeat eexists. Defined.

#[export, refine] Instance connectionsLaws : TableLaws (TS := connectionsStore) := { sound _ := True }.
Proof. all: try done. intros s r _ _. cbn. by repeat eexists. Defined.

#[export, refine] Instance bootstrapStatsLaws : TableLaws (TS := bootstrapStatsStore) := { sound _ := True }.
Proof. all: try done. intros s r _ _. cbn. by repeat eexists. Defined.

#[export, refine] Instance mempoolLaws : TableLaws (TS := mempoolStore) := { sound _ := True }.
Proof. all: try done. intros s r _ _. cbn. by repeat eexists. Defined.

#[export, refine] Instance wonSlotsLaws isDesktop : TableLaws (TS := wonSlotsStore isDesktop) := { sound _ := True }.
Proof. all: try done. intros s r _ _. cbn. by repeat eexists. Defined.

#[export, refine] Instance fuzzingLaws : TableLaws (TS := fuzzingStore) := { sound _ := True }.
Proof. all: try done. intros s r _ _. cbn. by repeat eexists. Defined.

(** The work pool looks the row up by its key, among all jobs: every row shown is
    one of them. *)
Definition rowsAreJobs (s : WorkPools.SnarksWorkPoolState) : Prop :=
  WorkPools.filteredWorkPools s ⊆ WorkPools.workPools s.

Lemma filterWorkPools_subset ws fs l : WorkPools.filterWorkPools ws fs = Ret l -> l ⊆ ws.
Proof.
  unfold WorkPools.filterWorkPools. intros E. repeat case_match; simplify_eq; [done|..];
    intros x Hx; by apply elem_of_list_filter in Hx as [Hx _].
Qed.

#[export, refine] Instance workPoolLaws desktop : TableLaws (TS := workPoolStore desktop) := { sound := rowsAreJobs }.
Proof.
  - intros s a s' Hs E. unfold rowsAreJobs in *. destruct a; cbn in E; simplify_eq; try done.
    + apply exec_bind_Ret in E as (l & El & E). injection E as <-. cbn. apply filterWorkPools_subset in El.
      intros x Hx. apply El in Hx. unfold WorkPools.sortWorkPools in Hx. by rewrite <- sort_perm in Hx.
    + apply exec_bind_Ret in E as (l & El & E). injection E as <-. cbn. by apply filterWorkPools_subset in El.
  - done.
  - intros s r Hs Hr. cbn. destruct (List.find (fun w => bool_decide (WorkPools.id w = WorkPools.id r)) (WorkPools.workPools s)) as [w|] eqn:E.
    + pose proof E as E'. apply find_Some_iff in E' as [_ Ew]. apply bool_decide_eq_true in Ew.
      eexists _, w. split; [reflexivity|]. cbn. split; [done|]. split; [done|]. by rewrite Ew.
    + pose proof (proj1 (find_None_iff _ _) E r (Hs r Hr)) as Hn. cbv beta in Hn. by rewrite bool_decide_true in Hn.
Defined.

(** The address of a connection selects nothing: the table only scrolls to it. *)
Lemma connections_dispatch w a s :
  reduceTable (slice w) a = Ret s -> exists t, dispatch connectionsPolicy w a = Ret (mkPage s t).
Proof.
  intros E. unfold dispatch, round. rewrite E. cbn [mbind exec_bind].
  assert (forall t l, exists t', listenToRows connectionsPolicy t l = (t', [])) as Hl.
  { intros t l. unfold listenToRows. destruct l; [eauto|]. repeat case_match; eauto. }
  unfold subscriptions. cbn [activeFirst connectionsPolicy]. destruct (newRows (slice w) a); [|eauto].
  destruct (Hl (table w) (rowsOf s)) as [t ->]. eauto.
Qed.

Lemma connections_scroll w acts s :
  runM reduceTable (slice w) acts = Ret s -> exists w', runM (dispatch connectionsPolicy) w acts = Ret w' /\ slice w' = s.
Proof.
  revert w. induction acts as [|a acts IH]; intros w E; cbn [runM] in E |- *; [injection E as <-; eauto|].
  destruct (connections_dispatch w a _ eq_refl) as [t ->]. exact (IH (mkPage _ t) E).
Qed.

(** Numbers in the address are read back. *)
Lemma numberId_showZ z : (0 <= z)%Z -> numberId (showZ z) = Some (Some z).
Proof. intros Hz. unfold numberId. by rewrite digitsValue_showZ. Qed.

Lemma truthyText_usable route : route <> "" -> truthyText route = true.
Proof. intros H. unfold truthyText. by rewrite bool_decide_false. Qed.

(** The answer of the won slots that selects no slot. *)
Definition selectsNoSlot (a : WonSlots.BlockProductionWonSlotsActions) : Prop :=
  match a with WonSlots.getSlotsSuccess _ _ active => active = None | _ => True end.

Ltac table_reopens :=
  apply reopens_intro;
  [ reflexivity
  | intros route k r Hne Hk Hr; first [reflexivity | injection Hk as <-; by apply truthyText_usable]
  | first [left; reflexivity | right; reflexivity]
  | intros s a s' Ha Hn Hnew E; destruct a; cbn in *; simplify_eq; try done;
    try (repeat (apply exec_bind_Ret in E as (? & _ & E)); injection E as <-);
    rewrite ?Hn; repeat case_match; cbn; rewrite ?Hn; done ].

(** C21: on the eight tables of the nodes overview, the bootstrap page, the node DHT,
    the bootstrap statistics, the work pool, the mempool, the fuzzing files and the
    won slots, a click on a row that is not active selects it and puts its key into
    the address, and this address, opened on a page without a selection, selects the
    row with that key: with the first rows after the page was opened, when it is among
    them, or at once when the rows are already there; for the won slots unless the
    answer selects a slot itself.  The ninth table, of the connections, writes the
    address but never selects anything for it: whatever arrives, its page is what the
    reducer makes of it. *)
Theorem table_reopens_selection CONFIG desktop :
  Reopens nodesOverviewPolicy (TL := nodesOverviewLaws CONFIG) (fun _ => True) /\
  Reopens nodesBootstrapPolicy (TL := nodesBootstrapLaws desktop) (fun _ => True) /\
  Reopens nodeDhtPolicy (TL := nodeDhtLaws) (fun _ => True) /\
  Reopens bootstrapStatsPolicy (TL := bootstrapStatsLaws) (fun _ => True) /\
  Reopens workPoolPolicy (TL := workPoolLaws desktop) (fun _ => True) /\
  Reopens mempoolPolicy (TL := mempoolLaws) (fun _ => True) /\
  Reopens fuzzingPolicy (TL := fuzzingLaws) (fun _ => True) /\
  Reopens wonSlotsPolicy (TL := wonSlotsLaws desktop) selectsNoSlot /\
  (forall w acts s, runM (reduceTable (TableStore := connectionsStore)) (slice w) acts = Ret s ->
     exists w', runM (dispatch connectionsPolicy) w acts = Ret w' /\ slice w' = s).
Proof.
  split_and!; [table_reopens..|exact connections_scroll].
Qed.

Ltac table_leaves :=
  apply leaves_intro;
  [ reflexivity
  | intros route k Hne Hk; first [reflexivity | injection Hk as <-; by apply truthyText_usable]
  | discriminate ].

(** C22: seven tables leave the selection to the reducer.  On those of the nodes
    overview, the bootstrap page, the node DHT, the bootstrap statistics and the work
    pool the first rows after the page was opened end the lookup of the address,
    whether they contain its row or not, and from then on the page is in every state
    what its reducer makes of the actions, whatever rows arrive.  On that of the
    connections this holds from the beginning.  The table of the fuzzing files keeps
    looking for the row of the address in all rows until they contain it and then
    selects it, whatever file is selected by then. *)
Theorem table_leaves_selection CONFIG desktop :
  Leaves nodesOverviewPolicy (TS := nodesOverviewStore CONFIG) /\
  Leaves nodesBootstrapPolicy (TS := nodesBootstrapStore desktop) /\
  Leaves nodeDhtPolicy (TS := nodeDhtStore) /\
  Leaves bootstrapStatsPolicy (TS := bootstrapStatsStore) /\
  Leaves workPoolPolicy (TS := workPoolStore desktop) /\
  (forall w acts s, runM (reduceTable (TableStore := connectionsStore)) (slice w) acts = Ret s ->
     exists w', runM (dispatch connectionsPolicy) w acts = Ret w' /\ slice w' = s) /\
  KeepsLooking fuzzingPolicy (TL := fuzzingLaws).
Proof.
  split_and!; [table_leaves..|exact connections_scroll|by apply keeps_looking_intro].
Qed.

End Stores.

(** * Examples *)

Definition demoTx (h : string) : Mempool.MempoolTransaction :=
  Mempool.mkTx Mempool.PAYMENT (Some h) "B62q" None None None []
    (Mempool.Zkapp_command (Mempool.mkZkapp "B62q" "1" "0" "")) false false.

Definition demoPool : Mempool.MempoolState :=
  Mempool.mkState [demoTx "5Ja"; demoTx "5Jb"] [demoTx "5Ja"; demoTx "5Jb"] None (Mempool.mkFilters true true true "") false false.

Definition demoMempool : Page (S := Mempool.MempoolState) (R := Mempool.MempoolTransaction) (K := string) :=
  mkPage demoPool (mkTable [demoTx "5Ja"; demoTx "5Jb"] None None []).

Lemma table_jumps_back_witness : exists w2,
  (w1 ← step mempoolPolicy demoMempool (Click 0); step mempoolPolicy w1 (Click 1)) = Ret w2 /\
  (Mempool.activeTx (slice w2) ≫= Mempool.txHash) = Some "5Jb" /\
  exists w3, dispatch mempoolPolicy w2 (Mempool.getTxsSuccess [demoTx "5Jc"; demoTx "5Ja"]) = Ret w3 /\
    (Mempool.activeTx (slice w3) ≫= Mempool.txHash) = Some "5Ja".
Proof.
  destruct (table_jumps_back mempoolPolicy demoMempool 0 1 (demoTx "5Ja") (demoTx "5Jb") "5Ja" "5Jb" true)
    as (w2 & E & Ha & Hback); try reflexivity; [discriminate|].
  exists w2. split; [exact E|]. split; [exact Ha|].
  destruct (Mempool.reducer (slice w2) (Mempool.getTxsSuccess [demoTx "5Jc"; demoTx "5Ja"])) as [s|e] eqn:Er;
    vm_compute in E; injection E as <-; vm_compute in Er; [|discriminate]. injection Er as <-.
  refine (Hback (Mempool.getTxsSuccess [demoTx "5Jc"; demoTx "5Ja"]) _ (demoTx "5Ja") _ _ _ _ _); try reflexivity.
  right. left.
Defined.

Definition demoPeer (i : string) : NodeDht.NetworkNodeDhtPeer :=
  NodeDht.mkPeer i "k" 1 ["a"] "l" "Connected" "0" "0" NodeDht.Dash "f" 0.

Definition demoDht : Page (S := NodeDht.NetworkNodeDhtState) (R := NodeDht.NetworkNodeDhtPeer) (K := string) :=
  mkPage (NodeDht.mkState [demoPeer "p1"; demoPeer "p2"] "k" None [] (-1)%Z)
    (mkTable [demoPeer "p1"; demoPeer "p2"] None None []).

Definition demoAnswer : NodeDht.NetworkNodeDhtActions :=
  NodeDht.NetworkNodeDhtGetPeersSuccess (NodeDht.mkTable [demoPeer "p3"; demoPeer "p2"] "k" []).

Example dht_keeps_selection : exists w',
  runM (dispatch nodeDhtPolicy) demoDht [NodeDht.NetworkNodeDhtSetActivePeer (Some (demoPeer "p2")); demoAnswer] = Ret w' /\
  NodeDht.activePeer (slice w') = Some (demoPeer "p2").
Proof. eexists. split; reflexivity. Qed.

End RouteTables.
