(* ===== verification/LedgerDevice.v ===== *)
(** The hardware wallet (frontend/src/app/shared/helpers/ledger.helper.ts): the
    message that asks the Mina app of the device to sign a transaction, the checks
    before it and the answers of the device. *)

From S2P Require Import Prelude JsRuntime Mempool.

Module LedgerDevice.
Import Mempool.

(** * Numbers in hexadecimal text *)

Definition hexChar (d : N) : Ascii.ascii := hexDigit (Z.of_N d).

(** [n.toString(16)]: the digits before [acc]; the fuel is the number of binary
    digits. *)
Fixpoint hexGo (fuel : nat) (n : N) (acc : string) : string :=
  match fuel with
  | O => acc
  | S fuel =>
      let acc := String (hexChar (n mod 16)) acc in
      if (n / 16 =? 0)%N then acc else hexGo fuel (n / 16) acc
  end.
Definition hexOfN (n : N) : string := hexGo (S (N.size_nat n)) n EmptyString.
Definition toString16 (z : Z) : string :=
  if (z <? 0)%Z then "-" +:+ hexOfN (Z.to_N (- z)) else hexOfN (Z.to_N z).

Fixpoint toUpperHex (s : string) : string :=
  match s with
  | EmptyString => EmptyString
  | String c s => String (if inRange 97 122 c then Ascii.ascii_of_nat (Ascii.nat_of_ascii c - 32) else c) (toUpperHex s)
  end.

(** [s.slice(n)] *)
Fixpoint sliceStr (n : nat) (s : string) : string :=
  match n, s with S n, String _ s => sliceStr n s | _, _ => s end.

(** [pad(n, width)] with zeros: the last [width] characters of the padded text. *)
Definition pad (s : string) (width : nat) : string := sliceStr (String.length s) (zeros width +:+ s).

(** * Text in bytes *)

(** A memo is a list of Unicode code points; [length] counts UTF-16 units. *)
Definition utf16Length (memo : list Z) : nat := sum_list_with (fun c => if (c <? 65536)%Z then 1 else 2) memo.

Definition asciiToHex (str : string) : string := toHexString (bytesOf str).

(** Zeros up to 32 units are added before the text is encoded. *)
Definition memoBytes (memo : list Z) : list Z := concat (utf8 <$> (memo ++ replicate (32 - utf16Length memo) 0%Z)).
Definition convertMemo (memo : list Z) : string := toHexString (memoBytes memo).

(** * Data *)

(** Numbers that may be NaN; those written in hexadecimal are whole. *)
Record SignTransactionArgs := mkArgs {
  txType : option Z;
  senderAccount : option Z;
  senderAddress : string;
  receiverAddress : string;
  amount : option Q;
  fee : option Q;
  nonce : option Z;
  validUntil : Z;
  memo : list Z;
  networkId : option Z
}.

Definition isInteger (q : option Q) : bool :=
  match q with Some q => (Qnum q mod Z.pos (Qden q) =? 0)%Z | None => false end.
Definition wholeOf (q : option Q) : Z := match q with Some q => (Qnum q / Z.pos (Qden q))%Z | None => 0%Z end.
Definition wholeOr0 (z : option Z) : Z := default 0%Z z.

Definition createTXApdu (a : SignTransactionArgs) : string :=
  pad (toString16 (wholeOr0 (senderAccount a))) 8 +:+
  asciiToHex (senderAddress a) +:+
  asciiToHex (receiverAddress a) +:+
  pad (toString16 (wholeOf (amount a))) 16 +:+
  pad (toString16 (wholeOf (fee a))) 16 +:+
  pad (toUpperHex (toString16 (wholeOr0 (nonce a)))) 8 +:+
  pad (toString16 (validUntil a)) 8 +:+
  convertMemo (memo a) +:+
  pad (toString16 (wholeOr0 (txType a))) 2 +:+
  pad (showZ (wholeOr0 (networkId a))) 2.

(** [Buffer.from(s, 'hex')]: reading stops at the first pair that is not two
    hexadecimal digits. *)
Definition hexValue (c : Ascii.ascii) : option Z :=
  let n := Z.of_nat (Ascii.nat_of_ascii c) in
  if inRange 48 57 c then Some (n - 48)%Z
  else if inRange 97 102 c then Some (n - 87)%Z
  else if inRange 65 70 c then Some (n - 55)%Z
  else None.
Fixpoint bufferFromHex (s : string) : list Z :=
  match s with
  | String a (String b s) =>
      match hexValue a, hexValue b with
      | Some x, Some y => (16 * x + y)%Z :: bufferFromHex s
      | _, _ => []
      end
  | _ => []
  end.

(** * The device *)

(** The answer of [transport.send]: bytes, or an exception with its fields. *)
Record TransportError := mkTransportError { statusCode : option Z; errMessage : option string; errStatusText : option string }.
Inductive Sent := Response (bytes : list Z) | Failed (e : TransportError).

Record LedgerResponse := mkResponse {
  value : option string;
  returnCode : string;
  message : option string;
  statusText : option string
}.

Definition errorResponse (code msg status : string) : LedgerResponse := mkResponse None code (Some msg) (Some status).

(** [buffer.slice(a, b)]: a negative index counts from the end. *)
Definition bufferIndex {A} (l : list A) (i : Z) : nat :=
  if (i <? 0)%Z then Z.to_nat (Z.of_nat (length l) + i) else Nat.min (Z.to_nat i) (length l).
Definition bufferSlice {A} (l : list A) (a b : Z) : list A :=
  take (bufferIndex l b - bufferIndex l a) (drop (bufferIndex l a) l).
Definition dropEnd {A} (n : Z) (l : list A) : list A := bufferSlice l 0 (Z.of_nat (length l) - n).
Definition lastBytes (n : Z) (l : list Z) : list Z :=
  bufferSlice l (Z.of_nat (length l) - n) (Z.of_nat (length l)).

Definition SW_OK : string := "9000".
Definition SW_CANCEL : string := "6986".

(** The text of bytes below 128. *)
Definition textOfBytes (l : list Z) : string :=
  String.string_of_list_ascii ((fun b => Ascii.ascii_of_N (Z.to_N b)) <$> l).

Definition truthyQ (q : option Q) : bool := match q with Some q => negb (Qeq_bool q 0) | None => false end.
Definition PAYMENT_TYPE : Z := 0.

Definition missingArguments (a : SignTransactionArgs) : bool :=
  bool_decide (txType a = None) || bool_decide (senderAccount a = None) ||
  negb (truthyStr (Some (senderAddress a))) || negb (truthyStr (Some (receiverAddress a))) ||
  (negb (truthyQ (amount a)) && bool_decide (txType a = Some PAYMENT_TYPE)) || negb (truthyQ (fee a)) ||
  negb (isInteger (amount a)) || negb (isInteger (fee a)) || bool_decide (nonce a = None) ||
  bool_decide (networkId a = None).

(** What is decided before the device is asked: an answer, or the bytes to send. *)
Definition prepareSign (a : SignTransactionArgs) : LedgerResponse + list Z :=
  if missingArguments a then inl (errorResponse "-1" "Missing or wrong arguments" "MISSING_ARGUMENTS")
  else if 32 <? utf16Length (memo a) then inl (errorResponse "-3" "Memo field too long" "MEMO_TOO_BIG")
  else if (wholeOf (fee a) <? 1000000)%Z then inl (errorResponse "-4" "Fee too small" "FEE_TOO_SMALL")
  else
    let apduBuffer := bufferFromHex (createTXApdu a) in
    if 256 <? length apduBuffer then inl (errorResponse "-2" "data length > 256 bytes" "DATA_TOO_BIG")
    else inr apduBuffer.

Definition signTransaction (send : list Z -> Sent) (a : SignTransactionArgs) : exec LedgerResponse :=
  match prepareSign a with
  | inl r => Ret r
  | inr apduBuffer =>
      match send apduBuffer with
      | Response r => Ret (mkResponse (Some (toHexString (dropEnd 2 r))) (toHexString (lastBytes 2 r)) None None)
      | Failed e =>
          match statusCode e with
          | Some c => Ret (mkResponse None (showZ c) (errMessage e) (errStatusText e))
          | None => Throw (TypeError "Cannot read properties of undefined (reading 'toString')")
          end
      end
  end.

(** [any(e).statusCode?.toString() || '5000'] *)
Definition codeOr5000 (c : option Z) : string := match c with Some z => showZ z | None => "5000" end.

Definition getAddress (send : list Z -> Sent) (account : option Q) : LedgerResponse :=
  if negb (isInteger account) then errorResponse "-5" "Account number must be Int" "ACCOUNT_NOT_INT"
  else
    match send (bufferFromHex (pad (toString16 (wholeOf account)) 8)) with
    | Response r =>
        let code := toHexString (lastBytes 2 r) in
        if String.eqb code SW_OK then mkResponse (Some (textOfBytes (dropEnd 3 r))) code None None
        else mkResponse None code (Some "unknown error") (Some "UNKNOWN_ERROR")
    | Failed e => mkResponse None "5000" (errMessage e) (errStatusText e)
    end.

Definition charText (s : string) (i : nat) : string :=
  match String.get i s with Some c => String c EmptyString | None => "undefined" end.

Definition getAppVersion (sent : Sent) : LedgerResponse :=
  match sent with
  | Response r =>
      let versionRaw := toHexString (dropEnd 2 r) in
      mkResponse (Some (charText versionRaw 1 +:+ "." +:+ charText versionRaw 2 +:+ "." +:+ charText versionRaw 3))
        (toHexString (lastBytes 2 r)) None None
  | Failed e => mkResponse None (codeOr5000 (statusCode e)) (errMessage e) (errStatusText e)
  end.

(** [response.indexOf(5)] *)
Definition indexOf5 (l : list Z) : Z :=
  match findIndex (fun b => b =? 5)%Z l with Some i => Z.of_nat i | None => (-1)%Z end.

Definition getAppName (sent : Sent) : LedgerResponse * option string :=
  match sent with
  | Response r =>
      let sep := indexOf5 r in
      (mkResponse (Some (textOfBytes (bufferSlice r (sep + 1) (Z.of_nat (length r) - 4)))) (toHexString (lastBytes 2 r)) None None,
       Some (textOfBytes (bufferSlice r 2 sep)))
  | Failed e => (mkResponse None (codeOr5000 (statusCode e)) (errMessage e) (errStatusText e), None)
  end.

(** [BigInt('0x' + s)] *)
Fixpoint hexNumber (acc : Z) (s : string) : option Z :=
  match s with
  | EmptyString => Some acc
  | String c s => d ← hexValue c; hexNumber (16 * acc + d) s
  end.

Fixpoint firstChars (n : nat) (s : string) : string :=
  match n, s with S n, String c s => String c (firstChars n s) | _, _ => EmptyString end.

(** [None] stands for the SyntaxError of [BigInt]; an empty text is refused too. *)
Definition bigHex (s : string) : option Z := match s with EmptyString => None | _ => hexNumber 0 s end.
Definition getScalarFromSignature (signature : string) : option string := showZ <$> bigHex (sliceStr 64 signature).
Definition getFieldFromSignature (signature : string) : option string := showZ <$> bigHex (firstChars 64 signature).

(** * Theorems *)

(** ** Text *)

Lemma length_sapp a b : String.length (a +:+ b) = String.length a + String.length b.
Proof. induction a as [|c a IH]; [done|]. change (S (String.length (a +:+ b)) = S (String.length a + String.length b)). by rewrite IH. Qed.

Lemma sapp_cons c a b : String c a +:+ b = String c (a +:+ b).
Proof. done. Qed.

Lemma sapp_assoc a b c : (a +:+ b) +:+ c = a +:+ (b +:+ c).
Proof. induction a as [|x a IH]; [done|]. by rewrite !sapp_cons, IH. Qed.

Lemma sliceStr_app a b : sliceStr (String.length a) (a +:+ b) = b.
Proof. induction a as [|c a IH]; [by destruct b|]. rewrite sapp_cons. exact IH. Qed.

Lemma length_sliceStr n s : String.length (sliceStr n s) = String.length s - n.
Proof. revert s. induction n as [|n IH]; intros [|c s]; cbn; done || apply IH. Qed.

Lemma zeros_length n : String.length (zeros n) = n.
Proof. induction n as [|n IH]; [done|]. cbn. by rewrite IH. Qed.

Lemma zeros_add n m : zeros (n + m) = zeros n +:+ zeros m.
Proof. induction n as [|n IH]; [done|]. cbn [Nat.add zeros]. by rewrite sapp_cons, IH. Qed.

Lemma pad_length s w : String.length (pad s w) = w.
Proof. unfold pad. rewrite length_sliceStr, length_sapp, zeros_length. lia. Qed.

Lemma pad_zeros s w : String.length s <= w -> pad s w = zeros (w - String.length s) +:+ s.
Proof.
  intros Hs. unfold pad. replace w with (String.length s + (w - String.length s)) at 1 by lia.
  rewrite zeros_add, sapp_assoc. rewrite <- (zeros_length (String.length s)) at 1. apply sliceStr_app.
Qed.

(** ** Hexadecimal numbers *)

Lemma hexValue_hexDigit d : (0 <= d < 16)%Z -> hexValue (hexDigit d) = Some d.
Proof.
  intros Hd. assert (d ∈ seqZ 0 16) as Hin by (apply elem_of_seqZ; lia). revert d Hin Hd.
  apply (Forall_forall (fun d => (0 <= d < 16)%Z -> hexValue (hexDigit d) = Some d)).
  repeat constructor.
Qed.

Lemma hexNumber_hexGo fuel n acc : (n < 16 ^ N.of_nat fuel)%N ->
  hexNumber 0 (hexGo fuel n acc) = hexNumber (Z.of_N n) acc.
Proof.
  revert n acc. induction fuel as [|fuel IH]; intros n acc Hn.
  { cbn in Hn. replace n with 0%N by lia. done. }
  assert (0 <= Z.of_N (n mod 16) < 16)%Z as Hd.
  { split; [apply N2Z.is_nonneg|]. change 16%Z with (Z.of_N 16). rewrite <- N2Z.inj_lt. by apply N.mod_lt. }
  rewrite Nat2N.inj_succ, N.pow_succ_r' in Hn. cbn [hexGo].
  assert (forall a, hexNumber a (String (hexChar (n mod 16)) acc) = hexNumber (16 * a + Z.of_N (n mod 16)) acc) as Hstep.
  { intros a. cbn [hexNumber]. unfold hexChar. by rewrite hexValue_hexDigit. }
  assert (n = 16 * (n / 16) + n mod 16)%N as Hdm by (by apply N.div_mod).
  destruct (N.eqb_spec (n / 16) 0) as [E|E].
  - rewrite Hstep. f_equal. lia.
  - rewrite IH by (apply N.Div0.div_lt_upper_bound; lia). rewrite Hstep. f_equal. lia.
Qed.

Lemma hexNumber_hexOfN n : hexNumber 0 (hexOfN n) = Some (Z.of_N n).
Proof.
  unfold hexOfN. rewrite hexNumber_hexGo; [done|]. rewrite Nat2N.inj_succ.
  eapply N.lt_le_trans; [apply N.size_gt|].
  replace (N.of_nat (N.size_nat n)) with (N.size n) by (destruct n as [|p]; [done|]; cbn; induction p; cbn; lia).
  change 16%N with (2 ^ 4)%N. rewrite <- N.pow_mul_r. apply N.pow_le_mono_r; lia.
Qed.

Lemma hexGo_length fuel n k acc : (n < 16 ^ N.of_nat k)%N -> 0 < k ->
  String.length (hexGo fuel n acc) <= k + String.length acc.
Proof.
  revert n k acc. induction fuel as [|fuel IH]; intros n k acc Hn Hk; cbn [hexGo]; [lia|].
  destruct (N.eqb_spec (n / 16) 0) as [E|E]; [cbn; lia|].
  destruct k as [|[|k]]; [lia| |].
  - exfalso. apply E. apply N.div_small. cbn in Hn. lia.
  - etrans; [apply (IH _ (S k))|cbn; lia]; [|lia]. apply N.Div0.div_lt_upper_bound.
    rewrite (Nat2N.inj_succ (S k)), N.pow_succ_r' in Hn. lia.
Qed.

Lemma toString16_nonneg z : (0 <= z)%Z -> toString16 z = hexOfN (Z.to_N z).
Proof. intros Hz. unfold toString16. destruct (Z.ltb_spec z 0); [lia|done]. Qed.

Lemma toString16_length z k : (0 <= z < 16 ^ Z.of_nat k)%Z -> 0 < k -> String.length (toString16 z) <= k.
Proof.
  intros Hz Hk. rewrite toString16_nonneg by lia. etrans; [apply (hexGo_length _ _ k)|cbn; lia]; [|done].
  apply N2Z.inj_lt. rewrite N2Z.inj_pow, nat_N_Z, Z2N.id by lia. apply Hz.
Qed.

Lemma hexNumber_zeros k s : hexNumber 0 (zeros k +:+ s) = hexNumber 0 s.
Proof. induction k as [|k IH]; [done|]. cbn [zeros]. rewrite sapp_cons. exact IH. Qed.

Lemma hexValue_upper c :
  hexValue (if inRange 97 122 c then Ascii.ascii_of_nat (Ascii.nat_of_ascii c - 32) else c) = hexValue c.
Proof. destruct c as [[] [] [] [] [] [] [] []]; reflexivity. Qed.

Lemma hexNumber_upper s a : hexNumber a (toUpperHex s) = hexNumber a s.
Proof.
  revert a. induction s as [|c s IH]; intros a; [done|]. cbn [toUpperHex hexNumber]. rewrite hexValue_upper.
  destruct (hexValue c); [apply IH|done].
Qed.

Lemma toUpperHex_length s : String.length (toUpperHex s) = String.length s.
Proof. induction s as [|c s IH]; [done|]. cbn. by rewrite IH. Qed.

(** A number that fits its field is read back from it. *)
Lemma read_padded z k : (0 <= z < 16 ^ Z.of_nat k)%Z -> 0 < k -> hexNumber 0 (pad (toString16 z) k) = Some z.
Proof.
  intros Hz Hk. rewrite pad_zeros by by apply toString16_length. rewrite hexNumber_zeros, toString16_nonneg by lia.
  rewrite hexNumber_hexOfN. f_equal. lia.
Qed.

Lemma read_padded_upper z k : (0 <= z < 16 ^ Z.of_nat k)%Z -> 0 < k ->
  hexNumber 0 (pad (toUpperHex (toString16 z)) k) = Some z.
Proof.
  intros Hz Hk. rewrite pad_zeros by (rewrite toUpperHex_length; by apply toString16_length).
  rewrite hexNumber_zeros, hexNumber_upper, toString16_nonneg by lia. rewrite hexNumber_hexOfN. f_equal. lia.
Qed.

(** ** Bytes *)

Definition isByte (b : Z) : Prop := (0 <= b < 256)%Z.

Lemma bufferFromHex_toHexString bs s : Forall isByte bs ->
  bufferFromHex (toHexString bs +:+ s) = bs ++ bufferFromHex s.
Proof.
  induction bs as [|b bs IH]; intros Hb; [done|]. apply Forall_cons in Hb as [Hb Hbs]. unfold isByte in Hb.
  cbn [toHexString]. rewrite !sapp_cons. cbn [bufferFromHex].
  assert (Z.land b 255 = b) as ->.
  { change 255%Z with (Z.ones 8). rewrite Z.land_ones by lia. apply Z.mod_small. lia. }
  assert (0 <= b / 16 < 16)%Z by (split; [apply Z.div_pos|apply Z.div_lt_upper_bound]; lia).
  pose proof (Z.mod_pos_bound b 16 ltac:(lia)). rewrite !hexValue_hexDigit by done. rewrite IH by done. cbn. f_equal.
  pose proof (Z.div_mod b 16). lia.
Qed.

Lemma sapp_nil s : s +:+ "" = s.
Proof. induction s as [|c s IH]; [done|]. by rewrite sapp_cons, IH. Qed.

Lemma bufferFromHex_bytes bs : Forall isByte bs -> bufferFromHex (toHexString bs) = bs.
Proof. intros Hb. rewrite <- (sapp_nil (toHexString bs)), bufferFromHex_toHexString by done. apply app_nil_r. Qed.

Lemma toHexString_length bs : String.length (toHexString bs) = 2 * length bs.
Proof. induction bs as [|b bs IH]; [done|]. cbn [toHexString String.length length]. rewrite IH. lia. Qed.

Lemma bytesOf_isByte s : Forall isByte (bytesOf s).
Proof.
  apply Forall_fmap, Forall_forall. intros c _. unfold isByte. cbn. pose proof (Ascii.N_ascii_bounded c). lia.
Qed.

Lemma bytesOf_length s : length (bytesOf s) = String.length s.
Proof. unfold bytesOf. rewrite length_fmap. induction s as [|c s IH]; [done|]. cbn. by rewrite IH. Qed.

Lemma textOfBytes_bytesOf s : textOfBytes (bytesOf s) = s.
Proof.
  unfold textOfBytes, bytesOf. rewrite <- list_fmap_compose.
  rewrite (list_fmap_ext _ id).
  - rewrite list_fmap_id. apply String.string_of_list_ascii_of_string.
  - intros i c _. cbn. by rewrite N2Z.id, Ascii.ascii_N_embedding.
Qed.

(** ** The memo *)

Definition isAscii (c : Z) : Prop := (0 <= c < 128)%Z.

Lemma utf8_length memo : utf16Length memo <= length (concat (utf8 <$> memo)) /\
  (length (concat (utf8 <$> memo)) = utf16Length memo <-> Forall (fun c => (c < 128)%Z) memo).
Proof.
  induction memo as [|c memo [IH1 IH2]]; [done|]. rewrite Forall_cons. cbn [fmap list_fmap concat]. rewrite length_app.
  change (utf16Length (c :: memo)) with ((if (c <? 65536)%Z then 1 else 2) + utf16Length memo).
  destruct (utf8_units c) as [H1 H2]. rewrite <- IH2, <- H2. lia.
Qed.

Lemma utf8_zeros n : concat (utf8 <$> replicate n 0%Z) = replicate n 0%Z.
Proof. induction n as [|n IH]; [done|]. cbn. by rewrite IH. Qed.

Lemma memoBytes_app memo : memoBytes memo = concat (utf8 <$> memo) ++ replicate (32 - utf16Length memo) 0%Z.
Proof. unfold memoBytes. by rewrite fmap_app, concat_app, utf8_zeros. Qed.

(** The memo takes 32 bytes exactly when all its characters are ASCII. *)
Lemma memoBytes_length memo : utf16Length memo <= 32 ->
  32 <= length (memoBytes memo) /\ (length (memoBytes memo) = 32 <-> Forall (fun c => (c < 128)%Z) memo).
Proof.
  intros Hm. destruct (utf8_length memo) as [H1 H2]. rewrite memoBytes_app, length_app, length_replicate, <- H2. lia.
Qed.

Lemma memoBytes_ascii memo : Forall isAscii memo -> memoBytes memo = memo ++ replicate (32 - length memo) 0%Z.
Proof.
  intros Ha. rewrite memoBytes_app.
  assert (concat (utf8 <$> memo) = memo /\ utf16Length memo = length memo) as [-> ->]; [|done].
  induction Ha as [|c memo Hc Ha [IH1 IH2]]; [done|]. unfold isAscii in Hc. cbn [fmap list_fmap concat].
  assert (utf8 c = [c]) as -> by (unfold utf8; destruct (Z.ltb_spec c 128); [done|lia]).
  rewrite IH1. split; [done|]. change (utf16Length (c :: memo)) with ((if (c <? 65536)%Z then 1 else 2) + utf16Length memo).
  rewrite IH2. destruct (Z.ltb_spec c 65536); [done|lia].
Qed.

(** ** The message *)

(** How the device reads the message: fields of fixed width. *)
Definition takeStr (n : nat) (s : string) : option (string * string) :=
  if n <=? String.length s then Some (firstChars n s, sliceStr n s) else None.

Record ApduFields := mkFields {
  aAccount : Z; aSender : string; aReceiver : string; aAmount : Z; aFee : Z; aNonce : Z; aValidUntil : Z;
  aMemo : list Z; aTag : Z; aNetwork : Z }.

Definition readApdu (s : string) : option ApduFields :=
  '(f1, s) ← takeStr 8 s; '(f2, s) ← takeStr 110 s; '(f3, s) ← takeStr 110 s; '(f4, s) ← takeStr 16 s;
  '(f5, s) ← takeStr 16 s; '(f6, s) ← takeStr 8 s; '(f7, s) ← takeStr 8 s; '(f8, s) ← takeStr 64 s;
  '(f9, s) ← takeStr 2 s; '(f10, s) ← takeStr 2 s;
  if bool_decide (s = EmptyString) then
    v1 ← hexNumber 0 f1; v4 ← hexNumber 0 f4; v5 ← hexNumber 0 f5; v6 ← hexNumber 0 f6; v7 ← hexNumber 0 f7;
    v9 ← hexNumber 0 f9; v10 ← hexNumber 0 f10;
    Some (mkFields v1 (textOfBytes (bufferFromHex f2)) (textOfBytes (bufferFromHex f3)) v4 v5 v6 v7 (bufferFromHex f8) v9 v10)
  else None.

Lemma firstChars_app a b : firstChars (String.length a) (a +:+ b) = a.
Proof. induction a as [|c a IH]; [by destruct b|]. rewrite sapp_cons. cbn. by rewrite IH. Qed.

Lemma takeStr_app n a b : String.length a = n -> takeStr n (a +:+ b) = Some (a, b).
Proof.
  intros <-. unfold takeStr. rewrite length_sapp.
  destruct (Nat.leb_spec (String.length a) (String.length a + String.length b)); [|lia].
  by rewrite firstChars_app, sliceStr_app.
Qed.

(** Arguments that fit the fields: an address has 55 characters. *)
Record fits (a : SignTransactionArgs) (f : ApduFields) : Prop := {
  fit_account : senderAccount a = Some (aAccount f) /\ (0 <= aAccount f < 16 ^ 8)%Z;
  fit_sender : senderAddress a = aSender f /\ String.length (aSender f) = 55;
  fit_receiver : receiverAddress a = aReceiver f /\ String.length (aReceiver f) = 55;
  fit_amount : isInteger (amount a) = true /\ wholeOf (amount a) = aAmount f /\ (0 <= aAmount f < 16 ^ 16)%Z;
  fit_fee : isInteger (fee a) = true /\ wholeOf (fee a) = aFee f /\ (0 <= aFee f < 16 ^ 16)%Z;
  fit_nonce : nonce a = Some (aNonce f) /\ (0 <= aNonce f < 16 ^ 8)%Z;
  fit_validUntil : validUntil a = aValidUntil f /\ (0 <= aValidUntil f < 16 ^ 8)%Z;
  fit_memo : aMemo f = memo a ++ replicate (32 - length (memo a)) 0%Z /\ Forall isAscii (memo a) /\ length (memo a) <= 32;
  fit_tag : txType a = Some (aTag f) /\ (0 <= aTag f < 16 ^ 2)%Z;
  fit_network : networkId a = Some (aNetwork f) /\ (0 <= aNetwork f < 10)%Z
}.

Lemma asciiToHex_length s : String.length (asciiToHex s) = 2 * String.length s.
Proof. unfold asciiToHex. by rewrite toHexString_length, bytesOf_length. Qed.

Lemma read_address s : textOfBytes (bufferFromHex (asciiToHex s)) = s.
Proof.
  unfold asciiToHex. rewrite bufferFromHex_bytes by apply bytesOf_isByte. apply textOfBytes_bytesOf.
Qed.

Lemma ascii_bytes memo n : Forall isAscii memo -> Forall isByte (memo ++ replicate n 0%Z).
Proof.
  intros Ha. apply Forall_app. split; [|by apply Forall_replicate].
  eapply Forall_impl; [exact Ha|]. unfold isAscii, isByte. intros; lia.
Qed.

Lemma read_network z : (0 <= z < 10)%Z -> hexNumber 0 (pad (showZ z) 2) = Some z.
Proof.
  intros Hz. assert (z ∈ seqZ 0 10) as Hin by (apply elem_of_seqZ; lia). revert z Hin Hz.
  apply (Forall_forall (fun z => (0 <= z < 10)%Z -> hexNumber 0 (pad (showZ z) 2) = Some z)).
  repeat constructor.
Qed.

Lemma convertMemo_length a : utf16Length (memo a) <= 32 -> Forall (fun c => (c < 128)%Z) (memo a) ->
  String.length (convertMemo (memo a)) = 64.
Proof.
  intros Hm Ha. unfold convertMemo. rewrite toHexString_length.
  destruct (memoBytes_length (memo a) Hm) as [_ H]. apply H in Ha. lia.
Qed.

Lemma utf16Length_ascii memo : Forall isAscii memo -> utf16Length memo = length memo.
Proof.
  induction 1 as [|c memo Hc Ha IH]; [done|]. unfold isAscii in Hc.
  change (utf16Length (c :: memo)) with ((if (c <? 65536)%Z then 1 else 2) + utf16Length memo).
  rewrite IH. destruct (Z.ltb_spec c 65536); [done|lia].
Qed.

Lemma createTXApdu_length a : String.length (createTXApdu a) =
  60 + 2 * String.length (senderAddress a) + 2 * String.length (receiverAddress a) + 2 * length (memoBytes (memo a)).
Proof.
  unfold createTXApdu, convertMemo. rewrite !length_sapp, !pad_length, !asciiToHex_length, toHexString_length. lia.
Qed.

Lemma fits_length a f : fits a f -> String.length (createTXApdu a) = 344.
Proof.
  intros [_ [E2 R2] [E3 R3] _ _ _ _ (E8 & A8 & R8) _ _].
  rewrite createTXApdu_length, memoBytes_ascii, length_app, length_replicate, E2, E3 by done. lia.
Qed.

(** C2: the message to sign, read by the fixed fields of the device, gives back
    every argument that fits its field: the account, both addresses, the amount,
    the fee, the nonce, the last valid slot, the memo padded to 32 bytes, the kind
    of transaction and the network. *)
Theorem ledger_message_round_trip a f : fits a f ->
  String.length (createTXApdu a) = 344 /\ readApdu (createTXApdu a) = Some f.
Proof.
  intros Hf. split; [by eapply fits_length|].
  destruct Hf as [[E1 R1] [E2 R2] [E3 R3] (_ & E4 & R4) (_ & E5 & R5) [E6 R6] [E7 R7] (E8 & A8 & R8) [E9 R9] [E10 R10]].
  assert (memoBytes (memo a) = aMemo f) as Hm by (rewrite E8; by apply memoBytes_ascii).
  assert (length (aMemo f) = 32) as Hl by (rewrite E8, length_app, length_replicate; lia).
  unfold readApdu, createTXApdu. rewrite E1, E4, E5, E6, E9, E10. cbn [wholeOr0 default from_option id].
  rewrite takeStr_app by apply pad_length. cbn [mbind option_bind].
  rewrite takeStr_app by (rewrite asciiToHex_length, E2; lia). cbn [mbind option_bind].
  rewrite takeStr_app by (rewrite asciiToHex_length, E3; lia). cbn [mbind option_bind].
  do 4 (rewrite takeStr_app by apply pad_length; cbn [mbind option_bind]).
  rewrite takeStr_app by (unfold convertMemo; rewrite toHexString_length, Hm; lia). cbn [mbind option_bind].
  rewrite takeStr_app by apply pad_length. cbn [mbind option_bind].
  rewrite <- (sapp_nil (pad (showZ (aNetwork f)) 2)). rewrite takeStr_app by apply pad_length. cbn [mbind option_bind].
  rewrite bool_decide_eq_true_2 by done. rewrite E7.
  rewrite !read_padded, read_padded_upper, read_network, !read_address by (lia || done). cbn [mbind option_bind].
  unfold convertMemo. rewrite Hm, bufferFromHex_bytes by (rewrite E8; by apply ascii_bytes).
  rewrite E2, E3. by destruct f.
Qed.

(** ** Signing *)

Fixpoint allChars (p : Ascii.ascii -> bool) (s : string) : bool :=
  match s with EmptyString => true | String c s => p c && allChars p s end.

Definition allHex (s : string) : Prop := allChars (fun c => match hexValue c with Some _ => true | None => false end) s = true.

Lemma bufferFromHex_length s n : allHex s -> String.length s = 2 * n -> length (bufferFromHex s) = n.
Proof.
  revert s. induction n as [|n IH]; intros s Hs Hl; [by destruct s|].
  destruct s as [|a [|b s]]; cbn [String.length] in Hl; [lia|lia|]. unfold allHex in Hs. cbn [allChars] in Hs.
  apply andb_true_iff in Hs as [Ha Hs]. apply andb_true_iff in Hs as [Hb Hs].
  cbn [bufferFromHex]. destruct (hexValue a), (hexValue b); try done. cbn. f_equal. apply IH; [done|]. lia.
Qed.

Lemma hexNumber_allHex s a z : hexNumber a s = Some z -> allHex s.
Proof.
  revert a. induction s as [|c s IH]; intros a; [done|]. cbn [hexNumber]. unfold allHex. cbn [allChars].
  destruct (hexValue c) as [d|]; [|done]. cbn. apply IH.
Qed.

Lemma allHex_app a b : allHex a -> allHex b -> allHex (a +:+ b).
Proof.
  unfold allHex. induction a as [|c a IH]; [done|]. rewrite sapp_cons. cbn [allChars].
  intros [Hc Ha]%andb_true_iff Hb. apply andb_true_iff. auto.
Qed.

Lemma toHexString_allHex bs : Forall isByte bs -> allHex (toHexString bs).
Proof.
  unfold allHex. induction 1 as [|b bs Hb Hbs IH]; [done|]. unfold isByte in Hb. cbn [toHexString allChars].
  assert (Z.land b 255 = b) as ->.
  { change 255%Z with (Z.ones 8). rewrite Z.land_ones by lia. apply Z.mod_small. lia. }
  assert (0 <= b / 16 < 16)%Z by (split; [apply Z.div_pos|apply Z.div_lt_upper_bound]; lia).
  pose proof (Z.mod_pos_bound b 16 ltac:(lia)). by rewrite !hexValue_hexDigit.
Qed.

Lemma createTXApdu_allHex a f : fits a f -> allHex (createTXApdu a).
Proof.
  intros [[E1 R1] _ _ (_ & E4 & R4) (_ & E5 & R5) [E6 R6] [E7 R7] (E8 & A8 & R8) [E9 R9] [E10 R10]].
  unfold createTXApdu. rewrite E1, E4, E5, E6, E7, E9, E10. cbn [wholeOr0 default from_option id].
  repeat apply allHex_app;
    try (eapply hexNumber_allHex; first [by apply read_padded; [lia|lia] | by apply read_padded_upper; [lia|lia] | by apply read_network]);
    try (apply toHexString_allHex, bytesOf_isByte).
  unfold convertMemo. apply toHexString_allHex. rewrite memoBytes_ascii by done. by apply ascii_bytes.
Qed.

(** What [signTransaction] answers once the device was asked. *)
Definition deviceAnswer (r : Sent) : exec LedgerResponse :=
  match r with
  | Response r => Ret (mkResponse (Some (toHexString (dropEnd 2 r))) (toHexString (lastBytes 2 r)) None None)
  | Failed (mkTransportError (Some c) m t) => Ret (mkResponse None (showZ c) m t)
  | Failed _ => Throw (TypeError "Cannot read properties of undefined (reading 'toString')")
  end.

Lemma fits_not_missing a f : fits a f -> (0 < aAmount f)%Z \/ aTag f <> PAYMENT_TYPE -> (0 < aFee f)%Z ->
  missingArguments a = false.
Proof.
  intros [[E1 R1] [E2 R2] [E3 R3] (I4 & E4 & R4) (I5 & E5 & R5) [E6 R6] _ _ [E9 R9] [E10 R10]] Ha Hf.
  assert (forall q z, isInteger q = true -> wholeOf q = z -> (0 < z)%Z -> truthyQ q = true) as Ht.
  { intros [q|] z Hi Hw Hz; [|done]. cbn in *. apply negb_true_iff, not_true_is_false. rewrite Qeq_bool_iff.
    intros Hq. unfold Qeq in Hq. cbn in Hq. rewrite Z.mul_1_r in Hq. rewrite Hq in Hw. rewrite Z.div_0_l in Hw by lia. lia. }
  assert (forall t : string, String.length t = 55 -> truthyStr (Some t) = true) as Hs by (by intros [|]).
  unfold missingArguments. rewrite E1, E2, E3, E6, E9, E10, I4, I5.
  rewrite (Hs _ R2), (Hs _ R3), (Ht _ _ I5 E5 Hf). repeat rewrite (bool_decide_eq_false_2 (Some _ = None)) by done. cbn.
  destruct Ha as [Ha|Ha]; [by rewrite (Ht _ _ I4 E4 Ha)|]. rewrite bool_decide_eq_false_2 by congruence.
  by rewrite andb_false_r.
Qed.

(** With arguments that fit their fields, a fee of at least a million and an
    amount unless it is a delegation, signing always asks the device, with exactly
    172 bytes, so the message is never too big; it answers with the signature and
    the code of the device or with its error, and throws only when the error of
    the transport has no status code. *)
Theorem ledger_sign_asks_device send a f :
  fits a f -> (1000000 <= aFee f)%Z -> (0 < aAmount f)%Z \/ aTag f <> PAYMENT_TYPE ->
  exists bytes, prepareSign a = inr bytes /\ length bytes = 172 /\ bytes = bufferFromHex (createTXApdu a) /\
    signTransaction send a = deviceAnswer (send bytes) /\
    ((exists e, signTransaction send a = Throw e) <-> exists e, send bytes = Failed e /\ statusCode e = None).
Proof.
  intros Hf Hfee Ha. pose proof (fits_length a f Hf) as Hl.
  assert (length (bufferFromHex (createTXApdu a)) = 172) as Hb.
  { apply bufferFromHex_length; [by eapply createTXApdu_allHex|done]. }
  assert (prepareSign a = inr (bufferFromHex (createTXApdu a))) as Hp.
  { unfold prepareSign. rewrite (fits_not_missing a f Hf Ha) by lia.
    destruct Hf as [_ _ _ _ (_ & E5 & _) _ _ (_ & A8 & R8) _ _]. rewrite utf16Length_ascii by done.
    destruct (Nat.ltb_spec 32 (length (memo a))); [lia|]. rewrite E5. destruct (Z.ltb_spec (aFee f) 1000000); [lia|].
    by rewrite Hb. }
  assert (signTransaction send a = deviceAnswer (send (bufferFromHex (createTXApdu a)))) as Hs.
  { unfold signTransaction. rewrite Hp. destruct (send _) as [r|[[c|] m t]]; done. }
  eexists. split_and!; [done|done|done|done|]. rewrite Hs.
  destruct (send _) as [r|[[c|] m t]]; cbn; naive_solver.
Qed.

(** A memo of at most 32 characters is accepted, but when one of them is not
    ASCII its field takes more than 32 bytes, so the message is longer than the
    device expects and the kind and the network are not at their places. *)
Theorem ledger_memo_displaces a :
  String.length (senderAddress a) = 55 -> String.length (receiverAddress a) = 55 -> utf16Length (memo a) <= 32 ->
  344 <= String.length (createTXApdu a) /\
  (344 < String.length (createTXApdu a) <-> Exists (fun c => (128 <= c)%Z) (memo a)).
Proof.
  intros Hs Hr Hm. rewrite createTXApdu_length, Hs, Hr. destruct (memoBytes_length (memo a) Hm) as [H1 H2].
  split; [lia|]. assert (length (memoBytes (memo a)) <> 32 <-> Exists (fun c => (128 <= c)%Z) (memo a)) as H3; [|rewrite <- H3; lia].
  rewrite H2. split; intros H.
  - apply not_Forall_Exists in H; [|intros c; apply _]. eapply Exists_impl; [exact H|]. intros c. cbn. lia.
  - apply Exists_not_Forall. eapply Exists_impl; [exact H|]. intros c. cbn. lia.
Qed.

(** The text of a version has only the digits of the first two bytes. *)
Lemma getAppVersion_third_byte a b c c' :
  getAppVersion (Response [a; b; c; 144; 0]%Z) = getAppVersion (Response [a; b; c'; 144; 0]%Z).
Proof. reflexivity. Qed.

(** * Examples *)

Definition demoAddress : string := "B62qr9pMrhSwBA6txJ8kD3f9GZ3VQPoUaFnKhEosdJmnZXXKj6qhkGF".
Definition demoArgs : SignTransactionArgs :=
  mkArgs (Some 0%Z) (Some 42%Z) demoAddress demoAddress (Some 1000000000%Q) (Some 98146290%Q) (Some 2%Z) 4294967295
    (bytesOf "clorio <3 ledger!") (Some 0%Z).
Definition demoFields : ApduFields :=
  mkFields 42 demoAddress demoAddress 1000000000 98146290 2 4294967295
    (bytesOf "clorio <3 ledger!" ++ replicate 15 0%Z) 0 0.

Lemma demo_fits : fits demoArgs demoFields.
Proof.
  split.
  - split; [reflexivity|cbn; lia].
  - split; reflexivity.
  - split; reflexivity.
  - split_and!; try reflexivity; cbn; lia.
  - split_and!; try reflexivity; cbn; lia.
  - split; [reflexivity|cbn; lia].
  - split; [reflexivity|cbn; lia].
  - split; [reflexivity|]. split; [|cbn; lia]. unfold demoArgs, isAscii. cbn [memo].
    vm_compute bytesOf. repeat (constructor; [lia|]). constructor.
  - split; [reflexivity|cbn; lia].
  - split; [reflexivity|cbn; lia].
Qed.

Lemma ledger_message_round_trip_witness :
  String.length (createTXApdu demoArgs) = 344 /\ readApdu (createTXApdu demoArgs) = Some demoFields.
Proof. exact (ledger_message_round_trip demoArgs demoFields demo_fits). Defined.

Lemma ledger_sign_asks_device_witness :
  signTransaction (fun _ => Response [1; 2; 144; 0]%Z) demoArgs = Ret (mkResponse (Some "0102") "9000" None None).
Proof.
  destruct (ledger_sign_asks_device (fun _ => Response [1; 2; 144; 0]%Z) demoArgs demoFields demo_fits)
    as (bytes & _ & _ & _ & H & _); [cbn; lia|left; cbn; lia|]. rewrite H. reflexivity.
Defined.

Lemma ledger_memo_displaces_witness :
  344 < String.length (createTXApdu
    (mkArgs (Some 4%Z) (Some 0%Z) demoAddress demoAddress (Some 0%Q) (Some 1000000%Q) (Some 0%Z) 0 [233%Z] (Some 0%Z))).
Proof.
  apply (proj2 (ledger_memo_displaces
    (mkArgs (Some 4%Z) (Some 0%Z) demoAddress demoAddress (Some 0%Q) (Some 1000000%Q) (Some 0%Z) 0 [233%Z] (Some 0%Z))
    eq_refl eq_refl ltac:(cbn; lia))). left. lia.
Defined.

End LedgerDevice.
