(* ===== verification/WebNode.v ===== *)
(** The web node: where requests go (core/services/rust.service.ts), the choice of
    its keys (core/services/web-node.service.ts, the upload of an archive) and the
    progress of its start (features/web-node). *)

From S2P Require Import Prelude JsRuntime AppConfig.

Module WebNode.

(** * Requests: rust.service.ts *)

Inductive Source := Http (url : string) | Wasm (call : string).

Definition wasmPaths : list (string * string) :=
  [ ("/status", "status"); ("/state/peers", "state.peers"); ("/state/message-progress", "state.message_progress");
    ("/stats/sync?limit=1", "stats.sync"); ("/stats/block_producer", "stats.block_producer");
    ("/transaction-pool", "transaction_pool.get"); ("/accounts", "ledger.latest.accounts.all");
    ("/best-chain-user-commands", "transition_frontier.best_chain.user_commands"); ("/build_env", "build_env") ].

Definition quoteChar : string := String (Ascii.ascii_of_nat 34) EmptyString.

Definition unsupported (path : string) : JsError :=
  ErrorMsg ("Web node doesn't support " +:+ quoteChar +:+ path +:+ quoteChar +:+ " path!").

Definition getFromWebNode (path : string) : exec Source :=
  if strIncludes path "/stats/actions" then Ret (Wasm "stats.actions")
  else match List.find (fun p => String.eqb p.1 path) wasmPaths with
       | Some p => Ret (Wasm p.2)
       | None => Throw (unsupported path)
       end.

Definition postToWebNode (path : string) : exec Source :=
  if String.eqb path "/send-payment" then Ret (Wasm "transaction_pool.inject.payment") else Throw (unsupported path).

Definition activeNodeIsWebNode (node : option AppConfig.MinaNode) : bool :=
  default false (node ≫= AppConfig.isWebNode).
Definition rustURL (node : option AppConfig.MinaNode) : string := default "" (node ≫= AppConfig.url).

Definition rustGet (node : option AppConfig.MinaNode) (path : string) : exec Source :=
  if activeNodeIsWebNode node then getFromWebNode path else Ret (Http (rustURL node +:+ path)).
Definition rustPost (node : option AppConfig.MinaNode) (path : string) : exec Source :=
  if activeNodeIsWebNode node then postToWebNode path else Ret (Http (rustURL node +:+ path)).
Definition getMemProfiler (node : option AppConfig.MinaNode) (path : string) : Source :=
  Http (default "" (node ≫= AppConfig.memoryProfiler) +:+ path).

(** * Keys: web-node.service.ts and web-node-file-upload.component.ts *)

Record PrivateStake := mkStake { publicKey : string; password : option string; stake : Json }.
Inductive BlockProducerConfig := Observer | Uploaded (data : PrivateStake) | Auto.

Inductive PrivateKey := NoKey | PlainKey (stake : Json) | ProtectedKey (stake : Json) (password : string).
Record WebNodeConfiguration := mkConfiguration { network : string; bpPublicKey : string; bpPrivateKey : PrivateKey }.

(** What the text of the local storage holds: [JSON.parse(atob(raw))] of the host. *)
Record WebnodeArgs := mkWebnodeArgs { argsNetwork : option string; argsBlockProducer : option (string * PrivateKey) }.
Class HostParsing := { parseArgs : string -> exec (option WebnodeArgs); parseJson : string -> exec Json }.

Definition DEFAULT_NETWORK : string := "devnet".
Definition observerConfiguration : WebNodeConfiguration := mkConfiguration DEFAULT_NETWORK "" NoKey.

Section Keys.
Context `{HostParsing}.

Definition getWebnodeArgsFromStorage (raw : nullable string) : option WebnodeArgs :=
  match raw with
  | Val s => match parseArgs s with Ret a => a | Throw _ => None end
  | _ => None
  end.

Definition getWebNodeConfiguration (config : BlockProducerConfig) (raw : nullable string) : WebNodeConfiguration :=
  match config with
  | Uploaded d =>
      mkConfiguration DEFAULT_NETWORK (publicKey d)
        (if truthyStr (password d) then ProtectedKey (stake d) (default "" (password d)) else PlainKey (stake d))
  | Observer => observerConfiguration
  | Auto =>
      match getWebnodeArgsFromStorage raw with
      | Some a =>
          let '(pk, sk) := default ("", NoKey) (argsBlockProducer a) in
          mkConfiguration (if truthyStr (argsNetwork a) then default "" (argsNetwork a) else DEFAULT_NETWORK) pk sk
      | None => observerConfiguration
      end
  end.

(** [name.endsWith(suffix)] *)
Fixpoint endsWith (s suffix : string) : bool :=
  String.eqb s suffix || match s with EmptyString => false | String _ s => endsWith s suffix end.

(** [content.replace(/\r?\n|\r/g, '')] *)
Fixpoint dropNewlines (s : string) : string :=
  match s with
  | EmptyString => EmptyString
  | String c s =>
      let n := Ascii.nat_of_ascii c in
      if (n =? 10) || (n =? 13) then dropNewlines s else String c (dropNewlines s)
  end.

Definition isPub (f : string * string) : bool := endsWith f.1 ".pub".
Definition isPassword (f : string * string) : bool := strIncludes f.1 "password".
Definition isStake (f : string * string) : bool := negb (isPassword f) && negb (isPub f).

Record Upload := mkUpload { validFiles : bool; uploadError : bool; blockProducerConfig : BlockProducerConfig }.

(** The files of the archive, in the order in which they were read; the promise is
    rejected when the key is not JSON. *)
Definition onFileSelected (u : Upload) (files : list (string * string)) : exec Upload :=
  let pub := snd <$> List.find isPub files in
  let pass := (fun f => dropNewlines f.2) <$> List.find isPassword files in
  let st := snd <$> List.find isStake files in
  if uploadError u || negb (truthyStr pub) || negb (truthyStr st)
  then Ret (mkUpload (validFiles u) true (blockProducerConfig u))
  else key ← parseJson (default "" st);
       Ret (mkUpload true (uploadError u) (Uploaded (mkStake (default "" pub) pass key))).

Definition clearFiles (u : Upload) : Upload := mkUpload false false Auto.

End Keys.

(** * The start of the node: web-node-initialization.component.ts *)

Inductive StepStatus := DONE | LOADING | PENDING.

#[export] Instance StepStatus_eq_dec : EqDecision StepStatus.
Proof. solve_decision. Defined.

(** [second], [third], [finish]: the local variable of an interval that is running;
    [catchUp]: the loop at the beginning of the third step, with the progress it
    started from and its counter. *)
Record Init := mkInit {
  step1 : StepStatus;
  step2 : StepStatus;
  step3 : StepStatus;
  progress : Q;
  ready : bool;
  hasError : bool;
  hasWarn : bool;
  loadingMessage : string;
  second : option Q;
  catchUp : option (Q * nat);
  third : option Q;
  finish : option Q
}.

#[export, refine] Instance Init_copy : RecordCopy Init := {
  record_copy s := mkInit (step1 s) (step2 s) (step3 s) (progress s) (ready s) (hasError s) (hasWarn s)
    (loadingMessage s) (second s) (catchUp s) (third s) (finish s) }.
Proof. by intros []. Defined.

Definition initialInit : Init := mkInit LOADING PENDING PENDING 0 false false false "" None None None None.

(** [draw1] and [draw2] are [Math.floor(Math.random() * 15)] and
    [Math.floor(Math.random() * 2)]. *)
Record Percentages := mkPercentages { first_ : Z; second_ : Z; third_ : Z }.
Definition getStepPercentages (draw1 draw2 : Z) : Percentages :=
  let f := (draw1 + 65)%Z in
  let s := (draw2 + 15)%Z in
  mkPercentages f s (100 - f - s).

Definition updateProgressBar (s : Init) (newProgress : Q) : Init :=
  if Qle_bool 100 newProgress then s <| ready := true |> <| progress := 100%Q |> else s <| progress := newProgress |>.

Definition updateLoadingMessage (s : Init) (m : string) : Init :=
  if hasError s || hasWarn s then s else s <| loadingMessage := m |>.

(** file-progress.helper.ts: the part of the file that is downloaded, of a fixed
    size whatever the size of the file, with two decimals. *)
Definition WASM_FILE_SIZE : Z := 31556926.
Definition downloadProgress (received : N) : Q :=
  toFixedNum 2 (inject_Z (Z.of_N received) / inject_Z WASM_FILE_SIZE * 100).

Inductive Event :=
| Download (received : N)
| Loaded
| Started
| Connected
| Tick2
| CatchUp
| Tick3
| TickEnd
| Timeout2
| Timeout3
| ErrorIssued (m : string).

Section Start.
Context (ps : Percentages).

(** The condition of the loop, and what follows it. *)
Definition enterLoop (s : Init) (current : Q) (i : nat) : Init :=
  if negb (Qle_bool (inject_Z (first_ ps + second_ ps - 1) - current) (inject_Z (Z.of_nat i)))
  then s <| catchUp := Some (current, i) |>
  else s <| catchUp := None |> <| third := Some 0%Q |>.

(** One tick of the intervals of the second and third step: [base] and [limit] in
    percent. *)
Definition advance (s : Init) (base limit : Z) (local : Q) : Init * Q :=
  if negb (Qle_bool (inject_Z (limit - 1)) local)
  then let local := (local + (1 # 8))%Q in (updateProgressBar s (inject_Z base + local)%Q, local)
  else (s, local).

Definition slower (s : Init) (st : StepStatus) : Init :=
  if negb (hasError s) && negb (bool_decide (st = DONE))
  then (updateLoadingMessage s "Slower than usual") <| hasWarn := true |> else s.

(** The download of the file counts as the first step. *)
Definition fetchProgress (s : Init) (p : Q) : Init := updateProgressBar s (p * inject_Z (first_ ps) / 100)%Q.

(** A tick of the last interval. *)
Definition goToEndProgress (s : Init) : Init :=
  match finish s with
  | Some q =>
      if Qle_bool q 100 then updateProgressBar (s <| finish := Some (q + 1)%Q |>) (q + 1)%Q
      else s <| finish := None |>
  | None => s
  end.

Definition listenToErrorIssuing (s : Init) (m : string) : Init := s <| loadingMessage := m |> <| hasError := true |>.

Definition step (s : Init) (e : Event) : Init :=
  match e with
  | Download received => fetchProgress s (downloadProgress received)
  | Loaded =>
      (updateLoadingMessage s "~5 seconds left") <| step1 := DONE |> <| step2 := LOADING |> <| second := Some 0%Q |>
  | Started =>
      let s := (updateLoadingMessage s "~3 seconds left") <| second := None |> <| step1 := DONE |>
                 <| step2 := DONE |> <| step3 := LOADING |> in
      enterLoop s (progress s) 0
  | Connected =>
      let s := (updateLoadingMessage s "Web Node is ready") <| third := None |> <| step1 := DONE |>
                 <| step2 := DONE |> <| step3 := DONE |> in
      s <| finish := Some (progress s) |>
  | Tick2 =>
      match second s with
      | Some l => let '(s, l) := advance s (first_ ps) (second_ ps) l in s <| second := Some l |>
      | None => s
      end
  | CatchUp =>
      match catchUp s with
      | Some (c, i) => enterLoop (updateProgressBar s (c + inject_Z (Z.of_nat i))%Q) c (S i)
      | None => s
      end
  | Tick3 =>
      match third s with
      | Some l => let '(s, l) := advance s (first_ ps + second_ ps) (third_ ps) l in s <| third := Some l |>
      | None => s
      end
  | TickEnd => goToEndProgress s
  | Timeout2 => slower s (step2 s)
  | Timeout3 => slower s (step3 s)
  | ErrorIssued m => listenToErrorIssuing s m
  end.

(** [ngOnInit]: if the file is already loaded the page is ready and listens to
    nothing. *)
Definition ngOnInit (isWebNodeLoaded : bool) : Init :=
  if isWebNodeLoaded then initialInit <| step1 := DONE |> <| step2 := DONE |> <| step3 := DONE |> <| ready := true |>
  else initialInit.

(** ** With the service

    [startWasm$] reports 'Loaded' and then 'Started', and [peers$], which needs the
    started node, 'Connected' when the first peer is connected. *)
Inductive Phase := Idle | PLoaded | PStarted | PConnected.

Definition serviceReport (ph : Phase) : option (Phase * Event) :=
  match ph with
  | Idle => Some (PLoaded, Loaded)
  | PLoaded => Some (PStarted, Started)
  | PStarted => Some (PConnected, Connected)
  | PConnected => None
  end.

Definition ofService (e : Event) : bool := match e with Loaded | Started | Connected => true | _ => false end.

(** [None] is the next report of the service, [Some] an event of the page: a timer,
    an error or a report of the download. *)
Definition startStep (w : Phase * Init) (e : option Event) : Phase * Init :=
  match e with
  | None => match serviceReport w.1 with Some (ph, r) => (ph, step w.2 r) | None => w end
  | Some e => if ofService e then w else (w.1, step w.2 e)
  end.

(** A download so much larger than the fixed size that its share of the bar fills
    the whole bar. *)
Definition oversized (e : option Event) : bool :=
  match e with
  | Some (Download received) => Qle_bool 100 (downloadProgress received * inject_Z (first_ ps) / 100)
  | _ => false
  end.

End Start.

(** * Theorems *)

(** ** Requests *)

(** A request to a web node reaches it exactly for the paths it offers; every other
    request goes to the url of the node. *)
Lemma rustGet_route node path :
  (activeNodeIsWebNode node = false -> rustGet node path = Ret (Http (rustURL node +:+ path))) /\
  (activeNodeIsWebNode node = true ->
     ((exists e, rustGet node path = Throw e) <->
      strIncludes path "/stats/actions" = false /\ path ∉ (fst <$> wasmPaths))).
Proof.
  unfold rustGet. split; intros ->; [done|]. unfold getFromWebNode.
  destruct (strIncludes path "/stats/actions"); [naive_solver|].
  destruct (List.find _ _) as [p|] eqn:E.
  - apply find_Some_iff in E as [Hp Heq]. apply String.eqb_eq in Heq. split; [naive_solver|].
    intros [_ Hn]. exfalso. apply Hn. apply list_elem_of_fmap. eauto.
  - rewrite find_None_iff in E. split; [|eauto]. intros _. split; [done|].
    intros (p & -> & Hp)%list_elem_of_fmap. specialize (E p Hp). by rewrite String.eqb_refl in E.
Qed.

(** The paths of the dashboard are all offered. *)
Lemma dashboard_paths_offered :
  Forall (fun p => exec_ok (getFromWebNode p) = true) ["/state/peers"; "/stats/sync?limit=1"; "/state/message-progress"].
Proof. repeat constructor. Qed.

(** ** Keys *)

Lemma find_unique {A} (p : A -> bool) l x :
  x ∈ l -> p x = true -> (forall y, y ∈ l -> p y = true -> y = x) -> List.find p l = Some x.
Proof.
  intros Hx Hp Hu. destruct (List.find p l) as [y|] eqn:E.
  - apply find_Some_iff in E as [Hy Hpy]. f_equal. auto.
  - rewrite find_None_iff in E. rewrite (E x Hx) in Hp. done.
Qed.

(** An archive with a public key, a password and a key, read in any order,
    configures the web node with exactly them: the public key, and the key with the
    password without its line ends, or alone when the password is empty; a key
    that is not JSON rejects the upload and shows no error. *)
Theorem web_node_uploaded_keys `{HostParsing} u files pub pass st raw :
  Permutation files [pub; pass; st] ->
  isPub pub = true -> isPassword pub = false -> isPassword pass = true -> isPub pass = false ->
  isPub st = false -> isPassword st = false ->
  uploadError u = false -> pub.2 <> "" -> st.2 <> "" ->
  match parseJson st.2 with
  | Ret key =>
      exists u', onFileSelected u files = Ret u' /\ validFiles u' = true /\ uploadError u' = false /\
        getWebNodeConfiguration (blockProducerConfig u') raw =
          mkConfiguration DEFAULT_NETWORK pub.2
            (if String.eqb (dropNewlines pass.2) "" then PlainKey key else ProtectedKey key (dropNewlines pass.2))
  | Throw e => onFileSelected u files = Throw e
  end.
Proof.
  intros Hp P1 P2 P3 P4 P5 P6 He Hpub Hst.
  assert (forall y, y ∈ files <-> y = pub \/ y = pass \/ y = st) as Hin.
  { intros y. rewrite Hp. rewrite !elem_of_cons, elem_of_nil. naive_solver. }
  assert (List.find isPub files = Some pub) as F1.
  { apply find_unique; [apply Hin; auto|done|]. intros y Hy. apply Hin in Hy as [-> |[-> | ->]]; congruence. }
  assert (List.find isPassword files = Some pass) as F2.
  { apply find_unique; [apply Hin; auto|done|]. intros y Hy. apply Hin in Hy as [-> |[-> | ->]]; congruence. }
  assert (List.find isStake files = Some st) as F3.
  { apply find_unique; [apply Hin; auto|unfold isStake; by rewrite P5, P6|].
    unfold isStake. intros y Hy. apply Hin in Hy as [-> |[-> | ->]]; [by rewrite P1, andb_false_r|by rewrite P3|done]. }
  unfold onFileSelected. rewrite F1, F2, F3, He.
  assert (forall t, t <> "" -> truthyStr (Some t) = true) as Ht.
  { intros t Hne. cbn. apply negb_true_iff, String.eqb_neq. done. }
  cbn [fmap option_fmap option_map]. rewrite !Ht by done. cbn [negb orb default from_option id].
  destruct (parseJson st.2) as [key|e]; [|done]. cbn [mbind exec_bind]. eexists. split; [done|]. split; [done|].
  split; [done|]. cbn. unfold truthyStr. by destruct (String.eqb (dropNewlines pass.2) "").
Qed.

(** ** The start *)

Section StartTheorems.
Context (draw1 draw2 : Z) (Hd1 : (0 <= draw1 < 15)%Z) (Hd2 : (0 <= draw2 < 2)%Z).
Let ps := getStepPercentages draw1 draw2.

Definition allDone (s : Init) : Prop := step1 s = DONE /\ step2 s = DONE /\ step3 s = DONE.

Definition within (hi : Q) (o : option Q) : Prop := forall l, o = Some l -> (0 <= l <= hi)%Q.

(** [over] if some download was oversized. *)
Record inv (over : bool) (s : Init) : Prop := {
  inv_range : (0 <= progress s <= 100)%Q;
  inv_waiting : ready s = false -> (progress s < 100)%Q;
  inv_second : within (inject_Z (second_ ps)) (second s);
  inv_third : within (inject_Z (third_ ps)) (third s);
  inv_catchUp : forall c i, catchUp s = Some (c, i) ->
    (0 <= c)%Q /\ (c + inject_Z (Z.of_nat i) < inject_Z (first_ ps + second_ ps - 1))%Q;
  inv_finish : forall q, finish s = Some q -> (0 <= q)%Q /\ allDone s;
  inv_done : over = false -> ready s = true -> allDone s
}.

(** A fresh interval starts at zero. *)
Lemma within_zero z : (0 <= z)%Z -> within (inject_Z z) (Some 0%Q).
Proof. intros Hz l [= <-]. split; [lra|]. change 0%Q with (inject_Z 0). by rewrite <- Zle_Qle. Qed.

Lemma within_some hi l : (0 <= l <= hi)%Q -> within hi (Some l).
Proof. by intros Hl ? [= <-]. Qed.

Lemma bounds : (65 <= first_ ps <= 79)%Z /\ (15 <= second_ ps <= 16)%Z /\ (5 <= third_ ps <= 20)%Z /\
  (first_ ps + second_ ps + third_ ps = 100)%Z.
Proof. subst ps. cbn. lia. Qed.

Lemma inv_over over s : inv over s -> inv true s.
Proof. by intros []. Qed.

Lemma updateLoadingMessage_inv over s m : inv over s -> inv over (updateLoadingMessage s m).
Proof. unfold updateLoadingMessage. destruct (_ || _); [done|]. by intros []. Qed.

Lemma updateLoadingMessage_steps s m :
  step1 (updateLoadingMessage s m) = step1 s /\ step2 (updateLoadingMessage s m) = step2 s /\
  step3 (updateLoadingMessage s m) = step3 s.
Proof. unfold updateLoadingMessage. by destruct (_ || _). Qed.

(** A value below 100 leaves the page not ready. *)
Lemma updateProgressBar_inv over s q : inv over s -> (0 <= q)%Q -> (q < 100)%Q -> inv over (updateProgressBar s q).
Proof.
  intros [] Hq Hlt. unfold updateProgressBar.
  replace (Qle_bool 100 q) with false by (symmetry; apply not_true_is_false; rewrite Qle_bool_iff; lra).
  split; try done; cbn; intros; lra.
Qed.

Lemma enterLoop_inv over s c i : inv over s -> (0 <= c)%Q -> inv over (enterLoop ps s c i).
Proof.
  intros [] Hc. pose proof bounds as Hb. unfold enterLoop. destruct (Qle_bool _ _) eqn:E; cbn [negb].
  - split; try done. apply within_zero. lia.
  - split; try done. intros c' i' Hc'. injection Hc' as <- <-. split; [done|].
    apply not_true_iff_false in E. rewrite Qle_bool_iff in E. lra.
Qed.

Lemma advance_spec over s base limit l :
  inv over s -> (0 <= l <= inject_Z limit)%Q -> (0 <= base)%Z -> (base + limit <= 100)%Z -> (1 <= limit)%Z ->
  let '(s', l') := advance s base limit l in inv over s' /\ (0 <= l' <= inject_Z limit)%Q /\
    (step1 s' = step1 s /\ step2 s' = step2 s /\ step3 s' = step3 s).
Proof.
  intros Hs Hl Hb Hbl Hlim. unfold advance. destruct (Qle_bool _ _) eqn:E; cbn [negb]; [done|].
  apply not_true_iff_false in E. rewrite Qle_bool_iff in E. unfold Z.sub in E. rewrite inject_Z_plus in E.
  change (inject_Z (- (1))) with (- (1))%Q in E.
  assert (0 <= inject_Z base)%Q by (rewrite <- (Zle_Qle 0); lia).
  assert (inject_Z base + inject_Z limit <= 100)%Q by (rewrite <- inject_Z_plus; change 100%Q with (inject_Z 100); rewrite <- Zle_Qle; lia).
  split; [apply updateProgressBar_inv; [done|lra|lra]|]. split; [lra|].
  unfold updateProgressBar. by destruct (Qle_bool _ _).
Qed.

Lemma toFixedNum_nonneg d x : (0 <= x)%Q -> (0 <= toFixedNum d x)%Q.
Proof.
  intros Hx. unfold toFixedNum. assert (0 < 10 ^ Z.of_nat d)%Z as Hd by (apply Z.pow_pos_nonneg; lia).
  assert (0 < inject_Z (10 ^ Z.of_nat d))%Q by (rewrite <- (Zlt_Qlt 0); lia).
  apply Qle_shift_div_l; [done|]. rewrite Qmult_0_l. rewrite <- (Zle_Qle 0). apply (Qfloor_resp_le 0).
  assert (0 <= x * inject_Z (10 ^ Z.of_nat d))%Q by (apply Qmult_le_0_compat; lra). lra.
Qed.

Lemma downloadProgress_nonneg n : (0 <= downloadProgress n)%Q.
Proof.
  apply toFixedNum_nonneg. assert (0 <= inject_Z (Z.of_N n))%Q by (rewrite <- (Zle_Qle 0); lia).
  assert (0 <= inject_Z (Z.of_N n) / inject_Z WASM_FILE_SIZE)%Q by (apply Qle_shift_div_l; [reflexivity|lra]). lra.
Qed.

Lemma fetchProgress_inv over s n :
  inv over s -> inv (over || oversized ps (Some (Download n))) (fetchProgress ps s (downloadProgress n)).
Proof.
  intros Hs. pose proof bounds as (B1 & _). pose proof (downloadProgress_nonneg n) as Hn.
  assert (0 <= inject_Z (first_ ps))%Q by (rewrite <- (Zle_Qle 0); lia).
  assert (0 <= downloadProgress n * inject_Z (first_ ps) / 100)%Q as H0.
  { apply Qle_shift_div_l; [lra|]. rewrite Qmult_0_l. by apply Qmult_le_0_compat. }
  unfold fetchProgress. cbn [oversized]. destruct (Qle_bool 100 _) eqn:E.
  - rewrite orb_true_r. unfold updateProgressBar. rewrite E. destruct Hs. split; try done; cbn; intros; lra || done.
  - rewrite orb_false_r. apply not_true_iff_false in E. rewrite Qle_bool_iff in E.
    apply updateProgressBar_inv; [done|done|lra].
Qed.

(** The report that is due. *)
Definition due (s : Init) (e : Event) : Prop :=
  match e with
  | Loaded => step1 s = LOADING
  | Started => step2 s = LOADING
  | Connected => step3 s = LOADING
  | _ => True
  end.

Lemma web_node_step_inv over s e : inv over s -> due s e -> inv (over || oversized ps (Some e)) (step ps s e).
Proof.
  intros Hs Ha. pose proof bounds as (B1 & B2 & B3 & B4).
  destruct e as [n| | | | | | | | | |m]; cbn [step]; [by apply fetchProgress_inv|..]; cbn [oversized]; rewrite orb_false_r;
    unfold goToEndProgress, listenToErrorIssuing.
  - destruct (updateLoadingMessage_inv over s "~5 seconds left" Hs). cbn in Ha.
    destruct (updateLoadingMessage_steps s "~5 seconds left") as (E1 & _). rewrite Ha in E1.
    split; try done; cbn.
    + apply within_zero. lia.
    + intros q Hq. destruct (inv_finish0 q Hq) as [_ [? _]]. congruence.
    + intros Ho Hr. destruct (inv_done0 Ho Hr) as [? _]. congruence.
  - pose proof (updateLoadingMessage_inv over s "~3 seconds left" Hs) as Hm. cbn in Ha.
    destruct (updateLoadingMessage_steps s "~3 seconds left") as (_ & E2 & _). rewrite Ha in E2.
    apply enterLoop_inv; [|apply Hm]. destruct Hm. split; try done; cbn.
    + intros q Hq. destruct (inv_finish0 q Hq) as [_ (_ & ? & _)]. congruence.
    + intros Ho Hr. destruct (inv_done0 Ho Hr) as (_ & ? & _). congruence.
  - destruct (updateLoadingMessage_inv over s "Web Node is ready" Hs). split; try done; cbn.
    intros q [= <-]. split; [apply inv_range0|done].
  - destruct (second s) as [l|] eqn:E; [|done].
    pose proof (advance_spec over s (first_ ps) (second_ ps) l Hs (inv_second over s Hs l E) ltac:(lia) ltac:(lia) ltac:(lia)) as Hadv.
    destruct (advance _ _ _ _) as [s' l']. destruct Hadv as (Hi & Hl & _). destruct Hi. split; try done.
    by apply within_some.
  - destruct (catchUp s) as [[c i]|] eqn:E; [|done].
    destruct (inv_catchUp over s Hs c i E) as [Hc Hci]. apply enterLoop_inv; [|done]. apply updateProgressBar_inv; [done| |].
    + assert (0 <= inject_Z (Z.of_nat i))%Q by (rewrite <- (Zle_Qle 0); lia). lra.
    + assert (inject_Z (first_ ps + second_ ps - 1) <= 94)%Q by (change 94%Q with (inject_Z 94); rewrite <- Zle_Qle; lia). lra.
  - destruct (third s) as [l|] eqn:E; [|done].
    pose proof (advance_spec over s (first_ ps + second_ ps) (third_ ps) l Hs (inv_third over s Hs l E)
      ltac:(lia) ltac:(lia) ltac:(lia)) as Hadv.
    destruct (advance _ _ _ _) as [s' l']. destruct Hadv as (Hi & Hl & _). destruct Hi. split; try done.
    by apply within_some.
  - destruct (finish s) as [q|] eqn:E; [|done]. destruct Hs. destruct (inv_finish0 q E) as [Hq Hd].
    destruct (Qle_bool q 100); [|split; done]. unfold updateProgressBar. destruct (Qle_bool 100 (q + 1)) eqn:E2.
    + split; try done; cbn; try (intros; lra). intros ? [= <-]. split; [lra|done].
    + apply not_true_iff_false in E2. rewrite Qle_bool_iff in E2.
      split; try done; cbn; try (intros; lra). intros ? [= <-]. split; [lra|done].
  - unfold slower. destruct (_ && _); [|done]. by destruct (updateLoadingMessage_inv over s "Slower than usual" Hs).
  - unfold slower. destruct (_ && _); [|done]. by destruct (updateLoadingMessage_inv over s "Slower than usual" Hs).
  - by destruct Hs.
Qed.

Lemma initial_inv : inv false initialInit.
Proof. split; cbn; try done; try (intros; lra). Qed.

(** ** Reaching the end *)

Definition isTickEnd (e : Event) : bool := match e with TickEnd => true | _ => false end.
Definition isConnected (e : Event) : bool := match e with Connected => true | _ => false end.

Lemma updateProgressBar_ready s q : ready s = true -> ready (updateProgressBar s q) = true.
Proof. unfold updateProgressBar. by destruct (Qle_bool _ _). Qed.

Lemma updateProgressBar_finish s q : finish (updateProgressBar s q) = finish s.
Proof. unfold updateProgressBar. by destruct (Qle_bool _ _). Qed.

Lemma updateLoadingMessage_rest s m :
  ready (updateLoadingMessage s m) = ready s /\ finish (updateLoadingMessage s m) = finish s.
Proof. unfold updateLoadingMessage. by destruct (_ || _). Qed.

Lemma enterLoop_rest s c i : ready (enterLoop ps s c i) = ready s /\ finish (enterLoop ps s c i) = finish s.
Proof. unfold enterLoop. by destruct (negb _). Qed.

Lemma advance_rest s b l q : (ready s = true -> ready (advance s b l q).1 = true) /\ finish (advance s b l q).1 = finish s.
Proof. unfold advance. destruct (negb _); [|done]. cbn. by split; [apply updateProgressBar_ready|apply updateProgressBar_finish]. Qed.

(** No other event than a tick of the last interval touches it, and the page stays
    ready. *)
Lemma step_rest s e : isTickEnd e = false -> isConnected e = false ->
  (ready s = true -> ready (step ps s e) = true) /\ finish (step ps s e) = finish s.
Proof.
  intros Ht Hc. destruct e as [p| | | | | | | | | |m]; cbn [step]; unfold fetchProgress, goToEndProgress, listenToErrorIssuing; try done.
  - split; [apply updateProgressBar_ready|apply updateProgressBar_finish].
  - cbn. destruct (updateLoadingMessage_rest s "~5 seconds left") as [-> ->]. done.
  - match goal with |- context [enterLoop ps ?x ?y ?z] => destruct (enterLoop_rest x y z) as [-> ->] end.
    cbn. destruct (updateLoadingMessage_rest s "~3 seconds left") as [-> ->]. done.
  - destruct (second s) as [l|]; [|done]. destruct (advance_rest s (first_ ps) (second_ ps) l) as [H1 H2].
    destruct (advance _ _ _ _). done.
  - destruct (catchUp s) as [[c i]|]; [|done].
    match goal with |- context [enterLoop ps ?x ?y ?z] => destruct (enterLoop_rest x y z) as [-> ->] end.
    split; [apply updateProgressBar_ready|apply updateProgressBar_finish].
  - destruct (third s) as [l|]; [|done]. destruct (advance_rest s (first_ ps + second_ ps) (third_ ps) l) as [H1 H2].
    destruct (advance _ _ _ _). done.
  - unfold slower. destruct (_ && _); [|done]. cbn.
    destruct (updateLoadingMessage_rest s "Slower than usual") as [-> ->]. done.
  - unfold slower. destruct (_ && _); [|done]. cbn.
    destruct (updateLoadingMessage_rest s "Slower than usual") as [-> ->]. done.
Qed.

Lemma step_tickEnd s q : finish s = Some q -> (q < 100)%Q ->
  finish (step ps s TickEnd) = Some (q + 1)%Q /\ (ready s = true -> ready (step ps s TickEnd) = true) /\
  ((100 <= q + 1)%Q -> ready (step ps s TickEnd) = true).
Proof.
  intros Hf Hq. cbn [step]; unfold fetchProgress, goToEndProgress, listenToErrorIssuing. rewrite Hf. replace (Qle_bool q 100) with true by (symmetry; apply Qle_bool_iff; lra).
  rewrite updateProgressBar_finish. split; [done|]. split.
  - intros Hr. by apply updateProgressBar_ready.
  - intros Hge. unfold updateProgressBar. apply Qle_bool_iff in Hge. by rewrite Hge.
Qed.

Lemma ready_stays s es : ready s = true -> ready (run (step ps) s es) = true.
Proof.
  revert s. induction es as [|e es IH]; intros s Hr; [done|]. apply (IH (step ps s e)).
  destruct (isTickEnd e) eqn:Et; [|destruct (isConnected e) eqn:Ec].
  - destruct e; try done. cbn [step]; unfold fetchProgress, goToEndProgress, listenToErrorIssuing. destruct (finish s); [|done]. destruct (Qle_bool q 100); [|done].
    by apply updateProgressBar_ready.
  - destruct e; try done. cbn. by destruct (updateLoadingMessage_rest s "Web Node is ready") as [-> _].
  - by apply step_rest.
Qed.

(** What the steps are in a phase of the service. *)
Definition phaseOk (ph : Phase) (s : Init) : Prop :=
  match ph with
  | Idle => step1 s = LOADING
  | PLoaded => step2 s = LOADING
  | PStarted => step3 s = LOADING
  | PConnected => allDone s
  end.

Lemma updateProgressBar_steps s q :
  step1 (updateProgressBar s q) = step1 s /\ step2 (updateProgressBar s q) = step2 s /\ step3 (updateProgressBar s q) = step3 s.
Proof. unfold updateProgressBar. by destruct (Qle_bool _ _). Qed.

Lemma enterLoop_steps s c i :
  step1 (enterLoop ps s c i) = step1 s /\ step2 (enterLoop ps s c i) = step2 s /\ step3 (enterLoop ps s c i) = step3 s.
Proof. unfold enterLoop. by destruct (negb _). Qed.

Lemma step_steps s e : ofService e = false ->
  step1 (step ps s e) = step1 s /\ step2 (step ps s e) = step2 s /\ step3 (step ps s e) = step3 s.
Proof.
  destruct e as [n| | | | | | | | | |m]; cbn [ofService step]; try done; intros _.
  - apply updateProgressBar_steps.
  - destruct (second s) as [l|]; [|done]. unfold advance. destruct (negb _); [|done]. cbn. apply updateProgressBar_steps.
  - destruct (catchUp s) as [[c i]|]; [|done].
    match goal with |- context [enterLoop ps ?x ?y ?z] => destruct (enterLoop_steps x y z) as (-> & -> & ->) end.
    apply updateProgressBar_steps.
  - destruct (third s) as [l|]; [|done]. unfold advance. destruct (negb _); [|done]. cbn. apply updateProgressBar_steps.
  - unfold goToEndProgress. destruct (finish s) as [q|]; [|done]. destruct (Qle_bool q 100); [|done].
    match goal with |- context [updateProgressBar ?x ?y] => destruct (updateProgressBar_steps x y) as (-> & -> & ->) end. done.
  - unfold slower. destruct (_ && _); [|done]. cbn. apply updateLoadingMessage_steps.
  - unfold slower. destruct (_ && _); [|done]. cbn. apply updateLoadingMessage_steps.
Qed.

Definition startInv (over : bool) (w : Phase * Init) : Prop := inv over w.2 /\ phaseOk w.1 w.2.

Lemma startStep_inv over w e : startInv over w -> startInv (over || oversized ps e) (startStep ps w e).
Proof.
  destruct w as [ph s]. intros [Hi Hp]. cbn [fst snd] in *. destruct e as [e|]; cbn [startStep fst snd].
  - destruct (ofService e) eqn:He.
    { destruct e; try done; cbn [oversized]; rewrite orb_false_r; by split. }
    split; [apply web_node_step_inv; [done|by destruct e]|]. cbn [fst snd]. destruct (step_steps s e He) as (E1 & E2 & E3).
    unfold phaseOk, allDone in *. by rewrite E1, E2, E3.
  - cbn [oversized]. destruct ph; cbn [serviceReport]; [..|by rewrite orb_false_r; split];
      (split; cbn [fst snd]; [match goal with |- inv _ (step ps s ?r) => exact (web_node_step_inv over s r Hi Hp) end|]);
      cbn [step phaseOk]; try done.
    match goal with |- context [enterLoop ps ?x ?y ?z] => destruct (enterLoop_steps x y z) as (_ & _ & ->) end. done.
Qed.

Lemma startRun_inv over w evs : startInv over w -> startInv (over || existsb (oversized ps) evs) (run (startStep ps) w evs).
Proof.
  revert over w. induction evs as [|e evs IH]; intros over w Hw; [by rewrite orb_false_r|].
  change (run (startStep ps) w (e :: evs)) with (run (startStep ps) (startStep ps w e) evs). cbn [existsb].
  rewrite orb_assoc. by apply IH, startStep_inv.
Qed.

Lemma startStep_ready w e : ready w.2 = true \/ oversized ps e = true -> ready (startStep ps w e).2 = true.
Proof.
  destruct w as [ph s]. cbn [snd]. intros [Hr|Ho].
  - pose proof (ready_stays s) as Hstays. destruct e as [e|]; cbn [startStep fst snd].
    + destruct (ofService e); [done|]. apply (Hstays [e] Hr).
    + destruct (serviceReport ph) as [[ph' r]|]; [|done]. apply (Hstays [r] Hr).
  - destruct e as [[n| | | | | | | | | |m]|]; try done.
    cbn [startStep ofService step fst snd]. unfold fetchProgress, updateProgressBar. cbn [oversized] in Ho. by rewrite Ho.
Qed.

Lemma startRun_ready w evs :
  ready w.2 = true \/ existsb (oversized ps) evs = true -> ready (run (startStep ps) w evs).2 = true.
Proof.
  revert w. induction evs as [|e evs IH]; intros w; cbn [existsb]; [by intros []|].
  change (run (startStep ps) w (e :: evs)) with (run (startStep ps) (startStep ps w e) evs).
  rewrite orb_true_iff. intros [H|[H|H]]; apply IH; auto using startStep_ready.
Qed.

(** A file of the fixed size is not oversized, one of twice the size is. *)
Lemma oversized_bounds n :
  ((Z.of_N n <= WASM_FILE_SIZE)%Z -> oversized ps (Some (Download n)) = false) /\
  ((2 * WASM_FILE_SIZE <= Z.of_N n)%Z -> oversized ps (Some (Download n)) = true).
Proof.
  pose proof bounds as (B1 & _). cbn [oversized].
  assert (65 <= inject_Z (first_ ps) <= 79)%Q as [Hlo Hhi]
    by (change 65%Q with (inject_Z 65); change 79%Q with (inject_Z 79); rewrite <- !Zle_Qle; lia).
  assert (0 < inject_Z WASM_FILE_SIZE)%Q as Hsize by reflexivity.
  unfold downloadProgress, toFixedNum. set (x := (inject_Z (Z.of_N n) / inject_Z WASM_FILE_SIZE)%Q).
  change (inject_Z (10 ^ Z.of_nat 2)) with 100%Q. split; intros Hn; rewrite Zle_Qle in Hn.
  - assert (x <= 1)%Q by (apply Qle_shift_div_r; lra).
    assert (Qfloor (x * 100 * 100 + (1 # 2)) <= 10000)%Z as Hf.
    { apply Zlt_succ_le. rewrite Zlt_Qlt. eapply Qle_lt_trans; [apply Qfloor_le|].
      change (inject_Z (Z.succ 10000)) with 10001%Q. lra. }
    rewrite Zle_Qle in Hf. change (inject_Z 10000) with 10000%Q in Hf. revert Hf.
    generalize (inject_Z (Qfloor (x * 100 * 100 + (1 # 2)))) as y. intros y Hy.
    apply not_true_is_false. rewrite Qle_bool_iff. unfold Qdiv. change (/ 100)%Q with (1 # 100)%Q. nra.
  - rewrite inject_Z_mult in Hn. change (inject_Z 2) with 2%Q in Hn.
    assert (2 <= x)%Q by (apply Qle_shift_div_l; lra).
    assert (20000 <= Qfloor (x * 100 * 100 + (1 # 2)))%Z as Hf.
    { change 20000%Z with (Qfloor 20000). apply Qfloor_resp_le. lra. }
    rewrite Zle_Qle in Hf. change (inject_Z 20000) with 20000%Q in Hf. revert Hf.
    generalize (inject_Z (Qfloor (x * 100 * 100 + (1 # 2)))) as y. intros y Hy.
    apply Qle_bool_iff. unfold Qdiv. change (/ 100)%Q with (1 # 100)%Q. nra.
Qed.

(** C9: while the web node starts, whatever is downloaded and however the reports of
    the service, the timers and the errors are interleaved, the progress stays within
    0 and 100 percent and is full only on a page that is ready.  The page is ready
    only after the node is connected, when all three steps are done, unless a download
    was oversized; an oversized download makes it ready at once.  The size is fixed in
    the code and the share not clamped: a file of that size is never oversized, one of
    twice the size always is. *)
Theorem web_node_progress evs :
  let s := (run (startStep ps) (Idle, ngOnInit false) evs).2 in
  (0 <= progress s <= 100)%Q /\ (ready s = false -> progress s < 100)%Q /\
  (ready s = true -> allDone s \/ existsb (oversized ps) evs = true) /\
  (existsb (oversized ps) evs = true -> ready s = true) /\
  (forall n, ((Z.of_N n <= WASM_FILE_SIZE)%Z -> oversized ps (Some (Download n)) = false) /\
             ((2 * WASM_FILE_SIZE <= Z.of_N n)%Z -> oversized ps (Some (Download n)) = true)).
Proof.
  intros s. assert (startInv (existsb (oversized ps) evs) (run (startStep ps) (Idle, ngOnInit false) evs)) as [[] _].
  { apply (startRun_inv false). split; [apply initial_inv|done]. }
  split_and!; [apply inv_range0..|done| |intros Ho; apply startRun_ready; by right|apply oversized_bounds].
  destruct (existsb (oversized ps) evs) eqn:E; [by right|]. intros Hr. left. by apply inv_done0.
Qed.

(** Once the web node is connected the page becomes ready: the last interval
    fills the bar within a hundred ticks, whatever else happens in between, since it
    counts by itself. *)
Theorem web_node_becomes_ready s q es :
  finish s = Some q -> (0 <= q < 100)%Q -> Forall (fun e => isConnected e = false) es ->
  100 <= countIf isTickEnd es -> ready (run (step ps) s es) = true.
Proof.
  intros Hf Hq Hes Hn.
  assert (forall n, (100 <= q + inject_Z (Z.of_nat n))%Q -> n <= countIf isTickEnd es -> ready (run (step ps) s es) = true) as H.
  { clear Hn. revert s q Hf Hq. induction es as [|e es IH]; intros s q Hf Hq n Hn Hc.
    - cbn in Hc. replace n with 0 in Hn by lia. change (inject_Z (Z.of_nat 0)) with 0%Q in Hn. lra.
    - apply Forall_cons in Hes as [He Hes]. change (run (step ps) s (e :: es)) with (run (step ps) (step ps s e) es).
      destruct (isTickEnd e) eqn:Et.
      + destruct e; try done. destruct (step_tickEnd s q Hf) as (H1 & _ & H3); [lra|].
        destruct (Qlt_le_dec (q + 1) 100) as [Hlt|Hge]; [|by apply ready_stays, H3].
        change (countIf isTickEnd (TickEnd :: es)) with (S (countIf isTickEnd es)) in Hc.
        destruct n as [|n]; [change (inject_Z (Z.of_nat 0)) with 0%Q in Hn; lra|].
        eapply (IH Hes _ (q + 1)%Q H1); [lra| |apply le_S_n, Hc].
        rewrite Nat2Z.inj_succ in Hn. unfold Z.succ in Hn. rewrite inject_Z_plus in Hn. change (inject_Z 1) with 1%Q in Hn. lra.
      + destruct (step_rest s e Et He) as [_ H2]. eapply (IH Hes _ q); [by rewrite H2|done|exact Hn|].
        unfold countIf in Hc. cbn [List.filter] in Hc. by rewrite Et in Hc. }
  apply (H 100); [|done]. change (inject_Z (Z.of_nat 100)) with 100%Q. lra.
Qed.

End StartTheorems.

(** * Examples *)

(** When the node connects before the loop of the third step is over, the interval
    started after the loop is never cleared, and the bar of a ready page falls
    back. *)
Definition raceEvents : list Event :=
  [Loaded; Started; Connected] ++ replicate 101 TickEnd ++ replicate 81 CatchUp ++ [Tick3].

Example bar_falls_back :
  let s := run (step (getStepPercentages 0 0)) initialInit raceEvents in
  ready s = true /\ Qle_bool 81 (progress s) = false.
Proof. vm_compute. done. Qed.

Definition demoStart : list (option Event) :=
  [Some (Download 15778463); None; Some Tick2; None; Some CatchUp; None].

Lemma web_node_progress_witness :
  (0 <= progress (run (startStep (getStepPercentages 3 1)) (Idle, ngOnInit false) demoStart).2 <= 100)%Q /\
  ready (run (startStep (getStepPercentages 3 1)) (Idle, ngOnInit false) [Some (Download 70000000)]).2 = true.
Proof.
  split; [exact (proj1 (web_node_progress 3 1 ltac:(lia) ltac:(lia) demoStart))|].
  destruct (web_node_progress 3 1 ltac:(lia) ltac:(lia) [Some (Download 70000000)]) as (_ & _ & _ & H & _).
  apply H. vm_compute. reflexivity.
Defined.

Lemma web_node_becomes_ready_witness :
  ready (run (step (getStepPercentages 3 1)) (step (getStepPercentages 3 1) initialInit Connected)
    (replicate 100 TickEnd)) = true.
Proof.
  apply (web_node_becomes_ready 3 1 _ 0%Q); [reflexivity|lra|by apply Forall_replicate|vm_compute; lia].
Defined.

#[local] Instance demoParsing : HostParsing :=
  { parseArgs _ := Throw (SyntaxError "invalid"); parseJson s := Ret (JStr s) }.

Lemma web_node_uploaded_keys_witness :
  exists u', onFileSelected (mkUpload false false Auto) [("key", "abc"); ("key.pub", "B62"); ("password.txt", "pw")] = Ret u' /\
    getWebNodeConfiguration (blockProducerConfig u') Null = mkConfiguration "devnet" "B62" (ProtectedKey (JStr "abc") "pw").
Proof.
  destruct (web_node_uploaded_keys (mkUpload false false Auto) [("key", "abc"); ("key.pub", "B62"); ("password.txt", "pw")]
    ("key.pub", "B62") ("password.txt", "pw") ("key", "abc") Null) as (u' & H1 & _ & _ & H2);
    [|reflexivity|reflexivity|reflexivity|reflexivity|reflexivity|reflexivity|reflexivity|discriminate|discriminate|].
  - apply (Permutation_cons_app [("key.pub", "B62"); ("password.txt", "pw")] [] ("key", "abc")). reflexivity.
  - exists u'. split; [exact H1|exact H2].
Defined.

End WebNode.
